(* ===== verification/_CoqProject ===== *)
-Q . S2P
Prelude.v
GoStrings.v
GoNet.v
External.v
World.v
FilePath.v
Base64.v
Rollback.v
Rules.v
Profile.v
Provider.v
Config.v
Hosts.v
Pac.v
DnsMsg.v
Resolver.v
DnsIntercept.v
Upstream.v
Socks5.v
Diagnostics.v
SystemDns.v
SystemProxy.v
MacProxy.v
CertStore.v
WindowsCerts.v
Privilege.v
Http.v
HttpConnect.v
Runtime.v
PageEnhance.v
Tunnel.v
Proxy.v
Reverse.v
Engine.v
Shutdown.v
Steps.v
Overlap.v
Process.v
Flags.v
Status.v
Cli.v
Start.v
PipeFrame.v
AppHost.v
Console.v
Elevated.v
ServiceControl.v
Main.v
