(* ===== verification/Prelude.v ===== *)
(** SiteBoost core, verified.

    SiteBoost is a local accelerator written in Go: it serves the hosts of its rule
    sets through a local proxy, a local DNS server or the hosts file, resolves their
    addresses by itself, dials them with fallback addresses and profiles, and can
    change pages on the way.  This library translates the program's logic into
    Rocq definitions and proves what the parts promise.

    * Parts and files

    Foundations.
    - [Prelude]: tactics, the error and result monad of Go functions, list lemmas.
    - [GoStrings], [GoNet]: the functions of Go's [strings], [strconv] and [net] the
      program uses.  A Go string is a list of bytes; offsets are byte offsets.
    - [External]: idna and net/url's parser, an operations class with a class of laws.
    - [World]: files, calls that may fail, and the state monad of effectful code.
    - [FilePath]: path/filepath, as a class with its definitions for Unix.
    - [Base64], [Flags]: encoding/base64 and the flag package.
    - [Http]: headers, response writers and bodies of net/http.
    - [DnsMsg]: messages of miekg/dns and the library calls as a class.

    Deciding what to do with a host.
    - [Rules] (internal/rules): host normalization, rule compilation, the matcher.
    - [Provider] (internal/provider): the built-in rule sets and their selection.
    - [Profile] (internal/upstream/profile.go): outbound profiles.
    - [Config] (internal/config): defaults, validation, removed keys.

    Reaching a host.
    - [Resolver] (internal/resolver): system, DNS and DoH resolution, policy, cache.
    - [Upstream] (internal/upstream): candidates, the dial loops, TLS, probes.
    - [Socks5], [HttpConnect] (internal/upstream/upstream.go, probe.go): the SOCKS5
      client, and the exchanges with an HTTP proxy and with a probed host down to the
      reads of the connection.
    - [Diagnostics] (internal/diagnostics): error texts for logs and clients.

    Serving clients.
    - [Proxy], [Tunnel] (internal/proxy): requests of the forward proxy, CONNECT.
    - [Reverse] (internal/reverse): the servers that stand in for matched hosts.
    - [PageEnhance] (internal/pageenhance): page changes and assets.
    - [Pac] (internal/pac): the script and its server.
    - [DnsIntercept] (internal/dnsintercept): the DNS server.

    Changing the system.
    - [Rollback]: the rollback file of the two next components, once for both.
    - [SystemDns], [SystemProxy] (internal/systemdns, internal/systemproxy).
    - [MacProxy] (internal/systemproxy/macos_platform.go): the network services of macOS.
    - [Hosts] (internal/hosts): the managed block of the hosts file.
    - [CertStore], [WindowsCerts] (internal/certstore): the root certificate, site
      certificates, and the two certificate stores of Windows.
    - [Privilege] (internal/privilege): requests to the elevated helper.
    - [Elevated] (internal/privilege/privilege_windows.go, io.go): the two processes of
      an elevated call, which meet in a request file and a response file.
    - [PipeFrame], [AppHost] (internal/privilege/privilege_windows.go): the privileged
      service, its client and the frames they exchange.
    - [Console] (the same file): the rights the service needs, its pipe and the loop
      that hands out connections.
    - [ServiceControl] (the same file): installing, starting and stopping the service.

    Sessions and commands.
    - [Engine] (internal/engine): the session that starts and stops all of it.
    - [Shutdown] (Engine.Stop): calls of Stop that overlap.
    - [Steps], [Overlap] (Engine.Start, Engine.Stop): computations of the engine cut into
      their calls, and calls of Start and Stop that overlap.
    - [Process] (the same file): goroutines that call Start and Stop at any time, cancel
      contexts, and wait for the contexts of the sessions that were started.
    - [Status] (Engine.Status, cmd/steam-accelerator): the status and how it is shown.
    - [Runtime] (internal/runtime): the state file and the control server.
    - [Cli], [Start], [Main] (cmd/steam-accelerator/main.go): the commands.

    The matcher of [Rules] decides for [Proxy], [Reverse], [DnsIntercept] and [Pac];
    [Config] produces what every part is built from; [Engine] calls the servers and
    the system settings through an interface, as the source calls them through
    package variables; [Start] runs an [Engine] session beside the control server of
    [Runtime], and the commands of [Cli] talk to that server through the state file.

    * How code became definitions

    A Go function is a function of the same name; a method takes its receiver's
    record as an argument and returns the new one when it changes it.  Errors are
    values of [error], built as the code builds them (Errorf, wrapping, joining,
    errors of the system), and a fallible function returns [result].  Functions that
    touch files or settings are in the monad [ST] over [World]: each system call
    consumes an entry of a fault schedule, so a theorem for every schedule is a
    theorem for every combination of failing calls, a write that leaves part of its
    bytes included.  Servers return what they write together with the list of their
    actions on network and log, in order; a panic is [None].  The two goroutines of a
    tunnel and the one that waits for them are a step function over events, and the
    theorems quantify over all sequences of events.  Calls of the engine come in two
    views: Start and Stop as functions, which [Engine.step] puts one after the other, and
    the same calls cut into the sections under the lock and the calls into the system,
    which interleave on a shared engine ([Shutdown.interleave], [Overlap.overlap],
    [Process.process_step]); the second view runs through the first when nothing
    overlaps ([Process.sequential_is_process]).  The start command of [Start] runs beside
    the goroutine that its engine left behind, which takes any number of steps between
    any two of the command's.  Durations and lifetimes are integers with their
    wrap-around where the code can reach it (the lifetime of a DNS answer, the limit of a
    page body).

    Iteration over a Go map is an argument where its order matters (the headers of a
    profile, of an asset); sorted output is sorted as the code sorts it.

    * Interfaces

    Code outside the repository is a class of operations, and what the program needs
    of it a class of laws, with an instance that shows the laws can hold:
    [Externals] and [ExternalLaws] (idna, net/url), [Unicode] (the tables behind
    ToLower and EqualFold beyond ASCII), [Encoding] and [EncodingLaws] (JSON of the
    rollback files), [DNSLib] (miekg/dns), [FilePath] (the platform's paths),
    [EngineSystem] and [EngineLaws] (what Start and Stop rely on), [ExclusiveServers]
    (an address is listened on once), [EngineProbe] (what the status asks the servers),
    [X509] and [X509Laws] (certificates, keys, PEM), [ServiceManager], [ClockLaws] and
    [ConfigLaws] (the service manager of Windows and the clock), [CommandLine] and
    [CommandLineLaws] (the arguments of a process), [NetworkSetup] and
    [NetworkSetupLaws] (the networksetup command of macOS), and the framing classes of
    [SystemDns], [Hosts], [CertStore] and [Privilege] (a platform changes its own
    settings only; two platforms change different settings, [SeparateSettings]).

    [EngineLaws] says that a service does not listen after its Stop, an error or not.
    For the DNS server this takes that its two servers, which Start hands to goroutines,
    have begun to serve: a Stop that comes before gets an error from the DNS library and
    leaves the sockets open.  [ExclusiveServers] holds of fixed addresses and not of
    port 0, and is named by the theorems that need it.

    * What is proved

    - Session: Start either runs everything its mode needs or leaves nothing running;
      Stop stops everything whatever calls fail; however calls of Start and Stop, the
      goroutines of the sessions and cancellations interleave, what listens is what the
      session that runs needs, and a cancelled session comes to its end; a context of an
      earlier session stops a later one.
    - Hosts of the rules only: the forward proxy in reject mode, the reverse proxy and
      the DNS server act for matched hosts only; the PAC script sends to the proxy
      what the matcher matches; the matcher refines its specification.
    - Nothing lost: applying and restoring hosts file, DNS and proxy settings (Windows
      and macOS) gives back what the user had, up to blank lines at the end of the hosts
      file, an address that macOS keeps switched off, and the static servers of a network
      adapter whose identifier Windows reports with braces; the state is saved before a
      change, and failing calls leave it on disk.
    - Pages: what a client gets is what the transforms make of the page, or the
      original, or an error; response bodies and connections are closed.
    - Tunnel: in every interleaving each side receives a prefix of what the other
      sent, the copying is bounded, and after one direction ends the tunnel drains.
    - Privileges: the helper acts only for the process that started it, on checked
      requests, and on the files those may name; the path check is exact on Unix.  The
      service acts only for its own executable; frames and calls arrive whole however
      the bytes are cut; a successful installation configures the service; a call of
      the elevated helper is one execution of its request, whose answer arrives if the
      caller does not look while it is being written; every pipe is handed out or closed.
    - Upstream: a CONNECT is understood however the answer is cut into reads, and what
      that costs the tunnel is stated; a refused one closes the connection.
    - Certificates: what a manager hands out is signed by the key it holds with its root,
      for the name asked for; the root is made once; trusting and untrusting it is the identity.
    - Commands: start leaves nothing behind wherever it returns, once the goroutine of
      its engine has ended; what it writes lets stop end the session; the control server needs the token and listens on loopback;
      restore finds the component that wrote the file; the status shows only what
      listens; overlapping Stops amount to one.
    - Configuration: accepted configurations are consistent and listen on loopback
      only, and validating twice changes nothing.
    - Limits that fail: theorems of kind error and bounds show behaviour the code did
      not intend (a half-closed tunnel, a stopping server, the largest body limit, a
      rollback file that names another file, a Stop that returns while another is at
      work, an answer of the service or of the helper that is lost, a root that is trusted for the user
      only).

    * Bounds and fuel

    Recursion that Go writes as a loop over a shrinking string carries a measure:
    UTF-8 decoding ([utf8_fuel], [mapASCII_fuel], [trim_runes_fuel]) and quoted text
    ([ps_rest]) take the length of the string, and every turn consumes a byte;
    [Replace_fuel] takes the length plus one; [Itoa_fuel] the number of binary digits;
    [parseIPv6_loop] eight, one for each pair of bytes of an address; [listenAny] the
    ten attempts of the code; [temp_name] one more than the number of files, so a free
    name is found.  The loops that wait by the
    clock have a fuel proved to suffice when every turn lasts at least its sleep:
    [stopLoop] 51 turns ([stop_terminates]), [waitForHealth] 51
    ([ensureAppHostStarted_ends]), [pollServiceState] 50 and [pollServiceDeleted] 101
    ([service_waits_end]).  Everything else is structural.

    * Not modelled

    - What Windows answers about process tokens, handles and security descriptors is a
      parameter; the log file of the service (appHostLogf in
      internal/privilege/privilege_windows.go) is left out.
    - The JSON of the status and of helper requests, YAML, X.509 encoding and the HTTP
      client of the commands are parameters; where the client of one process meets the
      control server of another, a request reaches the server that listens on the address
      of its URL and no other ([Start.deliver]).
    - Time limits on connections: a deadline is computed and set ([setHandshakeDeadline]),
      a read that it ends is one that fails.
    - The counting of connections (the status takes the counters from the servers'
      interface).

    * Next

    The counters of connections as part of the servers, and deadlines on a clock. *)
From stdpp Require Export base tactics list gmap sets sorting.
From stdpp Require Import strings.
From Stdlib Require Export ZArith Lia.
From Stdlib Require Import Ascii Permutation.

#[export] Set Warnings "-clear-no-such-hyp,-level-tolerance".

(** * Go strings

    A Go string is an immutable sequence of bytes.  It is modelled as a list of
    8-bit characters, so the list library applies to it directly; the notation
    below lets string literals denote such lists. *)

Abbreviation byte := Ascii.ascii.
Abbreviation gostring := (list Ascii.ascii).

Declare Scope go_scope.
Delimit Scope go_scope with go.

Inductive literal :=
| LNil
| LCons (c : ascii) (l : literal).

Fixpoint literal_of_bytes (bs : list Byte.byte) : literal :=
  match bs with
  | [] => LNil
  | b :: bs' => LCons (ascii_of_byte b) (literal_of_bytes bs')
  end.

Fixpoint bytes_of_literal (l : literal) : list Byte.byte :=
  match l with
  | LNil => []
  | LCons c l' => byte_of_ascii c :: bytes_of_literal l'
  end.

#[warnings="-via-type-mismatch"]
String Notation list literal_of_bytes bytes_of_literal
  (via literal mapping [ [nil] => LNil, [cons] => LCons ]) : go_scope.

Open Scope go_scope.

(** Characters are written by their code: [chr 10] is the newline byte. *)
Definition chr (n : nat) : byte := ascii_of_nat n.

Definition nl : gostring := [chr 10].
Definition crlf : gostring := [chr 13; chr 10].

(** * Go errors

    [fmt.Errorf] builds an error from a format and its arguments; with a [%w]
    verb it also wraps another error.  A package-level [errors.New] value is
    identified by its declaration, which is what [errors.Is] compares. *)
Inductive error :=
| Errorf (format : gostring) (args : list gostring)
| Wrapf (format : gostring) (args : list gostring) (inner : error)
| ErrorVar (name : gostring)
| Joined (first rest : error)
| External (detail : gostring).

#[export] Instance error_eq_dec : EqDecision error.
Proof. solve_decision. Defined.

(** [errors.Is err target] for a sentinel target: the chain of wrapped errors
    is walked until the target is met. *)
Fixpoint errors_Is (err target : error) : bool :=
  bool_decide (err = target) ||
  match err with
  | Wrapf _ _ inner => errors_Is inner target
  | Joined first rest => errors_Is first target || errors_Is rest target
  | _ => false
  end.

(** [errors.Join]: nil for no errors. *)
Definition errors_Join (errs : list error) : option error :=
  match errs with
  | [] => None
  | e :: es => Some (foldl Joined e es)
  end.

(** A Go function returning [(T, error)]: either the value or the error. *)
Inductive result (A : Type) :=
| Ok (a : A)
| Err (e : error).
Arguments Ok {A} a.
Arguments Err {A} e.

#[export] Instance result_eq_dec `{EqDecision A} : EqDecision (result A).
Proof. solve_decision. Defined.

Definition rbind {A B} (r : result A) (k : A -> result B) : result B :=
  match r with
  | Ok a => k a
  | Err e => Err e
  end.

Definition rmap {A B} (f : A -> B) (r : result A) : result B :=
  match r with
  | Ok a => Ok (f a)
  | Err e => Err e
  end.

(** [if err := r; err != nil { return fmt.Errorf("...: %w", err) }] *)
Definition wrap_err {A} (format : gostring) (args : list gostring) (r : result A) : result A :=
  match r with
  | Ok a => Ok a
  | Err e => Err (Wrapf format args e)
  end.

Definition is_ok {A} (r : result A) : bool :=
  match r with Ok _ => true | Err _ => false end.

Notation "'do' x <- r ; k" := (rbind r (fun x => k))
  (at level 10, x pattern, r at level 100, k at level 200) : go_scope.

(** The guard [if !c { return err }] followed by the rest of the function. *)
Notation "'ensure' c 'orelse' e ; k" := (if c then k else Err e)
  (at level 10, c at level 100, e at level 100, k at level 200) : go_scope.

(** ** Effects

    An effectful Go function returning [(A, error)]: it transforms a state [S]
    (the file system, a connection, the system settings) and also does so when
    it fails. *)
Definition ST (S A : Type) := S -> result A * S.

Definition io_ret {S A : Type} (a : A) : ST S A := fun s => (Ok a, s).
Definition io_err {S A : Type} (e : error) : ST S A := fun s => (Err e, s).
Definition io_of {S A : Type} (r : result A) : ST S A := fun s => (r, s).
Definition io_bind {S A B : Type} (m : ST S A) (k : A -> ST S B) : ST S B := fun s =>
  match m s with
  | (Ok a, s') => k a s'
  | (Err e, s') => (Err e, s')
  end.
(** [r, err := m] where the error is inspected, not returned at once. *)
Definition io_try {S A B : Type} (m : ST S A) (k : result A -> ST S B) : ST S B := fun s =>
  let '(r, s') := m s in k r s'.
Definition io_wrap {S A : Type} (format : gostring) (args : list gostring) (m : ST S A) : ST S A :=
  fun s => let '(r, s') := m s in (wrap_err format args r, s').

Notation "'io' x <- m ; k" := (io_bind m (fun x => k))
  (at level 10, x pattern, m at level 100, k at level 200) : go_scope.
Notation "'try' x <- m ; k" := (io_try m (fun x => k))
  (at level 10, x pattern, m at level 100, k at level 200) : go_scope.

(** A [for ... range] loop whose body may return an error early. *)
Fixpoint rfold {A S} (f : S -> A -> result S) (s : S) (xs : list A) : result S :=
  match xs with
  | [] => Ok s
  | x :: xs' => do s' <- f s x; rfold f s' xs'
  end.

(** The same loop when each iteration produces one element of the output. *)
Fixpoint rmapM {A B} (f : A -> result B) (xs : list A) : result (list B) :=
  match xs with
  | [] => Ok []
  | x :: xs' => do y <- f x; do ys <- rmapM f xs'; Ok (y :: ys)
  end.

(** [for i, x := range xs]: the elements with their indexes. *)
Definition enum {A} (xs : list A) : list (nat * A) := zip (seq 0 (length xs)) xs.

(** sort.SliceStable with the comparison [R] (a non-strict order): insertion in
    front of the first element that is not smaller keeps equal elements in order. *)
Section stable_sort.
Context {A : Type} (R : A -> A -> Prop) `{!RelDecision R}.

Fixpoint stable_insert (x : A) (l : list A) : list A :=
  match l with
  | [] => [x]
  | y :: l' => if decide (R x y) then x :: l else y :: stable_insert x l'
  end.

Definition stable_sort (l : list A) : list A := foldr stable_insert [] l.

Lemma stable_insert_perm x l : Permutation (stable_insert x l) (x :: l).
Proof.
  induction l as [|y l IH]; cbn [stable_insert]; [done|]. case_decide; [done|].
  rewrite IH. apply Permutation_swap.
Qed.

Lemma stable_sort_perm l : Permutation (stable_sort l) l.
Proof. induction l as [|x l IH]; cbn; [done|]. by rewrite stable_insert_perm, IH. Qed.

Lemma stable_sort_sorted `{!Transitive R, !Total R} l : StronglySorted R (stable_sort l).
Proof.
  induction l as [|x l IH]; [constructor|]. cbn [stable_sort foldr].
  fold (stable_sort l). revert IH. generalize (stable_sort l) as s. intros s Hs.
  induction Hs as [|y l' Hl IHl Hy]; cbn [stable_insert]; [repeat constructor|].
  case_decide as Hxy.
  - constructor; [by constructor|]. constructor; [done|].
    eapply Forall_impl; [exact Hy|]. intros z ?. by etrans.
  - constructor; [done|]. rewrite stable_insert_perm. constructor; [|done].
    by destruct (total R x y).
Qed.

(** The elements equivalent to [x] come out in the order they went in. *)
Lemma stable_sort_stable `{!Transitive R} (P : A -> Prop) `{!forall x, Decision (P x)} l :
  (forall x y, P x -> P y -> R x y) -> filter P (stable_sort l) = filter P l.
Proof.
  intros HP. induction l as [|x l IH]; cbn [stable_sort foldr]; [done|].
  fold (stable_sort l). rewrite filter_cons, <-IH. clear IH.
  induction (stable_sort l) as [|y l' IH]; cbn [stable_insert].
  { done. }
  destruct (decide (R x y)) as [Hxy|Hxy]; [done|]. rewrite !filter_cons, IH.
  repeat case_decide; try done. by destruct Hxy; apply HP.
Qed.
End stable_sort.

(** * Shared tactics

    [inv_ok] decomposes a hypothesis that says a monadic computation returned
    a value, one bind or guard at a time. *)
Ltac inv_ok1 H :=
  match type of H with
  | rbind ?r _ = Ok _ =>
      let E := fresh "E" in
      destruct r eqn:E; cbn [rbind] in H; [ | discriminate H ]
  | (if ?b then _ else _) = Ok _ =>
      let E := fresh "E" in
      destruct b eqn:E; try discriminate H
  | (match ?x with _ => _ end) = Ok _ =>
      let E := fresh "E" in
      destruct x eqn:E; try discriminate H
  | Ok _ = Ok _ => injection H; clear H; intros; subst
  end.
Tactic Notation "inv_ok" hyp(H) := repeat inv_ok1 H.

(** Turns boolean tests of the source into the propositions they decide. *)
Ltac boolify :=
  repeat match goal with
  | H : bool_decide _ = true |- _ => apply bool_decide_eq_true_1 in H
  | H : bool_decide _ = false |- _ => apply bool_decide_eq_false_1 in H
  | H : (_ && _) = true |- _ => apply andb_true_iff in H; destruct H
  | H : (_ || _) = false |- _ => apply orb_false_iff in H; destruct H
  | H : negb _ = true |- _ => apply negb_true_iff in H
  | H : negb _ = false |- _ => apply negb_false_iff in H
  end.

(** Closes a decidable goal about concrete values by evaluation. *)
Ltac by_decide :=
  match goal with
  | |- ?P => refine (bool_decide_eq_true_1 P _); vm_compute; reflexivity
  end.

(** Evaluates the tests of the goal whose operands are concrete. *)
Ltac eval_tests :=
  repeat match goal with
  | |- context [@bool_decide ?P ?D] =>
      let v := eval vm_compute in (@bool_decide P D) in
      first [constr_eq v true | constr_eq v false];
      change (@bool_decide P D) with v
  end; cbn [negb andb orb].

(** * Generic lemmas *)

Section result_lemmas.
Context {A B S : Type}.

Lemma rfold_app (f : S -> A -> result S) s xs ys :
  rfold f s (xs ++ ys) = do s' <- rfold f s xs; rfold f s' ys.
Proof.
  revert s; induction xs as [|x xs IH]; intros s; [done|]; cbn.
  destruct (f s x); cbn; [apply IH | done].
Qed.

(** Invariants of an early-returning loop are proved one iteration at a time. *)
Lemma rfold_ind (P : S -> Prop) (f : S -> A -> result S) s xs s' :
  P s ->
  (forall t x t', x ∈ xs -> P t -> f t x = Ok t' -> P t') ->
  rfold f s xs = Ok s' -> P s'.
Proof.
  revert s; induction xs as [|x xs IH]; intros s Hs Hstep H; cbn in H.
  { by simplify_eq. }
  destruct (f s x) as [t|] eqn:E; cbn in H; [|done].
  eapply IH; [|intros; eapply Hstep; [by right|done|done]|exact H].
  by eapply Hstep; [left| |].
Qed.

Lemma rmapM_ok_length (f : A -> result B) xs ys :
  rmapM f xs = Ok ys -> length ys = length xs.
Proof.
  revert ys; induction xs as [|x xs IH]; intros ys H; cbn in H; [by simplify_eq|].
  destruct (f x); cbn in H; [|done].
  destruct (rmapM f xs); cbn in H; [|done].
  simplify_eq; cbn. by erewrite IH.
Qed.

Lemma rmapM_Forall2 (f : A -> result B) xs ys :
  rmapM f xs = Ok ys <-> Forall2 (fun x y => f x = Ok y) xs ys.
Proof.
  revert ys; induction xs as [|x xs IH]; intros ys; cbn.
  { split; intros H; [by simplify_eq|by inversion H]. }
  split.
  - destruct (f x) eqn:E; cbn; [|done].
    destruct (rmapM f xs) eqn:E2; cbn; [|done].
    intros [= <-]. constructor; [done|]. by apply IH.
  - inversion 1 as [|? y ? ys' Hy Hys]; subst. rewrite Hy; cbn.
    apply IH in Hys. by rewrite Hys.
Qed.

Lemma rmapM_out (f : A -> result B) xs ys y :
  rmapM f xs = Ok ys -> y ∈ ys -> exists x, x ∈ xs ∧ f x = Ok y.
Proof.
  intros Hf%rmapM_Forall2 [i Hi]%list_elem_of_lookup.
  destruct (Forall2_lookup_r _ _ _ _ _ Hf Hi) as (x & Hx & ?).
  exists x. split; [by eapply list_elem_of_lookup_2|done].
Qed.

Lemma zip_elem (ns : list nat) (xs : list A) i x : (i, x) ∈ zip ns xs -> x ∈ xs.
Proof.
  revert ns; induction xs as [|y xs IH]; intros [|n ns]; cbn; try by intros ?%elem_of_nil.
  intros [[= -> ->]|Hin]%elem_of_cons; [left|right; by eapply IH].
Qed.

Lemma errors_Is_refl e : errors_Is e e = true.
Proof. by destruct e; cbn; rewrite bool_decide_true. Qed.
End result_lemmas.

Section enum_lemmas.
Context {A B : Type}.

(** A loop over indexed elements: where each output comes from. *)
Lemma rmapM_enum_out (f : nat * A -> result B) xs ys y :
  rmapM f (enum xs) = Ok ys -> y ∈ ys -> exists i x, x ∈ xs ∧ f (i, x) = Ok y.
Proof.
  intros Hf Hy. destruct (rmapM_out _ _ _ _ Hf Hy) as ([i x] & Hx & ?).
  exists i, x. split; [by eapply zip_elem|done].
Qed.

Lemma rmapM_enum_id (f : nat * A -> result A) xs :
  (forall i x, x ∈ xs -> f (i, x) = Ok x) -> rmapM f (enum xs) = Ok xs.
Proof.
  unfold enum. generalize 0 as n. induction xs as [|x xs IH]; intros n Hf; [done|]. cbn.
  rewrite Hf by left. cbn. rewrite IH; [done|]. intros; apply Hf. by right.
Qed.

Lemma rmapM_enum_nil (f : nat * A -> result B) xs ys :
  rmapM f (enum xs) = Ok ys -> ys = [] <-> xs = [].
Proof.
  intros Hl%rmapM_ok_length. unfold enum in Hl. rewrite length_zip, length_seq, Nat.min_id in Hl.
  by destruct xs, ys.
Qed.

End enum_lemmas.

Section effect_lemmas.
Context {S A B : Type}.

Lemma rbind_Ok (r : result A) (k : A -> result B) b : rbind r k = Ok b <-> exists a, r = Ok a ∧ k a = Ok b.
Proof. destruct r as [a|e]; cbn; naive_solver. Qed.

Lemma wrap_err_Ok f args (r : result A) a : wrap_err f args r = Ok a <-> r = Ok a.
Proof. by destruct r. Qed.

Lemma io_bind_Ok (m : ST S A) (k : A -> ST S B) s b s' :
  io_bind m k s = (Ok b, s') <-> exists a s1, m s = (Ok a, s1) ∧ k a s1 = (Ok b, s').
Proof. unfold io_bind. destruct (m s) as [[a|e] s1]; split; naive_solver. Qed.

Lemma io_wrap_Ok f args (m : ST S A) s a s' : io_wrap f args m s = (Ok a, s') <-> m s = (Ok a, s').
Proof. unfold io_wrap. destruct (m s) as [[x|e] s1]; cbn; naive_solver. Qed.

Lemma io_bind_seq (m : ST S A) (k : A -> ST S B) s a s1 :
  m s = (Ok a, s1) -> io_bind m k s = k a s1.
Proof. unfold io_bind. by intros ->. Qed.
End effect_lemmas.

(** What holds between the states before and after a computation, whatever it
    returns; a preorder is preserved by sequencing. *)
Definition moves {S A} (R : S -> S -> Prop) (m : ST S A) : Prop := forall s, R s (m s).2.

Section moves_lemmas.
Context {S : Type} (R : S -> S -> Prop) `{!PreOrder R}.

Lemma moves_pure {A} (r : result A) : moves R (io_of r).
Proof. intros s. cbn. reflexivity. Qed.
Lemma moves_bind {A B} (m : ST S A) (k : A -> ST S B) :
  moves R m -> (forall a, moves R (k a)) -> moves R (io_bind m k).
Proof.
  intros Hm Hk s. unfold io_bind. specialize (Hm s). destruct (m s) as [[a|e] s1]; cbn in *; [|done].
  etrans; [exact Hm|apply Hk].
Qed.
Lemma moves_try {A B} (m : ST S A) (k : result A -> ST S B) :
  moves R m -> (forall r, moves R (k r)) -> moves R (io_try m k).
Proof.
  intros Hm Hk s. unfold io_try. specialize (Hm s). destruct (m s) as [r s1]. cbn in *.
  etrans; [exact Hm|apply Hk].
Qed.
Lemma moves_wrap {A} f args (m : ST S A) : moves R m -> moves R (io_wrap f args m).
Proof. intros Hm s. unfold io_wrap. specialize (Hm s). by destruct (m s). Qed.
End moves_lemmas.

Create HintDb golib.
#[export] Hint Resolve errors_Is_refl moves_pure moves_bind moves_try moves_wrap : golib.
