(* ===== verification/GoStrings.v ===== *)
(** Go's [strings] package on byte strings: the functions the program calls,
    with the lemmas about them that the components share.

    The two places where the package consults the Unicode tables (lower-casing
    and case folding of strings that are not plain ASCII) are operations of the
    class [Unicode]; every other path of the package is computed here. *)
From stdpp Require Import strings.
From Stdlib Require Import Ascii Permutation.
From S2P Require Import Prelude.

(** The table-driven slow paths of [strings.ToLower] and [strings.EqualFold],
    which Go takes only when a byte of the argument is outside ASCII. *)
Class Unicode := {
  unicode_ToLower : gostring -> gostring;
  unicode_EqualFold : gostring -> gostring -> bool;
}.

Definition code (c : byte) : N := N_of_ascii c.

Definition is_ascii_byte (c : byte) : bool := (code c <? 128)%N.
Definition is_ascii (s : gostring) : bool := forallb is_ascii_byte s.

Definition is_upper (c : byte) : bool := ((65 <=? code c) && (code c <=? 90))%N.
Definition is_lower (c : byte) : bool := ((97 <=? code c) && (code c <=? 122))%N.
Definition is_digit (c : byte) : bool := ((48 <=? code c) && (code c <=? 57))%N.

Definition lower_byte (c : byte) : byte :=
  if is_upper c then ascii_of_N (code c + 32) else c.

Definition ascii_ToLower (s : gostring) : gostring := lower_byte <$> s.

Section case_mapping.
Context `{Unicode}.

(** strings.ToLower *)
Definition ToLower (s : gostring) : gostring :=
  if is_ascii s then ascii_ToLower s else unicode_ToLower s.

(** strings.EqualFold *)
Definition EqualFold (s t : gostring) : bool :=
  if is_ascii s && is_ascii t
  then bool_decide (ascii_ToLower s = ascii_ToLower t)
  else unicode_EqualFold s t.

End case_mapping.

(** * Prefixes, suffixes and searching *)

(** strings.CutPrefix: the rest of [s] after [p]. *)
Fixpoint CutPrefix (s p : gostring) : option gostring :=
  match p, s with
  | [], _ => Some s
  | c :: p', d :: s' => if bool_decide (c = d) then CutPrefix s' p' else None
  | _ :: _, [] => None
  end.

Definition CutSuffix (s p : gostring) : option gostring :=
  reverse <$> CutPrefix (reverse s) (reverse p).

Definition HasPrefix (s p : gostring) : bool := bool_decide (is_Some (CutPrefix s p)).
Definition HasSuffix (s p : gostring) : bool := bool_decide (is_Some (CutSuffix s p)).
Definition TrimPrefix (s p : gostring) : gostring := default s (CutPrefix s p).
Definition TrimSuffix (s p : gostring) : gostring := default s (CutSuffix s p).

(** strings.Index, [None] where Go returns -1. *)
Fixpoint Index (s sub : gostring) : option nat :=
  if HasPrefix s sub then Some 0
  else match s with
       | [] => None
       | _ :: s' => S <$> Index s' sub
       end.

Definition Contains (s sub : gostring) : bool := bool_decide (is_Some (Index s sub)).

(** strings.ContainsAny *)
Definition ContainsAny (s chars : gostring) : bool :=
  existsb (fun c => bool_decide (c ∈ chars)) s.

(** strings.Cut *)
Definition Cut (s sep : gostring) : gostring * gostring * bool :=
  match Index s sep with
  | Some i => (take i s, drop (i + length sep) s, true)
  | None => (s, [], false)
  end.

(** * Splitting, joining, replacing *)

(** strings.Split on a one-byte separator. *)
Fixpoint Split (s : gostring) (sep : byte) : list gostring :=
  match s with
  | [] => [[]]
  | c :: s' =>
      if bool_decide (c = sep) then [] :: Split s' sep
      else match Split s' sep with
           | [] => [[c]]
           | w :: ws => (c :: w) :: ws
           end
  end.

(** strings.Join *)
Fixpoint Join (ws : list gostring) (sep : gostring) : gostring :=
  match ws with
  | [] => []
  | [w] => w
  | w :: ws' => w ++ sep ++ Join ws' sep
  end.

(** strings.Replace with a non-empty [old]: at most [n] leftmost occurrences,
    all of them when [n] is [None] (a negative count in Go).  Every round
    consumes a byte of [s], so [length s] rounds are enough. *)
Fixpoint Replace_fuel (fuel : nat) (s old new : gostring) (n : option nat) : gostring :=
  match fuel, n with
  | O, _ | _, Some O => s
  | S fuel', _ =>
      match CutPrefix s old with
      | Some rest => new ++ Replace_fuel fuel' rest old new (pred <$> n)
      | None => match s with
                | [] => []
                | c :: s' => c :: Replace_fuel fuel' s' old new n
                end
      end
  end.

Definition Replace (s old new : gostring) (n : option nat) : gostring :=
  Replace_fuel (length s) s old new n.

Definition ReplaceAll (s old new : gostring) : gostring := Replace s old new None.

(** * Trimming *)

Fixpoint drop_while (p : byte -> bool) (s : gostring) : gostring :=
  match s with
  | [] => []
  | c :: s' => if p c then drop_while p s' else s
  end.

Definition in_cutset (cutset : gostring) (c : byte) : bool := bool_decide (c ∈ cutset).

(** strings.TrimLeft, strings.TrimRight, strings.Trim *)
Definition TrimLeft (s cutset : gostring) : gostring := drop_while (in_cutset cutset) s.
Definition TrimRight (s cutset : gostring) : gostring :=
  reverse (drop_while (in_cutset cutset) (reverse s)).
Definition Trim (s cutset : gostring) : gostring := TrimRight (TrimLeft s cutset) cutset.

(** The white space of [unicode.IsSpace] in UTF-8: six ASCII bytes, U+0085 and
    U+00A0 in two bytes, and the three-byte spaces. *)
Definition space1 (a : byte) : bool :=
  ((9 <=? code a) && (code a <=? 13) || (code a =? 32))%N.
Definition space2 (a b : byte) : bool :=
  ((code a =? 194) && ((code b =? 133) || (code b =? 160)))%N.
Definition space3 (a b c : byte) : bool :=
  ((code a =? 225) && (code b =? 154) && (code c =? 128) ||
   (code a =? 226) && (code b =? 128) &&
     ((128 <=? code c) && (code c <=? 138) ||
      (code c =? 168) || (code c =? 169) || (code c =? 175)) ||
   (code a =? 226) && (code b =? 129) && (code c =? 159) ||
   (code a =? 227) && (code b =? 128) && (code c =? 128))%N.

Section trim_runes.
Context (p1 : byte -> bool) (p2 : byte -> byte -> bool) (p3 : byte -> byte -> byte -> bool).

(** Drop one leading rune recognised by [p1], [p2] or [p3]. *)
Definition chop_rune (s : gostring) : option gostring :=
  match s with
  | a :: s1 =>
      if p1 a then Some s1
      else match s1 with
           | b :: s2 =>
               if p2 a b then Some s2
               else match s2 with
                    | c :: s3 => if p3 a b c then Some s3 else None
                    | [] => None
                    end
           | [] => None
           end
  | [] => None
  end.

Fixpoint trim_runes_fuel (fuel : nat) (s : gostring) : gostring :=
  match fuel with
  | O => s
  | S fuel' => match chop_rune s with
               | Some s' => trim_runes_fuel fuel' s'
               | None => s
               end
  end.

Definition trim_runes (s : gostring) : gostring := trim_runes_fuel (length s) s.
End trim_runes.

Definition TrimLeftSpace : gostring -> gostring := trim_runes space1 space2 space3.
Definition TrimRightSpace (s : gostring) : gostring :=
  reverse (trim_runes space1 (fun a b => space2 b a) (fun a b c => space3 c b a) (reverse s)).

(** strings.TrimSpace *)
Definition TrimSpace (s : gostring) : gostring := TrimRightSpace (TrimLeftSpace s).

(** [strings.TrimSpace(s) == ""], the emptiness test of the validators. *)
Definition is_blank (s : gostring) : bool := bool_decide (TrimSpace s = []).

(** strings.FieldsFunc *)
Fixpoint FieldsFunc_aux (p : byte -> bool) (acc : gostring) (s : gostring) : list gostring :=
  let flush := match acc with [] => [] | _ => [reverse acc] end in
  match s with
  | [] => flush
  | c :: s' => if p c then flush ++ FieldsFunc_aux p [] s' else FieldsFunc_aux p (c :: acc) s'
  end.
Definition FieldsFunc (s : gostring) (p : byte -> bool) : list gostring := FieldsFunc_aux p [] s.

(** strings.ToLower(strings.TrimSpace(s)), the normal form of every keyword. *)
Definition keyword `{Unicode} (s : gostring) : gostring := ToLower (TrimSpace s).

(** * Ordering: Go compares strings byte by byte *)

Fixpoint str_leb (s t : gostring) : bool :=
  match s, t with
  | [], _ => true
  | _ :: _, [] => false
  | a :: s', b :: t' =>
      if (code a <? code b)%N then true
      else if (code b <? code a)%N then false
      else str_leb s' t'
  end.
Definition str_le (s t : gostring) : Prop := Is_true (str_leb s t).
Definition str_lt (s t : gostring) : Prop := str_le s t ∧ s ≠ t.

(** strconv.Itoa on a natural number. *)
Definition digit (n : N) : byte := ascii_of_N (48 + n).
Fixpoint Itoa_fuel (fuel : nat) (n : N) (acc : gostring) : gostring :=
  match fuel with
  | O => acc
  | S fuel' =>
      let acc' := digit (n mod 10) :: acc in
      if (n <? 10)%N then acc' else Itoa_fuel fuel' (n / 10) acc'
  end.
Definition ItoaN (n : N) : gostring := Itoa_fuel (S (N.to_nat (N.size n))) n [].
Definition Itoa (z : Z) : gostring :=
  if (z <? 0)%Z then chr 45 :: ItoaN (Z.to_N (- z)) else ItoaN (Z.to_N z).

Definition ItoaNat (n : nat) : gostring := ItoaN (N.of_nat n).

(** * Lemmas *)

Lemma CutPrefix_Some s p r : CutPrefix s p = Some r <-> s = p ++ r.
Proof.
  revert s; induction p as [|c p IH]; intros [|d s]; cbn; try (by split; congruence).
  case_bool_decide; [subst; rewrite IH; split; congruence|]. split; [done|congruence].
Qed.

Lemma CutSuffix_Some s p r : CutSuffix s p = Some r <-> s = r ++ p.
Proof.
  unfold CutSuffix. rewrite fmap_Some. setoid_rewrite CutPrefix_Some. split.
  - intros (q & Hq & ->). apply (f_equal reverse) in Hq.
    by rewrite reverse_involutive, reverse_app, reverse_involutive in Hq.
  - intros ->. exists (reverse r). by rewrite reverse_app, reverse_involutive.
Qed.

Lemma HasPrefix_true s p : HasPrefix s p = true <-> exists r, s = p ++ r.
Proof.
  unfold HasPrefix. rewrite bool_decide_eq_true. unfold is_Some.
  by setoid_rewrite CutPrefix_Some.
Qed.

Lemma HasSuffix_true s p : HasSuffix s p = true <-> exists r, s = r ++ p.
Proof.
  unfold HasSuffix. rewrite bool_decide_eq_true. unfold is_Some.
  by setoid_rewrite CutSuffix_Some.
Qed.

Lemma HasPrefix_app p r : HasPrefix (p ++ r) p = true.
Proof. apply HasPrefix_true. eauto. Qed.

Lemma HasSuffix_app r p : HasSuffix (r ++ p) p = true.
Proof. apply HasSuffix_true. eauto. Qed.

Lemma TrimPrefix_app p r : TrimPrefix (p ++ r) p = r.
Proof. unfold TrimPrefix. by rewrite (proj2 (CutPrefix_Some _ _ r) eq_refl). Qed.

Lemma TrimSuffix_app r p : TrimSuffix (r ++ p) p = r.
Proof. unfold TrimSuffix. by rewrite (proj2 (CutSuffix_Some _ _ r) eq_refl). Qed.

Lemma TrimPrefix_none s p : HasPrefix s p = false -> TrimPrefix s p = s.
Proof.
  unfold HasPrefix, TrimPrefix. rewrite bool_decide_eq_false.
  by destruct (CutPrefix s p); [intros []|].
Qed.

Lemma TrimSuffix_none s p : HasSuffix s p = false -> TrimSuffix s p = s.
Proof.
  unfold HasSuffix, TrimSuffix. rewrite bool_decide_eq_false.
  by destruct (CutSuffix s p); [intros []|].
Qed.

(** Searching for a single byte. *)
Lemma HasPrefix_byte s c : HasPrefix s [c] = bool_decide (head s = Some c).
Proof.
  apply Bool.eq_iff_eq_true. rewrite HasPrefix_true, bool_decide_eq_true.
  destruct s as [|d s]; cbn; [by split; [intros []|]|].
  split; [by intros [r [= -> _]]|by intros [= ->]; exists s].
Qed.

Lemma HasSuffix_byte s c : HasSuffix s [c] = bool_decide (last s = Some c).
Proof.
  apply Bool.eq_iff_eq_true. by rewrite HasSuffix_true, bool_decide_eq_true, last_Some.
Qed.

Lemma Index_byte_None s c : Index s [c] = None <-> c ∉ s.
Proof.
  induction s as [|d s IH]; cbn -[HasPrefix]; rewrite HasPrefix_byte; cbn.
  { case_bool_decide; [done|]. split; [intros _; apply not_elem_of_nil|done]. }
  rewrite not_elem_of_cons. case_bool_decide as Hd.
  { split; [done|]. intros [[] _]. congruence. }
  rewrite fmap_None, IH. split; [|by intros []]. intros ?; split; [congruence|done].
Qed.

Lemma Contains_byte s c : Contains s [c] = bool_decide (c ∈ s).
Proof.
  unfold Contains. apply bool_decide_ext. rewrite <-not_eq_None_Some, Index_byte_None.
  split; [apply dec_stable|by intros ? []].
Qed.

Lemma ContainsAny_false s chars :
  ContainsAny s chars = false <-> forall c, c ∈ s -> c ∉ chars.
Proof.
  unfold ContainsAny. induction s as [|d s IH]; cbn.
  { split; [|done]. by intros _ c ?%elem_of_nil. }
  rewrite orb_false_iff, bool_decide_eq_false, IH. set_solver.
Qed.

Lemma Index_Some s sub i :
  Index s sub = Some i -> exists a b, s = a ++ sub ++ b ∧ length a = i.
Proof.
  revert i; induction s as [|c s IH]; intros i; cbn -[HasPrefix].
  - destruct (HasPrefix [] sub) eqn:E; [|done]. intros [= <-].
    apply HasPrefix_true in E as [r Hr]. by exists [], r.
  - destruct (HasPrefix (c :: s) sub) eqn:E.
    + intros [= <-]. apply HasPrefix_true in E as [r Hr]. by exists [], r.
    + destruct (Index s sub) as [j|] eqn:Ej; [|done]. cbn. intros [= <-].
      destruct (IH j eq_refl) as (a & b & -> & <-). by exists (c :: a), b.
Qed.

Lemma Index_app_Some a sub b : is_Some (Index (a ++ sub ++ b) sub).
Proof.
  induction a as [|c a IH].
  - cbn [app]. destruct (sub ++ b) as [|x l] eqn:E; cbn -[HasPrefix];
      rewrite <-E, HasPrefix_app; eauto.
  - cbn -[HasPrefix]. destruct (HasPrefix _ _); [eauto|].
    destruct IH as [j Hj]. rewrite Hj. cbn. eauto.
Qed.

Lemma Contains_true s sub : Contains s sub = true <-> exists a b, s = a ++ sub ++ b.
Proof.
  unfold Contains. rewrite bool_decide_eq_true. split.
  - intros [i Hi]. apply Index_Some in Hi as (a & b & ? & _). eauto.
  - intros (a & b & ->). apply Index_app_Some.
Qed.

Lemma Cut_byte p c r : c ∉ p -> Cut (p ++ c :: r) [c] = (p, r, true).
Proof.
  intros Hp. unfold Cut. assert (Hi : Index (p ++ c :: r) [c] = Some (length p)).
  { induction p as [|x p IH]; cbn -[HasPrefix]; rewrite HasPrefix_byte; cbn [head].
    - by rewrite bool_decide_eq_true_2.
    - apply not_elem_of_cons in Hp as [Hx Hp]. rewrite bool_decide_eq_false_2 by congruence. by rewrite IH. }
  rewrite Hi, take_app_length. f_equal. f_equal. cbn. rewrite Nat.add_1_r, drop_app_ge by lia.
  by replace (S (length p) - length p) with 1 by lia.
Qed.

(** ** Split and Join *)

Lemma Split_nonempty s c : Split s c <> [].
Proof. destruct s; cbn; [done|]. case_bool_decide; [done|]. by destruct (Split _ _). Qed.

Lemma Split_no_sep s c : c ∉ s -> Split s c = [s].
Proof.
  induction s as [|d s IH]; cbn; [done|]. rewrite not_elem_of_cons. intros [? ?].
  rewrite bool_decide_eq_false_2 by done. by rewrite IH.
Qed.

Lemma Split_app_sep s t c : Split (s ++ c :: t) c = Split s c ++ Split t c.
Proof.
  induction s as [|d s IH]; cbn.
  - by rewrite bool_decide_eq_true_2.
  - rewrite IH. case_bool_decide; [done|].
    by destruct (Split s c) eqn:E; [apply Split_nonempty in E|].
Qed.

Lemma Join_cons w ws sep : ws <> [] -> Join (w :: ws) sep = w ++ sep ++ Join ws sep.
Proof. by destruct ws. Qed.

Lemma Join_app ws vs sep :
  ws <> [] -> vs <> [] -> Join (ws ++ vs) sep = Join ws sep ++ sep ++ Join vs sep.
Proof.
  intros Hw Hv; induction ws as [|w ws IH]; [done|].
  destruct ws as [|w' ws].
  - cbn [app]. by rewrite Join_cons.
  - cbn [app]. rewrite Join_cons by done. cbn [app] in IH. rewrite IH by done.
    rewrite (Join_cons w (w' :: ws)) by done. by rewrite <-!app_assoc.
Qed.

Lemma Join_Split s c : Join (Split s c) [c] = s.
Proof.
  induction s as [|d s IH]; cbn; [done|]. case_bool_decide as Hc.
  - subst. rewrite Join_cons by apply Split_nonempty. by rewrite IH.
  - destruct (Split s c) as [|w ws] eqn:E; [by apply Split_nonempty in E|].
    destruct ws; cbn in *; by rewrite <-IH.
Qed.

Lemma Split_Join ws c :
  ws <> [] -> Forall (fun w => c ∉ w) ws -> Split (Join ws [c]) c = ws.
Proof.
  intros Hne Hf; induction Hf as [|w ws Hw Hws IH]; [done|].
  destruct ws as [|w' ws]; [by apply Split_no_sep|].
  rewrite Join_cons by done. cbn [app]. rewrite Split_app_sep, Split_no_sep by done.
  by rewrite IH.
Qed.

Lemma Split_Forall_no_sep s c : Forall (fun w => c ∉ w) (Split s c).
Proof.
  induction s as [|d s IH]; cbn; [repeat constructor; apply not_elem_of_nil|].
  case_bool_decide; [constructor; [apply not_elem_of_nil|done]|].
  destruct (Split s c) as [|w ws]; [by repeat constructor; set_solver|].
  inversion IH; subst. constructor; [set_solver|done].
Qed.

(** ** Trimming *)

Lemma drop_while_id p s :
  match s with [] => True | c :: _ => p c = false end -> drop_while p s = s.
Proof. destruct s; cbn; [done|]. by intros ->. Qed.

Lemma drop_while_split p s :
  exists a, s = a ++ drop_while p s ∧ forallb p a = true.
Proof.
  induction s as [|c s IH]; cbn; [by exists []|].
  destruct (p c) eqn:E; [|by exists []].
  destruct IH as (a & Ha & Hp). exists (c :: a). cbn. by rewrite E, Hp, <-Ha.
Qed.

Lemma drop_while_head p s c s' : drop_while p s = c :: s' -> p c = false.
Proof. induction s as [|d s IH]; cbn; [done|]. destruct (p d) eqn:E; [done|]. by intros [= <- _]. Qed.

Lemma drop_while_all p s t : forallb p s = true -> drop_while p (s ++ t) = drop_while p t.
Proof. induction s as [|c s IH]; cbn; [done|]. intros [-> ?]%andb_true_iff. by apply IH. Qed.

Lemma TrimRight_all s cutset t :
  forallb (in_cutset cutset) t = true -> TrimRight (s ++ t) cutset = TrimRight s cutset.
Proof.
  intros Ht. unfold TrimRight. rewrite reverse_app, drop_while_all; [done|].
  rewrite forallb_forall in *. intros x Hx. apply Ht.
  apply list_elem_of_In. apply list_elem_of_In in Hx. by apply elem_of_reverse.
Qed.

Lemma TrimRight_last s cutset :
  match last s with None => True | Some c => in_cutset cutset c = false end ->
  TrimRight s cutset = s.
Proof.
  intros Hl. unfold TrimRight. rewrite drop_while_id, reverse_involutive; [done|].
  rewrite <-(reverse_involutive s), last_reverse in Hl.
  by destruct (reverse s).
Qed.

Lemma TrimRight_last_out s cutset c :
  last (TrimRight s cutset) = Some c -> in_cutset cutset c = false.
Proof.
  unfold TrimRight. rewrite last_reverse. destruct (drop_while _ _) eqn:E; [done|].
  cbn. intros [= <-]. by eapply drop_while_head.
Qed.

Section trim_runes_lemmas.
Context (p1 : byte -> bool) (p2 : byte -> byte -> bool) (p3 : byte -> byte -> byte -> bool).
Let chop := chop_rune p1 p2 p3.
Let trim := trim_runes p1 p2 p3.

Lemma chop_rune_suffix s r : chop s = Some r -> exists a, s = a ++ r ∧ a <> [].
Proof.
  unfold chop, chop_rune. destruct s as [|a [|b [|c s]]]; cbn; [done|..].
  all: repeat case_match; intros; simplify_eq.
  all: first [by exists [a]|by exists [a; b]|by exists [a; b; c]].
Qed.

Lemma chop_rune_length s r : chop s = Some r -> length r < length s.
Proof.
  intros (a & -> & Ha)%chop_rune_suffix. rewrite length_app.
  destruct a; [done|]. cbn. lia.
Qed.

(** A string without a leading space rune keeps that property when its end is cut. *)
Lemma chop_rune_prefix s t : chop (s ++ t) = None -> chop s = None.
Proof.
  unfold chop, chop_rune. destruct s as [|a [|b [|c s]]]; cbn; try done.
  all: repeat case_match; done.
Qed.

Lemma trim_runes_fuel_None n s : length s <= n -> chop (trim_runes_fuel p1 p2 p3 n s) = None.
Proof.
  revert s; induction n as [|n IH]; intros s Hn; cbn.
  { by destruct s; [|cbn in Hn; lia]. }
  destruct (chop_rune p1 p2 p3 s) eqn:E; [|done].
  apply IH. apply chop_rune_length in E. lia.
Qed.

Lemma trim_runes_None s : chop (trim s) = None.
Proof. by apply trim_runes_fuel_None. Qed.

Lemma trim_runes_id s : chop s = None -> trim s = s.
Proof.
  unfold chop, trim, trim_runes. destruct (length s); cbn; [done|]. by intros ->.
Qed.

Lemma trim_runes_suffix s : exists a, s = a ++ trim s.
Proof.
  unfold trim, trim_runes. generalize (length s) as n; intros n; revert s.
  induction n as [|n IH]; intros s; cbn; [by exists []|].
  destruct (chop_rune p1 p2 p3 s) as [r|] eqn:E; [|by exists []].
  apply chop_rune_suffix in E as (a & -> & _). destruct (IH r) as [b Hb].
  exists (a ++ b). rewrite <-app_assoc. by rewrite <-Hb.
Qed.

Lemma trim_runes_fuel_eq n m s : length s <= n -> length s <= m -> trim_runes_fuel p1 p2 p3 n s = trim_runes_fuel p1 p2 p3 m s.
Proof.
  revert m s; induction n as [|n IH]; intros m s Hn Hm; [by destruct s; [destruct m|cbn in Hn; lia]|].
  destruct m as [|m]; [by destruct s; [|cbn in Hm; lia]|]. cbn. destruct (chop_rune p1 p2 p3 s) as [r|] eqn:E; [|done].
  apply chop_rune_length in E. apply IH; lia.
Qed.

Lemma trim_runes_unfold s : trim s = match chop s with Some r => trim r | None => s end.
Proof.
  unfold trim, trim_runes, chop. destruct s as [|a s]; [done|]. cbn [length trim_runes_fuel].
  destruct (chop_rune p1 p2 p3 (a :: s)) as [r|] eqn:E; [|done]. apply chop_rune_length in E. cbn in E. apply trim_runes_fuel_eq; lia.
Qed.

(** A byte that is part of no space rune stops the trimming. *)
Definition barrier (c : byte) : Prop :=
  p1 c = false ∧ (forall a, p2 a c = false ∧ p2 c a = false) ∧ (forall a b, p3 c a b = false ∧ p3 a c b = false ∧ p3 a b c = false).

Lemma trim_runes_barrier c s t : barrier c -> trim (s ++ c :: t) = trim s ++ c :: t.
Proof.
  intros (H1 & H2 & H3). remember (length s) as n eqn:Hn. revert s Hn. induction (lt_wf n) as [n _ IH]. intros s ->.
  assert (Hc : chop (s ++ c :: t) = match chop s with Some r => Some (r ++ c :: t) | None => None end).
  { unfold chop, chop_rune. destruct s as [|a [|b [|d s]]]; cbn [app].
    - rewrite H1. destruct t as [|b [|d t]]; rewrite ?(proj2 (H2 _)), ?(proj1 (H3 _ _)); done.
    - destruct (p1 a); [done|]. rewrite (proj1 (H2 a)). destruct t as [|b t]; [done|]. by rewrite (proj1 (proj2 (H3 a b))).
    - destruct (p1 a); [done|]. destruct (p2 a b); [done|]. by rewrite (proj2 (proj2 (H3 a b))).
    - destruct (p1 a); [done|]. destruct (p2 a b); [done|]. by destruct (p3 a b d). }
  rewrite trim_runes_unfold, Hc, (trim_runes_unfold s). destruct (chop s) as [r|] eqn:E; [|done].
  apply (IH (length r)); [by apply chop_rune_length|done].
Qed.
End trim_runes_lemmas.

Lemma TrimRightSpace_prefix s : exists t, s = TrimRightSpace s ++ t.
Proof.
  unfold TrimRightSpace.
  destruct (trim_runes_suffix space1 (fun a b => space2 b a)
    (fun a b c => space3 c b a) (reverse s)) as [a Ha].
  apply (f_equal reverse) in Ha. rewrite reverse_involutive, reverse_app in Ha. eauto.
Qed.

(** TrimSpace leaves no space rune at either end, and so is idempotent. *)
Lemma TrimSpace_no_left s : chop_rune space1 space2 space3 (TrimSpace s) = None.
Proof.
  unfold TrimSpace. destruct (TrimRightSpace_prefix (TrimLeftSpace s)) as [t Ht].
  apply (chop_rune_prefix _ _ _ _ t). rewrite <-Ht. apply trim_runes_None.
Qed.

Lemma TrimSpace_no_right s :
  chop_rune space1 (fun a b => space2 b a) (fun a b c => space3 c b a)
    (reverse (TrimSpace s)) = None.
Proof. unfold TrimSpace, TrimRightSpace. rewrite reverse_involutive. apply trim_runes_None. Qed.

(** A string with no space rune at either end is a fixed point. *)
Lemma TrimSpace_id s :
  chop_rune space1 space2 space3 s = None ->
  chop_rune space1 (fun a b => space2 b a) (fun a b c => space3 c b a) (reverse s) = None ->
  TrimSpace s = s.
Proof.
  intros Hl Hr. unfold TrimSpace, TrimLeftSpace. rewrite trim_runes_id by done.
  unfold TrimRightSpace. by rewrite trim_runes_id, reverse_involutive.
Qed.

Lemma TrimSpace_idemp s : TrimSpace (TrimSpace s) = TrimSpace s.
Proof. apply TrimSpace_id; [apply TrimSpace_no_left|apply TrimSpace_no_right]. Qed.

Lemma TrimSpace_substring s : exists a b, s = a ++ TrimSpace s ++ b.
Proof.
  destruct (trim_runes_suffix space1 space2 space3 s) as [a Ha].
  destruct (TrimRightSpace_prefix (TrimLeftSpace s)) as [b Hb].
  exists a, b. unfold TrimSpace. rewrite <-Hb. apply Ha.
Qed.

Lemma TrimSpace_elem s c : c ∈ TrimSpace s -> c ∈ s.
Proof. destruct (TrimSpace_substring s) as (a & b & Hs). rewrite Hs at 2. set_solver. Qed.

Lemma is_blank_TrimSpace s : is_blank (TrimSpace s) = is_blank s.
Proof. unfold is_blank. by rewrite TrimSpace_idemp. Qed.

(** A string of printable ASCII bytes is never trimmed. *)
Definition graphic (c : byte) : bool := ((33 <=? code c) && (code c <=? 126))%N.

Lemma graphic_not_space c : graphic c = true ->
  space1 c = false ∧ (forall b, space2 c b = false ∧ space2 b c = false) ∧
  (forall a b, space3 c a b = false ∧ space3 a b c = false).
Proof.
  unfold graphic, space1, space2, space3. rewrite andb_true_iff, !N.leb_le. intros [? ?].
  assert (E : forall k, (k < 33 ∨ 126 < k)%N -> (code c =? k)%N = false)
    by (intros; apply N.eqb_neq; lia).
  assert (L : (128 <=? code c)%N = false) by (apply N.leb_gt; lia).
  assert (M : (code c <=? 13)%N = false) by (apply N.leb_gt; lia).
  rewrite !E, M by lia. rewrite ?andb_false_r. cbn. split; [done|].
  split; intros; split; rewrite ?L; cbn; by rewrite ?andb_false_r.
Qed.

Lemma graphic_not_space_middle c a b : graphic c = true -> space3 a c b = false.
Proof.
  unfold graphic, space3. rewrite andb_true_iff, !N.leb_le. intros [? ?].
  assert (E : forall k, (126 < k)%N -> (code c =? k)%N = false) by (intros; apply N.eqb_neq; lia).
  rewrite !E by lia. by rewrite ?andb_false_r.
Qed.

Lemma TrimSpace_at c s t : graphic c = true -> TrimSpace (s ++ c :: t) = TrimLeftSpace s ++ c :: TrimRightSpace t.
Proof.
  intros Hc. destruct (graphic_not_space c Hc) as (H1 & H2 & H3).
  unfold TrimSpace, TrimLeftSpace, TrimRightSpace. rewrite trim_runes_barrier.
  2: { split; [done|]. split; intros; split_and?; [apply H2..|apply H3|by apply graphic_not_space_middle|apply H3]. }
  rewrite reverse_app, reverse_cons, <-app_assoc. cbn [app]. rewrite trim_runes_barrier.
  2: { split; [done|]. split; intros; split_and?; [apply H2..|apply H3|by apply graphic_not_space_middle|apply H3]. }
  rewrite reverse_app, reverse_cons, reverse_involutive, <-app_assoc. done.
Qed.

Lemma TrimSpace_right s : TrimSpace s = TrimRightSpace (TrimLeftSpace s).
Proof. done. Qed.

Lemma TrimLeftSpace_idemp s : TrimLeftSpace (TrimLeftSpace s) = TrimLeftSpace s.
Proof. apply trim_runes_id, trim_runes_None. Qed.

Lemma TrimSpace_left s : TrimSpace (TrimLeftSpace s) = TrimSpace s.
Proof. unfold TrimSpace. by rewrite TrimLeftSpace_idemp. Qed.

Lemma TrimLeftSpace_elem s c : c ∈ TrimLeftSpace s -> c ∈ s.
Proof. destruct (trim_runes_suffix space1 space2 space3 s) as [a Ha]. unfold TrimLeftSpace. rewrite Ha at 2. set_solver. Qed.

Lemma TrimRightSpace_elem s c : c ∈ TrimRightSpace s -> c ∈ s.
Proof. destruct (TrimRightSpace_prefix s) as [t Ht]. rewrite Ht at 2. set_solver. Qed.

Lemma TrimSpace_graphic s : forallb graphic s = true -> TrimSpace s = s.
Proof.
  intros Hs.
  assert (Hc : forall (q1 : byte -> bool) (q2 : byte -> byte -> bool) q3 t,
    (forall c, graphic c = true -> q1 c = false ∧ (forall b, q2 c b = false) ∧
       (forall a b, q3 c a b = false)) ->
    forallb graphic t = true -> chop_rune q1 q2 q3 t = None).
  { intros q1 q2 q3 t Hq Ht. destruct t as [|a t]; [done|]. cbn in *.
    apply andb_true_iff in Ht as [Ha Ht]. destruct (Hq a Ha) as (-> & H2 & H3).
    destruct t as [|b [|c t]]; [done|by rewrite H2|]. by rewrite H2, H3. }
  apply TrimSpace_id; apply Hc; try done.
  - intros c Hg. destruct (graphic_not_space c Hg) as (? & H2 & H3).
    split; [done|]. split; intros; [apply H2|apply H3].
  - intros c Hg. destruct (graphic_not_space c Hg) as (? & H2 & H3).
    split; [done|]. split; intros; [apply H2|apply H3].
  - rewrite forallb_forall in *. intros x Hx. apply Hs.
    apply list_elem_of_In, elem_of_reverse. by apply list_elem_of_In.
Qed.

(** ** Lower-casing *)

Lemma code_inj a b : code a = code b -> a = b.
Proof.
  intros H. rewrite <-(ascii_N_embedding a), <-(ascii_N_embedding b). by f_equal.
Qed.

Lemma code_bound a : (code a < 256)%N.
Proof. apply N_ascii_bounded. Qed.

Lemma lower_byte_idemp c : lower_byte (lower_byte c) = lower_byte c.
Proof. destruct c as [[] [] [] [] [] [] [] []]; reflexivity. Qed.

Lemma lower_byte_not_upper c : is_upper (lower_byte c) = false.
Proof. destruct c as [[] [] [] [] [] [] [] []]; reflexivity. Qed.

Lemma lower_byte_ascii c : is_ascii_byte (lower_byte c) = is_ascii_byte c.
Proof. destruct c as [[] [] [] [] [] [] [] []]; reflexivity. Qed.

Lemma ascii_ToLower_ascii s : is_ascii (ascii_ToLower s) = is_ascii s.
Proof.
  unfold is_ascii, ascii_ToLower. induction s as [|c s IH]; cbn; [done|].
  by rewrite lower_byte_ascii, IH.
Qed.

Lemma ascii_ToLower_idemp s : ascii_ToLower (ascii_ToLower s) = ascii_ToLower s.
Proof.
  unfold ascii_ToLower. induction s as [|c s IH]; cbn; [done|].
  by rewrite lower_byte_idemp, IH.
Qed.

Lemma ToLower_ascii `{Unicode} s : is_ascii s = true -> ToLower s = ascii_ToLower s.
Proof. unfold ToLower. by intros ->. Qed.

Lemma ToLower_idemp_ascii `{Unicode} s :
  is_ascii s = true -> ToLower (ToLower s) = ToLower s.
Proof.
  intros Hs. rewrite (ToLower_ascii s) by done.
  rewrite ToLower_ascii by by rewrite ascii_ToLower_ascii. apply ascii_ToLower_idemp.
Qed.

Lemma ascii_ToLower_id s : existsb is_upper s = false -> ascii_ToLower s = s.
Proof.
  unfold ascii_ToLower. induction s as [|c s IH]; cbn; [done|].
  rewrite orb_false_iff. intros [Hc Hs]. rewrite IH by done. unfold lower_byte. by rewrite Hc.
Qed.

(** Lower-casing neither makes nor destroys white space. *)
Lemma lower_byte_spaces a b c :
  space1 (lower_byte a) = space1 a ∧
  space2 (lower_byte a) (lower_byte b) = space2 a b ∧
  space3 (lower_byte a) (lower_byte b) (lower_byte c) = space3 a b c.
Proof.
  assert (E : forall k x, (k < 65 ∨ 122 < k)%N -> (code (lower_byte x) =? k)%N = (code x =? k)%N).
  { intros k x Hk. unfold lower_byte. destruct (is_upper x) eqn:Hu; [|done].
    unfold is_upper in Hu. rewrite andb_true_iff, !N.leb_le in Hu. unfold code at 1.
    rewrite N_ascii_embedding by lia. rewrite (proj2 (N.eqb_neq _ _)) by lia.
    symmetry. apply N.eqb_neq. lia. }
  assert (L : forall k x, (k < 65 ∨ 122 < k)%N -> (code (lower_byte x) <=? k)%N = (code x <=? k)%N).
  { intros k x Hk. unfold lower_byte. destruct (is_upper x) eqn:Hu; [|done].
    unfold is_upper in Hu. rewrite andb_true_iff, !N.leb_le in Hu. unfold code at 1.
    rewrite N_ascii_embedding by lia. apply Bool.eq_iff_eq_true. rewrite !N.leb_le. lia. }
  assert (G : forall k x, (k < 65 ∨ 122 < k)%N -> (k <=? code (lower_byte x))%N = (k <=? code x)%N).
  { intros k x Hk. unfold lower_byte. destruct (is_upper x) eqn:Hu; [|done].
    unfold is_upper in Hu. rewrite andb_true_iff, !N.leb_le in Hu. unfold code at 1.
    rewrite N_ascii_embedding by lia. apply Bool.eq_iff_eq_true. rewrite !N.leb_le. lia. }
  unfold space1, space2, space3. rewrite !E, !L, !G by lia. done.
Qed.

Lemma chop_rune_lower q1 (q2 : byte -> byte -> bool) q3 s :
  (forall a b c, q1 (lower_byte a) = q1 a ∧ q2 (lower_byte a) (lower_byte b) = q2 a b ∧
     q3 (lower_byte a) (lower_byte b) (lower_byte c) = q3 a b c) ->
  chop_rune q1 q2 q3 (ascii_ToLower s) = ascii_ToLower <$> chop_rune q1 q2 q3 s.
Proof.
  intros Hq. assert (H1 := fun a => proj1 (Hq a a a)).
  assert (H2 := fun a b => proj1 (proj2 (Hq a b a))). assert (H3 := fun a b c => proj2 (proj2 (Hq a b c))).
  destruct s as [|a [|b [|c s]]]; cbn; [done|..]; rewrite ?H1, ?H2, ?H3;
    repeat case_match; done.
Qed.

Lemma TrimSpace_lower s : TrimSpace s = s -> TrimSpace (ascii_ToLower s) = ascii_ToLower s.
Proof.
  intros Hs. apply TrimSpace_id.
  - rewrite chop_rune_lower by apply lower_byte_spaces.
    pose proof (TrimSpace_no_left s) as Hl. rewrite Hs in Hl. by rewrite Hl.
  - assert (Hr : reverse (ascii_ToLower s) = ascii_ToLower (reverse s))
      by (unfold ascii_ToLower; by rewrite fmap_reverse).
    rewrite Hr, chop_rune_lower.
    + pose proof (TrimSpace_no_right s) as Hn. rewrite Hs in Hn. by rewrite Hn.
    + intros a b c. destruct (lower_byte_spaces a b c) as (? & _ & _).
      destruct (lower_byte_spaces b a c) as (_ & ? & _).
      by destruct (lower_byte_spaces c b a) as (_ & _ & ?).
Qed.

(** ** Decimal numbers *)

(** The value of a string of decimal digits. *)
Definition dec_value (s : gostring) : N := foldl (fun acc c => acc * 10 + (code c - 48))%N 0%N s.

Lemma Itoa_fuel_acc fuel n acc : Itoa_fuel fuel n acc = Itoa_fuel fuel n [] ++ acc.
Proof.
  revert n acc; induction fuel as [|fuel IH]; intros n acc; [done|]. cbn.
  destruct (n <? 10)%N; [done|]. rewrite IH, (IH _ [_]), <-app_assoc. done.
Qed.

Lemma digit_code n : (n < 10)%N -> code (digit n) = (48 + n)%N.
Proof. intros. unfold code, digit. apply N_ascii_embedding. lia. Qed.

Lemma dec_value_snoc s c : dec_value (s ++ [c]) = (dec_value s * 10 + (code c - 48))%N.
Proof. unfold dec_value. by rewrite foldl_app. Qed.

Lemma Itoa_fuel_value fuel n : (n < 10 ^ N.of_nat fuel)%N -> dec_value (Itoa_fuel fuel n []) = n.
Proof.
  revert n; induction fuel as [|fuel IH]; intros n Hn.
  { cbn in Hn. assert (n = 0)%N as -> by lia. done. }
  cbn [Itoa_fuel]. assert (Hm : (n mod 10 < 10)%N) by (apply N.mod_lt; lia).
  destruct (N.ltb_spec n 10).
  - unfold dec_value. cbn [foldl]. rewrite digit_code by done.
    rewrite N.mod_small by done. lia.
  - rewrite Itoa_fuel_acc, dec_value_snoc, IH, digit_code by
      (done || (apply N.Div0.div_lt_upper_bound; rewrite Nat2N.inj_succ, N.pow_succ_r' in Hn; exact Hn)).
    pose proof (N.div_mod n 10 ltac:(done)). set (q := (n / 10)%N) in *. set (r := (n mod 10)%N) in *. lia.
Qed.

Lemma Itoa_fuel_digits fuel n : forallb is_digit (Itoa_fuel fuel n []) = true.
Proof.
  revert n; induction fuel as [|fuel IH]; intros n; [done|]. cbn [Itoa_fuel].
  assert (Hd : is_digit (digit (n mod 10)) = true).
  { assert (n mod 10 < 10)%N by (apply N.mod_lt; lia).
    unfold is_digit. rewrite digit_code by done. generalize dependent (n mod 10)%N.
    intros k ?. apply andb_true_iff. rewrite !N.leb_le. lia. }
  destruct (n <? 10)%N; [cbn; by rewrite Hd|].
  rewrite Itoa_fuel_acc, forallb_app, IH. cbn. by rewrite Hd.
Qed.

Lemma ItoaN_value n : dec_value (ItoaN n) = n.
Proof.
  apply Itoa_fuel_value. rewrite Nat2N.inj_succ, N2Nat.id.
  eapply N.lt_le_trans; [apply N.size_gt|]. etrans; [apply N.pow_le_mono_r; [lia|apply N.le_succ_diag_r]|].
  apply N.pow_le_mono_l. lia.
Qed.

Lemma ItoaN_digits n : forallb is_digit (ItoaN n) = true.
Proof. apply Itoa_fuel_digits. Qed.

Lemma ItoaN_inj n m : ItoaN n = ItoaN m -> n = m.
Proof. intros E. by rewrite <-(ItoaN_value n), E, ItoaN_value. Qed.

Lemma ItoaN_nonempty n : ItoaN n <> [].
Proof.
  unfold ItoaN. cbn. destruct (n <? 10)%N; [done|]. rewrite Itoa_fuel_acc.
  intros E. by apply app_eq_nil in E as [_ ?].
Qed.

(** ** Ordering *)

#[export] Instance str_le_dec s t : Decision (str_le s t).
Proof. unfold str_le. apply _. Defined.

Lemma str_leb_refl s : str_leb s s = true.
Proof. induction s as [|c s IH]; cbn; [done|]. by rewrite N.ltb_irrefl. Qed.

Lemma str_leb_trans s t u : str_leb s t = true -> str_leb t u = true -> str_leb s u = true.
Proof.
  revert t u; induction s as [|a s IH]; intros [|b t] [|c u]; cbn; try done.
  destruct (N.ltb_spec (code a) (code b)), (N.ltb_spec (code b) (code a)),
    (N.ltb_spec (code b) (code c)), (N.ltb_spec (code c) (code b)),
    (N.ltb_spec (code a) (code c)), (N.ltb_spec (code c) (code a)); try done; try lia.
  apply IH.
Qed.

Lemma str_leb_antisym s t : str_leb s t = true -> str_leb t s = true -> s = t.
Proof.
  revert t; induction s as [|a s IH]; intros [|b t]; cbn; try done.
  destruct (N.ltb_spec (code a) (code b)), (N.ltb_spec (code b) (code a)); try done; try lia.
  intros. f_equal; [apply code_inj; lia|by apply IH].
Qed.

Lemma str_leb_total s t : str_leb s t = true ∨ str_leb t s = true.
Proof.
  revert t; induction s as [|a s IH]; intros [|b t]; cbn; auto.
  destruct (N.ltb_spec (code a) (code b)), (N.ltb_spec (code b) (code a)); auto.
Qed.

#[export] Instance str_le_total_order : TotalOrder str_le.
Proof.
  unfold str_le. repeat split.
  - intros s. by rewrite str_leb_refl.
  - intros s t u. rewrite !Is_true_true. apply str_leb_trans.
  - intros s t. rewrite !Is_true_true. apply str_leb_antisym.
  - intros s t. unfold strict. rewrite !Is_true_true.
    destruct (decide (s = t)) as [->|Hne]; [by right; left|].
    destruct (str_leb_total s t) as [H|H]; [left|right; right]; split; try done;
      intros H'; by apply Hne, str_leb_antisym.
Qed.

Lemma str_le_ne s t : str_le s t -> str_le t s -> s ≠ t -> False.
Proof. intros ? ? Hne. apply Hne. by apply (anti_symm str_le). Qed.

#[export] Hint Resolve TrimSpace_idemp : golib.
