(* ===== verification/GoNet.v ===== *)
(** Go's [net] package: host/port splitting and joining, and IP addresses.

    [net.IP] is a byte slice; it is modelled as a list of byte values, with the
    empty list for a nil address. *)
From stdpp Require Import strings.
From Stdlib Require Import Ascii.
From S2P Require Import Prelude GoStrings.

(** * Host and port *)

Fixpoint IndexByte (s : gostring) (c : byte) : option nat :=
  match s with
  | [] => None
  | d :: s' => if bool_decide (c = d) then Some 0 else S <$> IndexByte s' c
  end.

Fixpoint LastIndexByte (s : gostring) (c : byte) : option nat :=
  match s with
  | [] => None
  | d :: s' =>
      match LastIndexByte s' c with
      | Some i => Some (S i)
      | None => if bool_decide (c = d) then Some 0 else None
      end
  end.

Definition colon : byte := chr 58.
Definition dot : byte := chr 46.
Definition lbracket : byte := chr 91.
Definition rbracket : byte := chr 93.

Definition addrErr {A} (addr why : gostring) : result A := Err (Errorf why [addr]).

(** net.SplitHostPort *)
Definition SplitHostPort (hostport : gostring) : result (gostring * gostring) :=
  match LastIndexByte hostport colon with
  | None => addrErr hostport "missing port in address"
  | Some i =>
      do x <-
        match hostport with
        | c :: _ =>
            if bool_decide (c = lbracket) then
              match IndexByte hostport rbracket with
              | None => addrErr hostport "missing ']' in address"
              | Some e =>
                  if bool_decide (e + 1 = length hostport)
                  then addrErr hostport "missing port in address"
                  else if bool_decide (e + 1 = i)
                  then Ok (drop 1 (take e hostport), 1, e + 1)
                  else if bool_decide (hostport !! (e + 1) = Some colon)
                  then addrErr hostport "too many colons in address"
                  else addrErr hostport "missing port in address"
              end
            else
              let host := take i hostport in
              if bool_decide (colon ∈ host)
              then addrErr hostport "too many colons in address"
              else Ok (host, 0, 0)
        | [] => addrErr hostport "missing port in address"
        end;
      let '(host, j, k) := x in
      if bool_decide (lbracket ∈ drop j hostport)
      then addrErr hostport "unexpected '[' in address"
      else if bool_decide (rbracket ∈ drop k hostport)
      then addrErr hostport "unexpected ']' in address"
      else Ok (host, drop (i + 1) hostport)
  end.

(** net.JoinHostPort *)
Definition JoinHostPort (host port : gostring) : gostring :=
  if bool_decide (colon ∈ host)
  then [lbracket] ++ host ++ [rbracket; colon] ++ port
  else host ++ [colon] ++ port.

(** * IP addresses *)

Definition IP := list Z.

Definition v4InV6Prefix : IP := replicate 10 0%Z ++ [255; 255]%Z.
Definition IPv6loopback : IP := replicate 15 0%Z ++ [1%Z].

(** IP.To4: nil unless the address is an IPv4 address. *)
Definition To4 (ip : IP) : IP :=
  if bool_decide (length ip = 4) then ip
  else if bool_decide (length ip = 16 ∧ take 12 ip = v4InV6Prefix) then drop 12 ip
  else [].

(** IP.To16 *)
Definition To16 (ip : IP) : IP :=
  if bool_decide (length ip = 4) then v4InV6Prefix ++ ip
  else if bool_decide (length ip = 16) then ip
  else [].

(** IP.IsLoopback *)
Definition IsLoopback (ip : IP) : bool :=
  match To4 ip with
  | b :: _ => (b =? 127)%Z
  | [] => bool_decide (ip = IPv6loopback)
  end.

Definition is_v4 (ip : IP) : bool := bool_decide (To4 ip ≠ []).

(** ** Parsing *)

Definition digit_val (c : byte) : Z := Z.of_N (code c - 48).

Definition hex_val (c : byte) : option Z :=
  if is_digit c then Some (digit_val c)
  else if ((97 <=? code c) && (code c <=? 102))%N then Some (Z.of_N (code c - 87))
  else if ((65 <=? code c) && (code c <=? 70))%N then Some (Z.of_N (code c - 55))
  else None.

(** One decimal octet: digits only, no leading zero, at most 255. *)
Definition parse_octet (w : gostring) : option Z :=
  match w with
  | [] => None
  | c :: cs =>
      if negb (forallb is_digit w) then None
      else if bool_decide (c = chr 48 ∧ cs ≠ []) then None
      else
        let v := foldl (fun acc d => acc * 10 + digit_val d)%Z 0%Z w in
        if (v <=? 255)%Z then Some v else None
  end.

Definition parseIPv4 (s : gostring) : option IP :=
  match Split s dot with
  | [a; b; c; d] =>
      match parse_octet a, parse_octet b, parse_octet c, parse_octet d with
      | Some a', Some b', Some c', Some d' => Some [a'; b'; c'; d']
      | _, _, _, _ => None
      end
  | _ => None
  end.

Fixpoint span_hex (s : gostring) : list Z * gostring :=
  match s with
  | [] => ([], [])
  | c :: s' =>
      match hex_val c with
      | Some v => let '(vs, r) := span_hex s' in (v :: vs, r)
      | None => ([], s)
      end
  end.

(** The loop of the IPv6 parser: [acc] are the bytes stored so far and [ell] the
    position of the ellipsis.  Each round stores two bytes of sixteen, so eight
    rounds exhaust the address. *)
Fixpoint parseIPv6_loop (fuel : nat) (acc : IP) (ell : option nat) (s : gostring)
  : option (IP * option nat * gostring) :=
  match fuel with
  | O => Some (acc, ell, s)
  | S fuel' =>
      let '(hex, rest) := span_hex s in
      if bool_decide (hex = [] ∨ 4 < length hex) then None
      else if bool_decide (head rest = Some dot) then
        if bool_decide (ell = None ∧ length acc ≠ 12) then None
        else if bool_decide (16 < length acc + 4) then None
        else match parseIPv4 s with
             | Some v4 => Some (acc ++ v4, ell, [])
             | None => None
             end
      else
        let v := foldl (fun a d => a * 16 + d)%Z 0%Z hex in
        let acc' := acc ++ [(v / 256)%Z; (v mod 256)%Z] in
        match rest with
        | [] => Some (acc', ell, [])
        | c :: r1 =>
            if bool_decide (c ≠ colon) then None
            else match r1 with
                 | [] => None
                 | d :: r2 =>
                     if bool_decide (d = colon) then
                       match ell with
                       | Some _ => None
                       | None =>
                           match r2 with
                           | [] => Some (acc', Some (length acc'), [])
                           | _ => parseIPv6_loop fuel' acc' (Some (length acc')) r2
                           end
                       end
                     else parseIPv6_loop fuel' acc' ell r1
                 end
        end
  end.

Definition parseIPv6 (s : gostring) : option IP :=
  match CutPrefix s [colon; colon] with
  | Some [] => Some (replicate 16 0%Z)
  | pre =>
      let '(ell, s') := match pre with Some r => (Some 0, r) | None => (None, s) end in
      match parseIPv6_loop 8 [] ell s' with
      | Some (acc, ell', []) =>
          if bool_decide (length acc < 16) then
            match ell' with
            | None => None
            | Some e => Some (take e acc ++ replicate (16 - length acc) 0%Z ++ drop e acc)
            end
          else match ell' with None => Some acc | Some _ => None end
      | _ => None
      end
  end.

(** net.ParseIP: the 16-byte form, or nil.  An address with a zone is refused. *)
Definition ParseIP (s : gostring) : IP :=
  if bool_decide (chr 37 ∈ s) then []
  else
    match drop_while (fun c => negb (bool_decide (c = dot ∨ c = colon))) s with
    | c :: _ =>
        if bool_decide (c = dot)
        then match parseIPv4 s with Some v => v4InV6Prefix ++ v | None => [] end
        else default [] (parseIPv6 s)
    | [] => []
    end.

(** ** Printing *)

Definition hex_digit (z : Z) : byte :=
  if (z <? 10)%Z then ascii_of_N (Z.to_N (48 + z)) else ascii_of_N (Z.to_N (87 + z)).

Definition hex16 (z : Z) : gostring :=
  let ds := [z / 4096; (z / 256) mod 16; (z / 16) mod 16; z mod 16]%Z in
  match drop_while (fun c => bool_decide (c = chr 48)) (hex_digit <$> ds) with
  | [] => [chr 48]
  | ws => ws
  end.

Fixpoint groups16 (ip : IP) : list Z :=
  match ip with
  | a :: b :: ip' => (a * 256 + b)%Z :: groups16 ip'
  | _ => []
  end.

Fixpoint zero_run (gs : list Z) : nat :=
  match gs with
  | 0%Z :: gs' => S (zero_run gs')
  | _ => 0
  end.

(** The first longest run of at least two zero groups: start and end. *)
Definition best_run (gs : list Z) : option (nat * nat) :=
  foldl (fun best i =>
    let l := zero_run (drop i gs) in
    let cur := match best with Some (s, e) => e - s | None => 0 end in
    if bool_decide (2 ≤ l ∧ cur < l) then Some (i, i + l) else best)
    None (seq 0 8).

Definition IPv6String (ip : IP) : gostring :=
  let gs := groups16 ip in
  match best_run gs with
  | None => Join (hex16 <$> gs) [colon]
  | Some (s, e) =>
      Join (hex16 <$> take s gs) [colon] ++ [colon; colon] ++
      Join (hex16 <$> drop e gs) [colon]
  end.

(** IP.String *)
Definition IPString (ip : IP) : gostring :=
  match ip with
  | [] => "<nil>"
  | _ =>
      match To4 ip with
      | [a; b; c; d] => Join (Itoa <$> [a; b; c; d]) [dot]
      | _ =>
          if bool_decide (length ip = 16) then IPv6String ip
          else "?" ++ mjoin ((fun z => [hex_digit (z / 16); hex_digit (z mod 16)]) <$> ip)
      end
  end.

(** * Lemmas *)

Lemma LastIndexByte_None s c : LastIndexByte s c = None <-> c ∉ s.
Proof.
  induction s as [|d s IH]; cbn; [split; [intros _; apply not_elem_of_nil|done]|].
  rewrite not_elem_of_cons, <-IH. destruct (LastIndexByte s c).
  - split; [done|by intros []].
  - case_bool_decide; [by split; [|intros []]|done].
Qed.

Lemma LastIndexByte_app s c t : c ∉ t -> LastIndexByte (s ++ c :: t) c = Some (length s).
Proof.
  intros Ht. induction s as [|d s IH]; cbn; [|by rewrite IH].
  rewrite (proj2 (LastIndexByte_None t c)) by done. by rewrite bool_decide_eq_true_2.
Qed.

Lemma LastIndexByte_Some s c i :
  LastIndexByte s c = Some i -> exists a b, s = a ++ c :: b ∧ length a = i ∧ c ∉ b.
Proof.
  revert i; induction s as [|d s IH]; intros i; cbn; [done|].
  destruct (LastIndexByte s c) as [j|] eqn:E.
  - intros [= <-]. destruct (IH j eq_refl) as (a & b & -> & <- & ?).
    by exists (d :: a), b.
  - case_bool_decide; [|done]. intros [= <-]. subst.
    exists [], s. split_and!; [done..|by apply LastIndexByte_None].
Qed.

Lemma IndexByte_app s c t : c ∉ s -> IndexByte (s ++ c :: t) c = Some (length s).
Proof.
  induction s as [|d s IH]; cbn; [by rewrite bool_decide_eq_true_2|].
  rewrite not_elem_of_cons. intros [? ?]. rewrite bool_decide_eq_false_2 by done.
  by rewrite IH.
Qed.

Lemma IndexByte_Some s c i :
  IndexByte s c = Some i -> exists a b, s = a ++ c :: b ∧ length a = i ∧ c ∉ a.
Proof.
  revert i; induction s as [|d s IH]; intros i; cbn; [done|].
  case_bool_decide; [subst; intros [= <-]; exists [], s; split_and!; set_solver|].
  destruct (IndexByte s c) as [j|] eqn:E; cbn; [|done]. intros [= <-].
  destruct (IH j eq_refl) as (a & b & -> & <- & ?).
  exists (d :: a), b. split_and!; [done..|set_solver].
Qed.

Lemma app_split_at {A} (a b x y : list A) c d :
  a ++ c :: b = x ++ d :: y -> length a = S (length x) -> a = x ++ [d] ∧ y = c :: b.
Proof.
  intros H Hl. change (d :: y) with ([d] ++ y) in H. rewrite app_assoc in H.
  apply app_inj_1 in H as [-> Hy]; [by split|].
  rewrite length_app; cbn; lia.
Qed.

Lemma drop_past {A} (a : list A) c b : drop (length a + 1) (a ++ c :: b) = b.
Proof.
  rewrite drop_app_ge by lia. by replace (length a + 1 - length a) with 1 by lia.
Qed.

(** The shape of the addresses [SplitHostPort] accepts. *)
Definition hostport_shape (hp h p : gostring) : Prop :=
  colon ∉ p ∧ lbracket ∉ p ∧ rbracket ∉ p ∧ lbracket ∉ h ∧ rbracket ∉ h ∧
  (hp = h ++ colon :: p ∧ colon ∉ h ∨ hp = lbracket :: h ++ rbracket :: colon :: p).

Lemma SplitHostPort_bracket_shape (x a b : gostring) :
  a ++ colon :: b = x -> colon ∉ b -> head x = Some lbracket ->
  forall e, IndexByte x rbracket = Some e -> e + 1 = length a ->
  lbracket ∉ drop 1 x -> rbracket ∉ drop (e + 1) x ->
  hostport_shape x (drop 1 (take e x)) (drop (length a + 1) x).
Proof.
  intros <- Hb Hh e He Hea Hl Hr.
  apply IndexByte_Some in He as (u & v & Huv & <- & Hu).
  destruct (app_split_at _ _ _ _ _ _ Huv ltac:(lia)) as [-> ->].
  rewrite drop_past. rewrite <-app_assoc in Hh, Hl, Hr |- *. cbn [app] in *.
  rewrite drop_past in Hr. rewrite take_app_length.
  destruct u as [|u0 u]; [by injection Hh|]. injection Hh as ->. cbn [drop app] in *.
  rewrite drop_0 in *. split_and!; [set_solver..|by right].
Qed.

(** What a successful split says about its input. *)
Lemma SplitHostPort_Ok hp h p : SplitHostPort hp = Ok (h, p) -> hostport_shape hp h p.
Proof.
  unfold SplitHostPort. destruct (LastIndexByte hp colon) as [i|] eqn:Ei; [|done].
  apply LastIndexByte_Some in Ei as (a & b & Ehp & <- & Hb).
  destruct hp as [|c t] eqn:Eh; [by destruct a|]. rewrite <-Eh in Ehp |- *.
  case_bool_decide as Hc; cbn [rbind].
  - destruct (IndexByte hp rbracket) as [e|] eqn:Ee; [|done].
    case_bool_decide; [done|]. case_bool_decide as Hi; [|by case_bool_decide].
    cbn [rbind]. case_bool_decide as H1; [done|]. case_bool_decide as H2; [done|].
    intros [= <- <-]. eapply SplitHostPort_bracket_shape; try done. by rewrite Eh, Hc.
  - rewrite Ehp, take_app_length. case_bool_decide as Ha; [done|]. cbn [rbind].
    rewrite !drop_0. case_bool_decide as H1; [done|]. case_bool_decide as H2; [done|].
    intros [= <- <-]. rewrite drop_past. split_and!; [set_solver..|by left].
Qed.

(** Every address of that shape is split into its parts. *)
Lemma SplitHostPort_shape hp h p : hostport_shape hp h p -> SplitHostPort hp = Ok (h, p).
Proof.
  intros (Hp & Hpl & Hpr & Hl & Hr & [[-> Hc]| ->]); unfold SplitHostPort.
  - rewrite LastIndexByte_app by done.
    destruct (h ++ colon :: p) as [|c t] eqn:E; [by destruct h|].
    rewrite bool_decide_eq_false_2
      by (destruct h; cbn in E; injection E; intros; subst; [by vm_compute|set_solver]).
    rewrite <-E, take_app_length, bool_decide_eq_false_2 by done. cbn [rbind].
    rewrite !drop_0, drop_past. by rewrite !bool_decide_eq_false_2 by set_solver.
  - remember (lbracket :: h ++ rbracket :: colon :: p) as s eqn:E1.
    assert (E2 : s = (lbracket :: h ++ [rbracket]) ++ colon :: p)
      by (rewrite E1; cbn; by rewrite <-app_assoc).
    change (lbracket :: h ++ rbracket :: colon :: p)
      with ((lbracket :: h) ++ rbracket :: colon :: p) in E1.
    assert (Hi : IndexByte s rbracket = Some (length (lbracket :: h)))
      by (rewrite E1; apply IndexByte_app; set_solver).
    assert (Hj : LastIndexByte s colon = Some (length (lbracket :: h ++ [rbracket])))
      by (rewrite E2; by apply LastIndexByte_app).
    assert (Hl1 : length (lbracket :: h) + 1 <> length s)
      by (rewrite E1, !length_app; cbn; lia).
    assert (Hl2 : length (lbracket :: h) + 1 = length (lbracket :: h ++ [rbracket]))
      by (cbn; rewrite !length_app; cbn; lia).
    assert (Hd : drop (length (lbracket :: h ++ [rbracket]) + 1) s = p)
      by (rewrite E2; apply drop_past).
    rewrite Hj, Hi, Hd, Hl2, E1. cbn [app]. rewrite bool_decide_eq_true_2 by done.
    rewrite bool_decide_eq_false_2 by (cbn; rewrite !length_app; cbn; lia). rewrite bool_decide_eq_true_2 by done.
    cbn [rbind]. rewrite <-Hl2.
    change (lbracket :: h ++ rbracket :: colon :: p)
      with ((lbracket :: h) ++ rbracket :: colon :: p).
    rewrite take_app_length, drop_past.
    cbn [drop app]. rewrite !drop_0. by rewrite !bool_decide_eq_false_2 by set_solver.
Qed.

(** Joining and splitting again gives the parts back. *)
Lemma SplitHostPort_JoinHostPort h p :
  lbracket ∉ h -> rbracket ∉ h -> colon ∉ p -> lbracket ∉ p -> rbracket ∉ p ->
  SplitHostPort (JoinHostPort h p) = Ok (h, p).
Proof.
  intros. apply SplitHostPort_shape. unfold JoinHostPort.
  case_bool_decide; split_and!; try done; [by right|by left].
Qed.

Lemma SplitHostPort_no_colon s : colon ∉ s -> is_ok (SplitHostPort s) = false.
Proof.
  intros Hs. unfold SplitHostPort. by rewrite (proj2 (LastIndexByte_None s colon) Hs).
Qed.

(** ** What ParseIP returns *)

Definition is_octet (b : Z) : Prop := (0 <= b < 256)%Z.

Lemma parse_octet_range w v : parse_octet w = Some v -> is_octet v.
Proof.
  unfold parse_octet. destruct w as [|c cs]; [done|]. case_match; [done|]. case_match; [done|].
  set (f := fun acc d => (acc * 10 + digit_val d)%Z).
  assert (Hn : forall l a, (0 <= a)%Z -> (0 <= foldl f a l)%Z).
  { induction l as [|d l IH]; intros a Ha; [done|]. apply IH. unfold f, digit_val. lia. }
  pose proof (Hn (c :: cs) 0%Z ltac:(done)) as Hx. revert Hx.
  generalize (foldl f 0%Z (c :: cs)) as x. intros x Hx.
  destruct (Z.leb_spec x 255); [|done]. intros [= <-]. split; lia.
Qed.

Lemma parseIPv4_bytes s ip : parseIPv4 s = Some ip -> length ip = 4 ∧ Forall is_octet ip.
Proof.
  unfold parseIPv4. do 5 (case_match; try done).
  destruct (parse_octet _) as [a|] eqn:Ea; [|done]. destruct (parse_octet _) as [b|] eqn:Eb in |- *; [|done].
  destruct (parse_octet _) as [c|] eqn:Ec in |- *; [|done]. destruct (parse_octet _) as [d|] eqn:Ed in |- *; [|done].
  intros [= <-]. split; [done|]. repeat constructor; by eapply parse_octet_range.
Qed.

Lemma span_hex_range s : Forall (fun v => (0 <= v < 16)%Z) (span_hex s).1.
Proof.
  induction s as [|c s IH]; cbn; [constructor|]. destruct (hex_val c) as [v|] eqn:E; [|constructor].
  destruct (span_hex s) as [vs r]. constructor; [|done].
  clear -E. revert E. destruct c as [[] [] [] [] [] [] [] []]; vm_compute; intros [= <-]; split; done || lia.
Qed.

Lemma hex_group_range hex :
  Forall (fun v => (0 <= v < 16)%Z) hex -> length hex <= 4 ->
  (0 <= foldl (fun a d => a * 16 + d) 0 hex < 65536)%Z.
Proof.
  intros Hf Hl. do 5 (try destruct hex as [|? hex]; [..|]); cbn [length] in Hl; try lia;
    repeat match goal with H : Forall _ (_ :: _) |- _ => inversion H; clear H; subst end; cbn [foldl]; lia.
Qed.

Definition v6_progress (st : IP * option nat) : Prop :=
  Forall is_octet st.1 ∧ match st.2 with Some e => e <= length st.1 | None => True end.

Lemma parseIPv6_loop_bytes fuel acc ell s r :
  length acc + 2 * fuel = 16 -> v6_progress (acc, ell) ->
  parseIPv6_loop fuel acc ell s = Some r -> v6_progress r.1 ∧ length r.1.1 <= 16.
Proof.
  revert acc ell s r. induction fuel as [|fuel IH]; intros acc ell s r Hlen Hp; cbn [parseIPv6_loop].
  { intros [= <-]. split; [done|cbn; lia]. }
  pose proof (span_hex_range s) as Hh. destruct (span_hex s) as [hex rest]. cbn [fst] in Hh.
  destruct (bool_decide_reflect (hex = [] ∨ 4 < length hex)) as [|Hhex]; [done|].
  destruct Hp as [Hacc Hell]. cbn [fst snd] in *.
  case_bool_decide.
  { case_bool_decide; [done|]. case_bool_decide; [done|].
    destruct (parseIPv4 s) as [v4|] eqn:E4; [|done]. intros [= <-].
    apply parseIPv4_bytes in E4 as [Hl4 Hb4]. unfold v6_progress; cbn [fst snd].
    rewrite length_app. split_and!; [by apply Forall_app|destruct ell; lia|lia]. }
  pose proof (hex_group_range hex Hh ltac:(lia)) as Hv. set (v := foldl _ _ hex) in *.
  set (acc' := acc ++ [(v / 256)%Z; (v mod 256)%Z]).
  assert (Hl' : length acc' = length acc + 2) by (unfold acc'; by rewrite length_app).
  assert (Ha' : Forall is_octet acc').
  { apply Forall_app. split; [done|]. repeat constructor; unfold is_octet.
    - apply Z.div_pos; lia.
    - apply Z.div_lt_upper_bound; lia.
    - apply Z.mod_pos_bound; lia.
    - apply Z.mod_pos_bound; lia. }
  assert (He' : match ell with Some e => e <= length acc' | None => True end) by (destruct ell; lia).
  destruct rest as [|c r1].
  { intros [= <-]. split; [done|cbn; lia]. }
  case_bool_decide; [done|]. destruct r1 as [|d r2]; [done|]. case_bool_decide.
  - destruct ell; [done|]. destruct r2 as [|x r2].
    + intros [= <-]. split; [split; cbn; [done|lia]|cbn; lia].
    + apply IH; [lia|]. split; [done|cbn; lia].
  - apply IH; [lia|]. by split.
Qed.

Lemma parseIPv6_bytes s ip : parseIPv6 s = Some ip -> length ip = 16 ∧ Forall is_octet ip.
Proof.
  assert (Hz : forall n, Forall is_octet (replicate n 0%Z)).
  { intros n. apply Forall_replicate. unfold is_octet. lia. }
  unfold parseIPv6. intros Hs.
  assert (Hgo : forall ell s', match ell with Some e => e = 0 | None => True end ->
    match parseIPv6_loop 8 [] ell s' with
    | Some (acc, ell', []) =>
        if bool_decide (length acc < 16) then
          match ell' with
          | None => None
          | Some e => Some (take e acc ++ replicate (16 - length acc) 0%Z ++ drop e acc)
          end
        else match ell' with None => Some acc | Some _ => None end
    | _ => None
    end = Some ip -> length ip = 16 ∧ Forall is_octet ip).
  { clear Hs. intros ell s' Hell Hr. destruct (parseIPv6_loop 8 [] ell s') as [[[acc ell'] rest]|] eqn:E; [|done].
    apply parseIPv6_loop_bytes in E as [[Hb He] Hl]; [|done|split; [constructor|by destruct ell; cbn in *; lia]].
    cbn [fst snd] in *. destruct rest; [|done]. case_bool_decide.
    - destruct ell' as [e|]; [|done]. injection Hr as <-.
      rewrite !length_app, length_take, length_drop, length_replicate. split; [lia|].
      rewrite !Forall_app. split_and!; [by apply Forall_take|apply Hz|by apply Forall_drop].
    - destruct ell'; [done|]. injection Hr as <-. split; [lia|done]. }
  destruct (CutPrefix s [colon; colon]) as [[|x r]|].
  - injection Hs as <-. split; [done|apply (Hz 16)].
  - by eapply (Hgo (Some 0)).
  - by eapply (Hgo None).
Qed.

Lemma ParseIP_bytes s : ParseIP s <> [] -> length (ParseIP s) = 16 ∧ Forall is_octet (ParseIP s).
Proof.
  unfold ParseIP. case_bool_decide; [done|]. case_match; [done|]. case_bool_decide.
  - destruct (parseIPv4 s) as [v|] eqn:E; [|done]. intros _. apply parseIPv4_bytes in E as [Hl Hb].
    rewrite length_app, Hl. split; [done|]. apply Forall_app. split; [|done].
    repeat constructor; unfold is_octet; lia.
  - destruct (parseIPv6 s) as [v|] eqn:E; [|done]. intros _. by apply parseIPv6_bytes in E.
Qed.

(** ** The characters of an address *)

Definition addr_byte (c : byte) : bool :=
  bool_decide (is_Some (hex_val c)) || bool_decide (c = dot) || bool_decide (c = colon).

Lemma digit_addr_byte c : is_digit c = true -> addr_byte c = true.
Proof. unfold addr_byte, hex_val. by intros ->. Qed.

Lemma parse_octet_digits w v : parse_octet w = Some v -> forallb is_digit w = true.
Proof. unfold parse_octet. destruct w as [|c cs]; [done|]. by destruct (forallb is_digit (c :: cs)). Qed.

Lemma digits_addr w : forallb is_digit w = true -> forallb addr_byte w = true.
Proof. rewrite !forallb_forall. intros Hw c Hc. by apply digit_addr_byte, Hw. Qed.

Lemma parseIPv4_chars s ip : parseIPv4 s = Some ip -> forallb addr_byte s = true.
Proof.
  unfold parseIPv4. destruct (Split s dot) as [|a [|b [|c [|d [|]]]]] eqn:Es; try done.
  destruct (parse_octet a) eqn:Ea; [|done]. destruct (parse_octet b) eqn:Eb; [|done].
  destruct (parse_octet c) eqn:Ec; [|done]. destruct (parse_octet d) eqn:Ed; [|done]. intros _.
  apply parse_octet_digits, digits_addr in Ea, Eb, Ec, Ed. rewrite <-(Join_Split s dot), Es.
  rewrite !Join_cons by done. rewrite !forallb_app. cbn [Join]. by rewrite Ea, Eb, Ec, Ed.
Qed.

Lemma span_hex_chars s : exists h, s = h ++ (span_hex s).2 ∧ forallb addr_byte h = true.
Proof.
  induction s as [|c s IH]; cbn; [by exists []|]. destruct (hex_val c) as [v|] eqn:E; [|by exists []].
  destruct IH as (h & Hs & Hh). destruct (span_hex s) as [vs r]. cbn in *. exists (c :: h). rewrite Hs at 1.
  split; [done|]. cbn. rewrite Hh. unfold addr_byte. by rewrite E.
Qed.

Lemma parseIPv6_loop_chars fuel acc ell s acc' ell' :
  parseIPv6_loop fuel acc ell s = Some (acc', ell', []) -> forallb addr_byte s = true.
Proof.
  revert acc ell s. induction fuel as [|fuel IH]; intros acc ell s; cbn [parseIPv6_loop]; [by intros [= _ _ ->]|].
  destruct (span_hex_chars s) as (h & Hs & Hh). destruct (span_hex s) as [hex rest]. cbn [snd] in Hs.
  case_bool_decide; [done|]. case_bool_decide.
  { case_bool_decide; [done|]. case_bool_decide; [done|].
    destruct (parseIPv4 s) eqn:E; [|done]. intros _. by eapply parseIPv4_chars. }
  subst s. rewrite forallb_app, Hh. cbn [andb]. destruct rest as [|c r1]; [done|].
  destruct (bool_decide_reflect (c ≠ colon)) as [|Hc]; [done|]. apply dec_stable in Hc. subst c.
  destruct r1 as [|d r2]; [done|]. case_bool_decide as Hd.
  - subst d. destruct ell; [done|]. destruct r2 as [|x r2]; [done|]. intros H'. by apply IH in H'.
  - intros H'. apply IH in H'. cbn [forallb] in *. exact H'.
Qed.

(** An address consists of hexadecimal digits, dots and colons only. *)
Lemma ParseIP_chars s : ParseIP s <> [] -> forallb addr_byte s = true.
Proof.
  unfold ParseIP. case_bool_decide; [done|]. case_match; [done|]. case_bool_decide.
  { destruct (parseIPv4 s) eqn:E; [|done]. intros _. by eapply parseIPv4_chars. }
  destruct (parseIPv6 s) as [ip|] eqn:E; [|done]. intros _. unfold parseIPv6 in E.
  destruct (CutPrefix s [colon; colon]) as [r|] eqn:Ec.
  - apply CutPrefix_Some in Ec as ->. destruct r as [|x r]; [done|].
    destruct (parseIPv6_loop 8 [] (Some 0) (x :: r)) as [[[acc ell] [|]]|] eqn:El; try done.
    by apply parseIPv6_loop_chars in El.
  - destruct (parseIPv6_loop 8 [] None s) as [[[acc ell] [|]]|] eqn:El; try done.
    by apply parseIPv6_loop_chars in El.
Qed.

(** ** Printing and parsing IPv4 addresses *)

Lemma parse_octet_Itoa b : is_octet b -> parse_octet (Itoa b) = Some b ∧ dot ∉ Itoa b ∧ chr 37 ∉ Itoa b.
Proof.
  intros Hb. assert (Hall : forallb (fun n => bool_decide (parse_octet (Itoa (Z.of_nat n)) = Some (Z.of_nat n) ∧
    dot ∉ Itoa (Z.of_nat n) ∧ chr 37 ∉ Itoa (Z.of_nat n))) (seq 0 256) = true) by (vm_compute; reflexivity).
  rewrite forallb_forall in Hall. specialize (Hall (Z.to_nat b)). unfold is_octet in Hb.
  rewrite Z2Nat.id in Hall by lia. apply (bool_decide_eq_true_1 _), Hall, in_seq. lia.
Qed.

Lemma ParseIP_v4 a b c d :
  is_octet a -> is_octet b -> is_octet c -> is_octet d ->
  ParseIP (Join (Itoa <$> [a; b; c; d]) [dot]) = v4InV6Prefix ++ [a; b; c; d].
Proof.
  intros Ha Hb Hc Hd. destruct (parse_octet_Itoa a Ha) as (Pa & Da & Xa). destruct (parse_octet_Itoa b Hb) as (Pb & Db & Xb).
  destruct (parse_octet_Itoa c Hc) as (Pc & Dc & Xc). destruct (parse_octet_Itoa d Hd) as (Pd & Dd & Xd).
  set (s := Join (Itoa <$> [a; b; c; d]) [dot]).
  assert (Hs : Split s dot = [Itoa a; Itoa b; Itoa c; Itoa d]).
  { apply Split_Join; [done|]. cbn [fmap list_fmap]. by repeat constructor. }
  assert (Hp : parseIPv4 s = Some [a; b; c; d]) by (unfold parseIPv4; by rewrite Hs, Pa, Pb, Pc, Pd).
  unfold ParseIP. rewrite bool_decide_eq_false_2; cycle 1.
  { unfold s. cbn [fmap list_fmap]. rewrite !Join_cons by done. cbn [Join].
    rewrite !elem_of_app, !list_elem_of_singleton. intuition done. }
  assert (Hdw : exists t, drop_while (fun x => negb (bool_decide (x = dot ∨ x = colon))) s = dot :: t).
  { unfold s. cbn [fmap list_fmap]. rewrite Join_cons by done. cbn [app].
    apply parse_octet_digits in Pa. revert Pa. clear. induction (Itoa a) as [|x l IH]; intros Hx; cbn [app drop_while].
    - rewrite bool_decide_eq_true_2 by by left. cbn. eauto.
    - cbn [forallb] in Hx. apply andb_true_iff in Hx as [Hx Hl]. rewrite bool_decide_eq_false_2; [by apply IH|].
      by intros [->| ->]. }
  destruct Hdw as [t ->]. rewrite bool_decide_eq_true_2 by done. by rewrite Hp.
Qed.

Lemma list_len4 {A} (l : list A) : length l = 4 -> exists a b c d, l = [a; b; c; d].
Proof. destruct l as [|a [|b [|c [|d [|]]]]]; try done. intros _. by exists a, b, c, d. Qed.

(** The text of an IPv4 address (in its 16-byte form) parses back to it. *)
Lemma ParseIP_IPString ip :
  length ip = 16 -> Forall is_octet ip -> To4 ip <> [] -> ParseIP (IPString ip) = ip.
Proof.
  intros Hl Hb H4. assert (Hs : To4 ip = drop 12 ip ∧ take 12 ip = v4InV6Prefix).
  { revert H4. unfold To4. rewrite bool_decide_eq_false_2 by lia. case_bool_decide as Hc; [|done]. intuition. }
  destruct Hs as [E4 E12]. destruct (list_len4 (drop 12 ip)) as (a & b & c & d & Hd); [by rewrite length_drop, Hl|].
  assert (Hip : ip = v4InV6Prefix ++ [a; b; c; d]) by (rewrite <-E12, <-Hd; by rewrite take_drop).
  assert (Ho : Forall is_octet [a; b; c; d]) by (rewrite <-Hd; by apply Forall_drop).
  unfold IPString. destruct ip as [|x ip']; [done|]. rewrite E4, Hd.
  rewrite !Forall_cons in Ho. destruct Ho as (? & ? & ? & ? & _). rewrite ParseIP_v4 by done. by rewrite Hip.
Qed.
