(* ===== verification/External.v ===== *)
(** The code outside the repository that several components call, as operations
    of a class: [golang.org/x/net/idna], and [net/url]'s parser, whose treatment
    of bracketed hosts differs between the Go patch releases that go.mod admits.
    What the program relies on is stated as laws of a second class, and a
    concrete instance shows that the laws can hold. *)
From stdpp Require Import strings.
From Stdlib Require Import Ascii.
From S2P Require Import Prelude GoStrings GoNet.

(** The fields of [url.URL] the program reads. *)
Record URL := {
  Scheme : gostring;
  URLHost : gostring;
  URLUser : option (gostring * option gostring);
}.

Class Externals := {
  ext_unicode :: Unicode;
  idna_ToASCII : gostring -> result gostring;
  url_Parse : gostring -> result URL;
}.

(** * LDH host names

    Dot-separated labels of lower-case letters, digits and inner hyphens, with
    no double hyphen in the third and fourth place (which would announce a
    Punycode label). *)
Definition ldh_byte (c : byte) : bool :=
  is_lower c || is_digit c || bool_decide (c = chr 45).

Definition hyphen_edge (w : gostring) : bool :=
  bool_decide (head w = Some (chr 45)) || bool_decide (last w = Some (chr 45)).

Definition ldh_label (w : gostring) : bool :=
  negb (bool_decide (w = [])) && forallb ldh_byte w && negb (hyphen_edge w) &&
  negb (bool_decide (take 2 (drop 2 w) = [chr 45; chr 45])).

Definition ldh_host (h : gostring) : bool := forallb ldh_label (Split h dot).

(** Documented behaviour of [idna.Lookup.ToASCII]: LDH names are returned as
    they are, every result is ASCII, by the STD3 rules a name with a colon or with white
    space is refused, and the dot of the DNS root at the end of a name is kept.  These two
    are stated for the lower-case form of a name, which is what the program passes on.
    Unicode lower-casing is idempotent and maps no letter to or from white space. *)
Class ExternalLaws `{Externals} : Prop := {
  unicode_lower s : is_ascii s = false -> TrimSpace s = s ->
    ToLower (TrimSpace (unicode_ToLower s)) = unicode_ToLower s;
  idna_ldh h : ldh_host h = true -> idna_ToASCII h = Ok h;
  idna_ascii h r : idna_ToASCII h = Ok r -> is_ascii r = true;
  idna_std3 h r : idna_ToASCII (ToLower h) = Ok r -> colon ∉ h;
  idna_root h r : idna_ToASCII (ToLower (h ++ ".")) = Ok r ->
    TrimSpace h = h ∧ exists r', idna_ToASCII (ToLower h) = Ok r' ∧ r = r' ++ ".";
}.

(** ** A concrete instance

    Used by the witnesses: non-LDH names are refused, the Unicode slow paths
    leave strings alone, and the URL parser reads [scheme://host/rest]. *)
Definition simple_url_Parse (s : gostring) : result URL :=
  let '(scheme, rest, found) := Cut s "://" in
  if found then
    let '(host, _, _) := Cut rest "/" in
    Ok {| Scheme := scheme; URLHost := host; URLUser := None |}
  else Err (External "url").

Definition simple_externals : Externals := {|
  ext_unicode := {| unicode_ToLower s := s; unicode_EqualFold s t := bool_decide (s = t) |};
  idna_ToASCII h := if ldh_host h then Ok h else Err (External "idna");
  url_Parse := simple_url_Parse;
|}.

Lemma ldh_byte_facts c : ldh_byte c = true ->
  is_ascii_byte c = true ∧ is_upper c = false ∧ graphic c = true ∧
  c <> colon ∧ c <> lbracket ∧ c <> rbracket ∧ c <> dot ∧ c ∉ "/?#*%".
Proof.
  destruct c as [[] [] [] [] [] [] [] []]; try discriminate; intros _; split_and!;
    solve [reflexivity|discriminate|eapply bool_decide_eq_false_1; reflexivity].
Qed.

(** Every byte of an LDH host is an LDH byte or a dot. *)
Lemma ldh_host_bytes h c : ldh_host h = true -> c ∈ h -> ldh_byte c = true ∨ c = dot.
Proof.
  unfold ldh_host. revert c. intros c Hh Hc.
  destruct (decide (c = dot)) as [|Hd]; [by right|]. left.
  rewrite <-(Join_Split h dot) in Hc.
  rewrite forallb_forall in Hh.
  assert (Hw : exists w, In w (Split h dot) ∧ c ∈ w).
  { clear Hh. induction (Split h dot) as [|w ws IH]; [by apply elem_of_nil in Hc|].
    destruct (decide (ws = [])) as [->|Hne]; [exists w; split; [by left|done]|].
    rewrite Join_cons in Hc by done.
    apply elem_of_app in Hc as [?|Hc]; [exists w; split; [by left|done]|].
    apply elem_of_app in Hc as [Hc%list_elem_of_singleton|Hc]; [done|].
    destruct (IH Hc) as (v & ? & ?). exists v. split; [by right|done]. }
  destruct Hw as (w & Hin & Hcw). apply Hh in Hin. unfold ldh_label in Hin.
  boolify. match goal with H : forallb _ w = true |- _ => rewrite forallb_forall in H; apply H end.
  by apply list_elem_of_In.
Qed.

Lemma ldh_host_ascii h : ldh_host h = true -> is_ascii h = true.
Proof.
  intros Hh. unfold is_ascii. apply forallb_forall. intros c Hc%list_elem_of_In.
  destruct (ldh_host_bytes h c Hh Hc) as [Hb| ->]; [by apply ldh_byte_facts|done].
Qed.

Lemma ldh_host_graphic h : ldh_host h = true -> forallb graphic h = true.
Proof.
  intros Hh. apply forallb_forall. intros c Hc%list_elem_of_In.
  destruct (ldh_host_bytes h c Hh Hc) as [Hb| ->]; [by apply ldh_byte_facts|done].
Qed.

Lemma ldh_host_avoids h c :
  ldh_host h = true -> c ∈ [colon; lbracket; rbracket] ++ "/?#*%" -> c ∉ h.
Proof.
  intros Hh Hc Hin. destruct (ldh_host_bytes h c Hh Hin) as [Hb| ->].
  - apply ldh_byte_facts in Hb. set_solver.
  - by vm_compute in Hc; repeat (apply elem_of_cons in Hc as [?|Hc]; [done|]); apply elem_of_nil in Hc.
Qed.

Lemma ldh_host_lower h : ldh_host h = true -> existsb is_upper h = false.
Proof.
  intros Hh. destruct (existsb is_upper h) eqn:E; [|done].
  apply existsb_exists in E as (c & Hc%list_elem_of_In & Hu).
  destruct (ldh_host_bytes h c Hh Hc) as [Hb| ->]; [|done].
  apply ldh_byte_facts in Hb. intuition congruence.
Qed.

(** No LDH host is empty or ends in a dot. *)
Lemma ldh_host_last h : ldh_host h = true -> exists c, last h = Some c ∧ c <> dot.
Proof.
  intros Hh. destruct (last h) as [c|] eqn:El.
  - exists c. split; [done|]. intros ->. apply last_Some in El as [h' ->].
    unfold ldh_host in Hh. change (h' ++ [dot]) with (h' ++ dot :: []) in Hh.
    rewrite Split_app_sep, forallb_app in Hh. by apply andb_true_iff in Hh as [_ ?].
  - by apply last_None in El as ->.
Qed.

#[export] Instance simple_laws : @ExternalLaws simple_externals.
Proof.
  split.
  - intros s Hs Ht. change (unicode_ToLower s) with s. rewrite Ht. unfold ToLower. by rewrite Hs.
  - intros h Hh. cbn. by rewrite Hh.
  - intros h r. cbn. destruct (ldh_host h) eqn:E; [|done]. intros [= <-]. by apply ldh_host_ascii.
  - intros h r. cbn. destruct (ldh_host (ToLower h)) eqn:E; [|done]. intros _ Hc. revert E. unfold ToLower. destruct (is_ascii h).
    + intros E. apply (ldh_host_avoids _ colon E); [by left|]. unfold ascii_ToLower. apply list_elem_of_fmap. by exists colon.
    + intros E. apply (ldh_host_avoids _ colon E); [by left|done].
  - intros h r. cbn. destruct (ldh_host (ToLower (h ++ "."))) eqn:E; [|done]. exfalso. apply ldh_host_last in E as (c & Hl & Hc).
    apply Hc. revert Hl. unfold ToLower. destruct (is_ascii (h ++ ".")); [unfold ascii_ToLower; rewrite fmap_app|]; cbn; rewrite last_snoc; by intros [= <-].
Qed.

Lemma keyword_idemp `{ExternalLaws} s : keyword (keyword s) = keyword s.
Proof.
  unfold keyword. set (t := TrimSpace s).
  assert (Ht : TrimSpace t = t) by apply TrimSpace_idemp.
  unfold ToLower at 2 3. destruct (is_ascii t) eqn:E; [|by apply unicode_lower].
  rewrite TrimSpace_lower by done.
  rewrite ToLower_ascii by by rewrite ascii_ToLower_ascii. apply ascii_ToLower_idemp.
Qed.
