(* ===== verification/World.v ===== *)
(** The operating system as the program sees it: files, JSON documents and the
    failures of system calls.

    A world holds the files, a schedule of faults and the settings [sys] that a
    platform component adds to it.  Every system call consumes one entry of the
    schedule: [None] lets the call run, [Some f] makes it fail with the error of
    [f]; a failing write may leave partial contents behind.  Theorems quantify
    over the schedule, so they cover every combination of failures. *)
From stdpp Require Import strings countable.
From Stdlib Require Import Ascii.
From S2P Require Import Prelude GoStrings.

Record fault := { fault_err : error; fault_partial : option gostring }.

Record World (X : Type) := {
  files : gmap gostring gostring;
  faults : list (option fault);
  sys : X;
}.
Arguments files {X} w.
Arguments faults {X} w.
Arguments sys {X} w.
Arguments Build_World {X}.

(** An effectful Go function that runs in such a world. *)
Definition IO (X A : Type) := ST (World X) A.

(** * System calls on files *)

Definition os_ErrNotExist : error := ErrorVar "os.ErrNotExist".
Definition os_ErrPermission : error := ErrorVar "os.ErrPermission".

Definition path_format : gostring := "%s %s: %w".
Definition PathError (op path : gostring) (e : error) : error := Wrapf path_format [op; path] e.

(** os.IsNotExist and os.IsPermission look through the error types of package os
    only, not through [fmt.Errorf] wrapping. *)
Definition os_underlying (e : error) : error :=
  match e with
  | Wrapf f _ inner => if bool_decide (f = path_format) then inner else e
  | _ => e
  end.
Definition os_IsNotExist (e : error) : bool := bool_decide (os_underlying e = os_ErrNotExist).
Definition os_IsPermission (e : error) : bool := bool_decide (os_underlying e = os_ErrPermission).

Definition set_files {X : Type} (f : gmap gostring gostring) (w : World X) : World X :=
  {| files := f; faults := faults w; sys := sys w |}.
Definition set_sys {X : Type} (x : X) (w : World X) : World X :=
  {| files := files w; faults := faults w; sys := x |}.

(** The next entry of the schedule; past its end nothing fails. *)
Definition next_fault {X : Type} (w : World X) : option fault * World X :=
  match faults w with
  | [] => (None, w)
  | f :: fs => (f, {| files := files w; faults := fs; sys := sys w |})
  end.

Section files.
Context {X : Type}.

(** A call that only reads or whose effect is not a file. *)
Definition os_call {A} (onerror : error -> error) (k : IO X A) : IO X A := fun w =>
  match next_fault w with
  | (Some f, w') => (Err (onerror (fault_err f)), w')
  | (None, w') => k w'
  end.

Definition os_ReadFile (path : gostring) : IO X gostring :=
  os_call (PathError "open" path) (fun w =>
    match files w !! path with
    | Some d => (Ok d, w)
    | None => (Err (PathError "open" path os_ErrNotExist), w)
    end).

(** Writing [data]: [op] is the call a failure is reported for. *)
Definition os_put (op path data : gostring) : IO X unit := fun w =>
  match next_fault w with
  | (Some f, w') =>
      (Err (PathError op path (fault_err f)),
       match fault_partial f with
       | Some part => set_files (<[path := part]> (files w')) w'
       | None => w'
       end)
  | (None, w') => (Ok tt, set_files (<[path := data]> (files w')) w')
  end.

Definition os_WriteFile : gostring -> gostring -> IO X unit := os_put "open".
Definition os_Write : gostring -> gostring -> IO X unit := os_put "write".

Definition os_Remove (path : gostring) : IO X unit :=
  os_call (PathError "remove" path) (fun w =>
    match files w !! path with
    | Some _ => (Ok tt, set_files (delete path (files w)) w)
    | None => (Err (PathError "remove" path os_ErrNotExist), w)
    end).

(** Directories are not part of the world: creating one either succeeds or fails. *)
Definition os_MkdirAll (dir : gostring) : IO X unit :=
  os_call (PathError "mkdir" dir) (io_ret tt).

(** os.CreateTemp: a new empty file whose name no other file has. *)
Fixpoint temp_name (fuel : nat) (fs : gmap gostring gostring) (name : gostring) : gostring :=
  match fuel with
  | O => name
  | S fuel' => match fs !! name with
               | None => name
               | Some _ => temp_name fuel' fs (name ++ "0")
               end
  end.

Definition os_CreateTemp (dir pattern : gostring) : IO X gostring :=
  os_call (PathError "createtemp" dir) (fun w =>
    let name := temp_name (S (size (files w))) (files w) (dir ++ "/" ++ pattern) in
    (Ok name, set_files (<[name := []]> (files w)) w)).

(** Closing a file; a failure is reported, the file stays as it is. *)
Definition os_Close (name : gostring) : IO X unit :=
  os_call (PathError "close" name) (io_ret tt).
End files.

(** * Context cancellation

    [ctx.Err()] at the point where a function asks for it. *)
Definition ctx_Err {X : Type} (ctxErr : option error) : IO X unit :=
  match ctxErr with
  | Some e => io_err e
  | None => io_ret tt
  end.

(** * JSON documents *)

#[warnings="-register-all"]
Inductive json :=
| JNull
| JBool (b : bool)
| JNum (z : Z)
| JStr (s : gostring)
| JArr (l : list json)
| JObj (fields : list (gostring * json)).

(** Well-formed UTF-8, the strings that survive encoding/json unchanged. *)
Definition utf8_cont (c : byte) : bool := ((128 <=? code c) && (code c <=? 191))%N.
Definition utf8_between (lo hi : N) (c : byte) : bool := ((lo <=? code c) && (code c <=? hi))%N.

Fixpoint utf8_fuel (fuel : nat) (s : gostring) : bool :=
  match fuel with
  | O => true
  | S fuel' =>
      match s with
      | [] => true
      | a :: s1 =>
          if utf8_between 0 127 a then utf8_fuel fuel' s1
          else match s1 with
               | b :: s2 =>
                   if utf8_between 194 223 a then utf8_cont b && utf8_fuel fuel' s2
                   else match s2 with
                        | c :: s3 =>
                            let second :=
                              if (code a =? 224)%N then utf8_between 160 191 b
                              else if (code a =? 237)%N then utf8_between 128 159 b
                              else utf8_cont b in
                            if utf8_between 224 239 a
                            then second && utf8_cont c && utf8_fuel fuel' s3
                            else match s3 with
                                 | d :: s4 =>
                                     let second4 :=
                                       if (code a =? 240)%N then utf8_between 144 191 b
                                       else if (code a =? 244)%N then utf8_between 128 143 b
                                       else utf8_cont b in
                                     utf8_between 240 244 a && second4 &&
                                     utf8_cont c && utf8_cont d && utf8_fuel fuel' s4
                                 | [] => false
                                 end
                        | [] => false
                        end
               | [] => false
               end
      end
  end.
Definition utf8_ValidString (s : gostring) : bool := utf8_fuel (length s) s.

Fixpoint json_utf8 (j : json) : bool :=
  match j with
  | JStr s => utf8_ValidString s
  | JArr l => forallb json_utf8 l
  | JObj fs => forallb (fun kv => utf8_ValidString kv.1 && json_utf8 kv.2) fs
  | _ => true
  end.

(** A [time.Time], in nanoseconds since the year 1; encoding/json accepts the
    years up to 9999. *)
Definition Time := Z.

(** Successive readings of the clock in a loop that sleeps for [pause] after each turn;
    the first one is made before the loop. *)
Definition ticks (pause : Z) (times : nat -> Time) : Prop :=
  (times 0%nat <= times 1%nat)%Z ∧ forall i, (times (S i) + pause <= times (S (S i)))%Z.

Lemma ticks_after pause times k : ticks pause times -> (times 0%nat + Z.of_nat k * pause <= times (S k))%Z.
Proof. intros [H0 Hs]. induction k as [|k IH]; [lia|]. specialize (Hs k). rewrite Nat2Z.inj_succ. lia. Qed.

(** Before a deadline of [n] pauses there are at most [n] turns. *)
Lemma ticks_deadline pause times n i :
  ticks pause times -> (0 < pause)%Z -> (times (S i) < times 0%nat + Z.of_nat n * pause)%Z -> (i < n)%nat.
Proof. intros Ht Hp Hd. pose proof (ticks_after pause times i Ht). nia. Qed.
Definition time_encodable (t : Time) : bool :=
  ((0 <=? t) && (t <? 9999 * 365 * 86400 * 1000000000))%Z.

(** The concrete syntax of encoding/json and of RFC 3339 times, and the path
    functions of the platform the program is built for. *)
Class Encoding := {
  json_Marshal : json -> gostring;
  json_Unmarshal : gostring -> result json;
  time_Format : Time -> gostring;
  time_Parse : gostring -> result Time;
  filepath_Dir : gostring -> gostring;
  filepath_Abs : gostring -> result gostring;
  os_TempDir : gostring;
}.

(** Documented behaviour: what is encoded is decoded to the same value. *)
Class EncodingLaws `{Encoding} : Prop := {
  json_roundtrip j : json_utf8 j = true -> json_Unmarshal (json_Marshal j) = Ok j;
  time_roundtrip t : time_encodable t = true -> time_Parse (time_Format t) = Ok t;
  time_Format_utf8 t : utf8_ValidString (time_Format t) = true;
}.

(** ** Decoding into struct fields

    A missing field or a null keeps the zero value; a value of another type is
    an error.  The struct keys used by the program are lower case. *)
Definition UnmarshalTypeError (key : gostring) : error :=
  Errorf "json: cannot unmarshal value into Go struct field %s" [key].

Definition field (fields : list (gostring * json)) (key : gostring) : json :=
  match last (filter (fun kv => kv.1 = key) fields) with
  | Some kv => kv.2
  | None => JNull
  end.

Definition get_string (fs : list (gostring * json)) (key : gostring) : result gostring :=
  match field fs key with
  | JNull => Ok []
  | JStr s => Ok s
  | _ => Err (UnmarshalTypeError key)
  end.

Definition get_int (fs : list (gostring * json)) (key : gostring) : result Z :=
  match field fs key with
  | JNull => Ok 0%Z
  | JNum z => Ok z
  | _ => Err (UnmarshalTypeError key)
  end.

Definition get_bool (fs : list (gostring * json)) (key : gostring) : result bool :=
  match field fs key with
  | JNull => Ok false
  | JBool b => Ok b
  | _ => Err (UnmarshalTypeError key)
  end.

Definition get_time `{Encoding} (fs : list (gostring * json)) (key : gostring) : result Time :=
  match field fs key with
  | JNull => Ok 0%Z
  | JStr s => time_Parse s
  | _ => Err (UnmarshalTypeError key)
  end.

Definition get_list {A} (decode : json -> result A) (fs : list (gostring * json))
    (key : gostring) : result (list A) :=
  match field fs key with
  | JNull => Ok []
  | JArr l => rmapM decode l
  | _ => Err (UnmarshalTypeError key)
  end.

Definition as_string (j : json) : result gostring :=
  match j with
  | JNull => Ok []
  | JStr s => Ok s
  | _ => Err (UnmarshalTypeError [])
  end.

Definition as_object (j : json) : result (list (gostring * json)) :=
  match j with
  | JNull => Ok []
  | JObj fs => Ok fs
  | _ => Err (UnmarshalTypeError [])
  end.

(** json.Unmarshal of a struct value through its decoder. *)
Definition json_decode `{Encoding} {A} (decode : json -> result A) (data : gostring) : result A :=
  do j <- json_Unmarshal data; decode j.

(** ** A concrete encoding

    Used by the witnesses: documents are numbered and written in binary. *)
Section simple_encoding.

Fixpoint json_to_tree (j : json) : gen_tree (bool + Z + gostring) :=
  match j with
  | JNull => GenNode 0 []
  | JBool b => GenLeaf (inl (inl b))
  | JNum z => GenLeaf (inl (inr z))
  | JStr s => GenLeaf (inr s)
  | JArr l => GenNode 1 (json_to_tree <$> l)
  | JObj fs => GenNode 2 ((fun kv => GenNode 3 [GenLeaf (inr kv.1); json_to_tree kv.2]) <$> fs)
  end.

Fixpoint json_of_tree (t : gen_tree (bool + Z + gostring)) : json :=
  match t with
  | GenLeaf (inl (inl b)) => JBool b
  | GenLeaf (inl (inr z)) => JNum z
  | GenLeaf (inr s) => JStr s
  | GenNode 1 ts => JArr (json_of_tree <$> ts)
  | GenNode 2 ts =>
      JObj ((fun t => match t with
                      | GenNode 3 [GenLeaf (inr k); v] => (k, json_of_tree v)
                      | _ => ([], JNull)
                      end) <$> ts)
  | GenNode _ _ => JNull
  end.

Lemma json_of_to_tree j : json_of_tree (json_to_tree j) = j.
Proof.
  revert j. fix IH 1. intros [| | | |l|fs]; cbn; [done..| |].
  - f_equal. induction l as [|j l IHl]; cbn; [done|]. by rewrite IH, IHl.
  - f_equal. induction fs as [|[k v] fs IHl]; cbn; [done|]. by rewrite IH, IHl.
Qed.

Fixpoint bits_of_pos (p : positive) : gostring :=
  match p with
  | xH => []
  | xO q => "0" ++ bits_of_pos q
  | xI q => "1" ++ bits_of_pos q
  end.

Fixpoint pos_of_bits (s : gostring) : option positive :=
  match s with
  | [] => Some xH
  | c :: s' =>
      if bool_decide (c = chr 48) then xO <$> pos_of_bits s'
      else if bool_decide (c = chr 49) then xI <$> pos_of_bits s'
      else None
  end.

Lemma pos_of_bits_of_pos p : pos_of_bits (bits_of_pos p) = Some p.
Proof. induction p as [p IH|p IH|]; cbn; by rewrite ?IH. Qed.

Definition simple_encoding : Encoding := {|
  json_Marshal j := bits_of_pos (encode (json_to_tree j));
  json_Unmarshal s :=
    match pos_of_bits s ≫= decode with
    | Some t => Ok (json_of_tree t)
    | None => Err (External "json")
    end;
  time_Format t := Itoa_fuel 30 (Z.to_N t) [];
  time_Parse s := Ok (Z.of_N (dec_value s));
  filepath_Dir s :=
    match Split s (chr 47) with [] => [] | ws => Join (take (length ws - 1) ws) "/" end;
  filepath_Abs s := Ok s;
  os_TempDir := "/tmp";
|}.

Lemma utf8_ascii s : forallb is_ascii_byte s = true -> utf8_ValidString s = true.
Proof.
  unfold utf8_ValidString. induction s as [|c s IH]; cbn; [done|].
  unfold is_ascii_byte at 1. intros [Hc Hs]%andb_true_iff. apply N.ltb_lt in Hc.
  assert (utf8_between 0 127 c = true) as ->
    by (unfold utf8_between; apply andb_true_iff; rewrite !N.leb_le; lia).
  by apply IH.
Qed.

#[export] Instance simple_encoding_laws : @EncodingLaws simple_encoding.
Proof.
  split.
  - intros j _. cbn. by rewrite pos_of_bits_of_pos; cbn; rewrite decode_encode, json_of_to_tree.
  - intros t. unfold time_encodable. rewrite andb_true_iff, Z.leb_le, Z.ltb_lt. intros [? Ht].
    cbn [time_Format time_Parse simple_encoding]. rewrite Itoa_fuel_value; [by rewrite Z2N.id|].
    apply N2Z.inj_lt. rewrite Z2N.id by done. etrans; [exact Ht|]. by vm_compute.
  - intros t. apply utf8_ascii. apply forallb_forall. intros c Hc.
    pose proof (Itoa_fuel_digits 30 (Z.to_N t)) as Hd. rewrite forallb_forall in Hd.
    apply Hd in Hc. unfold is_digit in Hc. apply andb_true_iff in Hc as [_ Hc].
    apply N.leb_le in Hc. apply N.ltb_lt. lia.
Qed.
End simple_encoding.

(** * Lemmas *)

Section world_lemmas.
Context {X : Type}.

Lemma next_fault_healthy (w : World X) : faults w = [] -> next_fault w = (None, w).
Proof. unfold next_fault. by intros ->. Qed.

Lemma next_fault_files (w : World X) : files (next_fault w).2 = files w.
Proof. unfold next_fault. by destruct (faults w). Qed.

Lemma next_fault_sys (w : World X) : sys (next_fault w).2 = sys w.
Proof. unfold next_fault. by destruct (faults w). Qed.

Lemma os_call_frame {A} onerr (k : IO X A) w :
  (forall w', files w' = files w -> files (k w').2 = files w) -> files (os_call onerr k w).2 = files w.
Proof.
  intros Hk. unfold os_call. pose proof (next_fault_files w) as Hn.
  destruct (next_fault w) as [[f|] w']; cbn in *; [done|by apply Hk].
Qed.

Lemma os_call_healthy {A} onerr (k : IO X A) w : faults w = [] -> os_call onerr k w = k w.
Proof. intros Hf. unfold os_call. by rewrite next_fault_healthy. Qed.

Lemma os_put_Ok op path data (w w' : World X) :
  os_put op path data w = (Ok tt, w') -> files w' = <[path := data]> (files w) ∧ sys w' = sys w.
Proof.
  unfold os_put. pose proof (next_fault_files w) as Hf. pose proof (next_fault_sys w) as Hs.
  destruct (next_fault w) as [[f|] w1]; cbn in *; [done|]. intros [= <-]. cbn. by rewrite Hf, Hs.
Qed.

Lemma os_call_ret {A} onerr (a : A) (w : World X) :
  files (os_call onerr (io_ret a) w).2 = files w ∧ sys (os_call onerr (io_ret a) w).2 = sys w.
Proof.
  unfold os_call. pose proof (next_fault_files w) as Hf. pose proof (next_fault_sys w) as Hs.
  by destruct (next_fault w) as [[f|] w1]; cbn in *.
Qed.

(** A schedule whose first entry is known. *)
Definition with_faults (fs : list (option fault)) (w : World X) : World X :=
  {| files := files w; faults := fs; sys := sys w |}.

Lemma os_call_next {A} onerr (k : IO X A) w rest :
  faults w = None :: rest -> os_call onerr k w = k (with_faults rest w).
Proof. intros Hf. unfold os_call, next_fault. by rewrite Hf. Qed.

Lemma os_call_fails {A} onerr (k : IO X A) w f rest :
  faults w = Some f :: rest -> os_call onerr k w = (Err (onerr (fault_err f)), with_faults rest w).
Proof. intros Hf. unfold os_call, next_fault. by rewrite Hf. Qed.

(** Computations that leave all files but one alone, or the settings. *)
Definition touches (path : gostring) (w w' : World X) : Prop :=
  forall q, q <> path -> files w' !! q = files w !! q.
Definition same_files (w w' : World X) : Prop := files w' = files w.
Definition same_sys (w w' : World X) : Prop := sys w' = sys w.

#[export] Instance touches_preorder path : PreOrder (touches path).
Proof. split; [done|]. intros x y z Hxy Hyz q Hq. by rewrite Hyz, Hxy. Qed.
#[export] Instance same_files_preorder : PreOrder same_files.
Proof. split; [done|]. unfold same_files. intros x y z. congruence. Qed.
#[export] Instance same_sys_preorder : PreOrder same_sys.
Proof. split; [done|]. unfold same_sys. intros x y z. congruence. Qed.

(** Only files that satisfy [P] are written, whatever happens to the settings. *)
Definition writes_only (P : gostring -> Prop) (w w' : World X) : Prop :=
  forall q, ~ P q -> files w' !! q = files w !! q.

#[export] Instance writes_only_preorder P : PreOrder (writes_only P).
Proof. split; [done|]. intros x y z H1 H2 q Hq. by rewrite H2, H1. Qed.

Lemma writes_only_mono {A} (P Q : gostring -> Prop) (m : IO X A) :
  (forall q, P q -> Q q) -> moves (writes_only P) m -> moves (writes_only Q) m.
Proof. intros Hpq Hm w q Hq. apply Hm. naive_solver. Qed.

Lemma next_fault_writes P (w : World X) : writes_only P w (next_fault w).2.
Proof. intros q _. by rewrite next_fault_files. Qed.

Lemma os_put_writes (P : gostring -> Prop) op path data : P path -> moves (writes_only P) (os_put op path data).
Proof.
  intros Hp w q Hq. unfold os_put. pose proof (next_fault_writes P w q Hq) as Hn.
  destruct (next_fault w) as [[f|] w1]; cbn in *; [destruct (fault_partial f); cbn|]; rewrite ?lookup_insert_ne; naive_solver.
Qed.

(** Where no call is going to fail, none fails later, and the settings are kept. *)
Definition calm_world (w w' : World X) : Prop := faults w = [] -> faults w' = [] ∧ sys w' = sys w.

#[export] Instance calm_world_preorder : PreOrder calm_world.
Proof.
  split; [done|]. intros x y z H1 H2 Hf. destruct (H1 Hf) as [F1 S1]. destruct (H2 F1) as [F2 S2]. split; congruence.
Qed.

Lemma os_call_calm {A} onerr (k : IO X A) : moves calm_world k -> moves calm_world (os_call onerr k).
Proof. intros Hk w Hf. rewrite os_call_healthy by done. by apply Hk. Qed.

Lemma os_put_calm op path data : moves calm_world (os_put op path data).
Proof. intros w Hf. unfold os_put. by rewrite next_fault_healthy. Qed.

Lemma os_call_moves {A} R `{!PreOrder R} onerr (k : IO X A) :
  (forall w, R w (next_fault w).2) -> moves R k -> moves R (os_call onerr k).
Proof.
  intros Hn Hk w. unfold os_call. specialize (Hn w). destruct (next_fault w) as [[f|] w']; cbn in *; [done|].
  etrans; [exact Hn|apply Hk].
Qed.
End world_lemmas.
