(* ===== verification/FilePath.v ===== *)
(** The lexical functions of Go's path/filepath: an interface for the platform the
    program is built for, and their definitions for Unix, with what a relative path
    says about containment. *)
From stdpp Require Import strings.
From Stdlib Require Import Ascii.
From S2P Require Import Prelude GoStrings World.

(** [filepath_Dir] and [filepath_Abs] are in the class [Encoding]. *)
Class FilePath := {
  GOOS : gostring;
  PathSeparator : byte;
  filepath_Clean : gostring -> gostring;
  filepath_Join : gostring -> gostring -> gostring;
  filepath_Base : gostring -> gostring;
  filepath_Rel : gostring -> gostring -> result gostring;
  filepath_VolumeName : gostring -> gostring;
}.

(** * Unix *)

Definition slash : byte := chr 47.
Definition dotdot : gostring := "..".

(** One element of a path, on the reversed elements kept so far: a [..] takes the
    last one away, at the root it has no effect. *)
Definition clean_step (rooted : bool) (acc : list gostring) (c : gostring) : list gostring :=
  if bool_decide (c = []) || bool_decide (c = ".") then acc
  else if bool_decide (c = dotdot) then
    match acc with
    | x :: acc' => if bool_decide (x = dotdot) then c :: acc else acc'
    | [] => if rooted then [] else [c]
    end
  else c :: acc.

Definition elements (rooted : bool) (path : gostring) : list gostring :=
  rev (foldl (clean_step rooted) [] (Split path slash)).

Definition rooted (path : gostring) : bool := HasPrefix path [slash].

Definition render (rt : bool) (es : list gostring) : gostring :=
  if rt then slash :: Join es [slash] else match es with [] => "." | _ => Join es [slash] end.

Definition unix_Clean (path : gostring) : gostring := render (rooted path) (elements (rooted path) path).

Definition unix_Abs (cwd path : gostring) : gostring :=
  if rooted path then unix_Clean path else unix_Clean (cwd ++ [slash] ++ path).

Definition unix_Dir (path : gostring) : gostring :=
  match rev (Split path slash) with
  | [] => "."
  | _ :: dirs => unix_Clean (Join (rev dirs ++ [[]]) [slash])
  end.

(** filepath.Join for a directory and a name. *)
Definition unix_Join (dir name : gostring) : gostring :=
  if bool_decide (dir = []) then unix_Clean name else unix_Clean (dir ++ [slash] ++ name).

Definition unix_Base (path : gostring) : gostring :=
  if bool_decide (path = []) then "."
  else default [slash] (last (filter (fun e => e <> []) (Split path slash))).

(** What is left of two lists of elements after their common beginning. *)
Fixpoint strip (base targ : list gostring) : list gostring * list gostring :=
  match base, targ with
  | b :: bs, t :: ts => if bool_decide (b = t) then strip bs ts else (base, targ)
  | _, _ => (base, targ)
  end.

(** The elements of a clean path; those of a rooted path start after the root. *)
Definition parts (path : gostring) : list gostring :=
  if bool_decide (path = [slash]) then [] else Split (if rooted path then drop 1 path else path) slash.

(** One [..] for every element to leave. *)
Definition ups (es : list gostring) : list gostring := (fun _ => dotdot) <$> es.

Definition unix_Rel (basepath targpath : gostring) : result gostring :=
  let base := unix_Clean basepath in
  let targ := unix_Clean targpath in
  if bool_decide (targ = base) then Ok "."
  else if negb (Bool.eqb (rooted base) (rooted targ)) then Err (Errorf "Rel: can't make %s relative to %s" [targpath; basepath])
  else
    let '(bs, ts) := strip (if bool_decide (base = ".") then [] else parts base) (parts targ) in
    if bool_decide (head bs = Some dotdot) && negb (bool_decide (ts = []))
    then Err (Errorf "Rel: can't make %s relative to %s" [targpath; basepath])
    else Ok (Join (ups bs ++ ts) [slash]).

#[export] Instance unix : FilePath := {|
  GOOS := "linux";
  PathSeparator := slash;
  filepath_Clean := unix_Clean;
  filepath_Join := unix_Join;
  filepath_Base := unix_Base;
  filepath_Rel := unix_Rel;
  filepath_VolumeName _ := [];
|}.

Example clean_1 : unix_Clean "/a/./b/../../../c//d/" = "/c/d". Proof. reflexivity. Qed.
Example clean_2 : unix_Clean "a/../../b" = "../b". Proof. reflexivity. Qed.
Example clean_3 : unix_Clean "" = ".". Proof. reflexivity. Qed.
Example clean_4 : unix_Clean "/.." = "/". Proof. reflexivity. Qed.
Example rel_1 : unix_Rel "/a/b" "/a/c/d" = Ok "../c/d". Proof. reflexivity. Qed.
Example rel_2 : unix_Rel "/" "/a" = Ok "a". Proof. reflexivity. Qed.
Example rel_3 : unix_Rel "/a/b" "/a" = Ok "..". Proof. reflexivity. Qed.
Example rel_4 : unix_Rel "." "a/b" = Ok "a/b". Proof. reflexivity. Qed.
Example dir_1 : unix_Dir "/a/b/rollback.json" = "/a/b". Proof. reflexivity. Qed.
Example dir_2 : unix_Dir "/a/b/" = "/a/b". Proof. reflexivity. Qed.
Example dir_3 : unix_Dir "a" = ".". Proof. reflexivity. Qed.
Example join_1 : unix_Join "/a/../b" "c" = "/b/c". Proof. reflexivity. Qed.
Example base_1 : unix_Base "/a/b//" = "b". Proof. reflexivity. Qed.
Example base_2 : unix_Base "//" = "/". Proof. reflexivity. Qed.
Example dir_4 : unix_Dir "/a" = "/". Proof. reflexivity. Qed.

(** * Rooted paths *)

(** The elements a clean rooted path has. *)
Definition normal (c : gostring) : Prop := c <> [] ∧ c <> "." ∧ c <> dotdot ∧ slash ∉ c.

Lemma clean_step_normal acc c : slash ∉ c -> Forall normal acc -> Forall normal (clean_step true acc c).
Proof.
  intros Hs Ha. unfold clean_step. case_bool_decide as H1; [done|]. case_bool_decide as H2; [done|]. cbn [orb].
  case_bool_decide as H3; [|by constructor].
  destruct acc as [|x acc]; [done|]. inversion Ha as [|? ? (_ & _ & Hx & _) Ha']; subst.
  by rewrite bool_decide_eq_false_2.
Qed.

Lemma elements_normal path : Forall normal (elements true path).
Proof.
  unfold elements. apply Forall_rev. pose proof (Split_Forall_no_sep path slash) as Hs. revert Hs.
  assert (Forall normal []) as Ha by constructor. revert Ha. generalize (@nil gostring).
  induction (Split path slash) as [|c cs IH]; intros acc Ha Hs; [done|].
  inversion Hs; subst. cbn [foldl]. apply IH; [by apply clean_step_normal|done].
Qed.

Lemma rooted_render es : rooted (render true es) = true.
Proof. unfold rooted, render. change (slash :: Join es [slash]) with ([slash] ++ Join es [slash]). apply HasPrefix_app. Qed.

Lemma foldl_clean_normal acc es : Forall normal es -> foldl (clean_step true) acc es = rev es ++ acc.
Proof.
  intros Hn. revert acc. induction Hn as [|c es (H1 & H2 & H3 & _) Hn IH]; intros acc; [done|]. cbn [foldl rev].
  unfold clean_step at 2. rewrite !bool_decide_eq_false_2 by done. cbn [orb]. by rewrite IH, <-app_assoc.
Qed.

Lemma Split_render es : Forall normal es -> es <> [] -> Split (render true es) slash = [] :: es.
Proof.
  intros Hn Hne. unfold render. change (slash :: Join es [slash]) with ([] ++ slash :: Join es [slash]).
  rewrite Split_app_sep. cbn [Split app]. f_equal. apply Split_Join; [done|].
  eapply Forall_impl; [exact Hn|]. by intros c (_ & _ & _ & Hc).
Qed.

Lemma elements_render es : Forall normal es -> elements true (render true es) = es.
Proof.
  intros Hn. destruct (decide (es = [])) as [->|Hne]; [done|]. unfold elements. rewrite Split_render by done. cbn [foldl].
  change (clean_step true [] []) with (@nil gostring). by rewrite foldl_clean_normal, app_nil_r, rev_involutive.
Qed.

Lemma unix_Clean_render es : Forall normal es -> unix_Clean (render true es) = render true es.
Proof. intros Hn. unfold unix_Clean. by rewrite rooted_render, elements_render. Qed.

(** Every absolute path is rooted and made of normal elements. *)
Lemma unix_Abs_normal cwd path : rooted cwd = true -> exists es, unix_Abs cwd path = render true es ∧ Forall normal es.
Proof.
  intros Hc. unfold unix_Abs, unix_Clean. destruct (rooted path) eqn:Hp.
  - exists (elements true path). split; [done|apply elements_normal].
  - assert (rooted (cwd ++ [slash] ++ path) = true) as ->.
    { unfold rooted in *. apply HasPrefix_true in Hc as [r ->]. rewrite <-app_assoc. apply HasPrefix_app. }
    eexists. split; [reflexivity|apply elements_normal].
Qed.

Lemma parts_render es : Forall normal es -> parts (render true es) = es.
Proof.
  intros Hn. unfold parts. destruct (decide (es = [])) as [->|Hne]; [done|].
  rewrite bool_decide_eq_false_2.
  - rewrite rooted_render. cbn [render drop]. apply Split_Join; [done|]. eapply Forall_impl; [exact Hn|]. by intros c (_ & _ & _ & Hc).
  - intros He. apply (f_equal (fun p => Split p slash)) in He. rewrite Split_render in He by done. cbn in He.
    destruct es as [|e es]; [done|]. injection He as -> _. inversion Hn as [|? ? (? & _) _]. done.
Qed.

Lemma strip_spec base targ :
  exists common, base = common ++ (strip base targ).1 ∧ targ = common ++ (strip base targ).2.
Proof.
  revert targ. induction base as [|b bs IH]; intros [|t ts]; try (by exists []). cbn. case_bool_decide as E; [|by exists []].
  subst t. destruct (IH ts) as (c & Hb & Ht). exists (b :: c). cbn. by rewrite <-Hb, <-Ht.
Qed.

Lemma strip_prefix base rest : strip base (base ++ rest) = ([], rest).
Proof. induction base as [|b bs IH]; cbn; [by destruct rest|]. by rewrite bool_decide_eq_true_2. Qed.

(** A relative path that does not lead up. *)
Definition inside (rel : gostring) : bool :=
  negb (bool_decide (rel = dotdot)) && negb (HasPrefix rel (dotdot ++ [slash])).

Lemma Split_elements es : Forall normal es -> es <> [] -> Split (Join es [slash]) slash = es.
Proof. intros Hn Hne. apply Split_Join; [done|]. eapply Forall_impl; [exact Hn|]. by intros c (_ & _ & _ & Hc). Qed.

Lemma outside_split rel : inside rel = false -> head (Split rel slash) = Some dotdot.
Proof.
  unfold inside. rewrite andb_false_iff, !negb_false_iff, bool_decide_eq_true, HasPrefix_true.
  intros [->|[r ->]]; [done|]. change ((dotdot ++ [slash]) ++ r) with (dotdot ++ slash :: r). by rewrite Split_app_sep.
Qed.

Lemma inside_down es : Forall normal es -> inside (Join es [slash]) = true.
Proof.
  intros Hn. apply not_false_iff_true. intros Hd%outside_split. destruct (decide (es = [])) as [->|Hne]; [done|].
  rewrite Split_elements in Hd by done. destruct Hn as [|e es (_ & _ & He & _) _]; [done|]. by injection Hd.
Qed.

Lemma inside_up us ts : us <> [] -> inside (Join (ups us ++ ts) [slash]) = false.
Proof.
  intros Hu. destruct us as [|u us]; [done|]. unfold ups. cbn [fmap list_fmap app]. fold (ups us). unfold inside.
  destruct (ups us ++ ts) as [|x xs]; [done|]. rewrite Join_cons by done.
  rewrite app_assoc, HasPrefix_app. by rewrite andb_false_r.
Qed.

(** A relative path between clean rooted paths exists, and it stays inside exactly
    when the target is the base or lies below it. *)
Lemma unix_Rel_inside bs es :
  Forall normal bs -> Forall normal es ->
  exists rel, unix_Rel (render true bs) (render true es) = Ok rel ∧ (inside rel = true <-> bs `prefix_of` es).
Proof.
  intros Hb He. unfold unix_Rel. rewrite !unix_Clean_render, !rooted_render by done. cbn [Bool.eqb negb].
  assert (bool_decide (render true bs = ".") = false) as -> by by apply bool_decide_eq_false_2.
  rewrite !parts_render by done. case_bool_decide as E.
  - exists ".". split; [done|]. split; [|done]. intros _. apply (f_equal parts) in E. rewrite !parts_render in E by done. by subst.
  - destruct (strip_spec bs es) as (common & Eb & Ee). destruct (strip bs es) as [us ts] eqn:Es. cbn [fst snd] in *.
    assert (head us <> Some dotdot) as Hh.
    { intros Hx. rewrite Eb in Hb. apply Forall_app in Hb as [_ Hb]. destruct us as [|u us]; [done|]. injection Hx as ->.
      by inversion Hb as [|? ? (_ & _ & ? & _) _]. }
    rewrite (bool_decide_eq_false_2 (head us = _)) by done. eexists. split; [reflexivity|].
    assert (Forall normal ts) as Ht by (rewrite Ee in He; by apply Forall_app in He as [_ ?]).
    destruct us as [|u us].
    + rewrite app_nil_r in Eb. subst common. split; [intros _; by exists ts|intros _; by apply inside_down].
    + rewrite inside_up by done. split; [done|]. intros [rest ->]. by rewrite strip_prefix in Es.
Qed.
