(* ===== verification/Base64.v ===== *)
(** Go's encoding/base64: the encoders the program uses, on byte strings, with a
    decoder that shows that no two inputs have the same text. *)
From stdpp Require Import strings.
From Stdlib Require Import Ascii.
From S2P Require Import Prelude GoStrings.

Definition encodeStd : gostring := "ABCDEFGHIJKLMNOPQRSTUVWXYZabcdefghijklmnopqrstuvwxyz0123456789+/".
Definition encodeURL : gostring := "ABCDEFGHIJKLMNOPQRSTUVWXYZabcdefghijklmnopqrstuvwxyz0123456789-_".

Section encoding.
Context (alphabet : gostring) (padding : option byte).

Definition digit (n : N) : byte := nth (N.to_nat n) alphabet "?"%char.

(** The digit of [val] that starts at bit [k]. *)
Definition sextet (val k : N) : byte := digit (N.land (N.shiftr val k) 63).

Definition pad (n : nat) : gostring :=
  match padding with
  | Some p => replicate n p
  | None => []
  end.

(** Encoding.EncodeToString *)
Fixpoint EncodeToString (src : gostring) : gostring :=
  match src with
  | [] => []
  | [a] =>
      let val := N.shiftl (code a) 16 in
      [sextet val 18; sextet val 12] ++ pad 2
  | [a; b] =>
      let val := N.lor (N.shiftl (code a) 16) (N.shiftl (code b) 8) in
      [sextet val 18; sextet val 12; sextet val 6] ++ pad 1
  | a :: b :: c :: src' =>
      let val := N.lor (N.lor (N.shiftl (code a) 16) (N.shiftl (code b) 8)) (code c) in
      [sextet val 18; sextet val 12; sextet val 6; sextet val 0] ++ EncodeToString src'
  end.
End encoding.

Definition RawURLEncoding : gostring -> gostring := EncodeToString encodeURL None.
Definition StdEncoding : gostring -> gostring := EncodeToString encodeStd (Some "="%char).

(** ** Decoding *)

Section decoding.
Context (alphabet : gostring).

Definition undigit (c : byte) : N :=
  match list_find (fun d => d = c) alphabet with
  | Some (i, _) => N.of_nat i
  | None => 0
  end.

Definition byte_at (val k : N) : byte := ascii_of_N ((val / 2 ^ k) mod 256).

Fixpoint decode (s : gostring) : gostring :=
  match s with
  | d1 :: d2 :: rest =>
      let val2 := (undigit d1 * 2 ^ 18 + undigit d2 * 2 ^ 12)%N in
      match rest with
      | [] => [byte_at val2 16]
      | [d3] => let val := (val2 + undigit d3 * 2 ^ 6)%N in [byte_at val 16; byte_at val 8]
      | d3 :: d4 :: s' =>
          let val := (val2 + undigit d3 * 2 ^ 6 + undigit d4)%N in
          [byte_at val 16; byte_at val 8; byte_at val 0] ++ decode s'
      end
  | _ => []
  end.
End decoding.

(** An alphabet of 64 different bytes. *)
Definition alphabetical (alphabet : gostring) : Prop :=
  length alphabet = 64 ∧ NoDup alphabet.

#[export] Instance alphabetical_dec alphabet : Decision (alphabetical alphabet).
Proof. unfold alphabetical. apply _. Defined.

(** ** Lemmas *)

Lemma lor_shiftl a b k : (b < 2 ^ k)%N -> N.lor (N.shiftl a k) b = (a * 2 ^ k + b)%N.
Proof.
  intros Hb. apply N.bits_inj. intros m. rewrite N.lor_spec. destruct (N.lt_ge_cases m k) as [Hm|Hm].
  - rewrite N.shiftl_spec_low by done. cbn [orb].
    rewrite <-(N.mod_pow2_bits_low (a * 2 ^ k + b) k m) by done.
    rewrite N.add_comm, N.Div0.mod_add, N.mod_small by done. done.
  - rewrite N.shiftl_spec_high' by done. rewrite <-(N.sub_add k m) at 3 by done. rewrite <-N.div_pow2_bits.
    rewrite N.add_comm, N.div_add, N.div_small, N.add_0_l by lia.
    rewrite <-(N.sub_add k m) at 2 by done. rewrite <-N.div_pow2_bits, N.div_small by done.
    by rewrite N.bits_0, orb_false_r.
Qed.

Lemma byte_at_code val k a : ((val / 2 ^ k) mod 256)%N = code a -> byte_at val k = a.
Proof. unfold byte_at. intros ->. apply ascii_N_embedding. Qed.

(** Arithmetic on bits at fixed positions. *)
Ltac lia_bytes :=
  change (2 ^ 18)%N with 262144%N; change (2 ^ 16)%N with 65536%N; change (2 ^ 12)%N with 4096%N;
  change (2 ^ 8)%N with 256%N; change (2 ^ 6)%N with 64%N; change (2 ^ 0)%N with 1%N;
  zify; Z.to_euclidean_division_equations; lia.

Lemma triple_ind (P : gostring -> Prop) :
  P [] -> (forall a, P [a]) -> (forall a b, P [a; b]) -> (forall a b c s, P s -> P (a :: b :: c :: s)) -> forall s, P s.
Proof.
  intros H0 H1 H2 H3. fix IH 1. intros [|a [|b [|c s]]]; [exact H0|apply H1|apply H2|apply H3, IH].
Qed.

Section roundtrip.
Context (alphabet : gostring) (Ha : alphabetical alphabet).

Lemma digit_lookup n : (n < 64)%N -> alphabet !! N.to_nat n = Some (digit alphabet n).
Proof.
  intros Hn. destruct Ha as [Hl _]. unfold digit.
  destruct (lookup_lt_is_Some_2 alphabet (N.to_nat n)) as [x Hx]; [lia|].
  by rewrite (nth_lookup_Some _ _ _ _ Hx).
Qed.

Lemma undigit_digit n : (n < 64)%N -> undigit alphabet (digit alphabet n) = n.
Proof.
  intros Hn. pose proof (digit_lookup n Hn) as Hd. destruct Ha as [_ Hnd]. unfold undigit.
  destruct (list_find _ alphabet) as [[i d]|] eqn:Hf.
  - apply list_find_Some in Hf as (Hi & -> & _).
    rewrite (NoDup_lookup _ _ _ _ Hnd Hi Hd). by rewrite N2Nat.id.
  - exfalso. eapply list_find_None in Hf. rewrite Forall_forall in Hf.
    by eapply Hf; [eapply list_elem_of_lookup_2|].
Qed.

Lemma undigit_sextet val k : undigit alphabet (sextet alphabet val k) = ((val / 2 ^ k) mod 64)%N.
Proof.
  unfold sextet. rewrite N.shiftr_div_pow2. change 63%N with (N.ones 6). rewrite N.land_ones.
  apply undigit_digit. by apply N.mod_lt.
Qed.

Lemma decode_encode src : decode alphabet (EncodeToString alphabet None src) = src.
Proof.
  induction src as [|a|a b|a b c src IH] using triple_ind; [done|..];
    cbn [EncodeToString pad app decode]; rewrite !undigit_sextet, ?IH; pose proof (code_bound a) as Ba;
    try pose proof (code_bound b) as Bb; try pose proof (code_bound c) as Bc.
  - rewrite N.shiftl_mul_pow2. repeat f_equal. apply byte_at_code. lia_bytes.
  - rewrite lor_shiftl, N.shiftl_mul_pow2 by (rewrite N.shiftl_mul_pow2; lia).
    repeat f_equal; apply byte_at_code; lia_bytes.
  - rewrite <-N.lor_assoc, !lor_shiftl by (rewrite ?lor_shiftl; lia).
    repeat f_equal; apply byte_at_code; lia_bytes.
Qed.

Lemma encode_inj s t : EncodeToString alphabet None s = EncodeToString alphabet None t -> s = t.
Proof. intros He. by rewrite <-(decode_encode s), He, decode_encode. Qed.

Lemma encode_digits s : Forall (fun c => c ∈ alphabet) (EncodeToString alphabet None s).
Proof.
  assert (Hd : forall v k, sextet alphabet v k ∈ alphabet).
  { intros v k. unfold sextet. change 63%N with (N.ones 6). rewrite N.land_ones.
    eapply list_elem_of_lookup_2, digit_lookup. by apply N.mod_lt. }
  induction s as [|a|a b|a b c s IH] using triple_ind; cbn [EncodeToString pad app]; repeat constructor; auto.
Qed.
End roundtrip.

(** The text of [n] bytes without padding has the least number of digits that hold
    their bits. *)
Lemma encode_length alphabet s : length (EncodeToString alphabet None s) = (8 * length s + 5) / 6.
Proof.
  induction s as [|a|a b|a b c s IH] using triple_ind; [done..|].
  cbn [EncodeToString app length]. rewrite IH.
  replace (8 * S (S (S (length s))) + 5) with ((8 * length s + 5) + 4 * 6) by lia.
  rewrite Nat.div_add by done. lia.
Qed.
