(* ===== verification/Rollback.v ===== *)
(** State files.

    src/internal/systemdns/systemdns.go, src/internal/systemproxy/systemproxy.go and
    src/internal/runtime/control.go hold the same three functions WriteState,
    ReadState and RemoveState, which differ in the state they store and in the texts
    of their errors.  They are written here once over a codec, and their behaviour is
    proved once, with and without failing system calls. *)
From stdpp Require Import strings.
From Stdlib Require Import Ascii.
From S2P Require Import Prelude GoStrings World.

(** The texts of the errors. *)
Record Texts := {
  pathRequired : gostring;
  createFormat : gostring;
  encodeFormat : gostring;
  writeFormat : gostring;
  parseFormat : gostring;
}.

Definition rollback_texts : Texts :=
  {| pathRequired := "rollback path is required"; createFormat := "create rollback directory: %w";
     encodeFormat := "encode rollback state: %w"; writeFormat := "write rollback state: %w";
     parseFormat := "parse rollback state: %w" |}.

(** How a state is stored: its JSON fields and its time stamp. *)
Record Codec (A : Type) := {
  texts : Texts;
  toJSON : A -> json;
  fromJSON : json -> result A;
  createdAt : A -> Time;
}.
Arguments texts {A} c.
Arguments toJSON {A} c.
Arguments fromJSON {A} c.
Arguments createdAt {A} c.

Section rollback.
Context {X A : Type} (c : Codec A) `{Encoding}.

Definition encodeState (s : A) : result gostring :=
  if time_encodable (createdAt c s) then Ok (json_Marshal (toJSON c s))
  else Err (Errorf "json: error calling MarshalJSON for type time.Time" []).

Definition WriteState (path : gostring) (s : A) : IO X unit :=
  if is_blank path then io_err (Errorf (pathRequired (texts c)) [])
  else
    io _ <- io_wrap (createFormat (texts c)) [] (os_MkdirAll (filepath_Dir path));
    io data <- io_wrap (encodeFormat (texts c)) [] (io_of (encodeState s));
    io_wrap (writeFormat (texts c)) [] (os_WriteFile path data).

Definition ReadState (path : gostring) : IO X A :=
  io data <- os_ReadFile path;
  io_wrap (parseFormat (texts c)) [] (io_of (json_decode (fromJSON c) data)).

Definition RemoveState (path : gostring) : IO X unit :=
  try r <- os_Remove path;
  match r with
  | Ok _ => io_ret tt
  | Err e => if os_IsNotExist e then io_ret tt else io_err e
  end.

(** A state survives being stored. *)
Definition storable (s : A) : Prop :=
  time_encodable (createdAt c s) = true ∧ json_decode (fromJSON c) (json_Marshal (toJSON c s)) = Ok s.

(** ** Without failures *)

Lemma WriteState_healthy path s w :
  is_blank path = false -> storable s -> faults w = [] ->
  WriteState path s w = (Ok tt, set_files (<[path := json_Marshal (toJSON c s)]> (files w)) w).
Proof.
  intros Hp [Ht _] Hf. unfold WriteState, encodeState. rewrite Hp, Ht.
  unfold io_bind, io_wrap, io_of, os_MkdirAll, os_WriteFile, os_put, os_call.
  rewrite next_fault_healthy by done. cbn. by rewrite next_fault_healthy.
Qed.

Lemma ReadState_healthy path s w :
  storable s -> faults w = [] -> files w !! path = Some (json_Marshal (toJSON c s)) ->
  ReadState path w = (Ok s, w).
Proof.
  intros [_ Hs] Hf Hp. unfold ReadState, io_bind, os_ReadFile, io_wrap, io_of.
  rewrite os_call_healthy by done. rewrite Hp, Hs. done.
Qed.

Lemma ReadState_missing path w :
  faults w = [] -> files w !! path = None ->
  ReadState path w = (Err (PathError "open" path os_ErrNotExist), w).
Proof.
  intros Hf Hp. unfold ReadState, io_bind, os_ReadFile. rewrite os_call_healthy by done. by rewrite Hp.
Qed.

Lemma RemoveState_healthy path w :
  faults w = [] -> RemoveState path w = (Ok tt, set_files (delete path (files w)) w).
Proof.
  intros Hf. unfold RemoveState, io_try, os_Remove. rewrite os_call_healthy by done.
  destruct (files w !! path) eqn:E; cbn; [done|]. unfold io_ret.
  rewrite delete_id by done. by destruct w.
Qed.

(** ** Under any schedule of failures *)

Lemma WriteState_sys path s : moves same_sys (WriteState path s).
Proof.
  unfold WriteState. destruct (is_blank path); [done|].
  apply moves_bind; [apply _| |intros _; apply moves_bind; [apply _| |intros data]].
  - apply moves_wrap. apply os_call_moves; [apply _|apply next_fault_sys|done].
  - by apply moves_wrap.
  - apply moves_wrap. intros w. unfold os_WriteFile, os_put. pose proof (next_fault_sys w) as Hn.
    destruct (next_fault w) as [[f|] w']; cbn in *; [|done]. by destruct (fault_partial f).
Qed.

Lemma WriteState_touches path s : moves (touches path) (WriteState path s).
Proof.
  assert (Hnf : forall w : World X, touches path w (next_fault w).2).
  { intros w q _. by rewrite next_fault_files. }
  unfold WriteState. destruct (is_blank path); [done|].
  apply moves_bind; [apply _| |intros _; apply moves_bind; [apply _| |intros data]].
  - apply moves_wrap. apply os_call_moves; [apply _|apply Hnf|done].
  - by apply moves_wrap.
  - apply moves_wrap. intros w q Hq. unfold os_WriteFile, os_put. specialize (Hnf w q Hq).
    destruct (next_fault w) as [[f|] w']; cbn in *; [|by rewrite lookup_insert_ne].
    by destruct (fault_partial f); cbn; [rewrite lookup_insert_ne|].
Qed.

(** A write that reports success has stored the state. *)
Lemma WriteState_stored path s w w' :
  WriteState path s w = (Ok tt, w') -> files w' !! path = Some (json_Marshal (toJSON c s)).
Proof.
  unfold WriteState. destruct (is_blank path); [done|]. intros Hw.
  apply io_bind_Ok in Hw as ([] & w1 & _ & Hw). apply io_bind_Ok in Hw as (data & w2 & Hd & Hw).
  apply io_wrap_Ok in Hd, Hw. unfold io_of, encodeState in Hd. destruct (time_encodable _); [|done].
  injection Hd as <- <-. unfold os_WriteFile, os_put in Hw.
  destruct (next_fault w1) as [[f|] w3]; [done|]. injection Hw as <-. cbn. by rewrite lookup_insert_eq.
Qed.

(** What a successful read returns is what the file holds. *)
Lemma ReadState_stored path d s w w' :
  files w !! path = Some d -> ReadState path w = (Ok s, w') -> json_decode (fromJSON c) d = Ok s.
Proof.
  intros Hd Hr. unfold ReadState in Hr. apply io_bind_Ok in Hr as (d' & w1 & Hr & Hw).
  apply io_wrap_Ok in Hw. injection Hw as Hw _. unfold os_ReadFile, os_call in Hr.
  pose proof (next_fault_files w) as Hn. destruct (next_fault w) as [[f|] w2]; cbn in *; [done|].
  rewrite Hn, Hd in Hr. by injection Hr as <- _.
Qed.

Lemma ReadState_files path : moves same_files (ReadState path).
Proof.
  unfold ReadState. apply moves_bind; [apply _| |intros data; by apply moves_wrap].
  apply os_call_moves; [apply _|apply next_fault_files|]. intros w. by destruct (files w !! path).
Qed.

Lemma ReadState_sys path : moves same_sys (ReadState path).
Proof.
  unfold ReadState. apply moves_bind; [apply _| |intros data; by apply moves_wrap].
  apply os_call_moves; [apply _|apply next_fault_sys|]. intros w. by destruct (files w !! path).
Qed.

Lemma RemoveState_sys path : moves same_sys (RemoveState path).
Proof.
  unfold RemoveState. apply moves_try; [apply _| |intros [|e]; [done|by destruct (os_IsNotExist e)]].
  apply os_call_moves; [apply _|apply next_fault_sys|]. intros w. by destruct (files w !! path).
Qed.
End rollback.

(** ** Optional string lists

    A nil slice is stored as null and a field with omitempty is left out. *)
Definition strings_json (l : list gostring) : json :=
  match l with [] => JNull | _ => JArr (JStr <$> l) end.

Definition omitempty (key : gostring) (empty : bool) (v : json) : list (gostring * json) :=
  if empty then [] else [(key, v)].

Lemma strings_roundtrip l : rmapM as_string (JStr <$> l) = Ok l.
Proof. induction l as [|s l IH]; cbn; [done|]. by rewrite IH. Qed.

Lemma strings_json_utf8 l : json_utf8 (strings_json l) = forallb utf8_ValidString l.
Proof.
  destruct l as [|s l]; [done|]. unfold strings_json. cbn [json_utf8].
  induction (s :: l) as [|x xs IH]; [done|]. cbn -[utf8_ValidString]. by rewrite IH.
Qed.

(** Reading fields of an object. *)
Lemma get_list_strings fs key l :
  field fs key = strings_json l -> get_list as_string fs key = Ok l.
Proof.
  intros Hf. unfold get_list. rewrite Hf. destruct l as [|s l]; [done|]. unfold strings_json.
  apply strings_roundtrip.
Qed.

Lemma get_string_field fs key s : field fs key = JStr s -> get_string fs key = Ok s.
Proof. unfold get_string. by intros ->. Qed.

Lemma get_string_absent fs key : field fs key = JNull -> get_string fs key = Ok [].
Proof. unfold get_string. by intros ->. Qed.
