(* ===== verification/Rules.v ===== *)
(** Host rules and matching (src/internal/rules/rules.go).

    The matcher keeps a map of exact hosts and an ordered list of wildcard
    entries.  The file models every function of the package and proves what a
    match means, that compiled rules are a sorted copy of the matcher, and that
    normalization leaves a canonical host alone. *)
From stdpp Require Import strings.
From Stdlib Require Import Ascii Permutation.
From S2P Require Import Prelude GoStrings GoNet External.

Record RuleGroup := { GroupName : gostring; Domains : list gostring }.

Record MatchResult := { MHost : gostring; MGroupName : gostring; MRule : gostring }.

Record CompiledRule := { CHost : gostring; CGroupName : gostring; CRule : gostring }.

Record CompiledRules := { Exact : list CompiledRule; Wildcard : list CompiledRule }.

Record RuleSetInfo := {
  InfoName : gostring;
  InfoVersion : gostring;
  InfoUpdatedAt : gostring;
  GroupCount : nat;
  ExactCount : nat;
  WildcardCount : nat;
}.

Record ruleEntry := { group : gostring; rule : gostring; host : gostring }.

Record Matcher := { exact : gmap gostring ruleEntry; wildcard : list ruleEntry }.

Definition emptyMatch : MatchResult := {| MHost := []; MGroupName := []; MRule := [] |}.

#[export] Instance ruleEntry_eq_dec : EqDecision ruleEntry.
Proof. solve_decision. Defined.
#[export] Instance CompiledRule_eq_dec : EqDecision CompiledRule.
Proof. solve_decision. Defined.
#[export] Instance RuleGroup_eq_dec : EqDecision RuleGroup.
Proof. solve_decision. Defined.

Section rules.
Context `{Externals}.

(** The second half of [NormalizeHost]: from the host of the URL on. *)
Definition normalizeAuthority (raw host1 : gostring) : result gostring :=
  let host2 := match SplitHostPort host1 with Ok (splitHost, _) => splitHost | Err _ => host1 end in
  let host3 := TrimPrefix host2 "[" in
  let host4 := TrimSuffix host3 "]" in
  let host5 := TrimSuffix host4 "." in
  let host6 := ToLower (TrimSpace host5) in
  if bool_decide (host6 = []) then Err (Errorf "host is required" [])
  else if ContainsAny host6 "/?#"
  then Err (Errorf "host %q contains URL delimiters" [raw])
  else
    do ascii <- idna_ToASCII host6;
    Ok (ToLower ascii).

Definition NormalizeHost (raw : gostring) : result gostring :=
  let host := TrimSpace raw in
  if bool_decide (host = []) then Err (Errorf "host is required" [])
  else
    do host1 <-
      (if Contains host "://"
       then do parsed <- url_Parse host; Ok (URLHost parsed)
       else Ok host);
    normalizeAuthority raw host1.

Definition normalizeRule (grp rl : gostring) : result (ruleEntry * bool) :=
  let trimmed := TrimSpace rl in
  if bool_decide (trimmed = []) then Err (Errorf "empty rule in group %q" [grp])
  else if Contains trimmed "*" && negb (HasPrefix trimmed "*.")
  then Err (Errorf "wildcard rule %q must use the *.example.com form" [rl])
  else if HasPrefix trimmed "*." then
    do h <- wrap_err "normalize wildcard rule %q: %w" [rl] (NormalizeHost (TrimPrefix trimmed "*."));
    Ok ({| group := grp; rule := "*." ++ h; host := h |}, true)
  else
    do h <- wrap_err "normalize rule %q: %w" [rl] (NormalizeHost trimmed);
    Ok ({| group := grp; rule := h; host := h |}, false).

(** One iteration of the loop of [addGroup]. *)
Definition addDomain (grp : gostring) (m : Matcher) (domain : gostring) : result Matcher :=
  do x <- normalizeRule grp domain;
  let '(entry, isWildcard) := x in
  if isWildcard
  then Ok {| exact := exact m; wildcard := wildcard m ++ [entry] |}
  else Ok {| exact := <[host entry := entry]> (exact m); wildcard := wildcard m |}.

Definition addGroup (m : Matcher) (grp : RuleGroup) : result Matcher :=
  if is_blank (GroupName grp) then Err (Errorf "rule group name is required" [])
  else rfold (addDomain (GroupName grp)) m (Domains grp).

Definition NewMatcher (groups : list RuleGroup) (customDomains : list gostring) : result Matcher :=
  do m <- rfold addGroup {| exact := ∅; wildcard := [] |} groups;
  match customDomains with
  | [] => Ok m
  | _ => addGroup m {| GroupName := "custom"; Domains := customDomains |}
  end.

(** The test on a wildcard entry: a proper subdomain of its host. *)
Definition wildcardMatches (normalized : gostring) (entryHost : gostring) : bool :=
  bool_decide (normalized ≠ entryHost) && HasSuffix normalized ("." ++ entryHost).

Definition matchOf (normalized : gostring) (e : ruleEntry) : MatchResult :=
  {| MHost := normalized; MGroupName := group e; MRule := rule e |}.

Definition MatchHost (m : Matcher) (h : gostring) : option MatchResult :=
  match NormalizeHost h with
  | Err _ => None
  | Ok normalized =>
      match exact m !! normalized with
      | Some entry => Some (matchOf normalized entry)
      | None =>
          match List.find (fun e => wildcardMatches normalized (host e)) (wildcard m) with
          | Some entry => Some (matchOf normalized entry)
          | None => None
          end
      end
  end.

Definition RuleCount (m : Matcher) : nat := size (exact m) + length (wildcard m).

Definition compile (e : ruleEntry) : CompiledRule :=
  {| CHost := host e; CGroupName := group e; CRule := rule e |}.

(** The order of [sortCompiledRules]: host, then group, then rule. *)
Definition compiled_le (a b : CompiledRule) : Prop :=
  if decide (CHost a = CHost b) then
    if decide (CGroupName a = CGroupName b) then str_le (CRule a) (CRule b)
    else str_le (CGroupName a) (CGroupName b)
  else str_le (CHost a) (CHost b).

#[export] Instance compiled_le_dec a b : Decision (compiled_le a b).
Proof. unfold compiled_le. repeat case_decide; apply _. Defined.

Definition sortCompiledRules (entries : list CompiledRule) : list CompiledRule :=
  merge_sort compiled_le entries.

(** The exact entries come out of the map in an unspecified order; sorting
    makes the result independent of it (theorem [sort_order_irrelevant]). *)
Definition Rules (m : Matcher) : CompiledRules :=
  {| Exact := sortCompiledRules (compile <$> (map_to_list (exact m)).*2);
     Wildcard := sortCompiledRules (compile <$> wildcard m) |}.

Definition NewRuleSetInfo (name version updatedAt : gostring) (groups : list RuleGroup) : RuleSetInfo :=
  match NewMatcher groups [] with
  | Err _ => {| InfoName := name; InfoVersion := version; InfoUpdatedAt := updatedAt;
                GroupCount := 0; ExactCount := 0; WildcardCount := 0 |}
  | Ok matcher =>
      let compiled := Rules matcher in
      {| InfoName := name; InfoVersion := version; InfoUpdatedAt := updatedAt;
         GroupCount := length groups;
         ExactCount := length (Exact compiled);
         WildcardCount := length (Wildcard compiled) |}
  end.

End rules.

(** * What a match means *)

(** [n] is [parent] with something and a dot in front of it. *)
Definition below (n parent : gostring) : Prop := exists p, n = p ++ "." ++ parent.

Lemma wildcardMatches_below n h : wildcardMatches n h = true <-> below n h.
Proof.
  unfold wildcardMatches, below. rewrite andb_true_iff, HasSuffix_true, bool_decide_eq_true.
  split; [by intros [_ ?]|]. intros [p ->]. split; [|by exists p].
  intros E. apply (f_equal length) in E. rewrite !length_app in E. cbn in E. lia.
Qed.

Lemma find_first {A} (f : A -> bool) l x :
  List.find f l = Some x <->
  exists pre post, l = pre ++ x :: post ∧ f x = true ∧ forall y, y ∈ pre -> f y = false.
Proof.
  induction l as [|a l IH]; cbn.
  { split; [done|]. by intros ([] & ? & ? & _). }
  destruct (f a) eqn:E.
  - split.
    + intros [= ->]. exists [], l. split_and!; [done..|]. by intros y ?%elem_of_nil.
    + intros ([|b pre] & post & Heq & Hx & Hpre); cbn in Heq; simplify_eq; [done|].
      rewrite Hpre in E by left. done.
  - rewrite IH. split.
    + intros (pre & post & -> & Hx & Hpre). exists (a :: pre), post. split_and!; [done..|].
      by intros y [->|?]%elem_of_cons; [|apply Hpre].
    + intros ([|b pre] & post & Heq & Hx & Hpre); cbn in Heq; simplify_eq; [congruence|].
      exists pre, post. split_and!; [done..|]. intros y Hy. apply Hpre. by right.
Qed.

Section matching.
Context `{Externals}.

(** [r] is the answer the rules of [m] give for the normalized host [n]: the
    exact entry for [n], or else the first wildcard entry [n] is below. *)
Definition answers (m : Matcher) (n : gostring) (r : MatchResult) : Prop :=
  (exists e, exact m !! n = Some e ∧ r = matchOf n e) ∨
  (exact m !! n = None ∧
   exists pre e post, wildcard m = pre ++ e :: post ∧ r = matchOf n e ∧
     below n (host e) ∧ forall e', e' ∈ pre -> ~ below n (host e')).

(** A host matches exactly when it normalizes and either has an exact entry
    or lies strictly below the host of a wildcard entry; exact entries win, and
    among wildcards the first one declared. *)
Theorem MatchHost_spec m h r :
  MatchHost m h = Some r <-> exists n, NormalizeHost h = Ok n ∧ answers m n r.
Proof.
  unfold MatchHost, answers. destruct (NormalizeHost h) as [n|e]; [|by split; [|intros (?&?&?)]].
  setoid_rewrite <-wildcardMatches_below. destruct (exact m !! n) as [e|] eqn:Ee.
  - split; [intros [= <-]; eauto 10|].
    intros (? & [= <-] & [(e' & ? & ->)|[? _]]); [|congruence]. congruence.
  - destruct (List.find _ (wildcard m)) as [e|] eqn:Ef.
    + apply find_first in Ef as (pre & post & Hw & He & Hpre). split.
      * intros [= <-]. exists n. split; [done|]. right. split; [done|].
        exists pre, e, post. split_and!; [done..|]. intros e' He'. by rewrite Hpre.
      * intros (? & [= <-] & [(e' & ? & ->)|(_ & pre' & e' & post' & Hw' & -> & He' & Hpre')]);
          [congruence|].
        assert (Hf : List.find (fun e0 => wildcardMatches n (host e0)) (wildcard m) = Some e').
        { apply find_first. exists pre', post'. split_and!; [done..|].
          intros y Hy. apply not_true_iff_false. by apply Hpre'. }
        assert (Hf' : List.find (fun e0 => wildcardMatches n (host e0)) (wildcard m) = Some e).
        { apply find_first. by exists pre, post. }
        congruence.
    + split; [done|].
      intros (? & [= <-] & [(e' & ? & ->)|(_ & pre' & e' & post' & Hw' & -> & He' & Hpre')]);
        [congruence|].
      eapply List.find_none in Ef; [|rewrite Hw'; apply in_app_iff; right; by left].
      congruence.
Qed.
End matching.

(** * Building a matcher *)

Section building.
Context `{Externals}.

(** The specification of a rule list: what it says about one host.  The last
    exact rule for the host wins; the wildcard rules keep their order. *)
Definition last_exact (es : list (ruleEntry * bool)) (n : gostring) : option ruleEntry :=
  last (filter (fun e => host e = n) (filter (fun x => x.2 = false) es).*1).
Definition wildcards (es : list (ruleEntry * bool)) : list ruleEntry :=
  (filter (fun x => x.2 = true) es).*1.

(** The rules of the groups in order, the custom domains last. *)
Definition rule_list (groups : list RuleGroup) (custom : list gostring)
  : list (gostring * gostring) :=
  mjoin ((fun g => pair (GroupName g) <$> Domains g) <$> groups) ++ (pair "custom" <$> custom).

Definition normalizeAll (rs : list (gostring * gostring)) : result (list (ruleEntry * bool)) :=
  rmapM (fun x => normalizeRule x.1 x.2) rs.

(** The matcher [m] represents the normalized rules [es]. *)
Definition represents (m : Matcher) (es : list (ruleEntry * bool)) : Prop :=
  (forall n, exact m !! n = last_exact es n) ∧ wildcard m = wildcards es.

Lemma represents_add m es grp d m' :
  represents m es -> addDomain grp m d = Ok m' ->
  exists e, normalizeRule grp d = Ok e ∧ represents m' (es ++ [e]).
Proof.
  intros [He Hw]. unfold addDomain. destruct (normalizeRule grp d) as [[e w]|]; [|done].
  cbn. intros Hm. exists (e, w). split; [done|]. unfold represents, last_exact, wildcards in *.
  destruct w; simplify_eq; cbn; split.
  - intros n. rewrite filter_app, filter_cons_False, filter_nil, app_nil_r by done. apply He.
  - by rewrite filter_app, filter_cons_True, fmap_app, Hw.
  - intros n. rewrite filter_app, filter_cons_True, filter_nil, fmap_app, filter_app by done.
    change (fst <$> [(e, false)]) with [e].
    destruct (decide (host e = n)) as [<-|Hne].
    + rewrite filter_cons_True by done. rewrite filter_nil, last_snoc. by rewrite lookup_insert_eq.
    + rewrite filter_cons_False by done. rewrite filter_nil, app_nil_r.
      by rewrite lookup_insert_ne.
  - by rewrite filter_app, filter_cons_False, filter_nil, app_nil_r.
Qed.

Lemma represents_domains grp ds m es m' :
  represents m es -> rfold (addDomain grp) m ds = Ok m' ->
  exists es', normalizeAll (pair grp <$> ds) = Ok es' ∧ represents m' (es ++ es').
Proof.
  revert m es; induction ds as [|d ds IH]; intros m es Hr; cbn.
  { intros [= <-]. exists []. by rewrite app_nil_r. }
  destruct (addDomain grp m d) as [m1|] eqn:E; cbn; [|done]. intros Hm.
  destruct (represents_add _ _ _ _ _ Hr E) as (e & -> & Hr1).
  destruct (IH _ _ Hr1 Hm) as (es' & He & Hr').
  cbn. unfold normalizeAll in He. cbn in He. rewrite He. cbn. exists (e :: es').
  split; [done|]. by rewrite <-app_assoc in Hr'.
Qed.

Lemma normalizeAll_app rs rs' es es' :
  normalizeAll rs = Ok es -> normalizeAll rs' = Ok es' ->
  normalizeAll (rs ++ rs') = Ok (es ++ es').
Proof. unfold normalizeAll. rewrite !rmapM_Forall2. apply Forall2_app. Qed.

Lemma represents_groups gs m es m' :
  represents m es -> rfold addGroup m gs = Ok m' ->
  exists es', normalizeAll (rule_list gs []) = Ok es' ∧ represents m' (es ++ es').
Proof.
  unfold rule_list. revert m es; induction gs as [|g gs IH]; intros m es Hr; cbn.
  { intros [= <-]. exists []. by rewrite app_nil_r. }
  destruct (addGroup m g) as [m1|] eqn:E; cbn; [|done]. intros Hm.
  unfold addGroup in E. case_match; [done|].
  destruct (represents_domains _ _ _ _ _ Hr E) as (es1 & He1 & Hr1).
  destruct (IH _ _ Hr1 Hm) as (es2 & He2 & Hr2).
  exists (es1 ++ es2). rewrite app_assoc. split; [|done].
  rewrite <-app_assoc. by apply normalizeAll_app.
Qed.

Lemma NewMatcher_repr groups custom m :
  NewMatcher groups custom = Ok m ->
  exists es, normalizeAll (rule_list groups custom) = Ok es ∧ represents m es.
Proof.
  unfold NewMatcher. destruct (rfold addGroup _ groups) as [m1|] eqn:E; cbn; [|done].
  assert (H0 : represents {| exact := ∅; wildcard := [] |} []).
  { split; [intros n; apply lookup_empty|done]. }
  destruct (represents_groups _ _ _ _ H0 E) as (es1 & He1 & Hr1). cbn in Hr1.
  destruct custom as [|c cs].
  { intros [= <-]. by exists es1. }
  unfold addGroup. case_match; [done|]. intros Hm.
  destruct (represents_domains _ _ _ _ _ Hr1 Hm) as (es2 & He2 & Hr2).
  exists (es1 ++ es2). split; [|done]. cbn [GroupName Domains] in He2.
  unfold rule_list in *. cbn in He1. rewrite app_nil_r in He1. by apply normalizeAll_app.
Qed.

(** The answer of a list of normalized rules for a host. *)
Definition spec_match (es : list (ruleEntry * bool)) (h : gostring) : option MatchResult :=
  match NormalizeHost h with
  | Err _ => None
  | Ok n =>
      match last_exact es n with
      | Some e => Some (matchOf n e)
      | None => matchOf n <$> List.find (fun e => wildcardMatches n (host e)) (wildcards es)
      end
  end.

(** C8: the matcher that NewMatcher builds implements the rule list it is given.
    Every rule is normalized in turn; for any host the matcher then answers as
    the list does: the last exact rule for the host, or else the first wildcard
    rule it is below, custom domains coming after the groups. *)
Theorem NewMatcher_refines groups custom m :
  NewMatcher groups custom = Ok m ->
  exists es, normalizeAll (rule_list groups custom) = Ok es ∧
    forall h, MatchHost m h = spec_match es h.
Proof.
  intros Hm. destruct (NewMatcher_repr _ _ _ Hm) as (es & Hes & He & Hw).
  exists es. split; [done|]. intros h. unfold MatchHost, spec_match.
  destruct (NormalizeHost h) as [n|]; [|done]. rewrite He, Hw.
  destruct (last_exact es n); [done|]. by destruct (List.find _ _).
Qed.

(** Every entry of a matcher stands under the key it is filed under, and its
    rule text is derived from its host. *)
Definition wf_matcher (m : Matcher) : Prop :=
  (forall n e, exact m !! n = Some e -> host e = n ∧ rule e = n) ∧
  (forall e, e ∈ wildcard m -> rule e = "*." ++ host e).

Lemma normalizeRule_shape grp rl e w :
  normalizeRule grp rl = Ok (e, w) ->
  group e = grp ∧ rule e = (if w : bool then "*." ++ host e else host e) ∧
  exists raw, NormalizeHost raw = Ok (host e).
Proof.
  unfold normalizeRule. case_match; [done|]. case_match; [done|].
  case_match; destruct (NormalizeHost _) as [h|] eqn:E; cbn; try done;
    intros [= <- <-]; cbn; eauto.
Qed.

Lemma wf_addDomain grp m d m' : wf_matcher m -> addDomain grp m d = Ok m' -> wf_matcher m'.
Proof.
  intros [He Hw]. unfold addDomain.
  destruct (normalizeRule grp d) as [[e w]|] eqn:E; [|done]. cbn.
  apply normalizeRule_shape in E as (_ & Hr & _).
  destruct w; intros [= <-]; split; cbn; [done| | |done].
  - intros e' [?|?%list_elem_of_singleton]%elem_of_app; [by apply Hw|by subst].
  - intros n e'. rewrite lookup_insert. case_decide as Hn; [|apply He].
    intros [= <-]. by rewrite Hr.
Qed.

Lemma wf_addGroup m g m' : wf_matcher m -> addGroup m g = Ok m' -> wf_matcher m'.
Proof.
  intros Hm. unfold addGroup. case_match; [done|]. apply rfold_ind; [done|].
  intros t x t' _ Ht. by apply wf_addDomain.
Qed.

Lemma wf_NewMatcher groups custom m : NewMatcher groups custom = Ok m -> wf_matcher m.
Proof.
  unfold NewMatcher. destruct (rfold addGroup _ groups) as [m1|] eqn:E; cbn; [|done].
  assert (wf_matcher m1).
  { revert E. apply rfold_ind.
    - split; cbn; [intros ? ?; by rewrite lookup_empty|by intros ? ?%elem_of_nil].
    - intros t x t' _. apply wf_addGroup. }
  destruct custom; [by intros [= <-]|by apply wf_addGroup].
Qed.
End building.

(** * Compiled rules *)

Section compiled.

Lemma compiled_le_trans a b c : compiled_le a b -> compiled_le b c -> compiled_le a c.
Proof.
  unfold compiled_le. destruct a as [h1 g1 r1], b as [h2 g2 r2], c as [h3 g3 r3]; cbn.
  intros Hab Hbc; revert Hab Hbc. repeat case_decide; subst; try done; try congruence.
  all: try (intros; by etrans).
  all: intros Hab Hbc; destruct (str_le_ne _ _ Hab Hbc); congruence.
Qed.

Lemma compiled_le_antisym a b : compiled_le a b -> compiled_le b a -> a = b.
Proof.
  unfold compiled_le. destruct a as [h1 g1 r1], b as [h2 g2 r2]; cbn.
  repeat case_decide; subst; try congruence; intros Hab Hba.
  all: try (destruct (str_le_ne _ _ Hab Hba); congruence).
  f_equal. by apply (anti_symm str_le).
Qed.

#[export] Instance compiled_le_transitive : Transitive compiled_le.
Proof. intros a b c. apply compiled_le_trans. Qed.

#[export] Instance compiled_le_total : Total compiled_le.
Proof.
  intros [h1 g1 r1] [h2 g2 r2]. unfold compiled_le; cbn.
  repeat case_decide; subst; try congruence; apply (total str_le).
Qed.

#[export] Instance compiled_le_antisymm : AntiSymm (=) compiled_le.
Proof. intros a b. apply compiled_le_antisym. Qed.

Lemma sortCompiledRules_perm l : Permutation (sortCompiledRules l) l.
Proof. apply merge_sort_Permutation. Qed.

Lemma sortCompiledRules_sorted l : StronglySorted compiled_le (sortCompiledRules l).
Proof. apply StronglySorted_merge_sort; apply _. Qed.

(** Sorting fixes the order completely: whatever order the map iteration
    yields the entries in, the compiled list is the same. *)
Theorem sort_order_irrelevant l l' :
  Permutation l l' -> sortCompiledRules l = sortCompiledRules l'.
Proof.
  intros Hp. apply (StronglySorted_unique compiled_le);
    [apply sortCompiledRules_sorted..|]. by rewrite !sortCompiledRules_perm.
Qed.

(** Rules returns every exact and wildcard entry exactly once, sorted, and
    RuleCount counts them. *)
Theorem Rules_spec m :
  StronglySorted compiled_le (Exact (Rules m)) ∧
  StronglySorted compiled_le (Wildcard (Rules m)) ∧
  Permutation (Exact (Rules m)) (compile <$> (map_to_list (exact m)).*2) ∧
  Permutation (Wildcard (Rules m)) (compile <$> wildcard m) ∧
  RuleCount m = length (Exact (Rules m)) + length (Wildcard (Rules m)).
Proof.
  unfold Rules, RuleCount; cbn. split_and!;
    try apply sortCompiledRules_sorted; try apply sortCompiledRules_perm.
  by rewrite !sortCompiledRules_perm, !length_fmap, length_map_to_list.
Qed.
End compiled.

(** * Normalization *)

Section normalization.
Context `{ExternalLaws}.

(** A host name in any letter case. *)
Definition host_name (h : gostring) : bool := ldh_host (ascii_ToLower h).

Lemma lower_byte_cases c :
  ldh_byte (lower_byte c) = true ∨ lower_byte c = dot ->
  graphic c = true ∧ is_ascii_byte c = true ∧
  (c ∉ [colon; lbracket; rbracket] ++ "/?#*%") ∧ (lower_byte c ≠ dot -> c ≠ dot).
Proof.
  destruct c as [[] [] [] [] [] [] [] []];
    (intros [Hc|Hc]; try discriminate Hc); split_and!;
    solve [reflexivity|discriminate|eapply bool_decide_eq_false_1; reflexivity
          |by intros Hd; destruct Hd; reflexivity].
Qed.

Lemma host_name_bytes h c : host_name h = true -> c ∈ h ->
  graphic c = true ∧ is_ascii_byte c = true ∧ (c ∉ [colon; lbracket; rbracket] ++ "/?#*%").
Proof.
  intros Hh Hc. destruct (lower_byte_cases c) as (?&?&?&_); [|done].
  apply (ldh_host_bytes (ascii_ToLower h)); [done|]. by apply list_elem_of_fmap_2.
Qed.

Lemma host_name_avoids h c :
  host_name h = true -> c ∈ [colon; lbracket; rbracket] ++ "/?#*%" -> c ∉ h.
Proof. intros Hh Hc Hin. by apply (host_name_bytes h c Hh Hin). Qed.

Lemma host_name_graphic h : host_name h = true -> forallb graphic h = true.
Proof. intros Hh. apply forallb_forall. intros c Hc%list_elem_of_In. by apply (host_name_bytes h). Qed.

Lemma host_name_ascii h : host_name h = true -> is_ascii h = true.
Proof. intros Hh. apply forallb_forall. intros c Hc%list_elem_of_In. by apply (host_name_bytes h). Qed.

Lemma host_name_last h : host_name h = true -> last h <> Some dot ∧ h <> [].
Proof.
  intros Hh. destruct (ldh_host_last _ Hh) as (c & Hl & Hc). unfold ascii_ToLower in Hl.
  rewrite fmap_last in Hl. split; intros E; [|by subst].
  rewrite E in Hl. by injection Hl.
Qed.

(** [tail] is what may follow a host name: nothing or the root dot. *)
Lemma trimmed_host_name h tail :
  host_name h = true -> tail = [] ∨ tail = "." ->
  ToLower (TrimSpace (TrimSuffix (TrimSuffix (TrimPrefix (h ++ tail) "[") "]") ".")) =
    ascii_ToLower h.
Proof.
  intros Hh Hp. destruct (host_name_last h Hh) as [Hl Hne].
  assert (Hb : forall c, c = lbracket ∨ c = rbracket -> c ∉ h ++ tail).
  { intros c Hc. apply not_elem_of_app. split; [apply host_name_avoids; [done|set_solver]|].
    destruct Hp as [-> | ->]; [apply not_elem_of_nil|].
    intros Hd%list_elem_of_singleton. subst c. by destruct Hc. }
  rewrite (TrimPrefix_none _ "["), (TrimSuffix_none _ "]").
  - rewrite <-(ToLower_ascii h) by by apply host_name_ascii.
    rewrite <-(TrimSpace_graphic h) at 2 by by apply host_name_graphic.
    do 2 f_equal. destruct Hp as [-> | ->].
    + rewrite app_nil_r, TrimSuffix_none; [done|]. rewrite HasSuffix_byte.
      by apply bool_decide_eq_false.
    + apply TrimSuffix_app.
  - rewrite HasSuffix_byte. apply bool_decide_eq_false. intros E%last_Some_elem_of.
    by apply (Hb rbracket); [right|].
  - rewrite HasPrefix_byte. apply bool_decide_eq_false. intros E.
    apply (Hb lbracket); [by left|]. destruct (h ++ tail); [done|]. injection E as ->. left.
Qed.

(** The port, if there is one, is a string of digits. *)
Lemma normalizeAuthority_name raw h tail port :
  host_name h = true -> tail = [] ∨ tail = "." ->
  port = [] ∨ (exists ds, port = colon :: ds ∧ forallb is_digit ds = true) ->
  normalizeAuthority raw (h ++ tail ++ port) = Ok (ascii_ToLower h).
Proof.
  intros Hh Ht Hp. unfold normalizeAuthority.
  assert (Hc : forall c, c = colon ∨ c = lbracket ∨ c = rbracket -> c ∉ h ++ tail).
  { intros c Hc. apply not_elem_of_app. split; [apply host_name_avoids; [done|set_solver]|].
    destruct Ht as [-> | ->]; [apply not_elem_of_nil|].
    intros Hd%list_elem_of_singleton. subst c. naive_solver. }
  assert (Hs : match SplitHostPort (h ++ tail ++ port) with
               | Ok (x, _) => x | Err _ => h ++ tail ++ port end = h ++ tail).
  { destruct Hp as [-> |(ds & -> & Hd)].
    - rewrite app_nil_r. pose proof (SplitHostPort_no_colon (h ++ tail)) as Hn.
      destruct (SplitHostPort (h ++ tail)) as [[]|]; [|done]. cbn in Hn.
      by specialize (Hn (Hc colon (or_introl eq_refl))).
    - rewrite app_assoc, (SplitHostPort_shape _ (h ++ tail) ds); [done|].
      assert (Hds : forall c, is_digit c = false -> c ∉ ds).
      { intros c Hn Hin. rewrite forallb_forall in Hd. apply list_elem_of_In in Hin.
        apply Hd in Hin. congruence. }
      split_and!; try (apply Hds; reflexivity); try (apply Hc; naive_solver).
      left. split; [done|]. apply Hc. by left. }
  rewrite Hs, trimmed_host_name by done.
  destruct (host_name_last h Hh) as [_ Hne].
  rewrite bool_decide_eq_false_2 by (by destruct h).
  rewrite (proj2 (ContainsAny_false _ _)).
  - rewrite idna_ldh by done. cbn. f_equal.
    rewrite ToLower_ascii by by apply ldh_host_ascii. apply ascii_ToLower_idemp.
  - intros c Hin Hd. eapply (ldh_host_avoids _ c Hh); [set_solver|done].
Qed.

Lemma NormalizeHost_spelling raw h tail port :
  host_name h = true -> tail = [] ∨ tail = "." ->
  port = [] ∨ (exists ds, port = colon :: ds ∧ forallb is_digit ds = true) ->
  TrimSpace raw = h ++ tail ++ port ->
  NormalizeHost raw = Ok (ascii_ToLower h).
Proof.
  intros Hh Ht Hp Hraw. unfold NormalizeHost. rewrite Hraw.
  destruct (host_name_last h Hh) as [_ Hne].
  rewrite bool_decide_eq_false_2 by (by destruct h).
  assert (Hs : Contains (h ++ tail ++ port) "://" = false).
  { apply not_true_iff_false. intros (a & b & E)%Contains_true.
    assert (Hin : chr 47 ∈ h ++ tail ++ port) by (rewrite E; set_solver).
    revert Hin. apply not_elem_of_app. split; [apply host_name_avoids; [done|set_solver]|].
    apply not_elem_of_app. split; [destruct Ht as [-> | ->]; [apply not_elem_of_nil|]|].
    - by intros ?%list_elem_of_singleton.
    - destruct Hp as [-> |(ds & -> & Hd)]; [apply not_elem_of_nil|].
      intros [?|Hin]%elem_of_cons; [done|]. rewrite forallb_forall in Hd.
      apply list_elem_of_In in Hin. by apply Hd in Hin. }
  rewrite Hs. cbn. by apply normalizeAuthority_name.
Qed.

(** A canonical host is its own normal form. *)
Lemma NormalizeHost_ldh h : ldh_host h = true -> NormalizeHost h = Ok h.
Proof.
  intros Hh. assert (E : ascii_ToLower h = h) by by apply ascii_ToLower_id, ldh_host_lower.
  rewrite <-E at 2. eapply (NormalizeHost_spelling h h [] []); try by left.
  - unfold host_name. by rewrite E.
  - rewrite app_nil_r. by apply TrimSpace_graphic, ldh_host_graphic.
Qed.

(** C19: normalizeHost maps every spelling of a host name to one canonical form:
    letter case, surrounding white space, a trailing root dot and a port number
    are all removed, and the canonical form is its own normal form. *)
Theorem NormalizeHost_canonical raw h tail port :
  host_name h = true -> tail = [] ∨ tail = "." ->
  port = [] ∨ (exists ds, port = colon :: ds ∧ forallb is_digit ds = true) ->
  TrimSpace raw = h ++ tail ++ port ->
  NormalizeHost raw = Ok (ascii_ToLower h) ∧
  NormalizeHost (ascii_ToLower h) = Ok (ascii_ToLower h).
Proof.
  intros Hh Ht Hp Hraw. split; [by eapply NormalizeHost_spelling|by apply NormalizeHost_ldh].
Qed.

(** Whatever NormalizeHost accepts, its result is ASCII with no upper-case
    letter, so two hosts that normalize compare byte for byte. *)
Theorem NormalizeHost_lower raw h :
  NormalizeHost raw = Ok h -> is_ascii h = true ∧ existsb is_upper h = false.
Proof.
  unfold NormalizeHost. case_match; [done|]. intros Hn. inv_ok1 Hn.
  unfold normalizeAuthority in Hn. case_match; [done|]. case_match; [done|].
  destruct (idna_ToASCII _) as [r|] eqn:Ea; [|done]. cbn in Hn. injection Hn as <-.
  apply idna_ascii in Ea. rewrite ToLower_ascii by done. rewrite ascii_ToLower_ascii.
  split; [done|]. unfold ascii_ToLower. clear Ea.
  induction r as [|c r IH]; cbn; [done|]. by rewrite lower_byte_not_upper, IH.
Qed.
End normalization.

(** * Rules already in canonical form *)

Section canonical.
Context `{ExternalLaws}.

Definition canonical_rule (d : gostring) : bool :=
  ldh_host d || HasPrefix d "*." && ldh_host (TrimPrefix d "*.").

Definition canonical_entry (grp d : gostring) : ruleEntry * bool :=
  ({| group := grp; rule := d; host := TrimPrefix d "*." |}, HasPrefix d "*.").

Lemma ldh_not_wildcard d : ldh_host d = true -> HasPrefix d "*." = false.
Proof.
  intros Hd. apply not_true_iff_false. intros [r ->]%HasPrefix_true.
  by apply (ldh_host_avoids _ (chr 42) Hd); [set_solver|left].
Qed.

Lemma normalizeRule_canonical grp d :
  canonical_rule d = true -> normalizeRule grp d = Ok (canonical_entry grp d).
Proof.
  unfold canonical_rule. intros [Hd|[Hp Hd]%andb_true_iff]%orb_true_iff.
  - pose proof (ldh_not_wildcard d Hd) as Hn. unfold normalizeRule, canonical_entry.
    rewrite TrimSpace_graphic by by apply ldh_host_graphic.
    rewrite bool_decide_eq_false_2 by (by intros ->).
    rewrite Hn, Contains_byte, bool_decide_eq_false_2 by (apply (ldh_host_avoids _ _ Hd); set_solver).
    cbn [andb]. rewrite NormalizeHost_ldh by done. cbn. by rewrite TrimPrefix_none.
  - apply HasPrefix_true in Hp as [r ->]. rewrite TrimPrefix_app in Hd.
    unfold normalizeRule, canonical_entry.
    rewrite TrimSpace_graphic by (cbn; by apply ldh_host_graphic).
    rewrite bool_decide_eq_false_2 by done. rewrite HasPrefix_app, andb_false_r, TrimPrefix_app.
    by rewrite NormalizeHost_ldh.
Qed.

(** The matcher such rules give, computed without normalizing anything. *)
Definition canonical_add (grp : gostring) (m : Matcher) (d : gostring) : Matcher :=
  let '(e, w) := canonical_entry grp d in
  if w : bool
  then {| exact := exact m; wildcard := wildcard m ++ [e] |}
  else {| exact := <[host e := e]> (exact m); wildcard := wildcard m |}.

Definition canonical_matcher (groups : list RuleGroup) : Matcher :=
  foldl (fun m g => foldl (canonical_add (GroupName g)) m (Domains g))
    {| exact := ∅; wildcard := [] |} groups.

Definition canonical_group (g : RuleGroup) : bool :=
  negb (is_blank (GroupName g)) && forallb canonical_rule (Domains g).

Lemma NewMatcher_canonical groups :
  forallb canonical_group groups = true -> NewMatcher groups [] = Ok (canonical_matcher groups).
Proof.
  assert (Hd : forall grp ds m, forallb canonical_rule ds = true ->
    rfold (addDomain grp) m ds = Ok (foldl (canonical_add grp) m ds)).
  { induction ds as [|d ds IH]; intros m; [done|]. cbn [forallb]. intros [Hc Hds]%andb_true_iff.
    cbn [rfold foldl]. unfold addDomain at 1. rewrite normalizeRule_canonical by done. cbn [rbind].
    unfold canonical_add at 2. destruct (canonical_entry grp d) as [e []]; cbn [rbind]; by rewrite IH. }
  unfold NewMatcher, canonical_matcher. generalize {| exact := ∅; wildcard := [] |} as m.
  induction groups as [|g gs IH]; intros m; [done|]. cbn [forallb].
  intros [[Hb Hg]%andb_true_iff Hgs]%andb_true_iff. cbn [rfold foldl].
  unfold addGroup at 1. apply negb_true_iff in Hb. rewrite Hb, Hd by done. cbn [rbind].
  by apply IH.
Qed.
End canonical.

(** ** Witnesses *)

Section witnesses.
#[local] Existing Instance simple_externals.

Definition example_groups : list RuleGroup :=
  [{| GroupName := "steam/community"; Domains := ["steamcommunity.com"; "*.steamcommunity.com"] |}].

Lemma NewMatcher_refines_witness :
  exists es, normalizeAll (rule_list example_groups ["b.example"]) = Ok es ∧ length es = 3.
Proof.
  destruct (NewMatcher example_groups ["b.example"]) as [m|] eqn:E; [|vm_compute in E; done].
  destruct (NewMatcher_refines _ _ _ E) as (es & Hes & _). exists es. split; [done|].
  vm_compute in Hes. by injection Hes as <-.
Defined.

Lemma sort_order_irrelevant_witness :
  sortCompiledRules [{| CHost := "b"; CGroupName := []; CRule := [] |};
                     {| CHost := "a"; CGroupName := []; CRule := [] |}] =
  sortCompiledRules [{| CHost := "a"; CGroupName := []; CRule := [] |};
                     {| CHost := "b"; CGroupName := []; CRule := [] |}].
Proof. apply sort_order_irrelevant. constructor. Defined.

Lemma NormalizeHost_canonical_witness :
  NormalizeHost "  Store.SteamPowered.com.:443 " = Ok "store.steampowered.com" ∧
  NormalizeHost "store.steampowered.com" = Ok "store.steampowered.com".
Proof.
  apply (NormalizeHost_canonical "  Store.SteamPowered.com.:443 "
           "Store.SteamPowered.com" "." ":443"); [reflexivity|by right| |reflexivity].
  right. exists "443". split; reflexivity.
Defined.

Lemma NormalizeHost_lower_witness :
  is_ascii "steam.com" = true ∧ existsb is_upper "steam.com" = false.
Proof. apply (NormalizeHost_lower "Steam.COM" "steam.com"). reflexivity. Defined.
End witnesses.
