(* ===== verification/Profile.v ===== *)
(** Outbound profiles (src/internal/upstream/profile.go) and the probe target
    record (src/internal/upstream/probe.go): compilation of the configured
    profiles and the choice of the profile for a host. *)
From stdpp Require Import strings.
From Stdlib Require Import Ascii.
From S2P Require Import Prelude GoStrings GoNet External Rules.

Record Profile := {
  MatchDomains : list gostring;
  CandidateIPs : list gostring;
  ForwardHost : gostring;
  TLSServerName : gostring;
  IgnoreTLSNameMismatch : bool;
}.

Record compiledProfileDomain := { dhost : gostring; dwildcard : bool }.

Record compiledProfile := {
  matchDomains : list compiledProfileDomain;
  candidateIPs : list IP;
  forwardHost : gostring;
  tlsServerName : gostring;
  ignoreTLSNameMismatch : bool;
}.

Record ProbeTarget := {
  ProviderID : gostring;
  TargetHost : gostring;
  TargetPort : gostring;
  TargetPath : gostring;
}.

#[export] Instance Profile_eq_dec : EqDecision Profile.
Proof. solve_decision. Defined.
#[export] Instance compiledProfileDomain_eq_dec : EqDecision compiledProfileDomain.
Proof. solve_decision. Defined.
#[export] Instance compiledProfile_eq_dec : EqDecision compiledProfile.
Proof. solve_decision. Defined.
#[export] Instance ProbeTarget_eq_dec : EqDecision ProbeTarget.
Proof. solve_decision. Defined.

Section profile.
Context `{Externals}.

Definition normalizeProfileHost (h : gostring) : result gostring :=
  let h' := TrimSpace h in
  if bool_decide (h' = []) then Ok [] else NormalizeHost h'.

(** The body of the loop over [profile.MatchDomains]; blank entries are skipped. *)
Definition compileDomain (i : nat) (acc : list compiledProfileDomain) (x : nat * gostring)
  : result (list compiledProfileDomain) :=
  let '(j, raw) := x in
  let domain := TrimSpace raw in
  if bool_decide (domain = []) then Ok acc
  else
    let isWildcard := HasPrefix domain "*." in
    if Contains domain "*" && negb isWildcard
    then Err (Errorf "profiles[%d] match_domains[%d] must use the *.example.com form"
                [ItoaNat i; ItoaNat j])
    else
      let domain' := if isWildcard then TrimPrefix domain "*." else domain in
      do h <- wrap_err "profiles[%d] match_domains[%d]: %w" [ItoaNat i; ItoaNat j] (NormalizeHost domain');
      Ok (acc ++ [{| dhost := h; dwildcard := isWildcard |}]).

Definition compileCandidateIP (i : nat) (acc : list IP) (x : nat * gostring) : result (list IP) :=
  let '(j, raw) := x in
  let rawIP := TrimSpace raw in
  if bool_decide (rawIP = []) then Ok acc
  else
    let ip := ParseIP rawIP in
    if bool_decide (ip = [])
    then Err (Errorf "profiles[%d] candidate_ips[%d] must be an IP address" [ItoaNat i; ItoaNat j])
    else Ok (acc ++ [ip]).

Definition compileProfile (x : nat * Profile) : result compiledProfile :=
  let '(i, profile) := x in
  do domains <- rfold (compileDomain i) [] (enum (MatchDomains profile));
  if bool_decide (domains = [])
  then Err (Errorf "profiles[%d] match_domains is required" [ItoaNat i])
  else
    do ips <- rfold (compileCandidateIP i) [] (enum (CandidateIPs profile));
    do fwd <- wrap_err "profiles[%d] forward_host: %w" [ItoaNat i]
                (normalizeProfileHost (ForwardHost profile));
    do sni <- wrap_err "profiles[%d] tls_server_name: %w" [ItoaNat i]
                (normalizeProfileHost (TLSServerName profile));
    if bool_decide (ips = []) && bool_decide (fwd = []) && bool_decide (sni = []) &&
       negb (IgnoreTLSNameMismatch profile)
    then Err (Errorf "profiles[%d] must define candidate_ips, forward_host, tls_server_name, or ignore_tls_name_mismatch" [ItoaNat i])
    else Ok {| matchDomains := domains; candidateIPs := ips; forwardHost := fwd;
               tlsServerName := sni; ignoreTLSNameMismatch := IgnoreTLSNameMismatch profile |}.

Definition compileProfiles (profiles : list Profile) : result (list compiledProfile) :=
  rmapM compileProfile (enum profiles).

Definition domainMatches (normalized : gostring) (d : compiledProfileDomain) : bool :=
  if dwildcard d then wildcardMatches normalized (dhost d)
  else bool_decide (normalized = dhost d).

(** [DirectDialer.matchProfile] on the dialer's compiled profiles. *)
Definition matchProfile (profiles : list compiledProfile) (h : gostring) : option compiledProfile :=
  match profiles with
  | [] => None
  | _ =>
      match NormalizeHost h with
      | Err _ => None
      | Ok normalized =>
          List.find (fun p => existsb (domainMatches normalized) (matchDomains p)) profiles
      end
  end.

(** * Properties *)

(** What every compiled profile guarantees the dialer: it matches something,
    its addresses are real addresses, and it has an effect. *)
Definition usable (p : compiledProfile) : Prop :=
  matchDomains p <> [] ∧ Forall (fun ip => ip <> []) (candidateIPs p) ∧
  (candidateIPs p <> [] ∨ forwardHost p <> [] ∨ tlsServerName p <> [] ∨
   ignoreTLSNameMismatch p = true).

Lemma compileProfile_usable i p q : compileProfile (i, p) = Ok q -> usable q.
Proof.
  unfold compileProfile. intros Hq.
  destruct (rfold (compileDomain i) _ _) as [ds|]; [|done]. cbn in Hq.
  case_bool_decide; [done|].
  destruct (rfold (compileCandidateIP i) [] _) as [ips|] eqn:Eip; [|done]. cbn in Hq.
  destruct (wrap_err _ _ (normalizeProfileHost (ForwardHost p))) as [fwd|]; [|done]. cbn in Hq.
  destruct (wrap_err _ _ (normalizeProfileHost (TLSServerName p))) as [sni|]; [|done]. cbn in Hq.
  case_match eqn:Ec; [done|]. injection Hq as <-. unfold usable; cbn.
  split; [done|]. split.
  - clear Ec. revert Eip. apply rfold_ind; [constructor|]. intros t [j raw] t' _ Ht. unfold compileCandidateIP.
    case_bool_decide; [by intros; simplify_eq|]. case_bool_decide; [done|].
    intros; simplify_eq. apply Forall_app. split; [done|]. by repeat constructor.
  - rewrite !andb_false_iff, !bool_decide_eq_false, negb_false_iff in Ec. tauto.
Qed.

(** Compiling the profiles either fails or yields one usable profile per
    configured profile, in the same order: none without a match domain, with an
    invalid address, or without any effect reaches the dialer. *)
Theorem compileProfiles_usable ps qs :
  compileProfiles ps = Ok qs -> length qs = length ps ∧ Forall usable qs.
Proof.
  intros Hc. split.
  - apply rmapM_ok_length in Hc. unfold enum in Hc. rewrite length_zip, length_seq in Hc. lia.
  - apply rmapM_Forall2 in Hc. induction Hc as [|[i p] q xs ys Hq _ IH]; [done|].
    constructor; [by eapply compileProfile_usable|done].
Qed.

(** The profile chosen for a host is the first one with a domain that
    matches it, where a wildcard domain matches the hosts strictly below it. *)
Theorem matchProfile_first profiles h p :
  matchProfile profiles h = Some p <->
  exists n pre post, NormalizeHost h = Ok n ∧ profiles = pre ++ p :: post ∧
    (exists d, d ∈ matchDomains p ∧ (if dwildcard d then below n (dhost d) else n = dhost d)) ∧
    forall q d, q ∈ pre -> d ∈ matchDomains q ->
      ~ (if dwildcard d then below n (dhost d) else n = dhost d).
Proof.
  assert (Hd : forall n d, domainMatches n d = true <->
    (if dwildcard d then below n (dhost d) else n = dhost d)).
  { intros n d. unfold domainMatches. destruct (dwildcard d).
    - apply wildcardMatches_below.
    - apply bool_decide_eq_true. }
  assert (He : forall n q, existsb (domainMatches n) (matchDomains q) = true <->
    exists d, d ∈ matchDomains q ∧ (if dwildcard d then below n (dhost d) else n = dhost d)).
  { intros n q. rewrite existsb_exists. by setoid_rewrite <-Hd; setoid_rewrite list_elem_of_In. }
  assert (Hm : matchProfile profiles h = match NormalizeHost h with Err _ => None
    | Ok n => List.find (fun p => existsb (domainMatches n) (matchDomains p)) profiles end).
  { unfold matchProfile. destruct profiles; [by destruct (NormalizeHost h)|done]. }
  rewrite Hm. destruct (NormalizeHost h) as [n|]; [|by split; [|intros (?&?&?&?&_)]].
  rewrite find_first. split.
  - intros (pre & post & Hp & Hx%He & Hpre). exists n, pre, post. split_and!; [done..|].
    intros q d Hq Hdq Hbad. specialize (Hpre q Hq). apply not_true_iff_false in Hpre.
    apply Hpre, He. eauto.
  - intros (n' & pre & post & [= <-] & Hp & Hx & Hpre). exists pre, post.
    split_and!; [done|by apply He|]. intros q Hq. apply not_true_iff_false.
    intros (d & Hdq & Hbad)%He. by eapply Hpre.
Qed.
End profile.

Lemma compileProfiles_usable_witness :
  length (A := compiledProfile) [{| matchDomains := [{| dhost := "a.b"; dwildcard := true |}];
    candidateIPs := []; forwardHost := "c.d"; tlsServerName := [];
    ignoreTLSNameMismatch := false |}] = 1 ∧
  Forall usable [{| matchDomains := [{| dhost := "a.b"; dwildcard := true |}];
    candidateIPs := []; forwardHost := "c.d"; tlsServerName := [];
    ignoreTLSNameMismatch := false |}].
Proof.
  apply (@compileProfiles_usable simple_externals
    [{| MatchDomains := ["*.A.b"]; CandidateIPs := []; ForwardHost := "c.d.";
        TLSServerName := []; IgnoreTLSNameMismatch := false |}]).
  vm_compute. reflexivity.
Defined.
