(* ===== verification/Provider.v ===== *)
(** The provider registry (src/internal/provider): the built-in Steam and GitHub
    providers, lookup and the selection of the enabled providers. *)
From stdpp Require Import strings.
From Stdlib Require Import Ascii Permutation.
From S2P Require Import Prelude GoStrings GoNet External Rules Profile.

Definition IDSteam : gostring := "steam".
Definition IDGitHub : gostring := "github".
Definition StatusStable : gostring := "stable".
Definition StatusExperimental : gostring := "experimental".

Record Provider := {
  ID : gostring;
  Name : gostring;
  Status : gostring;
  RuleSetName : gostring;
  RuleSetVersion : gostring;
  RuleSetUpdatedAt : gostring;
  PRules : list RuleGroup;
  OutboundProfilesOf : list Profile;
  ProbeTargetsOf : list ProbeTarget;
}.

Record Summary := {
  SID : gostring;
  SName : gostring;
  SStatus : gostring;
  SRuleSetName : gostring;
  SRuleSetVersion : gostring;
  SRuleSetUpdatedAt : gostring;
  SRuleCount : nat;
  SOutboundProfiles : nat;
  SProbeTargets : nat;
}.

#[export] Instance Provider_eq_dec : EqDecision Provider.
Proof. solve_decision. Defined.

Definition SteamRuleSetName : gostring := "steam-web".
Definition SteamRuleSetVersion : gostring := "2026.06.23".
Definition SteamRuleSetUpdatedAt : gostring := "2026-06-23".

Definition Steam : Provider := {|
  ID := IDSteam; Name := "Steam"; Status := StatusStable;
  RuleSetName := SteamRuleSetName; RuleSetVersion := SteamRuleSetVersion;
  RuleSetUpdatedAt := SteamRuleSetUpdatedAt;
  PRules :=
    [{| GroupName := "steam/store";
        Domains := ["store.steampowered.com"; "checkout.steampowered.com";
                    "help.steampowered.com"; "login.steampowered.com"; "media.steampowered.com"] |};
     {| GroupName := "steam/community";
        Domains := ["steamcommunity.com"; "*.steamcommunity.com"] |};
     {| GroupName := "steam/api";
        Domains := ["api.steampowered.com"; "partner.steam-api.com"] |};
     {| GroupName := "steam/chat";
        Domains := ["steam-chat.com"; "*.steam-chat.com"] |};
     {| GroupName := "steam/static";
        Domains := ["community.steamstatic.com"; "steamstatic.com"; "*.steamstatic.com";
                    "akamai.steamstatic.com"; "*.akamai.steamstatic.com"] |};
     {| GroupName := "steam/cdn";
        Domains := ["steamcdn-a.akamaihd.net"] |}];
  OutboundProfilesOf :=
    [{| MatchDomains := ["steamcommunity.com"; "*.steamcommunity.com"]; CandidateIPs := [];
        ForwardHost := "steamcommunity-a.akamaihd.net";
        TLSServerName := "steamcommunity-a.akamaihd.net"; IgnoreTLSNameMismatch := false |};
     {| MatchDomains := ["store.steampowered.com"; "checkout.steampowered.com";
                         "help.steampowered.com"; "login.steampowered.com";
                         "media.steampowered.com"]; CandidateIPs := [];
        ForwardHost := "cdn-a.akamaihd.net";
        TLSServerName := "cdn-a.akamaihd.net"; IgnoreTLSNameMismatch := false |};
     {| MatchDomains := ["api.steampowered.com"]; CandidateIPs := [];
        ForwardHost := "steamstore.rmbgame.net"; TLSServerName := [];
        IgnoreTLSNameMismatch := true |};
     {| MatchDomains := ["community.steamstatic.com"]; CandidateIPs := [];
        ForwardHost := "community.steamstatic.com";
        TLSServerName := "community.steamstatic.com"; IgnoreTLSNameMismatch := false |};
     {| MatchDomains := ["steamcdn-a.akamaihd.net"]; CandidateIPs := [];
        ForwardHost := "steamcdn-a.akamaihd.net";
        TLSServerName := "steamcdn-a.akamaihd.net"; IgnoreTLSNameMismatch := false |}];
  ProbeTargetsOf :=
    let target h p := {| ProviderID := []; TargetHost := h; TargetPort := "443"; TargetPath := p |} in
    [target "steamcommunity.com" "/"; target "store.steampowered.com" "/";
     target "api.steampowered.com" "/ISteamWebAPIUtil/GetSupportedAPIList/v1/?format=json";
     target "help.steampowered.com" "/"; target "media.steampowered.com" "/";
     target "community.steamstatic.com" "/"; target "steamcdn-a.akamaihd.net" "/"];
|}.

Definition GitHubRuleSetName : gostring := "github-web".
Definition GitHubRuleSetVersion : gostring := "2026.06.23".
Definition GitHubRuleSetUpdatedAt : gostring := "2026-06-23".

Definition GitHub : Provider := {|
  ID := IDGitHub; Name := "GitHub"; Status := StatusExperimental;
  RuleSetName := GitHubRuleSetName; RuleSetVersion := GitHubRuleSetVersion;
  RuleSetUpdatedAt := GitHubRuleSetUpdatedAt;
  PRules :=
    [{| GroupName := "github/web";
        Domains := ["github.com"; "gist.github.com"; "*.github.com"] |};
     {| GroupName := "github/api"; Domains := ["api.github.com"] |};
     {| GroupName := "github/raw";
        Domains := ["raw.githubusercontent.com"; "*.githubusercontent.com"] |};
     {| GroupName := "github/assets";
        Domains := ["github.githubassets.com"; "assets-cdn.github.com";
                    "objects.githubusercontent.com"; "codeload.github.com";
                    "avatars.githubusercontent.com"; "user-images.githubusercontent.com"] |}];
  OutboundProfilesOf := [];
  ProbeTargetsOf :=
    let target h p := {| ProviderID := []; TargetHost := h; TargetPort := "443"; TargetPath := p |} in
    [target "github.com" "/"; target "api.github.com" "/"; target "raw.githubusercontent.com" "/"];
|}.

Definition DefaultEnabled : list gostring := [IDSteam].

Definition Builtins : list Provider := [Steam; GitHub].

(** A clone has the same value as the original: the copied slices matter only
    to the aliasing of the registry, whose providers are built afresh per call. *)
Definition cloneRuleGroups (groups : list RuleGroup) : list RuleGroup :=
  (fun g => {| GroupName := GroupName g; Domains := Domains g |}) <$> groups.

Definition cloneProfiles (profiles : list Profile) : list Profile :=
  (fun p => {| MatchDomains := MatchDomains p; CandidateIPs := CandidateIPs p;
               ForwardHost := ForwardHost p; TLSServerName := TLSServerName p;
               IgnoreTLSNameMismatch := IgnoreTLSNameMismatch p |}) <$> profiles.

Definition cloneProvider (p : Provider) : Provider :=
  {| ID := ID p; Name := Name p; Status := Status p; RuleSetName := RuleSetName p;
     RuleSetVersion := RuleSetVersion p; RuleSetUpdatedAt := RuleSetUpdatedAt p;
     PRules := cloneRuleGroups (PRules p);
     OutboundProfilesOf := cloneProfiles (OutboundProfilesOf p);
     ProbeTargetsOf := ProbeTargetsOf p |}.

Definition RuleGroups (providers : list Provider) : list RuleGroup :=
  providers ≫= (fun p => cloneRuleGroups (PRules p)).

Definition OutboundProfiles (providers : list Provider) : list Profile :=
  providers ≫= (fun p => cloneProfiles (OutboundProfilesOf p)).

Definition ProbeTargets (providers : list Provider) : list ProbeTarget :=
  providers ≫= (fun p =>
    (fun t => {| ProviderID := ID p; TargetHost := TargetHost t; TargetPort := TargetPort t;
                 TargetPath := TargetPath t |}) <$> ProbeTargetsOf p).

Section provider.
Context `{Externals}.

Definition normalizeID (id : gostring) : gostring := ToLower (TrimSpace id).

Definition Lookup (id : gostring) : option Provider :=
  let id' := normalizeID id in
  cloneProvider <$> List.find (fun p => bool_decide (ID p = id')) Builtins.

(** One iteration of [ResolveEnabled]: the ids seen so far and the providers. *)
Definition resolveOne (s : gset gostring * list Provider) (rawID : gostring)
  : result (gset gostring * list Provider) :=
  let '(seen, providers) := s in
  let id := normalizeID rawID in
  if bool_decide (id = []) then Ok (seen, providers)
  else if bool_decide (id ∈ seen) then Ok (seen, providers)
  else match Lookup id with
       | None => Err (Errorf "unknown provider %q" [rawID])
       | Some p => Ok ({[id]} ∪ seen, providers ++ [p])
       end.

(** [ids] is [None] for a nil slice. *)
Definition ResolveEnabled (ids : option (list gostring)) : result (list Provider) :=
  do s <- rfold resolveOne (∅, []) (default DefaultEnabled ids);
  Ok s.2.

Definition RuleSetInfo (p : Provider) : Rules.RuleSetInfo :=
  NewRuleSetInfo (RuleSetName p) (RuleSetVersion p) (RuleSetUpdatedAt p) (PRules p).

Definition summarize (p : Provider) : Summary :=
  let info := NewRuleSetInfo (RuleSetName p) (RuleSetVersion p) (RuleSetUpdatedAt p) (PRules p) in
  {| SID := ID p; SName := Name p; SStatus := Status p;
     SRuleSetName := InfoName info; SRuleSetVersion := InfoVersion info;
     SRuleSetUpdatedAt := InfoUpdatedAt info;
     SRuleCount := ExactCount info + WildcardCount info;
     SOutboundProfiles := length (OutboundProfilesOf p);
     SProbeTargets := length (ProbeTargetsOf p) |}.

Definition summary_le (a b : Summary) : Prop := str_le (SID a) (SID b).

#[export] Instance summary_le_dec : RelDecision summary_le.
Proof. unfold summary_le. intros a b. apply _. Defined.

(** [sort.SliceStable] by id. *)
Definition Summaries (providers : list Provider) : list Summary :=
  stable_sort summary_le (summarize <$> providers).

End provider.

(** * Properties *)

Section provider_properties.
Context `{ExternalLaws}.

Lemma cloneRuleGroups_id gs : cloneRuleGroups gs = gs.
Proof. unfold cloneRuleGroups. induction gs as [|[] gs IH]; cbn; by rewrite ?IH. Qed.

Lemma cloneProfiles_id ps : cloneProfiles ps = ps.
Proof. unfold cloneProfiles. induction ps as [|[] ps IH]; cbn; by rewrite ?IH. Qed.

Lemma cloneProvider_id p : cloneProvider p = p.
Proof. destruct p. unfold cloneProvider; cbn. by rewrite cloneRuleGroups_id, cloneProfiles_id. Qed.

Lemma Lookup_Some id p : Lookup id = Some p <-> p ∈ Builtins ∧ ID p = normalizeID id.
Proof.
  unfold Lookup. rewrite fmap_Some. setoid_rewrite cloneProvider_id. split.
  - intros (q & Hf & ->). apply find_some in Hf as [Hin Hid].
    split; [by apply list_elem_of_In|]. by apply bool_decide_eq_true in Hid.
  - intros [Hin Hid]. exists p. split; [|done]. unfold Builtins in *. cbn.
    apply elem_of_cons in Hin as [->|Hin].
    + by rewrite bool_decide_eq_true_2.
    + apply list_elem_of_singleton in Hin as ->.
      rewrite bool_decide_eq_false_2 by (rewrite <-Hid; by vm_compute).
      by rewrite bool_decide_eq_true_2.
Qed.

Lemma normalizeID_ID p : p ∈ Builtins -> normalizeID (ID p) = ID p ∧ ID p <> [].
Proof.
  unfold Builtins. intros [->|[->|?%elem_of_nil]%elem_of_cons]%elem_of_cons; [..|done];
    by split; [vm_compute|].
Qed.

(** What the loop of [ResolveEnabled] has done after a prefix of the ids. *)
Definition resolved (ids : list gostring) (s : gset gostring * list Provider) : Prop :=
  NoDup (ID <$> s.2) ∧ (forall p, p ∈ s.2 -> p ∈ Builtins) ∧
  (forall id, id ∈ s.1 <-> id ∈ ID <$> s.2) ∧
  (forall id, id ∈ s.1 <-> id <> [] ∧ exists raw, raw ∈ ids ∧ normalizeID raw = id).

Lemma resolveOne_resolved ids s raw s' :
  resolved ids s -> resolveOne s raw = Ok s' -> resolved (ids ++ [raw]) s'.
Proof.
  destruct s as [seen ps]. intros (Hnd & Hb & Hseen & Hids). cbn [fst snd] in *.
  unfold resolveOne. set (id := normalizeID raw).
  assert (Hstep : forall k, (k <> [] ∧ exists r, r ∈ ids ++ [raw] ∧ normalizeID r = k) <->
    (k ∈ seen ∨ (k <> [] ∧ k = id))).
  { intros k. rewrite Hids. setoid_rewrite elem_of_app.
    setoid_rewrite list_elem_of_singleton. naive_solver. }
  case_bool_decide as H1.
  { intros [= <-]. split_and!; [done..|]. intros k. cbn. rewrite Hstep. naive_solver. }
  case_bool_decide as H2.
  { intros [= <-]. split_and!; [done..|]. intros k. cbn. rewrite Hstep. naive_solver. }
  destruct (Lookup id) as [p|] eqn:El; [|done]. intros [= <-].
  apply Lookup_Some in El as [Hp Hid].
  assert (Hpid : ID p = id) by (rewrite Hid; apply keyword_idemp).
  unfold resolved; cbn [fst snd]. rewrite fmap_app. cbn [fmap list_fmap]. rewrite Hpid.
  split_and!.
  - apply NoDup_app. split_and!; [done| |by apply NoDup_singleton].
    intros x Hx ->%list_elem_of_singleton. by apply H2, Hseen.
  - intros q [?| ->%list_elem_of_singleton]%elem_of_app; [by apply Hb|done].
  - intros k. rewrite elem_of_union, elem_of_singleton, elem_of_app, list_elem_of_singleton, Hseen.
    tauto.
  - intros k. rewrite elem_of_union, elem_of_singleton, Hstep. naive_solver.
Qed.

Lemma rfold_resolved ids pre s s' :
  resolved pre s -> rfold resolveOne s ids = Ok s' -> resolved (pre ++ ids) s'.
Proof.
  revert pre s; induction ids as [|raw ids IH]; intros pre s Hs; cbn.
  { intros [= <-]. by rewrite app_nil_r. }
  destruct (resolveOne s raw) as [s1|] eqn:E; cbn; [|done]. intros Hf.
  rewrite cons_middle, app_assoc. eapply IH; [|done]. by eapply resolveOne_resolved.
Qed.

Lemma resolved_nil : resolved [] (∅, []).
Proof.
  split_and!; cbn; [constructor|set_solver|set_solver|].
  intros id. split; [set_solver|]. intros (_ & raw & ?%elem_of_nil & _). done.
Qed.

(** The providers that are enabled are built-in ones, no provider twice, and
    exactly those named (up to case and blanks) by the configured ids. *)
Theorem ResolveEnabled_spec ids ps :
  ResolveEnabled ids = Ok ps ->
  NoDup (ID <$> ps) ∧
  forall p, p ∈ ps <-> p ∈ Builtins ∧ exists raw, raw ∈ default DefaultEnabled ids ∧ normalizeID raw = ID p.
Proof.
  unfold ResolveEnabled. destruct (rfold resolveOne _ _) as [s|] eqn:E; cbn; [|done].
  intros [= <-]. pose proof (rfold_resolved _ [] _ _ resolved_nil E) as (Hnd & Hb & Hs & Hi).
  cbn in Hi. split; [done|]. intros p. split.
  - intros Hp. split; [by apply Hb|].
    apply (proj1 (Hi (ID p))), Hs. by apply list_elem_of_fmap_2.
  - intros [Hp Hraw]. destruct (normalizeID_ID p Hp) as [_ Hne].
    assert (Hin : ID p ∈ ID <$> s.2) by by apply Hs, Hi.
    apply list_elem_of_fmap in Hin as (q & Hid & Hq).
    enough (p = q) as -> by done. specialize (Hb q Hq). unfold Builtins in *.
    apply elem_of_cons in Hp as [->| ->%list_elem_of_singleton];
    apply elem_of_cons in Hb as [->| ->%list_elem_of_singleton]; done.
Qed.

(** Selection fails exactly when some non-blank id names no provider; a nil
    list enables the default provider. *)
Theorem ResolveEnabled_ok_iff ids :
  is_ok (ResolveEnabled ids) = true <->
  forall raw, raw ∈ default DefaultEnabled ids -> normalizeID raw <> [] ->
    exists p, p ∈ Builtins ∧ ID p = normalizeID raw.
Proof.
  assert (Hloop : forall l s, is_ok (rfold resolveOne s l) = true <->
    (forall raw, raw ∈ l -> normalizeID raw <> [] -> normalizeID raw ∈ s.1 ∨ is_Some (Lookup (normalizeID raw)))).
  { induction l as [|raw l IH]; intros [seen ps]; cbn [rfold].
    { split; [by intros _ ? ?%elem_of_nil|done]. }
    cbn [resolveOne fst].
    case_bool_decide as H1.
    { cbn [rbind]. rewrite IH. cbn [fst]. set_solver. }
    case_bool_decide as H2.
    { cbn [rbind]. rewrite IH. cbn [fst]. set_solver. }
    destruct (Lookup (normalizeID raw)) as [p|] eqn:El; cbn [rbind].
    - rewrite IH. cbn [fst]. split.
      + intros Hl r [->|Hr]%elem_of_cons Hne; [right; eauto|].
        destruct (Hl r Hr Hne) as [Hin|]; [|by right].
        apply elem_of_union in Hin as [Hin%elem_of_singleton|]; [|by left].
        right. rewrite Hin. eauto.
      + intros Hl r Hr Hne. destruct (Hl r) as [?|?]; [by right|done|set_solver|by right].
    - split; [done|]. intros Hl. destruct (Hl raw) as [|[? ?]]; [left|done|done|congruence]. }
  unfold ResolveEnabled.
  assert (Hr : is_ok (do s <- rfold resolveOne (∅, []) (default DefaultEnabled ids); Ok s.2) =
    is_ok (rfold resolveOne (∅, []) (default DefaultEnabled ids))) by (by destruct (rfold _ _ _)).
  rewrite Hr, Hloop. cbn. split.
  - intros Hl raw Hin Hne. destruct (Hl raw Hin Hne) as [?|[p Hp]]; [set_solver|].
    apply Lookup_Some in Hp as [Hp Hid]. exists p. split; [done|].
    rewrite Hid. apply keyword_idemp.
  - intros Hl raw Hin Hne. right. destruct (Hl raw Hin Hne) as (p & Hp & Hid).
    exists p. apply Lookup_Some. split; [done|]. rewrite <-Hid. symmetry. by apply normalizeID_ID.
Qed.
Lemma RuleGroups_elem ps g : g ∈ RuleGroups ps <-> exists p, p ∈ ps ∧ g ∈ PRules p.
Proof.
  unfold RuleGroups. rewrite list_elem_of_bind. setoid_rewrite cloneRuleGroups_id.
  naive_solver.
Qed.

Lemma Builtins_canonical p : p ∈ Builtins -> forallb canonical_group (PRules p) = true.
Proof.
  unfold Builtins. intros [->|[->|?%elem_of_nil]%elem_of_cons]%elem_of_cons; [..|done];
    vm_compute; reflexivity.
Qed.

Lemma RuleGroups_canonical ps :
  (forall p, p ∈ ps -> p ∈ Builtins) -> forallb canonical_group (RuleGroups ps) = true.
Proof.
  intros Hb. apply forallb_forall. intros g Hg%list_elem_of_In.
  apply RuleGroups_elem in Hg as (p & Hp & Hg). apply Hb, Builtins_canonical in Hp.
  rewrite forallb_forall in Hp. apply Hp. by apply list_elem_of_In.
Qed.

Lemma exact_rule_matched groups g d :
  forallb canonical_group groups = true -> g ∈ groups -> d ∈ Domains g -> ldh_host d = true ->
  exists m r, NewMatcher groups [] = Ok m ∧ MatchHost m d = Some r ∧ MRule r = d.
Proof.
  intros Hc Hg Hd Hl. exists (canonical_matcher groups).
  pose proof (NewMatcher_canonical groups Hc) as Hm.
  destruct (NewMatcher_repr _ _ _ Hm) as (es & Hes & He & _).
  pose proof (wf_NewMatcher _ _ _ Hm) as [Hwf _].
  unfold MatchHost. rewrite NormalizeHost_ldh by done.
  destruct (exact (canonical_matcher groups) !! d) as [e|] eqn:Ee.
  { exists (matchOf d e). split_and!; [done..|]. change (rule e = d). by apply Hwf in Ee as [_ He']; rewrite He'. }
  exfalso. rewrite He in Ee. unfold last_exact in Ee. apply last_None in Ee.
  assert (Hin : canonical_entry (GroupName g) d ∈ es).
  { apply rmapM_Forall2 in Hes. unfold rule_list in Hes. rewrite app_nil_r in Hes.
    assert (Hx : (GroupName g, d) ∈ mjoin ((fun g => pair (GroupName g) <$> Domains g) <$> groups)).
    { apply list_elem_of_join. exists (pair (GroupName g) <$> Domains g).
      split; [by apply list_elem_of_fmap_2|]. by apply (list_elem_of_fmap_2' _ _ g). }
    apply list_elem_of_lookup in Hx as [i Hi].
    destruct (Forall2_lookup_l _ _ _ _ _ Hes Hi) as (y & Hy & Hn). cbn in Hn.
    rewrite normalizeRule_canonical in Hn by (unfold canonical_rule; by rewrite Hl).
    injection Hn as <-. by eapply list_elem_of_lookup_2. }
  unfold canonical_entry in Hin. rewrite ldh_not_wildcard in Hin by done.
  rewrite TrimPrefix_none in Hin by by apply ldh_not_wildcard.
  eapply (not_elem_of_nil {| group := GroupName g; rule := d; host := d |}).
  rewrite <-Ee. apply list_elem_of_filter. split; [done|]. apply list_elem_of_fmap.
  eexists (_, false). split; [reflexivity|]. apply list_elem_of_filter. by split.
Qed.

(** The built-in rules always compile: for every admissible provider
    selection the matcher is built, and it matches each host the enabled
    providers list, under that host's own rule. *)
Theorem enabled_hosts_match ids ps p g d :
  ResolveEnabled ids = Ok ps -> p ∈ ps -> g ∈ PRules p -> d ∈ Domains g -> ldh_host d = true ->
  exists m r, NewMatcher (RuleGroups ps) [] = Ok m ∧ MatchHost m d = Some r ∧ MRule r = d.
Proof.
  unfold ResolveEnabled. destruct (rfold resolveOne _ _) as [s|] eqn:E; cbn; [|done].
  intros [= <-] Hp Hg Hd Hl.
  pose proof (rfold_resolved _ [] _ _ resolved_nil E) as (_ & Hb & _ & _).
  eapply exact_rule_matched; [by apply RuleGroups_canonical| |done|done].
  apply RuleGroups_elem. eauto.
Qed.

(** The Steam rule set compiles to thirteen exact and four wildcard rules in
    six groups, and the GitHub rule set to ten exact and two wildcard rules in
    four groups. *)
Theorem builtin_rule_counts :
  RuleSetInfo Steam = {| InfoName := "steam-web"; InfoVersion := "2026.06.23";
    InfoUpdatedAt := "2026-06-23"; GroupCount := 6; ExactCount := 13; WildcardCount := 4 |} ∧
  RuleSetInfo GitHub = {| InfoName := "github-web"; InfoVersion := "2026.06.23";
    InfoUpdatedAt := "2026-06-23"; GroupCount := 4; ExactCount := 10; WildcardCount := 2 |}.
Proof.
  unfold RuleSetInfo, NewRuleSetInfo. rewrite !NewMatcher_canonical by (vm_compute; reflexivity).
  split; vm_compute; reflexivity.
Qed.
End provider_properties.

(** ** Witnesses *)

Section provider_witnesses.
#[local] Existing Instance simple_externals.

Lemma ResolveEnabled_spec_witness :
  NoDup (ID <$> [GitHub; Steam]) ∧
  forall p, p ∈ [GitHub; Steam] <-> p ∈ Builtins ∧
    exists raw, raw ∈ [" GitHub "; "steam"; []; "github"] ∧ normalizeID raw = ID p.
Proof. apply (ResolveEnabled_spec (Some [" GitHub "; "steam"; []; "github"])). vm_compute. reflexivity. Defined.

Lemma enabled_hosts_match_witness :
  exists m r, NewMatcher (RuleGroups [Steam]) [] = Ok m ∧
    MatchHost m "steamcommunity.com" = Some r ∧ MRule r = "steamcommunity.com".
Proof.
  apply (enabled_hosts_match None [Steam] Steam
    {| GroupName := "steam/community"; Domains := ["steamcommunity.com"; "*.steamcommunity.com"] |});
    [reflexivity|left|right; left|left|reflexivity].
Defined.
End provider_witnesses.
