(* ===== verification/Config.v ===== *)
(** The configuration (src/internal/config/config.go).

    Validate normalizes a configuration in place and reports the first problem.
    It is modelled as a function from a configuration to the normalized one, in
    the order of the code.  The file proves what every accepted configuration
    satisfies, that validation is idempotent, and that removed keys are found. *)
From stdpp Require Import strings.
From Stdlib Require Import Ascii.
From S2P Require Import Prelude GoStrings GoNet External World Rules.

(** Durations are int64 nanoseconds. *)
Definition Duration := Z.
Definition Second : Z := 1000000000.
Definition Minute : Z := 60 * Second.

Definition ModeProxyOnly : gostring := "proxy_only".
Definition ModePAC : gostring := "pac".
Definition ModeSystem : gostring := "system".
Definition ModeHosts : gostring := "hosts".
Definition ModeDNS : gostring := "dns".
Definition NonTargetReject : gostring := "reject".
Definition NonTargetDirect : gostring := "direct".
Definition DNSInterceptManual : gostring := "manual".
Definition DNSInterceptSystem : gostring := "system".
Definition DNSInterceptExternal : gostring := "external".
Definition PageEnhancePassThrough : gostring := "pass_through".
Definition PageEnhanceFailClosed : gostring := "fail_closed".
Definition ResolverSystem : gostring := "system".
Definition ResolverUDP : gostring := "udp".
Definition ResolverTCP : gostring := "tcp".
Definition ResolverDoH : gostring := "doh".
Definition UpstreamDirect : gostring := "direct".
Definition UpstreamHTTP : gostring := "http".
Definition UpstreamSOCKS5 : gostring := "socks5".
Definition CertStoreMachine : gostring := "machine".
Definition CertStoreUser : gostring := "user".

Definition DefaultDoHServers : list gostring :=
  ["https://dns.alidns.com/dns-query"; "https://doh.pub/dns-query";
   "https://cloudflare-dns.com/dns-query"; "https://dns.google/dns-query"].

Record ProxyConfig := {
  PxListenAddr : gostring;
  NonTargetBehavior : gostring;
  PxAllowLAN : bool;
  ReadHeaderTimeout : Duration;
  IdleTimeout : Duration;
  DialTimeout : Duration;
  ShutdownTimeout : Duration;
}.

Record DNSConfig := {
  DNSEnabled : bool;
  Strategy : gostring;
  DNSListenAddr : gostring;
  DNSAllowLAN : bool;
  Interfaces : list gostring;
  MapIPv4 : gostring;
  MapIPv6 : gostring;
  TTL : Duration;
  BlockHTTPSRecords : bool;
}.

Record PACConfig := { PACListenAddr : gostring; PACAllowLAN : bool }.

Record HostsConfig := {
  HMapIP : gostring;
  HTTPListenAddr : gostring;
  HTTPSListenAddr : gostring;
  HAllowLAN : bool;
  HPath : gostring;
  ExtraDomains : list gostring;
}.

Record CertConfig := { CertDir : gostring; AutoInstall : bool; StoreScope : gostring }.

Record ResolverConfig := {
  RMode : gostring;
  Servers : list gostring;
  PreferIPv4 : bool;
  PreferIPv6 : bool;
  DisableIPv6 : bool;
  CacheTTL : Duration;
  RTimeout : Duration;
}.

Record OutboundProfileConfig := {
  OMatchDomains : list gostring;
  OCandidateIPs : list gostring;
  OForwardHost : gostring;
  OTLSServerName : gostring;
  OIgnoreTLSNameMismatch : bool;
}.

Record UpstreamConfig := {
  UType : gostring;
  UAddress : gostring;
  UUsername : gostring;
  UPassword : gostring;
  UProfiles : list OutboundProfileConfig;
}.

Record PageEnhanceAssetConfig := { APath : gostring; AFile : gostring; AContentType : gostring }.

Record PageEnhanceMatchConfig := {
  MProviders : list gostring;
  MHosts : list gostring;
  MPathPrefixes : list gostring;
  MContentTypes : list gostring;
  MStatusCodes : list Z;
}.

(** A Go map ranges over its keys in an unspecified order; the model visits
    them in the order of [map_to_list]. *)
Record PageEnhanceHeadersConfig := { HSet : gmap gostring gostring; HRemove : list gostring }.

Record PageEnhanceReplaceConfig := { RpOld : gostring; RpNew : gostring; RpCount : Z }.

Record PageEnhanceTransformConfig := {
  TName : gostring;
  TMatch : PageEnhanceMatchConfig;
  THeaders : PageEnhanceHeadersConfig;
  TInjectHead : gostring;
  TInjectBody : gostring;
  TReplace : list PageEnhanceReplaceConfig;
}.

Record PageEnhanceConfig := {
  PEEnabled : bool;
  OnError : gostring;
  MaxBodySize : Z;
  Assets : list PageEnhanceAssetConfig;
  Transforms : list PageEnhanceTransformConfig;
}.

Record RuntimeConfig := {
  StatePath : gostring;
  RtRollbackPath : gostring;
  ControlAddr : gostring;
  StopTimeout : Duration;
}.

(** [Enabled] is [None] for a nil slice. *)
Record Config := {
  Mode : gostring;
  ProvidersEnabled : option (list gostring);
  DNS : DNSConfig;
  Proxy : ProxyConfig;
  PAC : PACConfig;
  Hosts : HostsConfig;
  Cert : CertConfig;
  Resolver : ResolverConfig;
  Upstream : UpstreamConfig;
  PageEnhance : PageEnhanceConfig;
  SystemServices : list gostring;
  CustomDomains : list gostring;
  Runtime : RuntimeConfig;
}.

(** * Keyword normalization

    A [switch strings.ToLower(strings.TrimSpace(s))] that maps the spellings of
    each row to its keyword and leaves any other keyword as it is. *)
Definition one_of (k : gostring) (ks : list gostring) : bool := bool_decide (k ∈ ks).

Fixpoint switch (rows : list (list gostring * gostring)) (k : gostring) : gostring :=
  match rows with
  | [] => k
  | (spellings, result) :: rows' => if one_of k spellings then result else switch rows' k
  end.

Definition mode_rows : list (list gostring * gostring) :=
  [([[]; ModeProxyOnly; "proxy-only"], ModeProxyOnly); ([ModePAC], ModePAC);
   ([ModeSystem], ModeSystem); ([ModeHosts], ModeHosts);
   ([ModeDNS; "dns_intercept"; "dns-intercept"], ModeDNS)].
Definition strategy_rows : list (list gostring * gostring) :=
  [([[]; DNSInterceptManual], DNSInterceptManual); ([DNSInterceptSystem], DNSInterceptSystem);
   ([DNSInterceptExternal], DNSInterceptExternal)].
Definition on_error_rows : list (list gostring * gostring) :=
  [([[]; PageEnhancePassThrough; "passthrough"; "pass-through"], PageEnhancePassThrough);
   ([PageEnhanceFailClosed; "fail-closed"], PageEnhanceFailClosed)].
Definition non_target_rows : list (list gostring * gostring) :=
  [([[]; NonTargetReject], NonTargetReject); ([NonTargetDirect], NonTargetDirect)].
Definition resolver_rows : list (list gostring * gostring) :=
  [([[]; ResolverSystem], ResolverSystem); ([ResolverUDP], ResolverUDP);
   ([ResolverTCP], ResolverTCP); ([ResolverDoH], ResolverDoH)].
Definition store_scope_rows : list (list gostring * gostring) :=
  [([[]; CertStoreMachine; "local_machine"; "local-machine"], CertStoreMachine);
   ([CertStoreUser; "current_user"; "current-user"], CertStoreUser)].
Definition upstream_rows : list (list gostring * gostring) :=
  [([[]; UpstreamDirect], UpstreamDirect); ([UpstreamHTTP], UpstreamHTTP);
   ([UpstreamSOCKS5], UpstreamSOCKS5)].

Definition nonempty (s : gostring) : Prop := s ≠ [].

#[export] Instance nonempty_dec s : Decision (nonempty s).
Proof. unfold nonempty. apply _. Defined.

Definition trimStrings (values : list gostring) : list gostring := filter nonempty (TrimSpace <$> values).

Definition containsHeaderControl (value : gostring) : bool := ContainsAny value crlf.

(** ** net/textproto.CanonicalMIMEHeaderKey *)
Definition validHeaderFieldByte (c : byte) : bool :=
  is_lower c || is_upper c || is_digit c || bool_decide (c ∈ "!#$%&'*+-.^_`|~").

Definition upper_byte (c : byte) : byte := if is_lower c then ascii_of_N (code c - 32) else c.

Fixpoint canonicalBytes (upper : bool) (s : gostring) : gostring :=
  match s with
  | [] => []
  | c :: s' =>
      (if upper then upper_byte c else lower_byte c) :: canonicalBytes (bool_decide (c = chr 45)) s'
  end.

Definition CanonicalMIMEHeaderKey (s : gostring) : gostring :=
  if forallb validHeaderFieldByte s then canonicalBytes true s else s.

Section config.
Context `{Externals}.

Definition normalizeMode (mode : gostring) : gostring := switch mode_rows (keyword mode).
Definition normalizeDNSInterceptStrategy (s : gostring) : gostring := switch strategy_rows (keyword s).
Definition normalizePageEnhanceOnError (s : gostring) : gostring := switch on_error_rows (keyword s).
Definition normalizeNonTargetBehavior (s : gostring) : gostring := switch non_target_rows (keyword s).
Definition normalizeResolverMode (s : gostring) : gostring := switch resolver_rows (keyword s).
Definition normalizeCertStoreScope (s : gostring) : gostring := switch store_scope_rows (keyword s).
Definition normalizeUpstreamType (s : gostring) : gostring := switch upstream_rows (keyword s).

Definition normalizeProviderIDs (values : option (list gostring)) : option (list gostring) :=
  (fun vs : list gostring => filter nonempty (keyword <$> vs)) <$> values.

Definition dedupeStep (s : gset gostring * list gostring) (value : gostring) : gset gostring * list gostring :=
  let '(seen, deduped) := s in
  let key := ToLower value in
  if bool_decide (key ∈ seen) then (seen, deduped) else ({[key]} ∪ seen, deduped ++ [value]).

Definition dedupeStrings (values : list gostring) : list gostring :=
  (foldl dedupeStep (∅, []) values).2.

Definition validateListenAddr (addr : gostring) (allowLAN : bool) : result unit :=
  do hp <- SplitHostPort addr;
  let '(host, port) := hp in
  if is_blank port then Err (Errorf "port is required" [])
  else if EqualFold host "localhost" then Ok tt
  else
    let ip := ParseIP host in
    if bool_decide (ip = []) then Err (Errorf "host must be an IP address or localhost" [])
    else if negb allowLAN && negb (IsLoopback ip)
    then Err (Errorf "host %q is not loopback; set allow_lan to true to listen on LAN addresses" [host])
    else Ok tt.

Definition normalizeOptionalProfileHost (h : gostring) : result gostring :=
  let h' := TrimSpace h in
  if bool_decide (h' = []) then Ok [] else NormalizeHost h'.

Definition normalizeEnhanceHost (h : gostring) : result gostring :=
  let h' := TrimSpace h in
  if HasPrefix h' "*." then
    do normalized <- NormalizeHost (TrimPrefix h' "*."); Ok ("*." ++ normalized)
  else NormalizeHost h'.

Definition normalizeHeaderKey (key : gostring) : result gostring :=
  let key' := TrimSpace key in
  if bool_decide (key' = []) then Err (Errorf "header name is required" [])
  else if containsHeaderControl key'
  then Err (Errorf "header name cannot contain control characters" [])
  else
    let canonical := CanonicalMIMEHeaderKey key' in
    if bool_decide (canonical = []) then Err (Errorf "header name is required" [])
    else Ok canonical.

(** * Outbound profiles *)

Definition validateMatchDomain (i : nat) (x : nat * gostring) : result gostring :=
  let '(j, domain) := x in
  if Contains domain "*" && negb (HasPrefix domain "*.")
  then Err (Errorf "upstream profiles[%d] match_domains[%d] must use the *.example.com form"
              [ItoaNat i; ItoaNat j])
  else if HasPrefix domain "*." then
    do normalized <- wrap_err "upstream profiles[%d] match_domains[%d]: %w" [ItoaNat i; ItoaNat j]
                       (NormalizeHost (TrimPrefix domain "*."));
    Ok ("*." ++ normalized)
  else
    wrap_err "upstream profiles[%d] match_domains[%d]: %w" [ItoaNat i; ItoaNat j] (NormalizeHost domain).

Definition validateCandidateIP (i : nat) (x : nat * gostring) : result gostring :=
  let '(j, ip) := x in
  if bool_decide (ParseIP ip = [])
  then Err (Errorf "upstream profiles[%d] candidate_ips[%d] must be an IP address" [ItoaNat i; ItoaNat j])
  else Ok ip.

Definition validateOutboundProfile (x : nat * OutboundProfileConfig) : result OutboundProfileConfig :=
  let '(i, profile) := x in
  let domains := trimStrings (OMatchDomains profile) in
  if bool_decide (domains = [])
  then Err (Errorf "upstream profiles[%d] match_domains is required" [ItoaNat i])
  else
    do domains' <- rmapM (validateMatchDomain i) (enum domains);
    do ips <- rmapM (validateCandidateIP i) (enum (trimStrings (OCandidateIPs profile)));
    do fwd <- wrap_err "upstream profiles[%d] forward_host: %w" [ItoaNat i]
                (normalizeOptionalProfileHost (OForwardHost profile));
    do sni <- wrap_err "upstream profiles[%d] tls_server_name: %w" [ItoaNat i]
                (normalizeOptionalProfileHost (OTLSServerName profile));
    if bool_decide (ips = []) && bool_decide (fwd = []) && bool_decide (sni = []) &&
       negb (OIgnoreTLSNameMismatch profile)
    then Err (Errorf "upstream profiles[%d] must define candidate_ips, forward_host, tls_server_name, or ignore_tls_name_mismatch" [ItoaNat i])
    else Ok {| OMatchDomains := domains'; OCandidateIPs := ips; OForwardHost := fwd;
               OTLSServerName := sni; OIgnoreTLSNameMismatch := OIgnoreTLSNameMismatch profile |}.

Definition validateOutboundProfiles (profiles : list OutboundProfileConfig)
  : result (list OutboundProfileConfig) := rmapM validateOutboundProfile (enum profiles).

(** * DNS interception *)

Definition validateDNSSystemConfig (cfg : DNSConfig) : result unit :=
  do hp <- wrap_err "invalid dns_intercept listen_addr: %w" [] (SplitHostPort (DNSListenAddr cfg));
  let '(host, port) := hp in
  if negb (bool_decide (port = "53"))
  then Err (Errorf "dns_intercept.strategy %q requires listen_addr port 53; use %q for high-port testing"
              [DNSInterceptSystem; DNSInterceptManual])
  else
    let host' := if EqualFold (TrimSpace host) "localhost" then "127.0.0.1" else host in
    let ip := ParseIP host' in
    if bool_decide (ip = []) || negb (IsLoopback ip)
    then Err (Errorf "dns_intercept.strategy %q requires a loopback listen_addr host" [DNSInterceptSystem])
    else if bool_decide (To4 ip = [])
    then Err (Errorf "dns_intercept.strategy %q currently supports IPv4 loopback only" [DNSInterceptSystem])
    else if bool_decide (Interfaces cfg = [])
    then Err (Errorf "dns_intercept.strategy %q requires explicit dns_intercept.interfaces" [DNSInterceptSystem])
    else Ok tt.

Definition checkStrategy (strategy mode : gostring) (active : bool) : result unit :=
  if bool_decide (strategy = DNSInterceptManual) then Ok tt
  else if bool_decide (strategy = DNSInterceptSystem) then
    if active && negb (bool_decide (mode = ModeDNS))
    then Err (Errorf "dns_intercept.strategy %q requires mode %q" [strategy; ModeDNS])
    else Ok tt
  else if bool_decide (strategy = DNSInterceptExternal) then
    if active
    then Err (Errorf "dns_intercept.strategy %q is planned but not implemented in v0.7.2; use %q or %q"
                [strategy; DNSInterceptManual; DNSInterceptSystem])
    else Ok tt
  else Err (Errorf "unsupported dns_intercept.strategy %q" [strategy]).

(** The settings with the strategy, the interfaces and the mapped addresses replaced. *)
Definition withDNS (cfg : DNSConfig) (strategy : gostring) (interfaces : list gostring)
    (v4 v6 : gostring) : DNSConfig :=
  {| DNSEnabled := DNSEnabled cfg; Strategy := strategy; DNSListenAddr := DNSListenAddr cfg;
     DNSAllowLAN := DNSAllowLAN cfg; Interfaces := interfaces; MapIPv4 := v4; MapIPv6 := v6;
     TTL := TTL cfg; BlockHTTPSRecords := BlockHTTPSRecords cfg |}.

Definition validateDNSConfig (cfg : DNSConfig) (mode : gostring) : result DNSConfig :=
  let strategy := normalizeDNSInterceptStrategy (Strategy cfg) in
  let interfaces := dedupeStrings (trimStrings (Interfaces cfg)) in
  let active := DNSEnabled cfg || bool_decide (mode = ModeDNS) in
  do _ <- checkStrategy strategy mode active;
  if DNSEnabled cfg && negb (bool_decide (mode = ModeDNS))
  then Err (Errorf "dns_intercept.enabled requires mode %q" [ModeDNS])
  else if negb active then Ok (withDNS cfg strategy interfaces (MapIPv4 cfg) (MapIPv6 cfg))
  else if is_blank (DNSListenAddr cfg) then Err (Errorf "dns_intercept listen_addr is required" [])
  else
    do _ <- wrap_err "invalid dns_intercept listen_addr: %w" []
              (validateListenAddr (DNSListenAddr cfg) (DNSAllowLAN cfg));
    let v4 := TrimSpace (MapIPv4 cfg) in
    let v6 := TrimSpace (MapIPv6 cfg) in
    let cfg' := withDNS cfg strategy interfaces v4 v6 in
    if bool_decide (v4 = []) && bool_decide (v6 = [])
    then Err (Errorf "dns_intercept requires at least one of map_ipv4 or map_ipv6" [])
    else if negb (bool_decide (v4 = [])) &&
            (bool_decide (ParseIP v4 = []) || bool_decide (To4 (ParseIP v4) = []))
    then Err (Errorf "dns_intercept map_ipv4 must be an IPv4 address" [])
    else if negb (bool_decide (v6 = [])) &&
            (bool_decide (ParseIP v6 = []) || negb (bool_decide (To4 (ParseIP v6) = [])))
    then Err (Errorf "dns_intercept map_ipv6 must be an IPv6 address" [])
    else if (TTL cfg <=? 0)%Z then Err (Errorf "dns_intercept ttl must be positive" [])
    else
      do _ <- (if bool_decide (strategy = DNSInterceptSystem) then validateDNSSystemConfig cfg' else Ok tt);
      Ok cfg'.

(** * Page enhancement *)

Definition validateAsset (x : nat * PageEnhanceAssetConfig) : result PageEnhanceAssetConfig :=
  let '(i, asset) := x in
  let path := TrimSpace (APath asset) in
  let file := TrimSpace (AFile asset) in
  let contentType := TrimSpace (AContentType asset) in
  if bool_decide (path = []) || negb (HasPrefix path "/")
  then Err (Errorf "page_enhance.assets[%d].path must start with /" [ItoaNat i])
  else if bool_decide (file = [])
  then Err (Errorf "page_enhance.assets[%d].file is required" [ItoaNat i])
  else if containsHeaderControl contentType
  then Err (Errorf "page_enhance.assets[%d].content_type cannot contain control characters" [ItoaNat i])
  else Ok {| APath := path; AFile := file; AContentType := contentType |}.

Definition validateMatchProvider (i : nat) (x : nat * gostring) : result gostring :=
  let '(j, raw) := x in
  let provider := ToLower raw in
  if bool_decide (provider = [])
  then Err (Errorf "page_enhance.transforms[%d].match.providers[%d] is required" [ItoaNat i; ItoaNat j])
  else if containsHeaderControl provider
  then Err (Errorf "page_enhance.transforms[%d].match.providers[%d] cannot contain control characters"
              [ItoaNat i; ItoaNat j])
  else Ok provider.

Definition validateMatchHost (i : nat) (x : nat * gostring) : result gostring :=
  let '(j, h) := x in
  wrap_err "page_enhance.transforms[%d].match.hosts[%d]: %w" [ItoaNat i; ItoaNat j] (normalizeEnhanceHost h).

Definition validatePathPrefix (i : nat) (x : nat * gostring) : result gostring :=
  let '(j, prefix) := x in
  if negb (HasPrefix prefix "/")
  then Err (Errorf "page_enhance.transforms[%d].match.path_prefixes[%d] must start with /" [ItoaNat i; ItoaNat j])
  else Ok prefix.

Definition validateContentType (i : nat) (x : nat * gostring) : result gostring :=
  let '(j, raw) := x in
  let contentType := ToLower raw in
  if containsHeaderControl contentType
  then Err (Errorf "page_enhance.transforms[%d].match.content_types[%d] cannot contain control characters"
              [ItoaNat i; ItoaNat j])
  else Ok contentType.

Definition validateStatusCode (i : nat) (x : nat * Z) : result Z :=
  let '(j, statusCode) := x in
  if (statusCode <? 100)%Z || (999 <? statusCode)%Z
  then Err (Errorf "page_enhance.transforms[%d].match.status_codes[%d] is invalid" [ItoaNat i; ItoaNat j])
  else Ok statusCode.

Definition validateRemoveKey (i : nat) (x : nat * gostring) : result gostring :=
  let '(j, key) := x in
  wrap_err "page_enhance.transforms[%d].headers.remove[%d]: %w" [ItoaNat i; ItoaNat j] (normalizeHeaderKey key).

Definition validateSetHeader (i : nat) (m : gmap gostring gostring) (kv : gostring * gostring)
  : result (gmap gostring gostring) :=
  let '(key, value) := kv in
  do canonical <- wrap_err "page_enhance.transforms[%d].headers.set[%q]: %w" [ItoaNat i; key]
                    (normalizeHeaderKey key);
  if containsHeaderControl value
  then Err (Errorf "page_enhance.transforms[%d].headers.set[%q] cannot contain control characters" [ItoaNat i; key])
  else Ok (<[canonical := value]> m).

Definition validateReplace (i : nat) (x : nat * PageEnhanceReplaceConfig) : result PageEnhanceReplaceConfig :=
  let '(j, repl) := x in
  if bool_decide (RpOld repl = [])
  then Err (Errorf "page_enhance.transforms[%d].replace[%d].old is required" [ItoaNat i; ItoaNat j])
  else Ok repl.

Definition validateMatch (i : nat) (m : PageEnhanceMatchConfig) : result PageEnhanceMatchConfig :=
  do providers <- rmapM (validateMatchProvider i) (enum (trimStrings (MProviders m)));
  do hosts <- rmapM (validateMatchHost i) (enum (trimStrings (MHosts m)));
  do prefixes <- rmapM (validatePathPrefix i) (enum (trimStrings (MPathPrefixes m)));
  do types <- rmapM (validateContentType i) (enum (trimStrings (MContentTypes m)));
  do codes <- rmapM (validateStatusCode i) (enum (MStatusCodes m));
  Ok {| MProviders := providers; MHosts := hosts; MPathPrefixes := prefixes;
        MContentTypes := types; MStatusCodes := codes |}.

Definition validateTransform (x : nat * PageEnhanceTransformConfig) : result PageEnhanceTransformConfig :=
  let '(i, t) := x in
  do m <- validateMatch i (TMatch t);
  do removed <- rmapM (validateRemoveKey i) (enum (trimStrings (HRemove (THeaders t))));
  do headers <- rfold (validateSetHeader i) ∅ (map_to_list (HSet (THeaders t)));
  let injectHead := TrimSpace (TInjectHead t) in
  let injectBody := TrimSpace (TInjectBody t) in
  do replaces <- rmapM (validateReplace i) (enum (TReplace t));
  if bool_decide (headers = ∅) && bool_decide (removed = []) && bool_decide (injectHead = []) &&
     bool_decide (injectBody = []) && bool_decide (length replaces = 0)
  then Err (Errorf "page_enhance.transforms[%d] must define at least one operation" [ItoaNat i])
  else Ok {| TName := TrimSpace (TName t); TMatch := m;
             THeaders := {| HSet := headers; HRemove := removed |};
             TInjectHead := injectHead; TInjectBody := injectBody; TReplace := replaces |}.

Definition validatePageEnhanceConfig (cfg : PageEnhanceConfig) : result PageEnhanceConfig :=
  let onError := normalizePageEnhanceOnError (OnError cfg) in
  if negb (one_of onError [PageEnhancePassThrough; PageEnhanceFailClosed])
  then Err (Errorf "unsupported page_enhance.on_error %q" [onError])
  else if (MaxBodySize cfg <? 0)%Z then Err (Errorf "page_enhance.max_body_size cannot be negative" [])
  else
    let size := if (MaxBodySize cfg =? 0)%Z then (1024 * 1024)%Z else MaxBodySize cfg in
    if negb (PEEnabled cfg)
    then Ok {| PEEnabled := false; OnError := onError; MaxBodySize := size;
               Assets := Assets cfg; Transforms := Transforms cfg |}
    else
      do assets <- rmapM validateAsset (enum (Assets cfg));
      do transforms <- rmapM validateTransform (enum (Transforms cfg));
      Ok {| PEEnabled := true; OnError := onError; MaxBodySize := size;
            Assets := assets; Transforms := transforms |}.

(** * The sections of Validate, in its order *)

Definition validateMode (mode : gostring) : result gostring :=
  let mode' := normalizeMode mode in
  ensure one_of mode' [ModeProxyOnly; ModePAC; ModeSystem; ModeHosts; ModeDNS]
    orelse Errorf "unsupported mode %q" [mode'];
  Ok mode'.

Definition enableDNS (cfg : DNSConfig) (mode : gostring) : DNSConfig :=
  if bool_decide (mode = ModeDNS)
  then {| DNSEnabled := true; Strategy := Strategy cfg; DNSListenAddr := DNSListenAddr cfg;
          DNSAllowLAN := DNSAllowLAN cfg; Interfaces := Interfaces cfg; MapIPv4 := MapIPv4 cfg;
          MapIPv6 := MapIPv6 cfg; TTL := TTL cfg; BlockHTTPSRecords := BlockHTTPSRecords cfg |}
  else cfg.

Definition validateProxy (c : ProxyConfig) : result ProxyConfig :=
  let behavior := normalizeNonTargetBehavior (NonTargetBehavior c) in
  ensure one_of behavior [NonTargetReject; NonTargetDirect]
    orelse Errorf "unsupported non_target_behavior %q" [behavior];
  ensure negb (bool_decide (PxListenAddr c = [])) orelse Errorf "proxy listen_addr is required" [];
  do _ <- wrap_err "invalid proxy listen_addr: %w" [] (validateListenAddr (PxListenAddr c) (PxAllowLAN c));
  Ok {| PxListenAddr := PxListenAddr c; NonTargetBehavior := behavior; PxAllowLAN := PxAllowLAN c;
        ReadHeaderTimeout := ReadHeaderTimeout c; IdleTimeout := IdleTimeout c;
        DialTimeout := DialTimeout c; ShutdownTimeout := ShutdownTimeout c |}.

Definition validatePAC (c : PACConfig) : result unit :=
  ensure negb (bool_decide (PACListenAddr c = [])) orelse Errorf "pac listen_addr is required" [];
  wrap_err "invalid pac listen_addr: %w" [] (validateListenAddr (PACListenAddr c) (PACAllowLAN c)).

Definition validateHosts (c : HostsConfig) : result HostsConfig :=
  ensure negb (bool_decide (HMapIP c = [])) orelse Errorf "hosts map_ip is required" [];
  let mapIP := ParseIP (HMapIP c) in
  ensure negb (bool_decide (mapIP = [])) orelse Errorf "hosts map_ip must be an IP address" [];
  ensure HAllowLAN c || IsLoopback mapIP
    orelse Errorf "hosts map_ip %q is not loopback; set hosts.allow_lan to true to map LAN addresses" [HMapIP c];
  ensure negb (bool_decide (HTTPListenAddr c = [])) orelse Errorf "hosts http_listen_addr is required" [];
  do _ <- wrap_err "invalid hosts http_listen_addr: %w" [] (validateListenAddr (HTTPListenAddr c) (HAllowLAN c));
  ensure negb (bool_decide (HTTPSListenAddr c = [])) orelse Errorf "hosts https_listen_addr is required" [];
  do _ <- wrap_err "invalid hosts https_listen_addr: %w" [] (validateListenAddr (HTTPSListenAddr c) (HAllowLAN c));
  ensure negb (is_blank (HPath c)) orelse Errorf "hosts path is required" [];
  let extra := trimStrings (ExtraDomains c) in
  match List.find (fun d => Contains d "*") extra with
  | Some d => Err (Errorf "hosts extra_domains cannot contain wildcard domain %q" [d])
  | None => Ok {| HMapIP := HMapIP c; HTTPListenAddr := HTTPListenAddr c; HTTPSListenAddr := HTTPSListenAddr c;
                  HAllowLAN := HAllowLAN c; HPath := HPath c; ExtraDomains := extra |}
  end.

Definition validateCert (c : CertConfig) : result CertConfig :=
  ensure negb (is_blank (CertDir c)) orelse Errorf "cert dir is required" [];
  let scope := normalizeCertStoreScope (StoreScope c) in
  ensure one_of scope [CertStoreMachine; CertStoreUser] orelse Errorf "unsupported cert store_scope %q" [scope];
  Ok {| CertDir := CertDir c; AutoInstall := AutoInstall c; StoreScope := scope |}.

Definition validateRuntime (c : RuntimeConfig) : result RuntimeConfig :=
  let control := if bool_decide (ControlAddr c = []) then "127.0.0.1:0" else ControlAddr c in
  do _ <- wrap_err "invalid runtime control_addr: %w" [] (validateListenAddr control false);
  ensure negb (is_blank (StatePath c)) orelse Errorf "runtime state_path is required" [];
  ensure negb (is_blank (RtRollbackPath c)) orelse Errorf "runtime rollback_path is required" [];
  Ok {| StatePath := StatePath c; RtRollbackPath := RtRollbackPath c; ControlAddr := control;
        StopTimeout := StopTimeout c |}.

Definition validateResolver (c : ResolverConfig) : result ResolverConfig :=
  let mode := normalizeResolverMode (RMode c) in
  ensure one_of mode [ResolverSystem; ResolverUDP; ResolverTCP; ResolverDoH]
    orelse Errorf "unsupported resolver mode %q" [mode];
  let servers := trimStrings (Servers c) in
  let servers' := if bool_decide (mode = ResolverDoH) && bool_decide (servers = [])
                  then DefaultDoHServers else servers in
  ensure bool_decide (mode = ResolverSystem) || negb (bool_decide (servers' = []))
    orelse Errorf "resolver servers are required for mode %q" [mode];
  ensure negb (PreferIPv4 c && PreferIPv6 c)
    orelse Errorf "resolver prefer_ipv4 and prefer_ipv6 cannot both be true" [];
  Ok {| RMode := mode; Servers := servers'; PreferIPv4 := PreferIPv4 c; PreferIPv6 := PreferIPv6 c;
        DisableIPv6 := DisableIPv6 c; CacheTTL := CacheTTL c; RTimeout := RTimeout c |}.

Definition validateUpstream (c : UpstreamConfig) : result UpstreamConfig :=
  let type := normalizeUpstreamType (UType c) in
  ensure one_of type [UpstreamDirect; UpstreamHTTP; UpstreamSOCKS5]
    orelse Errorf "unsupported upstream type %q" [type];
  ensure bool_decide (type = UpstreamDirect) || negb (is_blank (UAddress c))
    orelse Errorf "upstream address is required for type %q" [type];
  do profiles <- validateOutboundProfiles (UProfiles c);
  Ok {| UType := type; UAddress := TrimSpace (UAddress c); UUsername := TrimSpace (UUsername c);
        UPassword := UPassword c; UProfiles := profiles |}.

Definition validateTimeouts (c : Config) : result unit :=
  ensure (0 <? ReadHeaderTimeout (Proxy c))%Z orelse Errorf "proxy read_header_timeout must be positive" [];
  ensure (0 <? IdleTimeout (Proxy c))%Z orelse Errorf "proxy idle_timeout must be positive" [];
  ensure (0 <? DialTimeout (Proxy c))%Z orelse Errorf "proxy dial_timeout must be positive" [];
  ensure (0 <? ShutdownTimeout (Proxy c))%Z orelse Errorf "proxy shutdown_timeout must be positive" [];
  ensure (0 <? CacheTTL (Resolver c))%Z orelse Errorf "resolver cache_ttl must be positive" [];
  ensure (0 <? RTimeout (Resolver c))%Z orelse Errorf "resolver timeout must be positive" [];
  ensure (0 <? StopTimeout (Runtime c))%Z orelse Errorf "runtime stop_timeout must be positive" [];
  Ok tt.

(** Config.Validate: the normalized configuration, or the first problem. *)
Definition Validate (c : Config) : result Config :=
  do mode <- validateMode (Mode c);
  do dns <- validateDNSConfig (enableDNS (DNS c) mode) mode;
  let providers := default ["steam"] (normalizeProviderIDs (ProvidersEnabled c)) in
  do proxy <- validateProxy (Proxy c);
  do _ <- validatePAC (PAC c);
  do hosts <- validateHosts (Hosts c);
  do cert <- validateCert (Cert c);
  do runtime <- validateRuntime (Runtime c);
  do resolver <- validateResolver (Resolver c);
  do upstream <- validateUpstream (Upstream c);
  do enhance <- validatePageEnhanceConfig (PageEnhance c);
  let c' := {| Mode := mode; ProvidersEnabled := Some providers; DNS := dns; Proxy := proxy; PAC := PAC c;
               Hosts := hosts; Cert := cert; Resolver := resolver; Upstream := upstream;
               PageEnhance := enhance; SystemServices := trimStrings (SystemServices c);
               CustomDomains := CustomDomains c; Runtime := runtime |} in
  do _ <- validateTimeouts c';
  Ok c'.
End config.

(** * Defaults

    [Default] depends on directories of the host system, passed as arguments. *)
Definition Default (hostsPath certDir statePath rollbackPath : gostring) : Config := {|
  Mode := ModeProxyOnly;
  ProvidersEnabled := Some ["steam"];
  DNS := {| DNSEnabled := false; Strategy := DNSInterceptManual; DNSListenAddr := "127.0.0.1:53";
            DNSAllowLAN := false; Interfaces := []; MapIPv4 := "127.0.0.1"; MapIPv6 := [];
            TTL := (30 * Second)%Z; BlockHTTPSRecords := true |};
  Proxy := {| PxListenAddr := "127.0.0.1:26501"; NonTargetBehavior := NonTargetReject;
              PxAllowLAN := false; ReadHeaderTimeout := (10 * Second)%Z; IdleTimeout := (2 * Minute)%Z;
              DialTimeout := (30 * Second)%Z; ShutdownTimeout := (5 * Second)%Z |};
  PAC := {| PACListenAddr := "127.0.0.1:26502"; PACAllowLAN := false |};
  Hosts := {| HMapIP := "127.0.0.1"; HTTPListenAddr := "127.0.0.1:80";
              HTTPSListenAddr := "127.0.0.1:443"; HAllowLAN := false; HPath := hostsPath;
              ExtraDomains := [] |};
  Cert := {| CertDir := certDir; AutoInstall := true; StoreScope := CertStoreMachine |};
  Resolver := {| RMode := ResolverSystem; Servers := []; PreferIPv4 := true; PreferIPv6 := false;
                 DisableIPv6 := false; CacheTTL := (10 * Minute)%Z; RTimeout := (5 * Second)%Z |};
  Upstream := {| UType := UpstreamDirect; UAddress := []; UUsername := []; UPassword := [];
                 UProfiles := [] |};
  PageEnhance := {| PEEnabled := false; OnError := PageEnhancePassThrough; MaxBodySize := (1024 * 1024)%Z;
                    Assets := []; Transforms := [] |};
  SystemServices := [];
  CustomDomains := [];
  Runtime := {| StatePath := statePath; RtRollbackPath := rollbackPath; ControlAddr := "127.0.0.1:0";
                StopTimeout := (5 * Second)%Z |};
|}.

(** * Removed keys *)

Inductive node_kind := DocumentNode | MappingNode | SequenceNode | ScalarNode | AliasNode.

#[warnings="-register-all"]
Inductive Node := YNode (Kind : node_kind) (Value : gostring) (Content : list Node).

Definition node_Value (n : Node) : gostring := let 'YNode _ v _ := n in v.

Definition legacyKeys : list (gostring * gostring) :=
  [("proxy.non_steam_behavior",
    "proxy.non_steam_behavior was removed in v0.7; use proxy.non_target_behavior");
   ("rules.enable_default_steam_rules",
    "rules.enable_default_steam_rules was removed in v0.7; use providers.enabled");
   ("upstream.enable_default_steam_profiles",
    "upstream.enable_default_steam_profiles was removed in v0.7; provider outbound profiles now come from providers.enabled")].

Definition legacyMessage (key : gostring) : option gostring :=
  snd <$> List.find (fun kv => bool_decide (kv.1 = key)) legacyKeys.

(** The recursion visits the key/value pairs of a mapping; the empty string
    means that no legacy key was found. *)
Fixpoint findLegacyConfigKey (node : Node) (path : list gostring) : gostring :=
  match node with
  | YNode MappingNode _ content =>
      (fix pairs (c : list Node) : gostring :=
         match c with
         | keyNode :: valueNode :: rest =>
             let nextPath := path ++ [TrimSpace (node_Value keyNode)] in
             match legacyMessage (Join nextPath ".") with
             | Some message => message
             | None =>
                 let message := findLegacyConfigKey valueNode nextPath in
                 if bool_decide (message = []) then pairs rest else message
             end
         | _ => []
         end) content
  | _ => []
  end.

(** [root] is the parsed document, or [None] when the YAML parser refuses it. *)
Definition rejectLegacyConfigKeys (root : option Node) : result unit :=
  match root with
  | None => Ok tt
  | Some r =>
      let node := match r with YNode DocumentNode _ (n :: _) => n | _ => r end in
      match node with
      | YNode MappingNode _ _ =>
          let message := findLegacyConfigKey node [] in
          if bool_decide (message = []) then Ok tt else Err (Errorf message [])
      | _ => Ok tt
      end
  end.

Section load.
Context {X : Type} `{Externals}.

(** yaml.Unmarshal, into a node tree and onto a configuration that holds the
    defaults. *)
Variable yaml_nodes : gostring -> option Node.
Variable yaml_config : gostring -> Config -> result Config.

Definition LoadFile (defaults : Config) (path : gostring) : IO X Config :=
  if is_blank path then io_of (Validate defaults)
  else
    io data <- io_wrap "read config %q: %w" [path] (os_ReadFile path);
    io _ <- io_wrap "parse config %q: %w" [path] (io_of (rejectLegacyConfigKeys (yaml_nodes data)));
    io cfg <- io_wrap "parse config %q: %w" [path] (io_of (yaml_config data defaults));
    io_of (Validate cfg).
End load.

(** * Normalization is idempotent *)

Arguments normalizeMode : simpl never.
Arguments normalizeDNSInterceptStrategy : simpl never.
Arguments normalizePageEnhanceOnError : simpl never.
Arguments normalizeNonTargetBehavior : simpl never.
Arguments normalizeResolverMode : simpl never.
Arguments normalizeCertStoreScope : simpl never.
Arguments normalizeUpstreamType : simpl never.

Section normalization.
Context `{ExternalLaws}.

(** A table whose keywords map to themselves. *)
Definition rows_ok (rows : list (list gostring * gostring)) : bool :=
  forallb (fun row => bool_decide (switch rows row.2 = row.2) && bool_decide (keyword row.2 = row.2)) rows.

Lemma switch_cases rows k : switch rows k = k ∨ exists row, row ∈ rows ∧ switch rows k = row.2.
Proof.
  induction rows as [|[ks r] rows IH]; cbn; [by left|]. destruct (one_of k ks).
  - right. exists (ks, r). split; [left|done].
  - destruct IH as [?|(row & ? & ?)]; [by left|]. right. exists row. split; [by right|done].
Qed.

Lemma switch_idemp rows s :
  rows_ok rows = true -> switch rows (keyword (switch rows (keyword s))) = switch rows (keyword s).
Proof.
  intros Hok. destruct (switch_cases rows (keyword s)) as [E|(row & Hin & ->)].
  - by rewrite E, keyword_idemp.
  - unfold rows_ok in Hok. rewrite forallb_forall in Hok. apply list_elem_of_In, Hok in Hin.
    cbn beta in Hin. boolify. congruence.
Qed.

Lemma trimStrings_trimmed vs : Forall (fun v => TrimSpace v = v ∧ nonempty v) (trimStrings vs).
Proof.
  unfold trimStrings. apply Forall_forall. intros v [Hn Hv]%list_elem_of_filter.
  apply list_elem_of_fmap in Hv as (u & -> & _). by rewrite TrimSpace_idemp.
Qed.

Lemma trimStrings_id vs : Forall (fun v => TrimSpace v = v ∧ nonempty v) vs -> trimStrings vs = vs.
Proof.
  unfold trimStrings. induction 1 as [|v vs [Hv Hn] _ IH]; [done|]. cbn [fmap list_fmap].
  by rewrite Hv, filter_cons_True, IH by done.
Qed.

Lemma trimStrings_idemp vs : trimStrings (trimStrings vs) = trimStrings vs.
Proof. apply trimStrings_id, trimStrings_trimmed. Qed.

Definition dedupe_inv (s : gset gostring * list gostring) : Prop :=
  NoDup (ToLower <$> s.2) ∧ forall k, k ∈ s.1 <-> k ∈ ToLower <$> s.2.

Lemma dedupeStep_inv s v : dedupe_inv s -> dedupe_inv (dedupeStep s v).
Proof.
  destruct s as [seen out]. intros [Hnd Hs]. unfold dedupeStep. case_bool_decide as Hv; [done|].
  split; cbn [fst snd]; rewrite fmap_app; cbn [fmap list_fmap].
  - apply NoDup_app. split_and!; [done| |by apply NoDup_singleton].
    intros x Hx ->%list_elem_of_singleton. by apply Hv, Hs.
  - intros k. rewrite elem_of_union, elem_of_singleton, elem_of_app, list_elem_of_singleton.
    cbn [fst snd] in Hs. rewrite Hs. tauto.
Qed.

Lemma dedupe_fold s vs :
  dedupe_inv s -> dedupe_inv (foldl dedupeStep s vs) ∧
  (forall v, v ∈ (foldl dedupeStep s vs).2 -> v ∈ s.2 ∨ v ∈ vs).
Proof.
  revert s; induction vs as [|v vs IH]; intros s Hs; cbn [foldl]; [by split; auto|].
  destruct (IH _ (dedupeStep_inv s v Hs)) as [Hi He]. split; [done|].
  intros u Hu. destruct (He u Hu) as [Hd|?]; [|right; by right].
  destruct s as [seen out]. unfold dedupeStep in Hd. case_bool_decide; [by left|].
  apply elem_of_app in Hd as [?|Hd]; [by left|]. right. set_solver.
Qed.

Lemma dedupe_fold_id s vs :
  (forall k, k ∈ s.1 <-> k ∈ ToLower <$> s.2) -> NoDup (ToLower <$> (s.2 ++ vs)) ->
  (foldl dedupeStep s vs).2 = s.2 ++ vs.
Proof.
  revert s; induction vs as [|v vs IH]; intros [seen out] Hs Hnd; cbn [foldl fst snd] in *.
  { by rewrite app_nil_r. }
  assert (Hv : ToLower v ∉ seen).
  { rewrite Hs. rewrite fmap_app in Hnd. apply NoDup_app in Hnd as (_ & Hd & _).
    intros Hin. apply (Hd _ Hin). left. }
  unfold dedupeStep at 2. rewrite bool_decide_eq_false_2 by done. rewrite IH; cbn [fst snd].
  - by rewrite <-app_assoc.
  - intros k. rewrite fmap_app, elem_of_union, elem_of_singleton, elem_of_app, Hs. cbn.
    rewrite list_elem_of_singleton. tauto.
  - by rewrite <-app_assoc.
Qed.

Lemma dedupeStrings_spec vs :
  NoDup (ToLower <$> dedupeStrings vs) ∧ (forall v, v ∈ dedupeStrings vs -> v ∈ vs).
Proof.
  assert (H0' : dedupe_inv (∅, [])) by (split; [constructor|set_solver]).
  destruct (dedupe_fold _ vs H0') as [[Hn _] He]. split; [exact Hn|].
  intros v Hv. apply He in Hv as [?%elem_of_nil|]; done.
Qed.

Lemma dedupeStrings_id vs : NoDup (ToLower <$> vs) -> dedupeStrings vs = vs.
Proof. intros Hn. unfold dedupeStrings. by rewrite dedupe_fold_id by (done || set_solver). Qed.

Lemma interfaces_idemp vs :
  dedupeStrings (trimStrings (dedupeStrings (trimStrings vs))) = dedupeStrings (trimStrings vs).
Proof.
  destruct (dedupeStrings_spec (trimStrings vs)) as [Hn He].
  rewrite (trimStrings_id (dedupeStrings _)); [by apply dedupeStrings_id|].
  apply Forall_forall. intros v Hv. pose proof (trimStrings_trimmed vs) as Ht.
  rewrite Forall_forall in Ht. by apply Ht, He.
Qed.

Lemma normalizeProviderIDs_idemp vs :
  normalizeProviderIDs (normalizeProviderIDs vs) = normalizeProviderIDs vs.
Proof.
  destruct vs as [vs|]; [|done]. cbn. f_equal.
  induction vs as [|v vs IH]; [done|]. cbn [fmap list_fmap]. rewrite filter_cons.
  case_decide; [|done]. cbn [fmap list_fmap]. rewrite keyword_idemp, filter_cons_True by done. congruence.
Qed.

Lemma normalizeMode_idemp s : normalizeMode (normalizeMode s) = normalizeMode s.
Proof. apply switch_idemp. vm_compute. reflexivity. Qed.
Lemma normalizeDNSInterceptStrategy_idemp s : normalizeDNSInterceptStrategy (normalizeDNSInterceptStrategy s) = normalizeDNSInterceptStrategy s.
Proof. apply switch_idemp. vm_compute. reflexivity. Qed.
Lemma normalizePageEnhanceOnError_idemp s : normalizePageEnhanceOnError (normalizePageEnhanceOnError s) = normalizePageEnhanceOnError s.
Proof. apply switch_idemp. vm_compute. reflexivity. Qed.
Lemma normalizeNonTargetBehavior_idemp s : normalizeNonTargetBehavior (normalizeNonTargetBehavior s) = normalizeNonTargetBehavior s.
Proof. apply switch_idemp. vm_compute. reflexivity. Qed.
Lemma normalizeResolverMode_idemp s : normalizeResolverMode (normalizeResolverMode s) = normalizeResolverMode s.
Proof. apply switch_idemp. vm_compute. reflexivity. Qed.
Lemma normalizeCertStoreScope_idemp s : normalizeCertStoreScope (normalizeCertStoreScope s) = normalizeCertStoreScope s.
Proof. apply switch_idemp. vm_compute. reflexivity. Qed.
Lemma normalizeUpstreamType_idemp s : normalizeUpstreamType (normalizeUpstreamType s) = normalizeUpstreamType s.
Proof. apply switch_idemp. vm_compute. reflexivity. Qed.

(** ** The sections of Validate *)

Ltac use_checks := repeat match goal with H : ?x = _ |- context [?x] => rewrite H end; try reflexivity.

Lemma validateMode_idemp m m' : validateMode m = Ok m' -> validateMode m' = Ok m'.
Proof.
  unfold validateMode. destruct (one_of _ _) eqn:E; [|done]. intros [= <-].
  by rewrite normalizeMode_idemp, E.
Qed.

Lemma validateProxy_idemp c c' : validateProxy c = Ok c' -> validateProxy c' = Ok c'.
Proof.
  unfold validateProxy. intros Hc. inv_ok Hc.
  cbn [NonTargetBehavior PxListenAddr PxAllowLAN].
  rewrite normalizeNonTargetBehavior_idemp.
  use_checks.
Qed.

Lemma validateHosts_idemp c c' : validateHosts c = Ok c' -> validateHosts c' = Ok c'.
Proof.
  unfold validateHosts. intros Hc. inv_ok Hc. cbn [HMapIP HTTPListenAddr HTTPSListenAddr HAllowLAN HPath ExtraDomains].
  rewrite trimStrings_idemp.
  use_checks.
Qed.

Lemma validateCert_idemp c c' : validateCert c = Ok c' -> validateCert c' = Ok c'.
Proof.
  unfold validateCert. intros Hc. inv_ok Hc. cbn [CertDir StoreScope AutoInstall].
  rewrite normalizeCertStoreScope_idemp.
  use_checks.
Qed.

Lemma validateRuntime_idemp c c' : validateRuntime c = Ok c' -> validateRuntime c' = Ok c'.
Proof.
  unfold validateRuntime. intros Hc. inv_ok Hc. cbn [ControlAddr StatePath RtRollbackPath StopTimeout].
  set (ca := if bool_decide (ControlAddr c = []) then _ else _) in *.
  assert (ca <> []) as Hca by (unfold ca; by case_bool_decide).
  rewrite bool_decide_eq_false_2 by done.
  use_checks.
Qed.

Lemma validateResolver_idemp c c' : validateResolver c = Ok c' -> validateResolver c' = Ok c'.
Proof.
  unfold validateResolver. intros Hc. inv_ok Hc.
  cbn [RMode Servers PreferIPv4 PreferIPv6 DisableIPv6 CacheTTL RTimeout].
  rewrite normalizeResolverMode_idemp. rewrite E.
  set (mode := normalizeResolverMode _) in *.
  destruct (bool_decide (mode = ResolverDoH)) eqn:Ed; cbn [andb] in *.
  - destruct (bool_decide (trimStrings (Servers c) = [])) eqn:Es.
    + change (trimStrings DefaultDoHServers) with DefaultDoHServers. cbn [bool_decide]. by rewrite orb_true_r, E1.
    + rewrite trimStrings_idemp, Es. cbn [negb] in *. by rewrite E0, E1.
  - rewrite trimStrings_idemp. by rewrite E0, E1.
Qed.

Lemma withDNS_twice c s i v4 v6 s' i' v4' v6' :
  withDNS (withDNS c s i v4 v6) s' i' v4' v6' = withDNS c s' i' v4' v6'.
Proof. reflexivity. Qed.

Lemma validateDNS_idemp c dns' mode :
  validateDNSConfig (enableDNS c mode) mode = Ok dns' ->
  validateDNSConfig (enableDNS dns' mode) mode = Ok dns'.
Proof.
  intros Hc.
  assert (Hen : enableDNS dns' mode = dns').
  { unfold validateDNSConfig in Hc. inv_ok Hc; unfold enableDNS, withDNS;
      destruct (bool_decide (mode = ModeDNS)); done. }
  rewrite Hen. set (c0 := enableDNS c mode) in *. clearbody c0. clear Hen.
  unfold validateDNSConfig in *.
  inv_ok Hc; cbn [DNSEnabled Strategy DNSListenAddr DNSAllowLAN Interfaces MapIPv4 MapIPv6 TTL
    BlockHTTPSRecords withDNS]; rewrite normalizeDNSInterceptStrategy_idemp;
    rewrite interfaces_idemp, ?TrimSpace_idemp, ?withDNS_twice; use_checks.
Qed.

(** Profiles whose hosts are canonical names validate to themselves. *)
Definition canonical_optional (h : gostring) : bool := bool_decide (h = []) || ldh_host h.
Definition canonical_profile (p : OutboundProfileConfig) : bool :=
  forallb canonical_rule (OMatchDomains p) && canonical_optional (OForwardHost p) &&
  canonical_optional (OTLSServerName p).

Lemma canonical_rule_trimmed d : canonical_rule d = true -> TrimSpace d = d ∧ nonempty d.
Proof.
  unfold canonical_rule. rewrite orb_true_iff, andb_true_iff. intros [Hl|[Hp Hr]].
  - split; [by apply TrimSpace_graphic, ldh_host_graphic|]. by intros ->.
  - apply HasPrefix_true in Hp as [r ->]. rewrite TrimPrefix_app in Hr. split; [|done].
    apply TrimSpace_graphic. cbn. by apply ldh_host_graphic.
Qed.

Lemma validateMatchDomain_canonical i j d :
  canonical_rule d = true -> validateMatchDomain i (j, d) = Ok d.
Proof.
  intros Hd. pose proof (normalizeRule_canonical [] d Hd) as Hn.
  unfold normalizeRule in Hn. destruct (canonical_rule_trimmed d Hd) as [Ht Hne]. rewrite Ht in Hn.
  rewrite bool_decide_eq_false_2 in Hn by done. unfold validateMatchDomain.
  destruct (Contains d "*" && negb (HasPrefix d "*.")); [done|].
  destruct (HasPrefix d "*.") eqn:Hp.
  - destruct (NormalizeHost (TrimPrefix d "*.")) as [h|]; [|done]. cbn in Hn |- *.
    unfold canonical_entry in Hn. rewrite Hp in Hn. injection Hn; intros; cbn; congruence.
  - destruct (NormalizeHost d) as [h|]; [|done]. cbn in Hn |- *.
    unfold canonical_entry in Hn. rewrite Hp in Hn. by injection Hn as <- _.
Qed.

Lemma optionalHost_canonical h :
  canonical_optional h = true -> normalizeOptionalProfileHost h = Ok h.
Proof.
  unfold canonical_optional, normalizeOptionalProfileHost. rewrite orb_true_iff, bool_decide_eq_true.
  intros [->|Hl]; [done|]. rewrite TrimSpace_graphic by by apply ldh_host_graphic.
  rewrite NormalizeHost_ldh by done. case_bool_decide; congruence.
Qed.

Lemma validateProfile_idemp x p :
  validateOutboundProfile x = Ok p -> canonical_profile p = true ->
  forall i, validateOutboundProfile (i, p) = Ok p.
Proof.
  destruct x as [n q]. unfold validateOutboundProfile at 1. intros Hv Hc i.
  inv_ok Hv. unfold canonical_profile in Hc. cbn in Hc. boolify.
  match goal with H : forallb canonical_rule ?l = true |- _ =>
    rename l into ds; rename H into Hds; rewrite forallb_forall in Hds end.
  match goal with H : rmapM (validateCandidateIP _) _ = Ok ?l |- _ => rename l into ips; rename H into Hips end.
  unfold validateOutboundProfile. cbn [OMatchDomains OCandidateIPs OForwardHost OTLSServerName OIgnoreTLSNameMismatch].
  rewrite (trimStrings_id ds) by (apply Forall_forall; intros d Hd%list_elem_of_In; by apply canonical_rule_trimmed, Hds).
  rewrite bool_decide_eq_false_2 by (intros Hnil; by apply E, (rmapM_enum_nil _ _ _ E0)).
  rewrite rmapM_enum_id by (intros; apply validateMatchDomain_canonical, Hds; by apply list_elem_of_In).
  cbn [rbind].
  assert (Hip : forall ip, ip ∈ ips -> (TrimSpace ip = ip ∧ nonempty ip) ∧ ParseIP ip <> []).
  { intros ip Hin. destruct (rmapM_enum_out _ _ _ _ Hips Hin) as (k & y & Hy & Hf).
    unfold validateCandidateIP in Hf. case_bool_decide; [done|]. injection Hf as ->.
    split; [|done]. pose proof (trimStrings_trimmed (OCandidateIPs q)) as Ht.
    rewrite Forall_forall in Ht. by apply Ht. }
  rewrite (trimStrings_id ips) by (apply Forall_forall; intros; by apply Hip).
  rewrite rmapM_enum_id by (intros k y Hy; unfold validateCandidateIP;
    rewrite bool_decide_eq_false_2; [done|by apply Hip]).
  cbn [rbind]. rewrite !optionalHost_canonical by done. cbn [wrap_err rbind].
  match goal with H : _ && _ = false |- _ => by rewrite H end.
Qed.

Lemma validateUpstream_idemp c c' :
  validateUpstream c = Ok c' -> forallb canonical_profile (UProfiles c') = true ->
  validateUpstream c' = Ok c'.
Proof.
  unfold validateUpstream. intros Hc Hp. inv_ok Hc.
  cbn [UType UAddress UUsername UPassword UProfiles] in *. rewrite normalizeUpstreamType_idemp.
  rewrite is_blank_TrimSpace, !TrimSpace_idemp.
  match goal with H : validateOutboundProfiles _ = Ok ?l |- _ => rename l into ps; rename H into Hps end.
  rewrite forallb_forall in Hp. assert (Hid : validateOutboundProfiles ps = Ok ps).
  { unfold validateOutboundProfiles in *. apply rmapM_enum_id. intros i p Hin.
    destruct (rmapM_enum_out _ _ _ _ Hps Hin) as (k & q & _ & Hq).
    eapply validateProfile_idemp; [exact Hq|]. apply Hp. by apply list_elem_of_In. }
  clear Hps. use_checks.
Qed.

Lemma validatePageEnhance_idemp c c' :
  validatePageEnhanceConfig c = Ok c' -> PEEnabled c' = false -> validatePageEnhanceConfig c' = Ok c'.
Proof.
  unfold validatePageEnhanceConfig. intros Hc Hd. inv_ok Hc; [|done].
  cbn [OnError MaxBodySize PEEnabled Assets Transforms] in *. rewrite normalizePageEnhanceOnError_idemp.
  rewrite E. boolify. destruct (Z.eqb_spec (MaxBodySize c) 0) as [Hz|Hz]; [reflexivity|].
  use_checks. apply Z.eqb_neq in Hz. by rewrite Hz.
Qed.

(** Validate is idempotent: a configuration it has accepted and normalized
    is accepted again unchanged (with canonical profile hosts and without page
    enhancement, whose hosts and headers are rewritten). *)
Theorem Validate_idempotent c c' :
  Validate c = Ok c' -> forallb canonical_profile (UProfiles (Upstream c')) = true ->
  PEEnabled (PageEnhance c') = false -> Validate c' = Ok c'.
Proof.
  unfold Validate. intros Hc Hp He. inv_ok Hc.
  cbn [Mode ProvidersEnabled DNS Proxy PAC Hosts Cert Resolver Upstream PageEnhance SystemServices
    CustomDomains Runtime] in *.
  erewrite validateMode_idemp by done. cbn [rbind].
  erewrite validateDNS_idemp by done. cbn [rbind].
  erewrite validateProxy_idemp by done. cbn [rbind].
  match goal with H : validatePAC _ = _ |- _ => rewrite H end. cbn [rbind].
  erewrite validateHosts_idemp by done. cbn [rbind].
  erewrite validateCert_idemp by done. cbn [rbind].
  erewrite validateRuntime_idemp by done. cbn [rbind].
  erewrite validateResolver_idemp by done. cbn [rbind].
  erewrite validateUpstream_idemp by done. cbn [rbind].
  erewrite validatePageEnhance_idemp by done. cbn [rbind].
  rewrite trimStrings_idemp.
  assert (Hpr : default ["steam"] (normalizeProviderIDs (Some (default ["steam"] (normalizeProviderIDs (ProvidersEnabled c)))))
    = default ["steam"] (normalizeProviderIDs (ProvidersEnabled c))).
  { destruct (ProvidersEnabled c) as [vs|]; [|vm_compute; reflexivity].
    cbn [normalizeProviderIDs default fmap option_fmap option_map from_option id].
    pose proof (normalizeProviderIDs_idemp (Some vs)) as Hi. by injection Hi. }
  rewrite Hpr. clear Hpr.
  match goal with H : validateTimeouts _ = _ |- _ => by rewrite H end.
Qed.
End normalization.

(** * What an accepted configuration guarantees *)

Section guarantees.
Context `{Externals}.

(** The address names a port on the loopback interface. *)
Definition listens_locally (addr : gostring) : Prop :=
  exists host port, SplitHostPort addr = Ok (host, port) ∧ is_blank port = false ∧
    (EqualFold host "localhost" = true ∨ IsLoopback (ParseIP host) = true).

Lemma validateListenAddr_local addr u :
  validateListenAddr addr false = Ok u -> listens_locally addr.
Proof.
  unfold validateListenAddr. intros Hv. inv_ok1 Hv. destruct a as [host port].
  exists host, port. destruct (is_blank port) eqn:Ep; [done|]. split_and!; [done..|].
  destruct (EqualFold host "localhost"); [by left|]. right. case_bool_decide; [done|].
  by destruct (IsLoopback (ParseIP host)).
Qed.

Lemma wrap_err_ok {A} f args (r : result A) a : wrap_err f args r = Ok a -> r = Ok a.
Proof. by destruct r. Qed.

Lemma validateHosts_local c c' : validateHosts c = Ok c' -> HAllowLAN c' = false ->
  IsLoopback (ParseIP (HMapIP c')) = true ∧
  listens_locally (HTTPListenAddr c') ∧ listens_locally (HTTPSListenAddr c').
Proof.
  unfold validateHosts. intros Hv Hl. inv_ok Hv. cbn [HAllowLAN HMapIP HTTPListenAddr HTTPSListenAddr] in *.
  rewrite Hl in *. split_and!; [by rewrite orb_false_l in *|..];
    eapply validateListenAddr_local, wrap_err_ok; eassumption.
Qed.

Lemma validateDNS_local c mode c' :
  validateDNSConfig c mode = Ok c' -> mode = ModeDNS -> DNSAllowLAN c' = false ->
  listens_locally (DNSListenAddr c').
Proof.
  unfold validateDNSConfig. intros Hv -> Hl. rewrite (bool_decide_eq_true_2 (ModeDNS = ModeDNS)) in Hv by done.
  rewrite orb_true_r in Hv. cbn [negb] in Hv. rewrite andb_false_r in Hv. inv_ok Hv; cbn [DNSAllowLAN DNSListenAddr withDNS] in *; rewrite ?Hl in *;
    eapply validateListenAddr_local, wrap_err_ok; eassumption.
Qed.

(** C34: no accepted configuration exposes a listener by accident: every address
    whose allow_lan switch is off is a loopback address with a port, the control
    address always is, and the hosts file maps to a loopback address. *)
Theorem Validate_loopback c c' :
  Validate c = Ok c' ->
  listens_locally (ControlAddr (Runtime c')) ∧
  (PxAllowLAN (Proxy c') = false -> listens_locally (PxListenAddr (Proxy c'))) ∧
  (PACAllowLAN (PAC c') = false -> listens_locally (PACListenAddr (PAC c'))) ∧
  (HAllowLAN (Hosts c') = false ->
     IsLoopback (ParseIP (HMapIP (Hosts c'))) = true ∧
     listens_locally (HTTPListenAddr (Hosts c')) ∧ listens_locally (HTTPSListenAddr (Hosts c'))) ∧
  (Mode c' = ModeDNS -> DNSAllowLAN (DNS c') = false -> listens_locally (DNSListenAddr (DNS c'))).
Proof.
  unfold Validate. intros Hv. inv_ok Hv.
  cbn [Runtime Proxy PAC Hosts DNS Mode]. split_and!.
  - unfold validateRuntime in *. match goal with H : (do _ <- wrap_err _ _ _; _) = Ok a5 |- _ => inv_ok H end.
    eapply validateListenAddr_local, wrap_err_ok; eassumption.
  - intros Hl. unfold validateProxy in *.
    match goal with H : _ = Ok a1 |- _ => inv_ok H end. cbn in *. rewrite Hl in *.
    eapply validateListenAddr_local, wrap_err_ok; eassumption.
  - intros Hl. match goal with H : validatePAC _ = _ |- _ => unfold validatePAC in H; inv_ok H; rewrite Hl in H;
      apply wrap_err_ok, validateListenAddr_local in H end. done.
  - by eapply validateHosts_local.
  - by eapply validateDNS_local.
Qed.

Lemma one_of_elem k ks : one_of k ks = true -> k ∈ ks.
Proof. apply bool_decide_eq_true_1. Qed.

Lemma validateDNS_shape c mode c' :
  validateDNSConfig (enableDNS c mode) mode = Ok c' ->
  (DNSEnabled c' = true <-> mode = ModeDNS) ∧
  (mode = ModeDNS -> Strategy c' = DNSInterceptManual ∨
    Strategy c' = DNSInterceptSystem ∧ validateDNSSystemConfig c' = Ok tt) ∧
  (mode = ModeDNS -> (0 < TTL c')%Z ∧ (MapIPv4 c' <> [] ∨ MapIPv6 c' <> [])).
Proof.
  intros Hv. assert (Hen : DNSEnabled (enableDNS c mode) = true ∨ mode <> ModeDNS).
  { unfold enableDNS. by case_bool_decide; [left|right]. }
  set (c0 := enableDNS c mode) in *. clearbody c0. unfold validateDNSConfig in Hv.
  destruct (checkStrategy _ _ _) as [u|] eqn:Ec; cbn [rbind] in Hv; [|done].
  destruct (DNSEnabled c0) eqn:Ee; cbn [andb orb] in *.
  - destruct (bool_decide_reflect (mode = ModeDNS)) as [Hm|]; cbn [negb] in Hv; [|done].
    inv_ok Hv. cbn [DNSEnabled withDNS Strategy TTL MapIPv4 MapIPv6]. split_and!; [done| |].
    + intros _. unfold checkStrategy in Ec.
set (st := normalizeDNSInterceptStrategy (Strategy c0)) in *. clearbody st.
      destruct (decide (st = DNSInterceptManual)) as [|H1]; [by left|]. right.
      destruct (decide (st = DNSInterceptSystem)) as [H2|H2].
      * split; [done|]. match goal with H : context [validateDNSSystemConfig] |- _ =>
          rewrite bool_decide_eq_true_2 in H by done; rewrite H end. by destruct a0.
      * exfalso. rewrite !bool_decide_eq_false_2 in Ec by done. by destruct (bool_decide _).
    + intros _. match goal with H : (TTL c0 <=? 0)%Z = false |- _ => apply Z.leb_gt in H end.
      split; [done|]. destruct (bool_decide_reflect (TrimSpace (MapIPv4 c0) = [])); [|by left].
      right. cbn in *. by boolify.
  - destruct Hen as [|Hm]; [done|]. rewrite bool_decide_eq_false_2 in * by done. cbn [negb] in *.
    injection Hv as <-. cbn [DNSEnabled withDNS]. rewrite Ee. by split_and!.
Qed.

Lemma validateTimeouts_positive c u :
  validateTimeouts c = Ok u ->
  (0 < ReadHeaderTimeout (Proxy c) ∧ 0 < IdleTimeout (Proxy c) ∧ 0 < DialTimeout (Proxy c) ∧
   0 < ShutdownTimeout (Proxy c) ∧ 0 < CacheTTL (Resolver c) ∧ 0 < RTimeout (Resolver c) ∧
   0 < StopTimeout (Runtime c))%Z.
Proof.
  unfold validateTimeouts. intros Hc. inv_ok Hc. rewrite !Z.ltb_lt in *. by split_and!.
Qed.

Lemma Validate_resolver c c' :
  Validate c = Ok c' ->
  RMode (Resolver c') ∈ [ResolverSystem; ResolverUDP; ResolverTCP; ResolverDoH] ∧
  (RMode (Resolver c') = ResolverSystem ∨ Servers (Resolver c') <> []).
Proof.
  unfold Validate. intros Hv. inv_ok Hv. cbn [Resolver].
  match goal with H : validateResolver _ = _ |- _ => unfold validateResolver in H; inv_ok H end.
  cbn [RMode Servers]. split; [by apply one_of_elem|].
  match goal with H : _ || negb _ = true |- _ => apply orb_true_iff in H as [H|H] end; boolify; [by left|by right].
Qed.

(** What the system strategy needs of the DNS settings. *)
Definition system_ready (c : DNSConfig) : Prop :=
  exists host, SplitHostPort (DNSListenAddr c) = Ok (host, "53"%go) ∧
    (EqualFold (TrimSpace host) "localhost" = true ∨
     ParseIP host <> [] ∧ IsLoopback (ParseIP host) = true ∧ To4 (ParseIP host) <> []) ∧
    Interfaces c <> [].

Lemma validateDNSSystemConfig_ready c : validateDNSSystemConfig c = Ok tt -> system_ready c.
Proof.
  unfold validateDNSSystemConfig. destruct (SplitHostPort (DNSListenAddr c)) as [[host port]|] eqn:Es; cbn [wrap_err rbind]; [|done].
  intros Hv. case_bool_decide as Hp; cbn [negb] in Hv; [|done]. subst port. exists host. split; [done|].
  destruct (EqualFold (TrimSpace host) "localhost") eqn:Ee.
  - split; [by left|]. destruct (bool_decide _ || _); [done|]. destruct (bool_decide _); [done|]. by case_bool_decide.
  - destruct (bool_decide _ || _) eqn:E1; [done|]. apply orb_false_iff in E1 as [E1 E2].
    destruct (bool_decide (To4 _ = [])) eqn:E3; [done|]. case_bool_decide; [done|]. split; [|done]. right. boolify. by split_and!.
Qed.

Lemma validateDNS_keywords c mode c' :
  validateDNSConfig (enableDNS c mode) mode = Ok c' ->
  Strategy c' ∈ [DNSInterceptManual; DNSInterceptSystem; DNSInterceptExternal] ∧
  (mode = ModeDNS -> (MapIPv4 c' <> [] -> To4 (ParseIP (MapIPv4 c')) <> []) ∧
     (MapIPv6 c' <> [] -> ParseIP (MapIPv6 c') <> [] ∧ To4 (ParseIP (MapIPv6 c')) = [])).
Proof.
  intros Hv. assert (Hen : mode = ModeDNS -> DNSEnabled (enableDNS c mode) = true) by (intros ->; done).
  set (c0 := enableDNS c mode) in *. clearbody c0. unfold validateDNSConfig in Hv.
  set (st := normalizeDNSInterceptStrategy (Strategy c0)) in *. clearbody st.
  destruct (checkStrategy st mode _) as [u|] eqn:Ec; cbn [rbind] in Hv; [|done].
  assert (Hst : st ∈ [DNSInterceptManual; DNSInterceptSystem; DNSInterceptExternal]).
  { unfold checkStrategy in Ec. rewrite !elem_of_cons. destruct (decide (st = DNSInterceptManual)); [by left|].
    destruct (decide (st = DNSInterceptSystem)); [by right; left|]. destruct (decide (st = DNSInterceptExternal)); [by right; right; left|].
    by rewrite !bool_decide_eq_false_2 in Ec. }
  destruct (DNSEnabled c0 && _) eqn:Ea; [done|]. destruct (negb (DNSEnabled c0 || _)) eqn:Eact.
  - injection Hv as <-. split; [done|]. intros Hm. rewrite Hen in Eact by done. done.
  - inv_ok Hv. cbn [Strategy MapIPv4 MapIPv6 withDNS]. split; [done|]. intros _. split; intros Hne.
    + match goal with H : negb (bool_decide (TrimSpace (MapIPv4 c0) = [])) && _ = false |- _ =>
        rewrite bool_decide_eq_false_2 in H by done; cbn [negb andb] in H; apply orb_false_iff in H as [_ H] end. by boolify.
    + match goal with H : negb (bool_decide (TrimSpace (MapIPv6 c0) = [])) && _ = false |- _ =>
        rewrite bool_decide_eq_false_2 in H by done; cbn [negb andb] in H; apply orb_false_iff in H as [H1 H2] end. by boolify.
Qed.

Lemma validateUpstream_ok c u :
  validateUpstream c = Ok u ->
  UType u ∈ [UpstreamDirect; UpstreamHTTP; UpstreamSOCKS5] ∧ (UType u = UpstreamDirect ∨ UAddress u <> []).
Proof.
  unfold validateUpstream. intros Hu. inv_ok Hu. cbn [UType UAddress]. split; [by apply one_of_elem|].
  match goal with H : _ || negb _ = true |- _ => apply orb_true_iff in H as [H|H] end;
    boolify; [by left|right]. unfold is_blank in *. by boolify.
Qed.

Lemma validateResolver_ok c r :
  validateResolver c = Ok r ->
  RMode r ∈ [ResolverSystem; ResolverUDP; ResolverTCP; ResolverDoH] ∧ (RMode r = ResolverSystem ∨ Servers r <> []) ∧
  (PreferIPv4 r = false ∨ PreferIPv6 r = false).
Proof.
  unfold validateResolver. intros Hr. inv_ok Hr. cbn [RMode Servers PreferIPv4 PreferIPv6]. split; [by apply one_of_elem|].
  split; [|by apply andb_false_iff, negb_true_iff].
  match goal with H : _ || negb _ = true |- _ => apply orb_true_iff in H as [H|H] end; boolify; [by left|by right].
Qed.

Lemma validatePageEnhance_ok c p :
  validatePageEnhanceConfig c = Ok p ->
  OnError p ∈ [PageEnhancePassThrough; PageEnhanceFailClosed] ∧ (0 < MaxBodySize p)%Z.
Proof.
  unfold validatePageEnhanceConfig. intros Hp. destruct (negb (one_of _ _)) eqn:Eo; [done|].
  apply negb_false_iff, one_of_elem in Eo. destruct (Z.ltb_spec (MaxBodySize c) 0); [done|].
  assert (0 < if (MaxBodySize c =? 0)%Z then 1024 * 1024 else MaxBodySize c)%Z by (destruct (Z.eqb_spec (MaxBodySize c) 0); lia).
  inv_ok Hp; done.
Qed.

Lemma validateHosts_mapped c h :
  validateHosts c = Ok h -> ParseIP (HMapIP h) <> [] ∧ is_blank (HPath h) = false ∧ Forall (fun d => Contains d "*" = false) (ExtraDomains h).
Proof.
  unfold validateHosts. intros Hh. inv_ok Hh. cbn [HMapIP HPath ExtraDomains]. split_and!; [by boolify|by apply negb_true_iff|].
  match goal with H : List.find _ _ = None |- _ => pose proof (List.find_none _ _ H) as Hn end.
  apply Forall_forall. intros d Hd%list_elem_of_In. by apply Hn.
Qed.

Lemma validatePaths_ok c r d c' :
  validateRuntime c = Ok r -> validateCert d = Ok c' ->
  is_blank (StatePath r) = false ∧ is_blank (RtRollbackPath r) = false ∧ is_blank (CertDir c') = false ∧
  StoreScope c' ∈ [CertStoreMachine; CertStoreUser].
Proof.
  unfold validateRuntime, validateCert. intros Hr Hc. inv_ok Hr. inv_ok Hc. cbn [StatePath RtRollbackPath CertDir StoreScope].
  split_and!; [by apply negb_true_iff..|by apply one_of_elem].
Qed.

(** C35: an accepted configuration is consistent.  Every keyword is a supported one: the
    mode, the DNS strategy, the behaviour for other hosts, the resolver's mode, the
    upstream's type, the scope of the certificate store and the error policy of page
    enhancement.  DNS interception is enabled exactly in DNS mode and then has an
    implemented strategy, addresses of the right families to answer with and a positive
    lifetime, and for the system strategy port 53 of an IPv4 loopback address and named
    interfaces.  The resolver and the upstream have the servers they need, the paths are
    given, hosts can be mapped, and every timeout is positive. *)
Theorem Validate_consistent c c' :
  Validate c = Ok c' ->
  (Mode c' ∈ [ModeProxyOnly; ModePAC; ModeSystem; ModeHosts; ModeDNS] ∧
   Strategy (DNS c') ∈ [DNSInterceptManual; DNSInterceptSystem; DNSInterceptExternal] ∧
   NonTargetBehavior (Proxy c') ∈ [NonTargetReject; NonTargetDirect] ∧
   RMode (Resolver c') ∈ [ResolverSystem; ResolverUDP; ResolverTCP; ResolverDoH] ∧
   UType (Upstream c') ∈ [UpstreamDirect; UpstreamHTTP; UpstreamSOCKS5] ∧
   StoreScope (Cert c') ∈ [CertStoreMachine; CertStoreUser] ∧
   OnError (PageEnhance c') ∈ [PageEnhancePassThrough; PageEnhanceFailClosed]) ∧
  (DNSEnabled (DNS c') = true <-> Mode c' = ModeDNS) ∧
  (Mode c' = ModeDNS -> (Strategy (DNS c') = DNSInterceptManual ∨ Strategy (DNS c') = DNSInterceptSystem ∧ system_ready (DNS c')) ∧
    (0 < TTL (DNS c'))%Z ∧ (MapIPv4 (DNS c') <> [] ∨ MapIPv6 (DNS c') <> []) ∧
    (MapIPv4 (DNS c') <> [] -> To4 (ParseIP (MapIPv4 (DNS c'))) <> []) ∧
    (MapIPv6 (DNS c') <> [] -> ParseIP (MapIPv6 (DNS c')) <> [] ∧ To4 (ParseIP (MapIPv6 (DNS c'))) = [])) ∧
  ((RMode (Resolver c') = ResolverSystem ∨ Servers (Resolver c') <> []) ∧
   (PreferIPv4 (Resolver c') = false ∨ PreferIPv6 (Resolver c') = false)) ∧
  (UType (Upstream c') = UpstreamDirect ∨ UAddress (Upstream c') <> []) ∧
  (ParseIP (HMapIP (Hosts c')) <> [] ∧ Forall (fun d => Contains d "*" = false) (ExtraDomains (Hosts c'))) ∧
  (is_blank (HPath (Hosts c')) = false ∧ is_blank (CertDir (Cert c')) = false ∧ is_blank (StatePath (Runtime c')) = false ∧
   is_blank (RtRollbackPath (Runtime c')) = false) ∧
  (0 < MaxBodySize (PageEnhance c') ∧
   0 < ReadHeaderTimeout (Proxy c') ∧ 0 < IdleTimeout (Proxy c') ∧ 0 < DialTimeout (Proxy c') ∧
   0 < ShutdownTimeout (Proxy c') ∧ 0 < CacheTTL (Resolver c') ∧ 0 < RTimeout (Resolver c') ∧
   0 < StopTimeout (Runtime c'))%Z.
Proof.
  unfold Validate. intros Hv. inv_ok Hv. cbn [Mode DNS Proxy Hosts Cert Resolver Upstream PageEnhance Runtime] in *.
  match goal with H : validateMode _ = _ |- _ => unfold validateMode in H; inv_ok H end.
  match goal with H : validateProxy _ = _ |- _ => unfold validateProxy in H; inv_ok H end.
  match goal with H : validateDNSConfig _ _ = _ |- _ =>
    destruct (validateDNS_shape _ _ _ H) as (D1 & D2 & D3), (validateDNS_keywords _ _ _ H) as (D4 & D5) end.
  match goal with H : validateTimeouts _ = _ |- _ => destruct (validateTimeouts_positive _ _ H) as (T1 & T2 & T3 & T4 & T5 & T6 & T7) end.
  match goal with H : validateResolver _ = _ |- _ => destruct (validateResolver_ok _ _ H) as (R1 & R2 & R3) end.
  match goal with H : validateUpstream _ = _ |- _ => destruct (validateUpstream_ok _ _ H) as (U1 & U2) end.
  match goal with H : validateHosts _ = _ |- _ => destruct (validateHosts_mapped _ _ H) as (H1 & H2 & H3) end.
  match goal with H : validatePageEnhanceConfig _ = _ |- _ => destruct (validatePageEnhance_ok _ _ H) as (P1 & P2) end.
  match goal with H : validateRuntime _ = _, H' : validateCert _ = _ |- _ => destruct (validatePaths_ok _ _ _ _ H H') as (Q1 & Q2 & Q3 & Q4) end.
  split_and!; try assumption; try (by apply one_of_elem). intros Hm.
  destruct (D3 Hm) as [D6 D7], (D5 Hm) as [D8 D9]. split_and!; [|assumption..].
  destruct (D2 Hm) as [|[Hs Hok]]; [by left|right]. split; [done|]. by apply validateDNSSystemConfig_ready.
Qed.

(** ** No header injection *)

Lemma case_byte_crlf c : (upper_byte c ∈ crlf <-> c ∈ crlf) ∧ (lower_byte c ∈ crlf <-> c ∈ crlf).
Proof.
  unfold crlf. rewrite !elem_of_cons, !elem_of_nil.
  destruct c as [[] [] [] [] [] [] [] []]; split; split; intros [|[|]]; try done; tauto.
Qed.

Lemma containsHeaderControl_false s : containsHeaderControl s = false <-> forall c, c ∈ s -> c ∉ crlf.
Proof. apply ContainsAny_false. Qed.

Lemma canonicalBytes_control u s : containsHeaderControl s = false -> containsHeaderControl (canonicalBytes u s) = false.
Proof.
  rewrite !containsHeaderControl_false. revert u; induction s as [|d s IH]; intros u Hs c; cbn; [by intros ?%elem_of_nil|].
  intros [->|Hc]%elem_of_cons.
  - destruct (case_byte_crlf d) as [Hu Hl]. pose proof (Hs d ltac:(left)).
    destruct u; [by rewrite Hu|by rewrite Hl].
  - eapply IH; [|exact Hc]. intros; apply Hs. by right.
Qed.

Lemma normalizeHeaderKey_clean k k' : normalizeHeaderKey k = Ok k' -> containsHeaderControl k' = false ∧ k' <> [].
Proof.
  unfold normalizeHeaderKey. intros Hk. inv_ok Hk. boolify. split; [|done].
  unfold CanonicalMIMEHeaderKey. destruct (forallb _ _); [|done]. by apply canonicalBytes_control.
Qed.

Lemma validateTransform_clean x t :
  validateTransform x = Ok t ->
  (forall k v, HSet (THeaders t) !! k = Some v -> containsHeaderControl k = false ∧ containsHeaderControl v = false) ∧
  (forall k, k ∈ HRemove (THeaders t) -> containsHeaderControl k = false).
Proof.
  destruct x as [i u]. unfold validateTransform. intros Hv. inv_ok Hv. cbn [THeaders HSet HRemove]. split.
  - match goal with H : rfold (validateSetHeader _) _ _ = Ok ?m |- _ => revert H; rename m into hs end.
    apply (rfold_ind (fun m => forall k v, m !! k = Some v ->
      containsHeaderControl k = false ∧ containsHeaderControl v = false)).
    + intros k v. by rewrite lookup_empty.
    + intros m [k v] m' _ Hm Hs k' v' Hl. unfold validateSetHeader in Hs. inv_ok Hs.
      match goal with H : wrap_err _ _ (normalizeHeaderKey _) = Ok ?c |- _ =>
        apply wrap_err_ok, normalizeHeaderKey_clean in H as [Hc _]; destruct (decide (c = k')) as [->|Hne] end.
      * rewrite lookup_insert_eq in Hl. by injection Hl as <-.
      * rewrite lookup_insert_ne in Hl by done. by apply Hm.
  - intros k Hk. match goal with H : rmapM (validateRemoveKey _) _ = _ |- _ =>
      destruct (rmapM_enum_out _ _ _ _ H Hk) as (j & y & _ & Hy) end.
    unfold validateRemoveKey in Hy. by apply wrap_err_ok, normalizeHeaderKey_clean in Hy as [? _].
Qed.

(** With page enhancement enabled, no header name or value that a transform
    sets, no header name it removes and no content type of an asset contains a
    carriage return or a line feed, so a transform cannot split a response. *)
Theorem Validate_no_header_injection c c' :
  Validate c = Ok c' -> PEEnabled (PageEnhance c') = true ->
  (forall t k v, t ∈ Transforms (PageEnhance c') -> HSet (THeaders t) !! k = Some v ->
     containsHeaderControl k = false ∧ containsHeaderControl v = false) ∧
  (forall t k, t ∈ Transforms (PageEnhance c') -> k ∈ HRemove (THeaders t) -> containsHeaderControl k = false) ∧
  (forall a, a ∈ Assets (PageEnhance c') -> containsHeaderControl (AContentType a) = false).
Proof.
  unfold Validate. intros Hv He. inv_ok Hv. cbn [PageEnhance] in *.
  match goal with H : validatePageEnhanceConfig _ = _ |- _ => unfold validatePageEnhanceConfig in H; inv_ok H; [done|] end.
  cbn [Transforms Assets]. split_and!.
  - intros t k v Ht. match goal with H : rmapM validateTransform _ = _ |- _ =>
      destruct (rmapM_enum_out _ _ _ _ H Ht) as (j & y & _ & Hy) end.
    by apply (validateTransform_clean _ _ Hy).
  - intros t k Ht. match goal with H : rmapM validateTransform _ = _ |- _ =>
      destruct (rmapM_enum_out _ _ _ _ H Ht) as (j & y & _ & Hy) end.
    by apply (validateTransform_clean _ _ Hy).
  - intros a' Ha. match goal with H : rmapM validateAsset _ = _ |- _ =>
      destruct (rmapM_enum_out _ _ _ _ H Ha) as (j & y & _ & Hy) end.
    unfold validateAsset in Hy. inv_ok Hy. done.
Qed.

(** The built-in configuration is accepted and is its own normal form,
    whatever directories the host system gives. *)
Theorem Validate_Default hostsPath certDir statePath rollbackPath :
  is_blank hostsPath = false -> is_blank certDir = false -> is_blank statePath = false ->
  is_blank rollbackPath = false ->
  Validate (Default hostsPath certDir statePath rollbackPath) =
    Ok (Default hostsPath certDir statePath rollbackPath).
Proof.
  intros H1 H2 H3 H4. set (d := Default hostsPath certDir statePath rollbackPath).
  assert (Hh : validateHosts (Hosts d) = Ok (Hosts d)).
  { unfold validateHosts, d, Default. cbn [Hosts HPath]. rewrite H1. vm_compute. reflexivity. }
  assert (Hc : validateCert (Cert d) = Ok (Cert d)).
  { unfold validateCert, d, Default. cbn [Cert CertDir]. rewrite H2. vm_compute. reflexivity. }
  assert (Hr : validateRuntime (Runtime d) = Ok (Runtime d)).
  { unfold validateRuntime, d, Default. cbn [Runtime StatePath RtRollbackPath]. rewrite H3, H4.
    vm_compute. reflexivity. }
  unfold Validate. rewrite Hh, Hc, Hr. vm_compute. reflexivity.
Qed.
End guarantees.

(** ** Removed keys are found wherever they are *)

Fixpoint pairs_of (content : list Node) : list (Node * Node) :=
  match content with
  | k :: v :: rest => (k, v) :: pairs_of rest
  | _ => []
  end.

(** A removed key below [node], which itself is reached by [path]. *)
Inductive legacy_in : Node -> list gostring -> Prop :=
| legacy_here v content path k val :
    (k, val) ∈ pairs_of content ->
    is_Some (legacyMessage (Join (path ++ [TrimSpace (node_Value k)]) ".")) ->
    legacy_in (YNode MappingNode v content) path
| legacy_below v content path k val :
    (k, val) ∈ pairs_of content ->
    legacy_in val (path ++ [TrimSpace (node_Value k)]) ->
    legacy_in (YNode MappingNode v content) path.

Lemma legacyMessage_nonempty key msg : legacyMessage key = Some msg -> msg <> [].
Proof.
  unfold legacyMessage. rewrite fmap_Some. intros (kv & Hf%find_some & ->).
  destruct Hf as [Hin _]. cbn in Hin.
  by repeat match goal with H : _ ∨ _ |- _ => destruct H as [<-|H] end.
Qed.

Lemma legacy_inv_nil kind v path : ~ legacy_in (YNode kind v []) path.
Proof. by inversion 1; subst; match goal with H : _ ∈ pairs_of [] |- _ => apply elem_of_nil in H end. Qed.

Lemma legacy_inv_cons v k val rest path :
  legacy_in (YNode MappingNode v (k :: val :: rest)) path <->
  is_Some (legacyMessage (Join (path ++ [TrimSpace (node_Value k)]) ".")) ∨
  legacy_in val (path ++ [TrimSpace (node_Value k)]) ∨
  legacy_in (YNode MappingNode v rest) path.
Proof.
  split.
  - inversion 1; subst; match goal with H : _ ∈ pairs_of _ |- _ => cbn in H; apply elem_of_cons in H as [[= -> ->]|?] end;
      eauto using legacy_here, legacy_below.
  - intros [?|[?|Hr]].
    + eapply legacy_here; [left|done].
    + eapply legacy_below; [left|done].
    + inversion Hr; subst; [eapply legacy_here|eapply legacy_below]; try done; by right.
Qed.

Lemma findLegacyConfigKey_spec node path :
  findLegacyConfigKey node path <> [] <-> legacy_in node path.
Proof.
  revert node path. fix IH 1. intros [kind v content] path.
  destruct kind; try (cbn; split; [done|by inversion 1]). cbn [findLegacyConfigKey].
  revert content. fix IHc 1. intros [|k [|val rest]].
  - split; [done|]. by intros ?%legacy_inv_nil.
  - split; [done|]. by inversion 1; subst; match goal with H : _ ∈ pairs_of [_] |- _ => apply elem_of_nil in H end.
  - rewrite legacy_inv_cons. specialize (IHc rest). specialize (IH val (path ++ [TrimSpace (node_Value k)])).
    destruct (legacyMessage _) as [msg|] eqn:El.
    + split; [intros _; left; eauto|]. intros _. by eapply legacyMessage_nonempty.
    + rewrite <-IH, <-IHc. case_bool_decide as Hm.
      * rewrite Hm. split; [tauto|]. intros [[? ?]|[?|?]]; done.
      * split; [tauto|done].
Qed.

(** A configuration file that uses a removed key anywhere, at whatever depth
    its path spells that key, is refused, and only such files are. *)
Theorem rejectLegacyConfigKeys_spec v content :
  is_ok (rejectLegacyConfigKeys (Some (YNode MappingNode v content))) = false <->
  legacy_in (YNode MappingNode v content) [].
Proof.
  rewrite <-findLegacyConfigKey_spec. unfold rejectLegacyConfigKeys. cbn zeta.
  by case_bool_decide.
Qed.

(** ** Witnesses *)

Section config_witnesses.
#[local] Existing Instance simple_externals.

Definition sample_default : Config := Default "/etc/hosts" "/certs" "/run/state" "/run/rollback".

(** A configuration in DNS mode with untidy spellings. *)
Definition untidy : Config :=
  let d := sample_default in
  {| Mode := " DNS-Intercept "; ProvidersEnabled := None;
     DNS := withDNS (DNS d) "System" [" Ethernet "; "ethernet"; []] " 127.0.0.1" [];
     Proxy := Proxy d; PAC := PAC d; Hosts := Hosts d; Cert := Cert d; Resolver := Resolver d;
     Upstream := Upstream d; PageEnhance := PageEnhance d; SystemServices := []; CustomDomains := [];
     Runtime := Runtime d |}.

Definition tidy : Config :=
  let d := sample_default in
  {| Mode := "dns"; ProvidersEnabled := Some ["steam"];
     DNS := {| DNSEnabled := true; Strategy := "system"; DNSListenAddr := "127.0.0.1:53";
               DNSAllowLAN := false; Interfaces := ["Ethernet"]; MapIPv4 := "127.0.0.1"; MapIPv6 := [];
               TTL := (30 * Second)%Z; BlockHTTPSRecords := true |};
     Proxy := Proxy d; PAC := PAC d; Hosts := Hosts d; Cert := Cert d; Resolver := Resolver d;
     Upstream := Upstream d; PageEnhance := PageEnhance d; SystemServices := []; CustomDomains := [];
     Runtime := Runtime d |}.

Lemma untidy_valid : Validate untidy = Ok tidy.
Proof. vm_compute. reflexivity. Qed.

Lemma Validate_idempotent_witness : Validate tidy = Ok tidy.
Proof. apply (Validate_idempotent untidy tidy); [exact untidy_valid|reflexivity..]. Defined.

Lemma Validate_loopback_witness : listens_locally (DNSListenAddr (DNS tidy)).
Proof.
  apply (Validate_loopback untidy tidy); [exact untidy_valid|reflexivity..].
Defined.

Lemma Validate_consistent_witness :
  (Strategy (DNS tidy) = DNSInterceptManual ∨ Strategy (DNS tidy) = DNSInterceptSystem ∧ system_ready (DNS tidy)) ∧
  RMode (Resolver tidy) ∈ [ResolverSystem; ResolverUDP; ResolverTCP; ResolverDoH].
Proof.
  destruct (Validate_consistent untidy tidy untidy_valid) as ((_ & _ & _ & Hr & _) & _ & Hd & _).
  split; [|exact Hr]. by apply Hd.
Defined.

(** Page enhancement that sets one header. *)
Definition enhanced (key value : gostring) : Config :=
  let d := sample_default in
  {| Mode := Mode d; ProvidersEnabled := ProvidersEnabled d; DNS := DNS d;
     Proxy := Proxy d; PAC := PAC d; Hosts := Hosts d; Cert := Cert d; Resolver := Resolver d;
     Upstream := Upstream d;
     PageEnhance :=
       {| PEEnabled := true; OnError := "pass_through"; MaxBodySize := 1; Assets := [];
          Transforms := [{| TName := "t";
            TMatch := {| MProviders := []; MHosts := []; MPathPrefixes := []; MContentTypes := []; MStatusCodes := [] |};
            THeaders := {| HSet := {[key := value]}; HRemove := [] |};
            TInjectHead := []; TInjectBody := []; TReplace := [] |}] |};
     SystemServices := []; CustomDomains := []; Runtime := Runtime d |}.

Lemma Validate_no_header_injection_witness :
  containsHeaderControl "X-Frame-Options" = false ∧ containsHeaderControl "DENY" = false.
Proof.
  refine (proj1 (Validate_no_header_injection (enhanced "x-frame-options" "DENY")
    (enhanced "X-Frame-Options" "DENY") _ _) _ "X-Frame-Options" "DENY" _ _);
    [vm_compute; reflexivity|reflexivity|left|reflexivity].
Defined.

Lemma Validate_Default_witness : Validate sample_default = Ok sample_default.
Proof. apply (Validate_Default "/etc/hosts" "/certs" "/run/state" "/run/rollback"); reflexivity. Defined.
End config_witnesses.
