(* ===== verification/Hosts.v ===== *)
(** The hosts-file takeover (src/internal/hosts/hosts.go and its platforms).

    The file models the managed block of the hosts file, the rollback state, and
    the effectful operations Preflight, Apply and Restore over a [World].  It
    proves that the block is removed exactly as it was added, that user lines are
    never reordered or invented, and that whenever the hosts file was rewritten a
    rollback state is on disk. *)
From stdpp Require Import strings.
From Stdlib Require Import Ascii Permutation.
From S2P Require Import Prelude GoStrings GoNet External World Rules.

Definition stateVersion : Z := 1.
Definition stateKind : gostring := "hosts".
Definition markerStart : gostring := "# BEGIN steam-accelerator-core".
Definition markerEnd : gostring := "# END steam-accelerator-core".

Definition ErrNoState : error := ErrorVar "hosts.ErrNoState".
Definition ErrUnsupported : error := ErrorVar "hosts.ErrUnsupported".

(** config.ModeHosts *)
Definition ModeHosts : gostring := "hosts".

Record Entry := { EntryIP : gostring; EntryHost : gostring }.

Record Config := {
  Path : gostring;
  RollbackPath : gostring;
  MapIP : gostring;
  Entries : list Entry;
}.

Record State := {
  StKind : gostring;
  StVersion : Z;
  StOS : gostring;
  StMode : gostring;
  StPath : gostring;
  StMapIP : gostring;
  StEntries : list Entry;
  StCreatedAt : Time;
}.

#[export] Instance Entry_eq_dec : EqDecision Entry.
Proof. solve_decision. Defined.

(** The interface the operations are written against. *)
Record Platform (X : Type) := {
  PName : gostring;
  PReadFile : gostring -> IO X gostring;
  PWriteFile : gostring -> gostring -> Z -> IO X unit;
  PFileMode : gostring -> IO X Z;
  PCheckWritable : gostring -> IO X unit;
}.
Arguments PName {X} p.
Arguments PReadFile {X} p.
Arguments PWriteFile {X} p.
Arguments PFileMode {X} p.
Arguments PCheckWritable {X} p.

(** * The managed block *)

Definition line_of (e : Entry) : gostring := EntryIP e ++ " " ++ EntryHost e ++ nl.

Definition managedNote : gostring :=
  "# Managed by steam-accelerator-core. Do not edit this block manually.".

Definition renderBlock (entries : list Entry) : gostring :=
  markerStart ++ nl ++ managedNote ++ nl ++ mjoin (line_of <$> entries) ++ markerEnd ++ nl.

(** The loop of removeManagedBlock over the lines of the file. *)
Fixpoint scanLines (inBlock : bool) (lines : list gostring) : list gostring :=
  match lines with
  | [] => []
  | line :: rest =>
      let trimmed := TrimSpace line in
      if bool_decide (trimmed = markerStart) then scanLines true rest
      else if inBlock
      then scanLines (negb (bool_decide (trimmed = markerEnd))) rest
      else line :: scanLines false rest
  end.

Definition removeManagedBlock (body : gostring) : gostring :=
  let text := ReplaceAll body crlf nl in
  let out := scanLines false (Split text (chr 10)) in
  let joined := TrimRight (Join out nl) nl in
  if bool_decide (joined = []) then [] else joined ++ nl.

Definition appendManagedBlock (original : gostring) (entries : list Entry) : gostring :=
  let base := TrimRight (removeManagedBlock original) crlf in
  let block := renderBlock entries in
  if bool_decide (base = []) then block else base ++ nl ++ nl ++ block.

(** * Entries *)

Section entries.
Context `{Externals}.

(** One iteration of EntriesFromDomains: the hosts seen and the entries. *)
Definition addEntry (mapIP : gostring) (s : gset gostring * list Entry) (raw : gostring)
  : result (gset gostring * list Entry) :=
  let '(seen, entries) := s in
  let domain := TrimSpace raw in
  if bool_decide (domain = []) then Ok (seen, entries)
  else if Contains domain "*"
  then Err (Errorf "hosts cannot map wildcard domain %q" [domain])
  else
    do h <- wrap_err "normalize hosts domain %q: %w" [domain] (NormalizeHost domain);
    if bool_decide (h ∈ seen) then Ok (seen, entries)
    else Ok ({[h]} ∪ seen, entries ++ [{| EntryIP := mapIP; EntryHost := h |}]).

(** The order of the sort: host, then address. *)
Definition entry_le (a b : Entry) : Prop :=
  if decide (EntryHost a = EntryHost b) then str_le (EntryIP a) (EntryIP b)
  else str_le (EntryHost a) (EntryHost b).

#[export] Instance entry_le_dec a b : Decision (entry_le a b).
Proof. unfold entry_le. case_decide; apply _. Defined.

Definition EntriesFromDomains (domains : list gostring) (mapIP : gostring) : result (list Entry) :=
  if is_blank mapIP then Err (Errorf "hosts map IP is required" [])
  else
    do s <- rfold (addEntry mapIP) (∅, []) domains;
    Ok (merge_sort entry_le s.2).

(** The entries and the wildcard rules that were skipped. *)
Definition EntriesFromRules (compiled : CompiledRules) (mapIP : gostring)
  : result (list Entry) * list gostring :=
  let domains := CHost <$> Exact compiled in
  let skipped := CRule <$> Wildcard compiled in
  (EntriesFromDomains domains mapIP, skipped).
End entries.

(** * The rollback state *)

Section state.
Context {X : Type} `{Encoding}.

Definition entry_json (e : Entry) : json :=
  JObj [("ip", JStr (EntryIP e)); ("host", JStr (EntryHost e))].

Definition json_entry (j : json) : result Entry :=
  do fs <- as_object j;
  do ip <- get_string fs "ip";
  do h <- get_string fs "host";
  Ok {| EntryIP := ip; EntryHost := h |}.

(** A nil slice is encoded as null. *)
Definition entries_json (es : list Entry) : json :=
  match es with [] => JNull | _ => JArr (entry_json <$> es) end.

Definition state_json (s : State) : json :=
  JObj [("kind", JStr (StKind s)); ("version", JNum (StVersion s)); ("os", JStr (StOS s));
        ("mode", JStr (StMode s)); ("path", JStr (StPath s)); ("map_ip", JStr (StMapIP s));
        ("entries", entries_json (StEntries s)); ("created_at", JStr (time_Format (StCreatedAt s)))].

Definition json_state (j : json) : result State :=
  do fs <- as_object j;
  do kind <- get_string fs "kind";
  do version <- get_int fs "version";
  do os <- get_string fs "os";
  do mode <- get_string fs "mode";
  do path <- get_string fs "path";
  do mapIP <- get_string fs "map_ip";
  do entries <- get_list json_entry fs "entries";
  do created <- get_time fs "created_at";
  Ok {| StKind := kind; StVersion := version; StOS := os; StMode := mode; StPath := path;
        StMapIP := mapIP; StEntries := entries; StCreatedAt := created |}.

Definition encode_state (s : State) : result gostring :=
  if time_encodable (StCreatedAt s) then Ok (json_Marshal (state_json s))
  else Err (Errorf "json: error calling MarshalJSON for type time.Time" []).

Definition WriteState (path : gostring) (state : State) : IO X unit :=
  if is_blank path then io_err (Errorf "hosts rollback path is required" [])
  else
    io _ <- io_wrap "create hosts rollback directory: %w" [] (os_MkdirAll (filepath_Dir path));
    io data <- io_wrap "encode hosts rollback state: %w" [] (io_of (encode_state state));
    io_wrap "write hosts rollback state: %w" [] (os_WriteFile path data).

Definition ReadState (path : gostring) : IO X State :=
  io data <- os_ReadFile path;
  io_wrap "parse hosts rollback state: %w" [] (io_of (json_decode json_state data)).

Definition RemoveState (path : gostring) : IO X unit :=
  try r <- os_Remove path;
  match r with
  | Ok _ => io_ret tt
  | Err e => if os_IsNotExist e then io_ret tt else io_err e
  end.

Definition ours (s : State) : bool :=
  bool_decide (StKind s = stateKind) || bool_decide (StMode s = ModeHosts).

Definition HasState (path : gostring) (w : World X) : bool :=
  if is_blank path then false
  else match (ReadState path w).1 with
       | Err _ => false
       | Ok state => ours state
       end.

Definition checkRollbackWritable (path : gostring) : IO X unit :=
  let dir := filepath_Dir path in
  io _ <- io_wrap "create hosts rollback directory: %w" [] (os_MkdirAll dir);
  io name <- io_wrap "check hosts rollback directory writable: %w" []
               (os_CreateTemp dir ".steam-accelerator-preflight-");
  try closeErr <- os_Close name;
  try removeErr <- os_Remove name;
  match closeErr, removeErr with
  | Err e, _ => io_err (Wrapf "check hosts rollback directory writable: %w" [] e)
  | _, Err e =>
      if os_IsNotExist e then io_ret tt
      else io_err (Wrapf "check hosts rollback directory cleanup: %w" [] e)
  | _, _ => io_ret tt
  end.
End state.

Definition formatWriteError (e : error) : error :=
  if os_IsPermission e
  then Errorf "write hosts file: permission denied; run from an Administrator terminal" []
  else Wrapf "write hosts file: %w" [] e.

Definition validateConfig (cfg : Config) : result unit :=
  if is_blank (Path cfg) then Err (Errorf "hosts path is required" [])
  else if is_blank (RollbackPath cfg) then Err (Errorf "hosts rollback path is required" [])
  else if is_blank (MapIP cfg) then Err (Errorf "hosts map IP is required" [])
  else match Entries cfg with
       | [] => Err (Errorf "hosts entries are required" [])
       | _ => Ok tt
       end.

(** * The operations *)

Section operations.
Context {X : Type} `{Encoding}.

(** The guards shared by Preflight and Apply: the platform, the configuration
    and the context, in that order. *)
Definition guarded (ctxErr : option error) (cfg : Config) (platform : option (Platform X))
    (k : Platform X -> IO X unit) : IO X unit :=
  match platform with
  | None => io_err (Errorf "hosts platform is required" [])
  | Some p =>
      if negb (bool_decide (PName p = "windows"))
      then io_err (Wrapf "%w: %s" [PName p] ErrUnsupported)
      else
        io _ <- io_of (validateConfig cfg);
        io _ <- ctx_Err ctxErr;
        k p
  end.

Definition PreflightWithPlatform (ctxErr : option error) (cfg : Config)
    (platform : option (Platform X)) : IO X unit :=
  guarded ctxErr cfg platform (fun p =>
    io _ <- io_wrap "read hosts file: %w" [] (PReadFile p (Path cfg));
    try r <- PCheckWritable p (Path cfg);
    match r with
    | Err e => io_err (formatWriteError e)
    | Ok _ => checkRollbackWritable (RollbackPath cfg)
    end).

Definition stateOf (cfg : Config) (os : gostring) (now : Time) : State :=
  {| StKind := stateKind; StVersion := stateVersion; StOS := os; StMode := ModeHosts;
     StPath := Path cfg; StMapIP := MapIP cfg; StEntries := Entries cfg; StCreatedAt := now |}.

Definition ApplyWithPlatform (ctxErr : option error) (cfg : Config)
    (platform : option (Platform X)) (now : Time) : IO X unit :=
  guarded ctxErr cfg platform (fun p =>
    io original <- io_wrap "read hosts file: %w" [] (PReadFile p (Path cfg));
    try m <- PFileMode p (Path cfg);
    let mode := match m with Ok mode => mode | Err _ => 420%Z end in
    let next := appendManagedBlock original (Entries cfg) in
    io _ <- WriteState (RollbackPath cfg) (stateOf cfg (PName p) now);
    try r <- PWriteFile p (Path cfg) next mode;
    match r with
    | Ok _ => io_ret tt
    | Err e =>
        try _ <- RemoveState (RollbackPath cfg);
        io_err (formatWriteError e)
    end).

Definition RestoreWithPlatform (ctxErr : option error) (rollbackPath : gostring)
    (platform : option (Platform X)) : IO X unit :=
  match platform with
  | None => io_err (Errorf "hosts platform is required" [])
  | Some p =>
      try st <- ReadState rollbackPath;
      match st with
      | Err e => if errors_Is e os_ErrNotExist then io_err ErrNoState else io_err e
      | Ok state =>
          if negb (ours state) then io_err ErrNoState
          else if negb (bool_decide (PName p = "windows"))
          then io_err (Wrapf "%w: %s" [PName p] ErrUnsupported)
          else if negb (bool_decide (StOS state = [])) && negb (bool_decide (StOS state = PName p))
          then io_err (Errorf
            "hosts rollback state was created for %s, current platform is %s" [StOS state; PName p])
          else
            io _ <- ctx_Err ctxErr;
            io body <- io_wrap "read hosts file: %w" [] (PReadFile p (StPath state));
            try m <- PFileMode p (StPath state);
            let mode := match m with Ok mode => mode | Err _ => 420%Z end in
            let next := removeManagedBlock body in
            try r <- PWriteFile p (StPath state) next mode;
            match r with
            | Err e => io_err (formatWriteError e)
            | Ok _ => RemoveState rollbackPath
            end
      end
  end.
End operations.

(** * The platforms *)

Section platforms.
Context {X : Type} `{Encoding}.

(** os.Stat(path).Mode().Perm(): the world does not track permissions, a file
    that can be written has mode 0666 on Windows. *)
Definition osFileMode (path : gostring) : IO X Z :=
  os_call (PathError "stat" path) (fun w =>
    match files w !! path with
    | Some _ => (Ok 438%Z, w)
    | None => (Err (PathError "stat" path os_ErrNotExist), w)
    end).

(** os.OpenFile for appending, then Close. *)
Definition osOpenAppend (path : gostring) : IO X unit :=
  os_call (PathError "open" path) (fun w =>
    match files w !! path with
    | Some _ => (Ok tt, w)
    | None => (Err (PathError "open" path os_ErrNotExist), w)
    end).

(** The PowerShell process: the script and the extra environment, giving its
    combined output and the error of running it. *)
Variable powershell : gostring -> list gostring -> IO X (gostring * option error).

Definition runHostsPowerShell (script : gostring) (extraEnv : list gostring) : IO X unit :=
  io x <- powershell script extraEnv;
  let '(out, err) := x in
  match err with
  | None => io_ret tt
  | Some e =>
      let text := TrimSpace out in
      if negb (bool_decide (text = [])) then io_err (Wrapf "%w: %s" [text] e) else io_err e
  end.

(** The two scripts, by what they do. *)
Variables checkScript copyScript : gostring.

Definition checkHostsWritableWithPowerShell (path : gostring) : IO X unit :=
  runHostsPowerShell checkScript ["SITEBOOST_HOSTS_PATH=" ++ path].

(** [defer os.Remove(tmpPath)] runs on every return after the file exists. *)
Definition deferRemove (tmpPath : gostring) (m : IO X unit) : IO X unit :=
  try r <- m;
  try _ <- os_Remove tmpPath;
  io_of r.

Definition writeHostsWithPowerShell (path data : gostring) : IO X unit :=
  io tmpPath <- io_wrap "create hosts temp file: %w" [] (os_CreateTemp os_TempDir "siteboost-hosts-");
  deferRemove tmpPath (
    try wr <- os_Write tmpPath data;
    match wr with
    | Err e => try _ <- os_Close tmpPath; io_err (Wrapf "write hosts temp file: %w" [] e)
    | Ok _ =>
        io _ <- io_wrap "close hosts temp file: %w" [] (os_Close tmpPath);
        io absSource <- io_wrap "resolve hosts temp file: %w" [] (io_of (filepath_Abs tmpPath));
        io absDest <- io_wrap "resolve hosts path: %w" [] (io_of (filepath_Abs path));
        runHostsPowerShell copyScript
          ["SITEBOOST_HOSTS_SOURCE=" ++ absSource; "SITEBOOST_HOSTS_DEST=" ++ absDest]
    end).

(** platform_windows.go: a write refused for lack of permission is tried again
    through PowerShell.  The fallback's own error is only printed, not wrapped. *)
Definition windowsWriteFile (path data : gostring) (mode : Z) : IO X unit :=
  try r <- os_WriteFile path data;
  match r with
  | Ok _ => io_ret tt
  | Err e =>
      if os_IsPermission e then
        try fallback <- writeHostsWithPowerShell path data;
        match fallback with
        | Ok _ => io_ret tt
        | Err _ => io_err (Wrapf "%w; PowerShell hosts write fallback failed: %v" [] e)
        end
      else io_err e
  end.

Definition windowsCheckWritable (path : gostring) : IO X unit :=
  try r <- osOpenAppend path;
  match r with
  | Ok _ => os_Close path
  | Err e =>
      if os_IsPermission e then
        try fallback <- checkHostsWritableWithPowerShell path;
        match fallback with
        | Ok _ => io_ret tt
        | Err _ => io_err (Wrapf "%w; PowerShell hosts writable fallback failed: %v" [] e)
        end
      else io_err e
  end.

Definition windowsPlatform : Platform X := {|
  PName := "windows";
  PReadFile := os_ReadFile;
  PWriteFile := windowsWriteFile;
  PFileMode := osFileMode;
  PCheckWritable := windowsCheckWritable;
|}.

(** platform_other.go *)
Definition otherPlatform (goos : gostring) : Platform X := {|
  PName := goos;
  PReadFile := os_ReadFile;
  PWriteFile path data _ := os_WriteFile path data;
  PFileMode := osFileMode;
  PCheckWritable path := io _ <- osOpenAppend path; os_Close path;
|}.
End platforms.

(** * The managed block round-trips *)

(** A line that the scan keeps: it is not the start marker. *)
Definition kept_line (line : gostring) : Prop := TrimSpace line ≠ markerStart.

Lemma scanLines_kept ls rest :
  Forall kept_line ls -> scanLines false (ls ++ rest) = ls ++ scanLines false rest.
Proof.
  induction 1 as [|l ls Hl _ IH]; cbn [app scanLines]; [done|].
  rewrite bool_decide_eq_false_2 by exact Hl. by rewrite IH.
Qed.

Lemma scanLines_out b ls : Forall kept_line (scanLines b ls).
Proof.
  revert b; induction ls as [|l ls IH]; intros b; cbn [scanLines]; [constructor|].
  case_bool_decide; [apply IH|]. destruct b; [apply IH|]. by constructor.
Qed.

Lemma scanLines_sublist b ls : sublist (scanLines b ls) ls.
Proof.
  revert b; induction ls as [|l ls IH]; intros b; cbn [scanLines]; [constructor|].
  case_bool_decide; [by apply sublist_cons|]. destruct b; [by apply sublist_cons|].
  by apply sublist_skip.
Qed.

(** Inside a block, lines that are no end marker are dropped up to the end marker. *)
Lemma scanLines_block body rest :
  Forall (fun l => TrimSpace l ≠ markerEnd) body ->
  scanLines true (body ++ markerEnd :: rest) = scanLines false rest.
Proof.
  induction 1 as [|l body Hl _ IH]; cbn [app scanLines].
  - rewrite !bool_decide_eq_false_2 by (vm_compute; discriminate).
    by rewrite bool_decide_eq_true_2 by reflexivity.
  - rewrite (bool_decide_eq_false_2 (TrimSpace l = markerEnd)) by done.
    by case_bool_decide.
Qed.

(** An entry whose line is one line of text that cannot be read as a marker. *)
Definition entry_ok (e : Entry) : bool :=
  forallb graphic (EntryIP e) && forallb graphic (EntryHost e) &&
  negb (bool_decide (EntryHost e = [])) &&
  match EntryIP e with [] => false | c :: _ => negb (bool_decide (c = chr 35)) end.

Definition entry_text (e : Entry) : gostring := EntryIP e ++ " " ++ EntryHost e.

Lemma line_of_text e : line_of e = entry_text e ++ nl.
Proof. unfold line_of, entry_text. by rewrite <-!app_assoc. Qed.

Lemma graphic_elem s c : forallb graphic s = true -> graphic c = false -> c ∉ s.
Proof.
  rewrite forallb_forall. intros Hs Hc Hin. apply list_elem_of_In, Hs in Hin. congruence.
Qed.

Lemma entry_text_bytes e c :
  entry_ok e = true -> graphic c = false -> c <> chr 32 -> c ∉ entry_text e.
Proof.
  unfold entry_ok, entry_text. intros He Hg Hc. boolify.
  rewrite !not_elem_of_app. split_and!; [by apply graphic_elem| |by apply graphic_elem].
  by intros ?%list_elem_of_singleton.
Qed.

(** Trimming keeps a string whose first and last bytes are graphic. *)
Lemma TrimSpace_graphic_ends a b m :
  graphic a = true -> graphic b = true -> TrimSpace (a :: m ++ [b]) = a :: m ++ [b].
Proof.
  intros Ha Hb. destruct (graphic_not_space a Ha) as (A1 & A2 & A3).
  destruct (graphic_not_space b Hb) as (B1 & B2 & B3).
  apply TrimSpace_id; unfold chop_rune.
  - rewrite A1. destruct (m ++ [b]) as [|x [|y l]]; [done|by rewrite (proj1 (A2 _))|].
    by rewrite (proj1 (A2 _)), (proj1 (A3 _ _)).
  - rewrite app_comm_cons, reverse_app. change (reverse [b]) with [b]. cbn [app]. rewrite B1.
    destruct (reverse (a :: m)) as [|x [|y l]]; [done|by rewrite (proj2 (B2 _))|].
    by rewrite (proj2 (B2 _)), (proj2 (B3 _ _)).
Qed.

Lemma entry_text_not_marker e : entry_ok e = true -> TrimSpace (entry_text e) ≠ markerEnd.
Proof.
  unfold entry_ok, entry_text. intros He. boolify.
  destruct (EntryIP e) as [|a ip]; [done|]. boolify.
  destruct (EntryHost e) as [|h hs _] using rev_ind; [done|].
  assert (Ha : graphic a = true) by (cbn in *; by boolify).
  assert (Hh : graphic h = true).
  { rewrite forallb_app in *. boolify. cbn in *. by boolify. }
  rewrite !app_assoc, <-!app_comm_cons, TrimSpace_graphic_ends by done.
  intros E. by injection E.
Qed.

Lemma Split_block es :
  Forall (fun e => entry_ok e = true) es ->
  Split (renderBlock es) (chr 10) =
  markerStart :: managedNote :: (entry_text <$> es) ++ [markerEnd; []].
Proof.
  intros Hes. unfold renderBlock, nl.
  assert (Hb : forall t, Split (mjoin (line_of <$> es) ++ t) (chr 10) =
    (entry_text <$> es) ++ Split t (chr 10)).
  { intros t. induction Hes as [|e es He _ IH]; [done|]. cbn [fmap list_fmap mjoin list_join].
    rewrite line_of_text. unfold nl. rewrite <-!app_assoc. cbn [app].
    rewrite Split_app_sep, Split_no_sep by by apply entry_text_bytes.
    cbn [app]. f_equal. exact IH. }
  cbn [app].
  rewrite (Split_app_sep markerStart), (Split_no_sep markerStart)
    by by_decide.
  rewrite (Split_app_sep managedNote), (Split_no_sep managedNote)
    by by_decide.
  rewrite Hb, (Split_app_sep markerEnd), (Split_no_sep markerEnd)
    by by_decide.
  reflexivity.
Qed.

Lemma scan_block es :
  Forall (fun e => entry_ok e = true) es ->
  scanLines false (Split (renderBlock es) (chr 10)) = [[]].
Proof.
  intros Hes. rewrite Split_block by done. cbn [scanLines].
  rewrite bool_decide_eq_true_2 by reflexivity.
  rewrite bool_decide_eq_false_2 by (vm_compute; discriminate).
  rewrite bool_decide_eq_false_2 by (vm_compute; discriminate). cbn [negb].
  rewrite scanLines_block; [reflexivity|].
  apply Forall_fmap. eapply Forall_impl; [exact Hes|]. intros e. apply entry_text_not_marker.
Qed.

(** ** Line endings *)

Lemma Replace_fuel_id fuel s p old new n :
  (p :: old) = crlf -> p ∉ s -> Replace_fuel fuel s crlf new n = s.
Proof.
  intros [= -> _]. revert s n; induction fuel as [|fuel IH]; intros s n Hs; [by destruct n|].
  destruct s as [|c s]; [by destruct n as [[]|]|]. rewrite not_elem_of_cons in Hs. destruct Hs as [Hc Hs].
  cbn [Replace_fuel CutPrefix crlf]. rewrite bool_decide_eq_false_2 by done.
  rewrite IH by done. by destruct n as [[]|].
Qed.

Lemma ReplaceAll_no_cr s : chr 13 ∉ s -> ReplaceAll s crlf nl = s.
Proof. intros. by apply (Replace_fuel_id _ _ (chr 13) [chr 10]). Qed.

Lemma Join_elem ws sep (c : byte) : c ∈ Join ws sep -> c ∈ sep ∨ exists w, w ∈ ws ∧ c ∈ w.
Proof.
  induction ws as [|w ws IH]; [by intros ?%elem_of_nil|]. destruct (decide (ws = [])) as [->|Hne].
  { intros ?. right. exists w. split; [left|done]. }
  rewrite Join_cons by done. intros [Hc|[Hc|Hc]%elem_of_app]%elem_of_app.
  - right. exists w. split; [left|done].
  - by left.
  - destruct (IH Hc) as [|(v & ? & ?)]; [by left|]. right. exists v. split; [by right|done].
Qed.

Lemma Split_elem s (sep c : byte) w : w ∈ Split s sep -> c ∈ w -> c ∈ s.
Proof.
  revert w; induction s as [|d s IH]; intros w; cbn.
  { intros ->%list_elem_of_singleton ?%elem_of_nil. done. }
  case_bool_decide.
  { intros [->|Hw]%elem_of_cons Hc; [by apply elem_of_nil in Hc|]. right. by eapply IH. }
  destruct (Split s sep) as [|v vs] eqn:E; [by apply Split_nonempty in E|].
  intros [->|Hw]%elem_of_cons Hc.
  - apply elem_of_cons in Hc as [->|Hc]; [left|right]. eapply IH; [left|done].
  - right. eapply IH; [by right|done].
Qed.

Lemma TrimRight_prefix s cutset : exists t, s = TrimRight s cutset ++ t ∧ forallb (in_cutset cutset) t = true.
Proof.
  unfold TrimRight. destruct (drop_while_split (in_cutset cutset) (reverse s)) as (a & Ha & Hf).
  exists (reverse a). split.
  - by rewrite <-reverse_app, <-Ha, reverse_involutive.
  - rewrite forallb_forall in *. intros x Hx. apply Hf.
    apply list_elem_of_In. apply list_elem_of_In in Hx. by rewrite <-(reverse_involutive a); apply elem_of_reverse.
Qed.

Lemma TrimRight_elem s cutset c : c ∈ TrimRight s cutset -> c ∈ s.
Proof. destruct (TrimRight_prefix s cutset) as (t & Hs & _). rewrite Hs at 2. set_solver. Qed.

(** The text between the blocks, without its trailing newlines. *)
Definition userText (body : gostring) : gostring :=
  TrimRight (Join (scanLines false (Split (ReplaceAll body crlf nl) (chr 10))) nl) nl.

Lemma removeManagedBlock_text body :
  removeManagedBlock body = if bool_decide (userText body = []) then [] else userText body ++ nl.
Proof. reflexivity. Qed.

(** Every carriage return of the file belongs to a CR LF pair. *)
Definition no_stray_cr (body : gostring) : Prop := chr 13 ∉ ReplaceAll body crlf nl.

Lemma userText_no_cr body : no_stray_cr body -> chr 13 ∉ userText body.
Proof.
  intros Hb Hc%TrimRight_elem. apply Join_elem in Hc as [Hc%list_elem_of_singleton|(w & Hw & Hc)]; [done|].
  apply Hb. eapply Split_elem; [|exact Hc].
  by eapply sublist_subseteq; [apply scanLines_sublist|].
Qed.

Lemma nl_only t : forallb (in_cutset nl) t = true -> exists k, t = replicate k (chr 10).
Proof.
  induction t as [|c t IH]; cbn; [by exists 0|]. intros [Hc Ht]%andb_true_iff.
  apply bool_decide_eq_true_1 in Hc. apply list_elem_of_singleton in Hc as ->.
  destruct (IH Ht) as [k ->]. by exists (S k).
Qed.

(** The lines of the user text are lines the scan kept. *)
Lemma userText_lines body : Forall kept_line (Split (userText body) (chr 10)).
Proof.
  unfold userText. set (L := scanLines _ _).
  assert (HL : Forall kept_line L) by apply scanLines_out.
  assert (Hnl : Forall (fun w => chr 10 ∉ w) L).
  { apply Forall_forall. intros w Hw.
    refine (proj1 (Forall_forall _ _) (Split_Forall_no_sep _ (chr 10)) w _).
    by eapply sublist_subseteq; [apply scanLines_sublist|]. }
  destruct (TrimRight_prefix (Join L nl) nl) as (t & Ht & Hc).
  destruct (decide (L = [])) as [->|Hne].
  { cbn. repeat constructor. by vm_compute. }
  destruct (nl_only t Hc) as [[|k] ->].
  - rewrite app_nil_r in Ht. rewrite <-Ht. unfold nl. by rewrite Split_Join.
  - cbn [replicate] in Ht. pose proof (Split_Join L (chr 10) Hne Hnl) as Hs.
    fold nl in Hs. rewrite Ht in Hs at 1. rewrite Split_app_sep in Hs.
    rewrite <-Hs in HL. by apply Forall_app in HL as [? _].
Qed.

Lemma userText_last body c : last (userText body) = Some c -> c <> chr 10.
Proof.
  unfold userText. intros Hl%TrimRight_last_out. intros ->. by vm_compute in Hl.
Qed.

Lemma userText_trim body : no_stray_cr body ->
  TrimRight (removeManagedBlock body) crlf = userText body.
Proof.
  intros Hb. rewrite removeManagedBlock_text. case_bool_decide as Ht; [by rewrite Ht|].
  rewrite TrimRight_all by reflexivity. apply TrimRight_last.
  destruct (last (userText body)) as [c|] eqn:El; [|done].
  apply bool_decide_eq_false_2. unfold crlf. rewrite !not_elem_of_cons.
  split_and!; [|by eapply userText_last|by apply not_elem_of_nil].
  intros ->. apply (userText_no_cr body Hb). by apply last_Some_elem_of.
Qed.

Lemma block_no_cr es : Forall (fun e => entry_ok e = true) es -> chr 13 ∉ renderBlock es.
Proof.
  intros Hes Hc. rewrite <-(Join_Split _ (chr 10)), Split_block in Hc by done.
  apply Join_elem in Hc as [Hc%list_elem_of_singleton|(w & Hw & Hc)]; [done|].
  revert Hc. apply elem_of_cons in Hw as [->|Hw].
  { by_decide. }
  apply elem_of_cons in Hw as [->|Hw].
  { by_decide. }
  apply elem_of_app in Hw as [Hw|Hw].
  - apply list_elem_of_fmap in Hw as (e & -> & He). rewrite Forall_forall in Hes.
    by apply entry_text_bytes; [apply Hes|..].
  - apply elem_of_cons in Hw as [->|Hw].
    { by_decide. }
    apply list_elem_of_singleton in Hw as ->. apply not_elem_of_nil.
Qed.

Lemma append_no_cr body es :
  no_stray_cr body -> Forall (fun e => entry_ok e = true) es ->
  chr 13 ∉ appendManagedBlock body es.
Proof.
  intros Hb Hes. unfold appendManagedBlock. rewrite userText_trim by done.
  pose proof (block_no_cr es Hes). pose proof (userText_no_cr body Hb).
  case_bool_decide; [done|]. unfold nl. rewrite !not_elem_of_app.
  split_and!; try done; by intros ?%list_elem_of_singleton.
Qed.

Lemma userText_append body es :
  no_stray_cr body -> Forall (fun e => entry_ok e = true) es ->
  userText (appendManagedBlock body es) = userText body.
Proof.
  intros Hb Hes. unfold userText at 1. rewrite ReplaceAll_no_cr by by apply append_no_cr.
  unfold appendManagedBlock. rewrite userText_trim by done.
  case_bool_decide as Hu.
  { rewrite scan_block by done. rewrite Hu. reflexivity. }
  unfold nl at 1 2. cbn [app].
  rewrite (Split_app_sep (userText body)).
  change (chr 10 :: renderBlock es) with ([] ++ chr 10 :: renderBlock es).
  rewrite Split_app_sep, scanLines_kept by apply userText_lines.
  change (Split [] (chr 10)) with [@nil byte]. cbn [app scanLines].
  rewrite bool_decide_eq_false_2 by (vm_compute; discriminate). rewrite scan_block by done.
  rewrite Join_app by (done || apply Split_nonempty).
  unfold nl at 3. rewrite Join_Split. rewrite TrimRight_all by reflexivity. apply TrimRight_last.
  destruct (last (userText body)) as [c|] eqn:El; [|done].
  apply bool_decide_eq_false_2. intros ->%list_elem_of_singleton. by eapply userText_last.
Qed.

Lemma remove_append body es :
  no_stray_cr body -> Forall (fun e => entry_ok e = true) es ->
  removeManagedBlock (appendManagedBlock body es) = removeManagedBlock body.
Proof. intros. by rewrite !removeManagedBlock_text, userText_append. Qed.

Lemma userText_nl_text t :
  chr 13 ∉ t -> Forall kept_line (Split t (chr 10)) -> userText (t ++ nl) = TrimRight t nl.
Proof.
  intros Hc Hk. unfold userText. rewrite ReplaceAll_no_cr by (unfold nl; set_solver).
  unfold nl at 1. rewrite Split_app_sep, scanLines_kept by done.
  change (scanLines false (Split [] (chr 10))) with [@nil byte].
  rewrite Join_app by (done || apply Split_nonempty). unfold nl at 1. rewrite Join_Split.
  by apply TrimRight_all.
Qed.

Lemma userText_fixed body :
  TrimRight (userText body) nl = userText body.
Proof.
  apply TrimRight_last. destruct (last (userText body)) as [c|] eqn:El; [|done].
  apply bool_decide_eq_false_2. intros ->%list_elem_of_singleton. by eapply userText_last.
Qed.

Lemma remove_remove body : no_stray_cr body ->
  removeManagedBlock (removeManagedBlock body) = removeManagedBlock body.
Proof.
  intros Hb. rewrite (removeManagedBlock_text body). case_bool_decide as Hu; [reflexivity|].
  rewrite removeManagedBlock_text, userText_nl_text, userText_fixed
    by (by apply userText_no_cr || apply userText_lines).
  by rewrite bool_decide_eq_false_2.
Qed.

Lemma remove_no_cr body : no_stray_cr body -> chr 13 ∉ removeManagedBlock body.
Proof.
  intros Hb. rewrite removeManagedBlock_text. pose proof (userText_no_cr body Hb).
  case_bool_decide; [apply not_elem_of_nil|]. unfold nl. rewrite not_elem_of_app.
  split; [done|]. by intros ?%list_elem_of_singleton.
Qed.

(** Adding and removing the managed block are inverse up to the normal form
    of the file: removal after addition gives what removal alone gives, a second
    addition replaces the first, and removal is idempotent. *)
Theorem managed_block_roundtrip body es es' :
  no_stray_cr body -> Forall (fun e => entry_ok e = true) es ->
  removeManagedBlock (appendManagedBlock body es) = removeManagedBlock body ∧
  appendManagedBlock (appendManagedBlock body es) es' = appendManagedBlock body es' ∧
  removeManagedBlock (removeManagedBlock body) = removeManagedBlock body.
Proof.
  intros Hb Hes. split_and!; [by apply remove_append| |by apply remove_remove].
  unfold appendManagedBlock at 1 3. by rewrite remove_append.
Qed.

(** A file of LF-terminated lines without a managed block and without blank
    lines at its end is restored byte for byte. *)
Theorem restore_exact t es :
  chr 13 ∉ t -> Forall kept_line (Split t (chr 10)) -> TrimRight t nl = t -> t <> [] ->
  Forall (fun e => entry_ok e = true) es ->
  removeManagedBlock (appendManagedBlock (t ++ nl) es) = t ++ nl.
Proof.
  intros Hc Hk Ht Hne Hes.
  assert (no_stray_cr (t ++ nl)) by
    (unfold no_stray_cr; rewrite ReplaceAll_no_cr by (unfold nl; set_solver); unfold nl; set_solver).
  rewrite remove_append, removeManagedBlock_text, userText_nl_text, Ht by done.
  by rewrite bool_decide_eq_false_2.
Qed.

(** The file that Apply writes consists of the user's lines, all kept in
    their order and none of them a start marker, followed by a blank line when
    there are any, and then the one managed block with a line per entry. *)
Theorem append_shape body es :
  no_stray_cr body -> Forall (fun e => entry_ok e = true) es ->
  exists user, Split (appendManagedBlock body es) (chr 10) =
    user ++ markerStart :: managedNote :: (entry_text <$> es) ++ [markerEnd; []] ∧
  Forall kept_line user ∧
  (user = [] ∨ user = Split (userText body) (chr 10) ++ [[]]).
Proof.
  intros Hb Hes. unfold appendManagedBlock. rewrite userText_trim by done.
  case_bool_decide as Hu.
  - exists []. rewrite Split_block by done. split_and!; [done|constructor|by left].
  - exists (Split (userText body) (chr 10) ++ [[]]). unfold nl at 1 2. cbn [app].
    rewrite Split_app_sep. change (chr 10 :: renderBlock es) with ([] ++ chr 10 :: renderBlock es).
    rewrite Split_app_sep, Split_block by done. split_and!; [|  |by right].
    + change (Split [] (chr 10)) with [@nil byte]. by rewrite <-app_assoc.
    + apply Forall_app. split; [apply userText_lines|]. repeat constructor. by vm_compute.
Qed.

(** ** The user's lines

    A reading of a hosts file that does not follow the code: line by line, a managed block
    reaches from a start marker to the first end marker after it, or to the end of the
    file; every other line is the user's. *)
Inductive user_lines : list gostring -> list gostring -> Prop :=
| user_nil : user_lines [] []
| user_line l ls us : TrimSpace l <> markerStart -> user_lines ls us -> user_lines (l :: ls) (l :: us)
| user_block first inner end_ ls us :
    TrimSpace first = markerStart -> Forall (fun l => TrimSpace l <> markerEnd) inner -> TrimSpace end_ = markerEnd ->
    user_lines ls us -> user_lines (first :: inner ++ end_ :: ls) us
| user_open first inner :
    TrimSpace first = markerStart -> Forall (fun l => TrimSpace l <> markerEnd) inner -> user_lines (first :: inner) [].

(** The lines of a file, whether they end in LF or in CR LF. *)
Definition lines_of (body : gostring) : list gostring := Split (ReplaceAll body crlf nl) (chr 10).

(** A text of LF-terminated lines. *)
Definition unlines (ls : list gostring) : gostring := mjoin ((fun l => l ++ nl) <$> ls).

(** The lines of the managed block. *)
Definition block_lines (es : list Entry) : list gostring :=
  markerStart :: managedNote :: ((fun e => EntryIP e ++ " " ++ EntryHost e) <$> es) ++ [markerEnd].

Lemma scan_in_block ls :
  (Forall (fun l => TrimSpace l <> markerEnd) ls ∧ scanLines true ls = []) ∨
  exists inner end_ rest, ls = inner ++ end_ :: rest ∧ Forall (fun l => TrimSpace l <> markerEnd) inner ∧
    TrimSpace end_ = markerEnd ∧ scanLines true ls = scanLines false rest.
Proof.
  induction ls as [|l ls IH]; [by left|]. cbn [scanLines].
  assert (Hd : markerStart <> markerEnd) by (vm_compute; discriminate).
  destruct (decide (TrimSpace l = markerEnd)) as [He|He].
  - right. exists [], l, ls. rewrite bool_decide_eq_false_2 by congruence. rewrite bool_decide_eq_true_2 by done. by split_and!.
  - rewrite (bool_decide_eq_false_2 (TrimSpace l = markerEnd)) by done.
    assert ((if bool_decide (TrimSpace l = markerStart) then scanLines true ls else scanLines (negb false) ls) = scanLines true ls)
      as -> by (by case_bool_decide).
    destruct IH as [[Hf Hs]|(inner & e & rest & -> & Hf & He' & Hs)]; [left; by split; [constructor|]|].
    right. exists (l :: inner), e, rest. split_and!; [done|by constructor|done|done].
Qed.

Lemma scan_user_lines ls : user_lines ls (scanLines false ls).
Proof.
  induction ls as [ls IH] using (induction_ltof1 _ (@length gostring)). destruct ls as [|l ls]; [constructor|].
  cbn [scanLines]. case_bool_decide as Hl.
  - destruct (scan_in_block ls) as [[Hf ->]|(inner & e & rest & -> & Hf & He & ->)]; [by apply user_open|].
    apply user_block; [done..|]. apply IH. unfold ltof. cbn [length]. rewrite length_app. cbn. lia.
  - apply user_line; [done|]. apply IH. unfold ltof. cbn. lia.
Qed.

(** A file has only one reading. *)
Lemma user_lines_unique ls us : user_lines ls us -> us = scanLines false ls.
Proof.
  assert (Hd : markerStart <> markerEnd) by (vm_compute; discriminate).
  assert (Hin : forall inner rest, Forall (fun l => TrimSpace l <> markerEnd) inner ->
    scanLines true (inner ++ rest) = scanLines true rest).
  { induction 1 as [|l inner Hl _ IH]; [done|]. cbn [app scanLines]. rewrite (bool_decide_eq_false_2 (_ = markerEnd)) by done.
    by case_bool_decide. }
  induction 1 as [|l ls us Hl _ IH|first inner end_ ls us Hs Hf He _ IH|first inner Hs Hf]; cbn [scanLines]; [done|..].
  - by rewrite bool_decide_eq_false_2, IH.
  - rewrite bool_decide_eq_true_2, Hin by done. cbn [scanLines]. rewrite bool_decide_eq_false_2 by congruence.
    by rewrite bool_decide_eq_true_2.
  - rewrite bool_decide_eq_true_2 by done. rewrite <-(app_nil_r inner), Hin by done. done.
Qed.

Lemma without_blanks (us : list gostring) : exists visible k, us = visible ++ replicate k [] ∧ last visible <> Some [].
Proof.
  induction us as [|l us (visible & k & -> & Hl)] using rev_ind; [by exists [], 0|].
  destruct (decide (l = [])) as [->|Hne].
  - exists visible, (S k). by rewrite <-app_assoc, <-replicate_cons_app.
  - exists (visible ++ replicate k [] ++ [l]), 0. rewrite app_nil_r, app_assoc. split; [done|].
    rewrite last_snoc. congruence.
Qed.

Lemma newlines_cut j : forallb (in_cutset nl) (replicate j (chr 10)) = true.
Proof. induction j as [|j IH]; [done|]. cbn [replicate forallb]. rewrite IH. reflexivity. Qed.

Lemma Join_blank k : exists j, Join (replicate k ([] : gostring)) nl = replicate j (chr 10).
Proof.
  induction k as [|k [j IH]]; [by exists 0|]. cbn [replicate]. destruct k as [|k]; [by exists 0|].
  rewrite Join_cons by done. rewrite IH. by exists (S j).
Qed.

Lemma unlines_cons l ls : unlines (l :: ls) = l ++ nl ++ unlines ls.
Proof. unfold unlines. cbn [fmap list_fmap mjoin list_join]. by rewrite <-app_assoc. Qed.

Lemma unlines_app ls ls' : unlines (ls ++ ls') = unlines ls ++ unlines ls'.
Proof. induction ls as [|l ls IH]; [done|]. cbn [app]. rewrite !unlines_cons, IH. by rewrite !app_assoc. Qed.

Lemma Join_unlines ls : ls <> [] -> Join ls nl ++ nl = unlines ls.
Proof.
  induction ls as [|l ls IH]; [done|]. intros _. destruct ls as [|l' ls]; [cbn; by rewrite app_nil_r|].
  rewrite Join_cons, unlines_cons, <-IH by done. by rewrite <-!app_assoc.
Qed.

Lemma last_Join ls l : l <> [] -> last (Join (ls ++ [l]) nl) = last l.
Proof.
  intros Hl. destruct (decide (ls = [])) as [->|Hne]; [done|]. rewrite Join_app by done. cbn [Join].
  rewrite !last_app. destruct (last l) eqn:E; [done|]. by apply last_None in E.
Qed.

(** Trimming the trailing newlines drops the trailing blank lines. *)
Lemma trim_visible visible k :
  Forall (fun l => chr 10 ∉ l) visible -> last visible <> Some [] ->
  TrimRight (Join (visible ++ replicate k []) nl) nl = Join visible nl.
Proof.
  intros Hn Hl. assert (Ht : TrimRight (Join visible nl) nl = Join visible nl).
  { destruct visible as [|l ls _] using rev_ind; [done|]. rewrite last_snoc in Hl. apply TrimRight_last.
    rewrite last_Join by congruence. destruct (last l) as [c|] eqn:E; [|done]. apply bool_decide_eq_false_2.
    intros ->%list_elem_of_singleton. apply Forall_app in Hn as [_ [Hn _]%Forall_cons]. by apply Hn, last_Some_elem_of. }
  destruct k as [|k]; [by rewrite app_nil_r|]. destruct (Join_blank (S k)) as [j Hj].
  destruct (decide (visible = [])) as [->|Hne].
  { cbn [app]. rewrite Hj. change (Join [] nl) with ([] : gostring). rewrite <-(app_nil_l (replicate _ _)).
    rewrite TrimRight_all by apply newlines_cut. done. }
  rewrite Join_app by done. rewrite Hj, app_assoc, <-app_assoc. rewrite TrimRight_all; [done|]. apply (newlines_cut (S j)).
Qed.

(** What the two rewrites of the file make of its reading. *)
Lemma rewritten body visible k es :
  no_stray_cr body -> user_lines (lines_of body) (visible ++ replicate k []) -> last visible <> Some [] ->
  removeManagedBlock body = unlines visible ∧
  appendManagedBlock body es = unlines (match visible with [] => [] | _ => visible ++ [[]] end ++ block_lines es).
Proof.
  intros Hcr Hu Hl. apply user_lines_unique in Hu.
  assert (Hn : Forall (fun l => chr 10 ∉ l) visible).
  { assert (Hs : visible ⊆ lines_of body).
    { intros l Hin. eapply sublist_subseteq; [apply scanLines_sublist|]. rewrite <-Hu. apply elem_of_app. by left. }
    apply Forall_forall. intros l Hin. exact (proj1 (Forall_forall _ _) (Split_Forall_no_sep _ (chr 10)) l (Hs _ Hin)). }
  assert (Ht : userText body = Join visible nl).
  { unfold userText. fold (lines_of body). rewrite <-Hu. by apply trim_visible. }
  assert (Hb : renderBlock es = unlines (block_lines es)).
  { unfold renderBlock, block_lines. rewrite !unlines_cons, unlines_app, unlines_cons. do 4 f_equal.
    unfold unlines at 1. f_equal. f_equal. rewrite <-list_fmap_compose. apply list_fmap_ext. intros i e _. cbn [compose].
    unfold line_of. by rewrite <-!app_assoc. }
  unfold appendManagedBlock. rewrite userText_trim, removeManagedBlock_text, Ht, Hb by done.
  destruct visible as [|v vs]; [done|].
  assert (Hne : Join (v :: vs) nl <> []).
  { destruct (exists_last (l := v :: vs) ltac:(done)) as (ls & l & E). rewrite E in Hl |- *. rewrite last_snoc in Hl.
    intros E'. assert (Hlast : last (Join (ls ++ [l]) nl) = last l) by (apply last_Join; congruence).
    rewrite E' in Hlast. symmetry in Hlast. apply last_None in Hlast. congruence. }
  rewrite bool_decide_eq_false_2 by done. rewrite Join_unlines by done. split; [done|].
  rewrite unlines_app, unlines_app, <-(Join_unlines (v :: vs)) by done. by rewrite <-!app_assoc.
Qed.

(** * Entries *)

Section entries_properties.
Context `{Externals}.

Lemma entry_le_total_order_host mapIP es :
  Forall (fun e => EntryIP e = mapIP) es ->
  Sorted entry_le es -> Sorted str_le (EntryHost <$> es).
Proof.
  intros Hip Hs. induction Hs as [|e es Hs IH He]; [constructor|].
  inversion Hip; subst. cbn. constructor; [by apply IH|].
  destruct He as [|e' es' Hle]; cbn; constructor. unfold entry_le in Hle.
  destruct (decide (EntryHost e = EntryHost e')) as [->|]; [|done]. reflexivity.
Qed.

#[export] Instance entry_le_total : Total entry_le.
Proof.
  intros a b. unfold entry_le.
  destruct (decide (EntryHost a = EntryHost b)) as [E|E],
    (decide (EntryHost b = EntryHost a)) as [E'|E']; try congruence; apply (total str_le).
Qed.

(** What the loop of EntriesFromDomains has collected after the domains [ds]. *)
Definition collected (mapIP : gostring) (ds : list gostring) (s : gset gostring * list Entry) : Prop :=
  NoDup (EntryHost <$> s.2) ∧ Forall (fun e => EntryIP e = mapIP) s.2 ∧
  (forall h, h ∈ s.1 <-> h ∈ EntryHost <$> s.2) ∧
  (forall h, h ∈ s.1 <-> exists d, d ∈ ds ∧ is_blank d = false ∧ NormalizeHost (TrimSpace d) = Ok h).

Lemma addEntry_collected mapIP ds s d s' :
  collected mapIP ds s -> addEntry mapIP s d = Ok s' -> collected mapIP (ds ++ [d]) s'.
Proof.
  destruct s as [seen es]. intros (Hnd & Hip & Hs & Hd). cbn [fst snd] in *. unfold addEntry.
  assert (Hstep : forall h, (exists x, x ∈ ds ++ [d] ∧ is_blank x = false ∧ NormalizeHost (TrimSpace x) = Ok h) <->
    h ∈ seen ∨ (is_blank d = false ∧ NormalizeHost (TrimSpace d) = Ok h)).
  { intros h. rewrite Hd. setoid_rewrite elem_of_app. setoid_rewrite list_elem_of_singleton.
    naive_solver. }
  destruct (bool_decide_reflect (TrimSpace d = [])) as [Hb|Hb].
  { intros [= <-]. split_and!; [done..|]. intros h. cbn [fst]. rewrite Hstep. unfold is_blank.
    rewrite Hb, bool_decide_eq_true_2 by done. naive_solver. }
  destruct (Contains (TrimSpace d) "*"); [done|].
  destruct (NormalizeHost (TrimSpace d)) as [h|] eqn:En; cbn [wrap_err rbind]; [|done].
  assert (Hbl : is_blank d = false) by (unfold is_blank; by rewrite bool_decide_eq_false_2).
  case_bool_decide as Hin; intros [= <-].
  { split_and!; [done..|]. intros k. cbn [fst]. rewrite Hstep. naive_solver. }
  unfold collected; cbn [fst snd]. rewrite fmap_app. cbn [fmap list_fmap EntryHost]. split_and!.
  - apply NoDup_app. split_and!; [done| |by apply NoDup_singleton].
    intros x Hx ->%list_elem_of_singleton. by apply Hin, Hs.
  - apply Forall_app. split; [done|]. by repeat constructor.
  - intros k. rewrite elem_of_union, elem_of_singleton, elem_of_app, list_elem_of_singleton, Hs. tauto.
  - intros k. rewrite elem_of_union, elem_of_singleton, Hstep. naive_solver.
Qed.

Lemma rfold_collected mapIP ds pre s s' :
  collected mapIP pre s -> rfold (addEntry mapIP) s ds = Ok s' -> collected mapIP (pre ++ ds) s'.
Proof.
  revert pre s; induction ds as [|d ds IH]; intros pre s Hs; cbn [rfold].
  { intros [= <-]. by rewrite app_nil_r. }
  destruct (addEntry mapIP s d) as [s1|] eqn:E; cbn [rbind]; [|done]. intros Hf.
  rewrite cons_middle, app_assoc. eapply IH; [|done]. by eapply addEntry_collected.
Qed.

(** The hosts entries all carry the configured address, are sorted by host
    with no host twice, and cover exactly the normalized non-blank domains. *)
Theorem EntriesFromDomains_spec domains mapIP es :
  EntriesFromDomains domains mapIP = Ok es ->
  Forall (fun e => EntryIP e = mapIP) es ∧ NoDup (EntryHost <$> es) ∧
  Sorted str_le (EntryHost <$> es) ∧
  forall h, h ∈ EntryHost <$> es <->
    exists d, d ∈ domains ∧ is_blank d = false ∧ NormalizeHost (TrimSpace d) = Ok h.
Proof.
  unfold EntriesFromDomains. destruct (is_blank mapIP); [done|].
  destruct (rfold _ _ _) as [s|] eqn:E; cbn; [|done]. intros [= <-].
  assert (Hc0 : collected mapIP [] (∅, [])).
  { split_and!; cbn; [constructor..|set_solver|].
    intros h. split; [set_solver|]. by intros (d & ?%elem_of_nil & _). }
  destruct (rfold_collected _ _ _ _ _ Hc0 E) as (Hnd & Hip & Hs & Hd).
  pose proof (merge_sort_Permutation entry_le s.2) as Hp.
  assert (Hip' : Forall (fun e => EntryIP e = mapIP) (merge_sort entry_le s.2)) by by rewrite Hp.
  split_and!; [done| | |].
  - by rewrite Hp.
  - eapply entry_le_total_order_host; [done|]. apply (Sorted_merge_sort entry_le).
  - intros h. rewrite Hp, <-Hs. apply Hd.
Qed.
End entries_properties.

(** * Applying and restoring *)

(** What the operations rely on when no system call fails: reads see the file,
    writes replace it, and asking for a mode changes nothing. *)
Class HealthyPlatform {X} (p : Platform X) : Prop := {
  healthy_name : PName p = "windows";
  healthy_read path d w : faults w = [] -> files w !! path = Some d -> PReadFile p path w = (Ok d, w);
  healthy_mode path d w : faults w = [] -> files w !! path = Some d -> (PFileMode p path w).2 = w;
  healthy_write path d0 d m w : faults w = [] -> files w !! path = Some d0 ->
    PWriteFile p path d m w = (Ok tt, set_files (<[path := d]> (files w)) w);
}.

(** What they may rely on under any schedule of failures: a read changes no
    file and returns the contents, a write touches its own path only, and a
    write that reports success has replaced the contents. *)
Class FramedPlatform {X} (p : Platform X) : Prop := {
  framed_read path w : files (PReadFile p path w).2 = files w;
  framed_read_ok path w d : (PReadFile p path w).1 = Ok d -> files w !! path = Some d;
  framed_mode path w : files (PFileMode p path w).2 = files w;
  framed_write path d m w q : q <> path ->
    files (PWriteFile p path d m w).2 !! q = files w !! q;
  framed_write_ok path d m w : (PWriteFile p path d m w).1 = Ok tt ->
    files (PWriteFile p path d m w).2 !! path = Some d;
}.

Section platform_instances.
Context {X : Type} `{Encoding}.

#[export] Instance windows_healthy ps check copy : HealthyPlatform (windowsPlatform (X := X) ps check copy).
Proof.
  split; cbn; [done|..]; unfold os_ReadFile, osFileMode, windowsWriteFile, os_WriteFile, os_put, os_call, io_try.
  - intros path d w Hf Hd. rewrite next_fault_healthy by done. by rewrite Hd.
  - intros path d w Hf Hd. rewrite next_fault_healthy by done. by rewrite Hd.
  - intros path d0 d m w Hf Hd. by rewrite next_fault_healthy by done.
Qed.

#[export] Instance other_framed goos : FramedPlatform (otherPlatform (X := X) goos).
Proof.
  split; cbn; unfold os_ReadFile, osFileMode, os_WriteFile, os_put, os_call.
  - intros path w. pose proof (next_fault_files w) as Hn. destruct (next_fault w) as [[f|] w']; cbn in *; [done|].
    by destruct (files w' !! path).
  - intros path w d. pose proof (next_fault_files w) as Hn. destruct (next_fault w) as [[f|] w']; cbn in *; [done|].
    destruct (files w' !! path) eqn:E; cbn; [|done]. intros [= ->]. by rewrite <-Hn.
  - intros path w. pose proof (next_fault_files w) as Hn. destruct (next_fault w) as [[f|] w']; cbn in *; [done|].
    by destruct (files w' !! path).
  - intros path d m w q Hq. pose proof (next_fault_files w) as Hn.
    destruct (next_fault w) as [[f|] w']; cbn in *.
    + rewrite <-Hn. destruct (fault_partial f); cbn; [by rewrite lookup_insert_ne|done].
    + by rewrite <-Hn, lookup_insert_ne.
  - intros path d m w. pose proof (next_fault_files w) as Hn.
    destruct (next_fault w) as [[f|] w']; cbn in *; [done|]. intros _. by rewrite lookup_insert_eq.
Qed.
End platform_instances.

Section apply_properties.
Context {X : Type} `{EncodingLaws}.

(** The strings of a configuration are valid UTF-8. *)
Definition config_utf8 (cfg : Config) : bool :=
  utf8_ValidString (Path cfg) && utf8_ValidString (MapIP cfg) &&
  forallb (fun e => utf8_ValidString (EntryIP e) && utf8_ValidString (EntryHost e)) (Entries cfg).

Lemma json_entries_roundtrip es : rmapM json_entry (entry_json <$> es) = Ok es.
Proof. induction es as [|[] es IH]; cbn; [done|]. by rewrite IH. Qed.

Lemma hosts_state_roundtrip s :
  json_utf8 (state_json s) = true -> time_encodable (StCreatedAt s) = true ->
  json_decode json_state (json_Marshal (state_json s)) = Ok s.
Proof.
  intros Hu Ht. unfold json_decode. rewrite json_roundtrip by done. cbn [rbind].
  destruct s as [kind ver os mode path ip es created].
  assert (Hj : forall js, json_state (JObj
      [("kind", JStr kind); ("version", JNum ver); ("os", JStr os); ("mode", JStr mode);
       ("path", JStr path); ("map_ip", JStr ip); ("entries", js);
       ("created_at", JStr (time_Format created))]) =
    do entries <- get_list json_entry [("entries", js)] "entries";
    do t <- time_Parse (time_Format created);
    Ok {| StKind := kind; StVersion := ver; StOS := os; StMode := mode; StPath := path;
          StMapIP := ip; StEntries := entries; StCreatedAt := t |}) by reflexivity.
  unfold state_json. cbn [StKind StVersion StOS StMode StPath StMapIP StEntries StCreatedAt] in *.
  rewrite Hj, time_roundtrip by done. destruct es as [|e es]; [reflexivity|].
  change (get_list json_entry [("entries", entries_json (e :: es))] "entries")
    with (rmapM json_entry (entry_json <$> (e :: es))).
  by rewrite json_entries_roundtrip.
Qed.

Lemma stateOf_utf8 cfg os now :
  config_utf8 cfg = true -> utf8_ValidString os = true ->
  json_utf8 (state_json (stateOf cfg os now)) = true.
Proof.
  unfold config_utf8. intros Hc Hos. boolify. cbn -[utf8_ValidString time_Format].
  rewrite time_Format_utf8, Hos.
  repeat match goal with H : utf8_ValidString _ = true |- _ => rewrite H; clear H end. cbn.
  assert (He : json_utf8 (entries_json (Entries cfg)) = true); [|by rewrite He].
  destruct (Entries cfg) as [|e es]; [done|]. unfold entries_json. cbn [json_utf8].
  induction (e :: es) as [|x l IH]; cbn [forallb fmap list_fmap]; [done|].
  cbn [forallb] in *. boolify. cbn -[utf8_ValidString].
  repeat match goal with H : utf8_ValidString _ = true |- _ => rewrite H; clear H end.
  cbn. by apply IH.
Qed.

Lemma hosts_WriteState_healthy path s (w : World X) :
  is_blank path = false -> time_encodable (StCreatedAt s) = true -> faults w = [] ->
  WriteState path s w = (Ok tt, set_files (<[path := json_Marshal (state_json s)]> (files w)) w).
Proof.
  intros Hp Ht Hf. unfold WriteState, encode_state. rewrite Hp, Ht.
  unfold io_bind, io_wrap, io_of, os_MkdirAll, os_WriteFile, os_put, os_call.
  rewrite next_fault_healthy by done. cbn. by rewrite next_fault_healthy.
Qed.

Lemma Apply_healthy cfg (p : Platform X) now w original :
  HealthyPlatform p -> validateConfig cfg = Ok tt -> faults w = [] ->
  time_encodable now = true -> Path cfg <> RollbackPath cfg -> files w !! Path cfg = Some original ->
  ApplyWithPlatform None cfg (Some p) now w =
    (Ok tt, set_files (<[Path cfg := appendManagedBlock original (Entries cfg)]>
       (<[RollbackPath cfg := json_Marshal (state_json (stateOf cfg (PName p) now))]> (files w))) w).
Proof.
  intros Hp Hv Hf Ht Hne Ho. unfold ApplyWithPlatform, guarded.
  rewrite (healthy_name (p := p)), bool_decide_eq_true_2 by done. cbn [negb].
  unfold io_bind at 1 2, io_of. rewrite Hv. cbn [ctx_Err io_ret].
  unfold io_bind at 1, io_wrap. rewrite healthy_read with (d := original) by done. cbn [wrap_err].
  unfold io_try at 1. pose proof (healthy_mode (Path cfg) original w Hf Ho) as Hm.
  destruct (PFileMode p (Path cfg) w) as [mode w1]. cbn [snd] in Hm. subst w1.
  assert (Hb : is_blank (RollbackPath cfg) = false).
  { unfold validateConfig in Hv. by destruct (is_blank (Path cfg)), (is_blank (RollbackPath cfg)). }
  unfold io_bind at 1. rewrite hosts_WriteState_healthy by done. unfold io_try.
  rewrite healthy_write with (d0 := original); [done|done|]. cbn. by rewrite lookup_insert_ne.
Qed.

(** C15: on a system where no call fails, starting and stopping hosts mode succeeds and
    is exact on the user's lines.  Apply keeps every one of them, in order, up to the
    blank lines at the end of the file, and adds the one managed block with a line per
    entry and the rollback state; Restore leaves exactly the user's lines, ended by LF,
    removes the rollback state and touches no other file. *)
Theorem apply_restore cfg (p : Platform X) now w original :
  HealthyPlatform p -> validateConfig cfg = Ok tt -> config_utf8 cfg = true ->
  time_encodable now = true -> Path cfg <> RollbackPath cfg ->
  Forall (fun e => entry_ok e = true) (Entries cfg) -> no_stray_cr original ->
  faults w = [] -> files w !! Path cfg = Some original ->
  exists visible k w1,
    user_lines (lines_of original) (visible ++ replicate k []) ∧ last visible <> Some [] ∧
    ApplyWithPlatform None cfg (Some p) now w = (Ok tt, w1) ∧
    files w1 !! Path cfg =
      Some (unlines (match visible with [] => [] | _ => visible ++ [[]] end ++ block_lines (Entries cfg))) ∧
    HasState (RollbackPath cfg) w1 = true ∧
    RestoreWithPlatform None (RollbackPath cfg) (Some p) w1 =
      (Ok tt, set_files (<[Path cfg := unlines visible]> (delete (RollbackPath cfg) (files w))) w).
Proof.
  intros Hp Hv Hu Ht Hne Hes Hcr Hf Ho.
  destruct (without_blanks (scanLines false (lines_of original))) as (visible & k & Hus & Hl).
  pose proof (scan_user_lines (lines_of original)) as Hul. rewrite Hus in Hul.
  destruct (rewritten original visible k (Entries cfg) Hcr Hul Hl) as [Hrem Happ].
  exists visible, k. eexists. split; [done|]. split; [done|]. split; [by apply Apply_healthy|]. rewrite <-Happ, <-Hrem.
  set (w1 := set_files _ w). assert (Hf1 : faults w1 = []) by done.
  set (st := stateOf cfg (PName p) now).
  assert (Hfile : files w1 !! RollbackPath cfg = Some (json_Marshal (state_json st))).
  { cbn. by rewrite lookup_insert_ne, lookup_insert_eq by done. }
  assert (Hread : ReadState (RollbackPath cfg) w1 = (Ok st, w1)).
  { unfold ReadState, io_bind, os_ReadFile, os_call, io_wrap, io_of.
    rewrite next_fault_healthy, Hfile by done. rewrite hosts_state_roundtrip; [done| |done].
    apply stateOf_utf8; [done|]. by rewrite (healthy_name (p := p)). }
  assert (Hb : is_blank (RollbackPath cfg) = false).
  { unfold validateConfig in Hv. by destruct (is_blank (Path cfg)), (is_blank (RollbackPath cfg)). }
  split; [cbn; by rewrite lookup_insert_eq|]. split.
  { unfold HasState. by rewrite Hb, Hread. }
  unfold RestoreWithPlatform, io_try at 1. rewrite Hread.
  assert (ours st = true) as -> by reflexivity. cbn [st stateOf StOS StPath negb].
  rewrite (healthy_name (p := p)), !bool_decide_eq_true_2 by done. cbn [orb negb andb].
  rewrite ?andb_false_r. unfold io_bind at 1 2, io_wrap. cbn [ctx_Err io_ret].
  rewrite healthy_read with (d := appendManagedBlock original (Entries cfg))
    by (done || (cbn; by rewrite lookup_insert_eq)). cbn [wrap_err]. unfold io_try at 1.
  pose proof (healthy_mode (Path cfg) (appendManagedBlock original (Entries cfg)) w1 Hf1
    ltac:(cbn; by rewrite lookup_insert_eq)) as Hm.
  destruct (PFileMode p (Path cfg) w1) as [mode w2]. cbn [snd] in Hm. subst w2.
  unfold io_try. rewrite healthy_write with (d0 := appendManagedBlock original (Entries cfg))
    by (done || (cbn; by rewrite lookup_insert_eq)).
  rewrite remove_append by done. unfold RemoveState, io_try, os_Remove, os_call.
  rewrite next_fault_healthy by done. cbn.
  rewrite lookup_insert_ne, lookup_insert_ne, lookup_insert_eq by done. cbn.
  unfold set_files, io_ret; cbn. f_equal. f_equal.
  rewrite insert_insert_eq, delete_insert_ne, delete_insert_eq by done. done.
Qed.
End apply_properties.

Section any_schedule.
Context {X : Type} `{Encoding}.

Lemma WriteState_frame path s (w : World X) q :
  q <> path -> files (WriteState path s w).2 !! q = files w !! q.
Proof.
  intros Hq. unfold WriteState. destruct (is_blank path); [done|].
  unfold io_bind, io_wrap, io_of, os_MkdirAll.
  pose proof (os_call_frame (PathError "mkdir" (filepath_Dir path)) (io_ret tt) w ltac:(done)) as H1.
  destruct (os_call _ _ w) as [[]  w1]; cbn in *; [|by rewrite H1].
  destruct (encode_state s) as [data|]; cbn; [|by rewrite H1].
  unfold os_WriteFile, os_put. pose proof (next_fault_files w1) as H2.
  destruct (next_fault w1) as [[f|] w2]; cbn in *; rewrite <-H1, <-H2; [|by rewrite lookup_insert_ne].
  destruct (fault_partial f); cbn; [by rewrite lookup_insert_ne|done].
Qed.

Lemma WriteState_ok path s (w : World X) :
  (WriteState path s w).1 = Ok tt ->
  files (WriteState path s w).2 !! path = Some (json_Marshal (state_json s)).
Proof.
  unfold WriteState. destruct (is_blank path); [done|]. unfold io_bind, io_wrap, io_of, os_MkdirAll.
  destruct (os_call _ _ w) as [[]  w1]; cbn; [|done].
  unfold encode_state. destruct (time_encodable _); cbn; [|done].
  unfold os_WriteFile, os_put. destruct (next_fault w1) as [[f|] w2]; cbn; [done|].
  intros _. by rewrite lookup_insert_eq.
Qed.

Lemma RemoveState_frame path (w : World X) q :
  q <> path -> files (RemoveState path w).2 !! q = files w !! q.
Proof.
  intros Hq. unfold RemoveState, io_try, os_Remove, os_call.
  pose proof (next_fault_files w) as Hn. destruct (next_fault w) as [[f|] w']; cbn in *.
  { rewrite <-Hn. by destruct (os_IsNotExist _). }
  rewrite <-Hn. destruct (files w' !! path); cbn; [by rewrite lookup_delete_ne|done].
Qed.

(** Whatever system calls fail, Apply touches only the hosts file and the
    rollback file, and when it reports success the hosts file is the old one
    with the managed block and the rollback state that undoes it is on disk. *)
Theorem apply_safe ctxErr cfg (p : Platform X) now w r w' :
  FramedPlatform p -> Path cfg <> RollbackPath cfg ->
  ApplyWithPlatform ctxErr cfg (Some p) now w = (r, w') ->
  (forall q, q <> Path cfg -> q <> RollbackPath cfg -> files w' !! q = files w !! q) ∧
  (r = Ok tt -> exists original, files w !! Path cfg = Some original ∧
    files w' !! Path cfg = Some (appendManagedBlock original (Entries cfg)) ∧
    files w' !! RollbackPath cfg = Some (json_Marshal (state_json (stateOf cfg (PName p) now)))).
Proof.
  intros Hp Hne. unfold ApplyWithPlatform, guarded.
  destruct (negb _); [by intros [= <- <-]|]. unfold io_bind at 1 2, io_of.
  destruct (validateConfig cfg) as [[]|]; [|by intros [= <- <-]].
  destruct ctxErr as [e|]; cbn [ctx_Err io_err io_ret]; [by intros [= <- <-]|].
  unfold io_bind at 1, io_wrap. pose proof (framed_read (Path cfg) w) as Hr.
  pose proof (framed_read_ok (Path cfg) w) as Hro.
  destruct (PReadFile p (Path cfg) w) as [[original|] w1]; cbn in *;
    [|intros [= <- <-]; split; [by rewrite Hr|done]].
  specialize (Hro original eq_refl). unfold io_try at 1.
  pose proof (framed_mode (Path cfg) w1) as Hm.
  destruct (PFileMode p (Path cfg) w1) as [mode w2]; cbn in *. unfold io_bind at 1.
  pose proof (fun q => WriteState_frame (RollbackPath cfg) (stateOf cfg (PName p) now) w2 q) as Hw.
  pose proof (WriteState_ok (RollbackPath cfg) (stateOf cfg (PName p) now) w2) as Hwo.
  destruct (WriteState _ _ w2) as [[[]|] w3]; cbn in *;
    [|intros [= <- <-]; split; [intros; by rewrite Hw, Hm, Hr by done|done]].
  unfold io_try at 1. set (mo := match mode with Ok m => m | Err _ => 420%Z end).
  pose proof (framed_write (Path cfg) (appendManagedBlock original (Entries cfg)) mo w3) as Hp1.
  pose proof (framed_write_ok (Path cfg) (appendManagedBlock original (Entries cfg)) mo w3) as Hp2.
  destruct (PWriteFile p _ _ _ w3) as [[[]|e] w4]; cbn in *.
  - intros [= <- <-]. split; [intros; by rewrite Hp1, Hw, Hm, Hr by done|]. intros _.
    exists original. split_and!; [done|by apply Hp2|]. rewrite Hp1 by done. by apply Hwo.
  - unfold io_try. pose proof (RemoveState_frame (RollbackPath cfg) w4) as Hrm.
    destruct (RemoveState (RollbackPath cfg) w4) as [? w5]; cbn in *. intros [= <- <-].
    split; [|done]. intros. by rewrite Hrm, Hp1, Hw, Hm, Hr by done.
Qed.

(** A permission failure of the Windows platform whose fallback fails too is
    not recognised by formatWriteError: the advice to use an Administrator
    terminal is never given there. *)
Theorem windows_permission_advice_lost ps copy path data m (w : World X) e w' :
  windowsWriteFile ps copy path data m w = (Err e, w') ->
  formatWriteError e = Wrapf "write hosts file: %w" [] e.
Proof.
  unfold windowsWriteFile, io_try. destruct (os_WriteFile path data w) as [[[]|e1] w1]; [done|].
  destruct (os_IsPermission e1) eqn:Ep.
  - destruct (writeHostsWithPowerShell _ _ _ _ w1) as [[[]|e2] w2]; [done|].
    by intros [= <- _].
  - intros [= <- _]. unfold formatWriteError. by rewrite Ep.
Qed.
End any_schedule.

(** ** Witnesses *)

Section hosts_witnesses.
#[local] Existing Instance simple_externals.
#[local] Existing Instance simple_encoding.

Definition sample_body : gostring := "127.0.0.1 localhost" ++ crlf ++ "# user" ++ crlf.
Definition sample_entries : list Entry :=
  [{| EntryIP := "127.0.0.1"; EntryHost := "api.github.com" |};
   {| EntryIP := "127.0.0.1"; EntryHost := "github.com" |}].

Lemma managed_block_roundtrip_witness :
  removeManagedBlock (appendManagedBlock sample_body sample_entries) = removeManagedBlock sample_body.
Proof.
  refine (proj1 (managed_block_roundtrip sample_body sample_entries [] _ _)); [by_decide|].
  repeat constructor.
Defined.

Lemma restore_exact_witness :
  removeManagedBlock (appendManagedBlock ("# a" ++ nl) sample_entries) = "# a" ++ nl.
Proof.
  apply (restore_exact "# a" sample_entries);
    [by_decide|repeat constructor; by vm_compute|reflexivity|discriminate|repeat constructor].
Defined.

Lemma append_shape_witness : exists user,
  Split (appendManagedBlock sample_body sample_entries) (chr 10) =
    user ++ markerStart :: managedNote :: (entry_text <$> sample_entries) ++ [markerEnd; []].
Proof.
  destruct (append_shape sample_body sample_entries) as (user & Hu & _);
    [by_decide|repeat constructor|]. exists user. exact Hu.
Defined.

Lemma EntriesFromDomains_spec_witness :
  NoDup (EntryHost <$> sample_entries).
Proof.
  apply (EntriesFromDomains_spec [" github.com"; "api.github.com"; "github.com"; []] "127.0.0.1").
  vm_compute. reflexivity.
Defined.

Definition sample_config : Config :=
  {| Path := "/etc/hosts"; RollbackPath := "/run/rollback.json"; MapIP := "127.0.0.1";
     Entries := sample_entries |}.
Definition sample_world : World unit :=
  {| files := {["/etc/hosts" := sample_body]}; faults := []; sys := tt |}.
Definition no_powershell : gostring -> list gostring -> IO unit (gostring * option error) :=
  fun _ _ => io_err (External "powershell").

Lemma sample_lines visible k :
  user_lines (lines_of sample_body) (visible ++ replicate k []) -> last visible <> Some [] ->
  unlines visible = "127.0.0.1 localhost" ++ nl ++ "# user" ++ nl.
Proof.
  intros Hu Hl. destruct (rewritten sample_body visible k [] ltac:(by_decide) Hu Hl) as [<- _]. vm_compute. reflexivity.
Qed.

(** The file of the sample has CR LF line ends and no block. *)
Lemma apply_restore_witness : exists w1 w2,
  ApplyWithPlatform None sample_config (Some (windowsPlatform no_powershell [] [])) 0%Z sample_world = (Ok tt, w1) ∧
  RestoreWithPlatform None (RollbackPath sample_config) (Some (windowsPlatform no_powershell [] [])) w1 = (Ok tt, w2) ∧
  files w2 !! Path sample_config = Some ("127.0.0.1 localhost" ++ nl ++ "# user" ++ nl).
Proof.
  destruct (apply_restore sample_config (windowsPlatform no_powershell [] []) 0%Z sample_world sample_body)
    as (visible & k & w1 & Hu & Hl & Hw & _ & _ & Hr);
    [apply _|reflexivity|reflexivity|reflexivity|discriminate|repeat constructor| |done|reflexivity|].
  - by_decide.
  - eexists w1, _. split; [exact Hw|]. split; [exact Hr|]. cbn [files set_files]. rewrite lookup_insert_eq. f_equal.
    by apply (sample_lines visible k).
Defined.

Lemma apply_safe_witness :
  let w' := (ApplyWithPlatform None sample_config (Some (otherPlatform "windows")) 0%Z sample_world).2 in
  files w' !! ("/tmp/x" : gostring) = files sample_world !! ("/tmp/x" : gostring).
Proof.
  cbn zeta.
  pose proof (apply_safe None sample_config (otherPlatform "windows") 0%Z sample_world _ _ _
    ltac:(discriminate) (surjective_pairing _)) as [Hq _]. apply Hq; discriminate.
Defined.

(** A world in which the first write is refused for lack of permission. *)
Definition refusing_world : World unit :=
  {| files := ∅; faults := [Some {| fault_err := os_ErrPermission; fault_partial := None |}]; sys := tt |}.

Lemma windows_permission_advice_lost_witness :
  match windowsWriteFile no_powershell [] "/etc/hosts" [] 420%Z refusing_world with
  | (Err e, _) => formatWriteError e = Wrapf "write hosts file: %w" [] e
  | _ => False
  end.
Proof.
  destruct (windowsWriteFile no_powershell [] "/etc/hosts" [] 420%Z refusing_world) as [[u|e] w] eqn:E.
  - vm_compute in E. discriminate E.
  - exact (windows_permission_advice_lost no_powershell [] "/etc/hosts" [] 420%Z refusing_world e w E).
Defined.
End hosts_witnesses.
