(* ===== verification/Pac.v ===== *)
(** The proxy auto-configuration script (src/internal/pac/pac.go).

    Generate prints a JavaScript function around three JSON values; the function
    is translated statement by statement here, with JavaScript's property lookup,
    and compared with the host matching of the Go side. *)
From stdpp Require Import strings.
From Stdlib Require Import Ascii Permutation.
From S2P Require Import Prelude GoStrings GoNet External World Rules.

Definition path : gostring := "/proxy.pac".

(** The JSON values printed into the script: the exact hosts (an object whose
    values are all true), the wildcard hosts and the answer for a match. *)
Record Script := {
  exactHosts : list gostring;
  wildcardHosts : list gostring;
  proxyResult : gostring;
}.

Definition nonEmptyHosts (entries : list CompiledRule) : list gostring :=
  filter (fun h => h ≠ []) (CHost <$> entries).

Definition Generate (proxyAddr : gostring) (compiled : CompiledRules) : result Script :=
  if is_blank proxyAddr then Err (Errorf "proxy address is required" [])
  else
    do _ <- wrap_err "invalid proxy address: %w" [] (SplitHostPort proxyAddr);
    Ok {| exactHosts := remove_dups (nonEmptyHosts (Exact compiled));
          wildcardHosts := nonEmptyHosts (Wildcard compiled);
          proxyResult := "PROXY " ++ proxyAddr |}.

(** The text served: a Go map is printed with sorted keys. *)
Definition scriptText `{Encoding} (s : Script) : gostring :=
  let exactJSON := json_Marshal (JObj ((fun h => (h, JBool true)) <$> merge_sort str_le (exactHosts s))) in
  let wildcardJSON := json_Marshal (JArr (JStr <$> wildcardHosts s)) in
  let proxyJSON := json_Marshal (JStr (proxyResult s)) in
  let quote := [chr 34] in
  "function FindProxyForURL(url, host) {" ++ nl ++
  "  host = (host || " ++ quote ++ quote ++ ").toLowerCase();" ++ nl ++
  "  if (host.charAt(host.length - 1) === " ++ quote ++ "." ++ quote ++ ") {" ++ nl ++
  "    host = host.substring(0, host.length - 1);" ++ nl ++ "  }" ++ nl ++ nl ++
  "  var exact = " ++ exactJSON ++ ";" ++ nl ++
  "  if (exact[host]) {" ++ nl ++ "    return " ++ proxyJSON ++ ";" ++ nl ++ "  }" ++ nl ++ nl ++
  "  var wildcard = " ++ wildcardJSON ++ ";" ++ nl ++
  "  for (var i = 0; i < wildcard.length; i++) {" ++ nl ++
  "    var suffix = " ++ quote ++ "." ++ quote ++ " + wildcard[i];" ++ nl ++
  "    if (host.length > suffix.length && host.substring(host.length - suffix.length) === suffix) {" ++ nl ++
  "      return " ++ proxyJSON ++ ";" ++ nl ++ "    }" ++ nl ++ "  }" ++ nl ++ nl ++
  "  return " ++ quote ++ "DIRECT" ++ quote ++ ";" ++ nl ++ "}" ++ nl.

(** ** The JavaScript function

    Property lookup on an object literal falls back to Object.prototype, all of
    whose properties are truthy. *)
Definition objectPrototype : list gostring :=
  ["constructor"; "__defineGetter__"; "__defineSetter__"; "hasOwnProperty"; "__lookupGetter__";
   "__lookupSetter__"; "isPrototypeOf"; "propertyIsEnumerable"; "toString"; "valueOf";
   "__proto__"; "toLocaleString"].

Definition js_truthy_property (own : list gostring) (key : gostring) : bool :=
  bool_decide (key ∈ own) || bool_decide (key ∈ objectPrototype).

Definition js_substring_from (s : gostring) (start : nat) : gostring := drop start s.

Definition js_suffix_match (host entry : gostring) : bool :=
  let suffix := "." ++ entry in
  bool_decide (length suffix < length host) &&
  bool_decide (js_substring_from host (length host - length suffix) = suffix).

Definition js_host (h : gostring) : gostring :=
  let lower := ascii_ToLower h in
  if bool_decide (last lower = Some dot) then take (length lower - 1) lower else lower.

Definition FindProxyForURL (s : Script) (h : gostring) : gostring :=
  let host := js_host h in
  if js_truthy_property (exactHosts s) host then proxyResult s
  else if existsb (js_suffix_match host) (wildcardHosts s) then proxyResult s
  else "DIRECT".

Definition HostMatches `{Externals} (compiled : CompiledRules) (rawHost : gostring) : bool :=
  match NormalizeHost rawHost with
  | Err _ => false
  | Ok host =>
      existsb (fun e => bool_decide (host = CHost e)) (Exact compiled) ||
      existsb (fun e => wildcardMatches host (CHost e)) (Wildcard compiled)
  end.

(** * The server *)

Record Config := { ListenAddr : gostring; ProxyAddr : gostring }.

(** [running] stands for the http.Server value with its listener. *)
Record Server := {
  cfg : Config;
  script : Script;
  running : bool;
  addr : gostring;
  url : gostring;
}.

Definition New (c : Config) (compiled : CompiledRules) : result Server :=
  do s <- Generate (ProxyAddr c) compiled;
  Ok {| cfg := c; script := s; running := false; addr := []; url := [] |}.

(** [listen] is the answer of net.Listen: the bound address or its error. *)
Definition Start (s : Server) (listen : result gostring) : result unit * Server :=
  if running s then (Err (Errorf "pac server already started" []), s)
  else match listen with
       | Err e => (Err (Wrapf "listen PAC %s: %w" [ListenAddr (cfg s)] e), s)
       | Ok a => (Ok tt, {| cfg := cfg s; script := script s; running := true; addr := a;
                            url := "http://" ++ a ++ path |})
       end.

(** What Stop waits for: the serve loop's result or the end of the context. *)
Inductive stop_event :=
| ServeDone (err : option error)
| CtxDone (err : error).

Definition stop_error (shutdown : option error) (ev : stop_event) : option error :=
  match shutdown with
  | Some e => Some e
  | None => match ev with ServeDone err => err | CtxDone e => Some e end
  end.

Definition Stop (s : Server) (shutdown : option error) (ev : stop_event) : option error * Server :=
  if running s
  then (stop_error shutdown ev,
        {| cfg := cfg s; script := script s; running := false; addr := addr s; url := url s |})
  else (None, s).

Record Response := { StatusCode : Z; Header : list (gostring * gostring); Body : gostring }.

Definition handlePAC `{Encoding} (s : Server) (method : gostring) : Response :=
  if negb (bool_decide (method = "GET")) && negb (bool_decide (method = "HEAD"))
  then {| StatusCode := 405;
          Header := [("Content-Type", "text/plain; charset=utf-8"); ("X-Content-Type-Options", "nosniff")];
          Body := "method not allowed" ++ nl |}
  else {| StatusCode := 200;
          Header := [("Content-Type", "application/x-ns-proxy-autoconfig"); ("Cache-Control", "no-store")];
          Body := scriptText (script s) |}.

(** * Properties *)

Lemma js_suffix_match_wildcard n e :
  last n <> Some dot -> head n <> Some dot -> js_suffix_match n e = wildcardMatches n e.
Proof.
  intros _ Hh. unfold js_suffix_match, js_substring_from. set (suffix := "." ++ e).
  apply Bool.eq_iff_eq_true. rewrite andb_true_iff, !bool_decide_eq_true, wildcardMatches_below.
  unfold below. fold suffix. split.
  - intros [Hl Hd]. exists (take (length n - length suffix) n). rewrite <-Hd at 2. by rewrite take_drop.
  - intros [p ->]. rewrite length_app. replace (length p + length suffix - length suffix) with (length p) by lia.
    rewrite drop_app_length. split; [|done]. destruct p; [by destruct Hh|cbn; lia].
Qed.

Lemma wildcardMatches_nil_edge n : last n <> Some dot -> wildcardMatches n [] = false.
Proof.
  intros Hl. apply not_true_iff_false. rewrite wildcardMatches_below. intros [p ->].
  apply Hl. apply last_snoc.
Qed.

Section pac_properties.
Context `{Externals}.

Lemma existsb_perm {A} (f : A -> bool) l l' : Permutation l l' -> existsb f l = existsb f l'.
Proof.
  intros Hp. apply Bool.eq_iff_eq_true. rewrite !existsb_exists.
  setoid_rewrite <-list_elem_of_In. by setoid_rewrite Hp.
Qed.

Lemma existsb_find {A} (f : A -> bool) l : existsb f l = bool_decide (is_Some (List.find f l)).
Proof. induction l as [|x l IH]; cbn; [done|]. by destruct (f x). Qed.

(** The exact half of the compiled rules is the exact map. *)
Lemma Exact_hosts m n : wf_matcher m ->
  existsb (fun e => bool_decide (n = CHost e)) (Exact (Rules m)) = bool_decide (is_Some (exact m !! n)).
Proof.
  intros [Hwf _]. unfold Rules; cbn [Exact].
  rewrite (existsb_perm _ _ _ (sortCompiledRules_perm _)).
  apply Bool.eq_iff_eq_true. rewrite existsb_exists, bool_decide_eq_true. split.
  - intros (c & Hc%list_elem_of_In & Heq%bool_decide_eq_true). apply list_elem_of_fmap in Hc as (e & -> & He).
    apply list_elem_of_fmap in He as ([k e'] & -> & Hk%elem_of_map_to_list). cbn in *.
    apply Hwf in Hk as Hk'. destruct Hk' as [Hh _]. rewrite Heq, Hh. eauto.
  - intros [e He]. exists (compile e). split.
    + apply list_elem_of_In, list_elem_of_fmap. exists e. split; [done|].
      apply list_elem_of_fmap. exists (n, e). split; [done|]. by apply elem_of_map_to_list.
    + apply bool_decide_eq_true. symmetry. by apply Hwf in He as [? _].
Qed.

Lemma Wildcard_hosts m n :
  existsb (fun e => wildcardMatches n (CHost e)) (Wildcard (Rules m)) =
  existsb (fun e => wildcardMatches n (host e)) (wildcard m).
Proof.
  unfold Rules; cbn [Wildcard]. rewrite (existsb_perm _ _ _ (sortCompiledRules_perm _)).
  induction (wildcard m) as [|e es IH]; [done|]. cbn. by rewrite IH.
Qed.

Lemma HostMatches_Rules m h : wf_matcher m ->
  HostMatches (Rules m) h = bool_decide (is_Some (MatchHost m h)).
Proof.
  intros Hwf. unfold HostMatches, MatchHost. destruct (NormalizeHost h) as [n|]; [|done].
  rewrite Exact_hosts, Wildcard_hosts by done. destruct (exact m !! n); [done|].
  rewrite existsb_find. cbn. by destruct (List.find _ (wildcard m)).
Qed.

(** The matcher that routes a request and the compiled rules the PAC side
    works on decide every host alike. *)
Theorem HostMatches_MatchHost groups custom m h :
  NewMatcher groups custom = Ok m -> HostMatches (Rules m) h = bool_decide (is_Some (MatchHost m h)).
Proof. intros Hm. by eapply HostMatches_Rules, wf_NewMatcher. Qed.
End pac_properties.

Section pac_equivalence.
Context `{ExternalLaws}.

Lemma js_host_spelling h tail :
  host_name h = true -> tail = [] ∨ tail = "." -> js_host (h ++ tail) = ascii_ToLower h.
Proof.
  intros Hh Ht. unfold js_host, ascii_ToLower. rewrite fmap_app.
  destruct (ldh_host_last _ Hh) as (c & Hc & Hd). unfold ascii_ToLower in Hc.
  destruct Ht as [->| ->]; cbn [fmap list_fmap].
  - rewrite app_nil_r, bool_decide_eq_false_2; [done|]. rewrite Hc. congruence.
  - change (lower_byte (Ascii.Ascii false true true true false true false false)) with dot.
    rewrite last_snoc, bool_decide_eq_true_2 by done. rewrite length_app; cbn.
    rewrite Nat.add_sub. apply take_app_length.
Qed.

Lemma ldh_edges n : ldh_host n = true -> last n <> Some dot ∧ head n <> Some dot ∧ n <> [].
Proof.
  intros Hn. destruct (ldh_host_last n Hn) as (c & Hc & Hd). split; [congruence|].
  split; [|by intros ->]. destruct n as [|a n]; [done|]. cbn. intros [= ->].
  unfold ldh_host in Hn. change (dot :: n) with ([] ++ dot :: n) in Hn.
  by rewrite Split_app_sep in Hn.
Qed.

(** A host outside the rules that JavaScript finds on Object.prototype. *)
Definition js_shadowed (n : gostring) : bool := bool_decide (n ∈ objectPrototype).

Lemma elem_nonEmpty n es : n <> [] ->
  n ∈ nonEmptyHosts es <-> existsb (fun e => bool_decide (n = CHost e)) es = true.
Proof.
  intros Hn. unfold nonEmptyHosts. rewrite list_elem_of_filter, list_elem_of_fmap, existsb_exists.
  setoid_rewrite bool_decide_eq_true. setoid_rewrite list_elem_of_In.
  split; [intros [_ (e & -> & ?)]|intros (e & ? & ->)]; eauto.
Qed.

Lemma existsb_nonEmpty n es : ldh_host n = true ->
  existsb (js_suffix_match n) (nonEmptyHosts es) = existsb (fun e => wildcardMatches n (CHost e)) es.
Proof.
  intros Hn. destruct (ldh_edges n Hn) as (Hl & Hh & _). unfold nonEmptyHosts.
  induction es as [|e es IH]; [done|]. cbn [fmap list_fmap existsb]. rewrite filter_cons.
  destruct (decide (CHost e ≠ [])) as [He|He]; cbn [existsb].
  - by rewrite IH, js_suffix_match_wildcard.
  - apply dec_stable in He. by rewrite He, wildcardMatches_nil_edge, IH.
Qed.

(** C36: for every spelling of a host name (any letter case, with or without the
    root dot) the generated script answers with the proxy exactly when the Go
    matcher matches the host, unless JavaScript's Object.prototype defines a
    property of that name. *)
Theorem pac_agrees groups custom m proxyAddr s h tail :
  NewMatcher groups custom = Ok m -> Generate proxyAddr (Rules m) = Ok s ->
  host_name h = true -> tail = [] ∨ tail = "." -> js_shadowed (ascii_ToLower h) = false ->
  FindProxyForURL s (h ++ tail) =
    if MatchHost m (h ++ tail) is Some _ then "PROXY " ++ proxyAddr else "DIRECT".
Proof.
  intros Hm Hg Hh Ht Hs. set (compiled := Rules m) in *.
  assert (Hn : NormalizeHost (h ++ tail) = Ok (ascii_ToLower h)).
  { eapply (NormalizeHost_spelling _ h tail []); [done|done|by left|].
    rewrite app_nil_r. apply TrimSpace_graphic. rewrite forallb_app, host_name_graphic by done.
    by destruct Ht as [->| ->]. }
  pose proof (HostMatches_Rules m (h ++ tail) (wf_NewMatcher _ _ _ Hm)) as Heq.
  fold compiled in Heq. clearbody compiled.
  unfold HostMatches in Heq. rewrite Hn in Heq.
  unfold Generate in Hg. destruct (is_blank proxyAddr); [done|]. inv_ok Hg.
  unfold FindProxyForURL. cbn [exactHosts wildcardHosts proxyResult].
  rewrite js_host_spelling by done. unfold js_truthy_property, js_shadowed in *.
  rewrite Hs, orb_false_r. destruct (ldh_edges _ Hh) as (_ & _ & Hne).
  rewrite existsb_nonEmpty by done.
  assert (bool_decide (ascii_ToLower h ∈ remove_dups (nonEmptyHosts (Exact compiled))) =
    existsb (fun e => bool_decide (ascii_ToLower h = CHost e)) (Exact compiled)) as ->.
  { apply Bool.eq_iff_eq_true. by rewrite bool_decide_eq_true, elem_of_remove_dups, elem_nonEmpty. }
  destruct (MatchHost m (h ++ tail)) eqn:Em; cbn in Heq.
  - by destruct (existsb _ (Exact _)); cbn in *; rewrite ?Heq.
  - by apply orb_false_iff in Heq as [-> ->].
Qed.
End pac_equivalence.

(** A host named like a property of Object.prototype is sent to the proxy by
    every generated script, whatever the rules are. *)
Theorem pac_prototype_hosts proxyAddr compiled s :
  Generate proxyAddr compiled = Ok s ->
  FindProxyForURL s "constructor" = "PROXY " ++ proxyAddr ∧
  FindProxyForURL s "__proto__" = "PROXY " ++ proxyAddr.
Proof.
  unfold Generate. destruct (is_blank proxyAddr); [done|]. intros Hg. inv_ok Hg.
  unfold FindProxyForURL, js_truthy_property. cbn [exactHosts proxyResult].
  rewrite (bool_decide_eq_true_2 (js_host "constructor" ∈ objectPrototype)) by by_decide.
  rewrite (bool_decide_eq_true_2 (js_host "__proto__" ∈ objectPrototype)) by by_decide.
  by rewrite !orb_true_r.
Qed.

(** The server starts once, its URL names the address it is bound to, and it
    can be started again after a stop. *)
Theorem pac_server_lifecycle s a b sd ev :
  running s = false ->
  exists s1, Start s (Ok a) = (Ok tt, s1) ∧ url s1 = "http://" ++ a ++ path ∧
    is_ok (Start s1 (Ok b)).1 = false ∧ (Start s1 (Ok b)).2 = s1 ∧
    running (Stop s1 sd ev).2 = false ∧ (Start (Stop s1 sd ev).2 (Ok b)).1 = Ok tt.
Proof. intros Hr. unfold Start. rewrite Hr. eexists. split_and!; reflexivity. Qed.

(** ** Witnesses *)

Section pac_witnesses.
#[local] Existing Instance simple_externals.

Definition pac_groups : list RuleGroup :=
  [{| GroupName := "g"; Domains := ["steamcommunity.com"; "*.steamcommunity.com"] |}].
Definition pac_matcher : Matcher := canonical_matcher pac_groups.
Definition pac_script : Script :=
  {| exactHosts := ["steamcommunity.com"]; wildcardHosts := ["steamcommunity.com"];
     proxyResult := "PROXY 127.0.0.1:26501" |}.

Lemma HostMatches_MatchHost_witness :
  HostMatches (Rules pac_matcher) "a.steamcommunity.com" =
  bool_decide (is_Some (MatchHost pac_matcher "a.steamcommunity.com")).
Proof. apply (HostMatches_MatchHost pac_groups []). vm_compute. reflexivity. Defined.

Lemma pac_agrees_witness :
  FindProxyForURL pac_script ("WWW.SteamCommunity.com" ++ ".") = "PROXY 127.0.0.1:26501".
Proof.
  rewrite (pac_agrees pac_groups [] pac_matcher "127.0.0.1:26501" pac_script "WWW.SteamCommunity.com" ".");
    [vm_compute; reflexivity..|by right|vm_compute; reflexivity].
Defined.

Lemma pac_prototype_hosts_witness :
  FindProxyForURL pac_script "constructor" = "PROXY 127.0.0.1:26501".
Proof.
  apply (pac_prototype_hosts "127.0.0.1:26501" (Rules pac_matcher)). vm_compute. reflexivity.
Defined.

Lemma pac_server_lifecycle_witness : exists s1,
  Start {| cfg := {| ListenAddr := []; ProxyAddr := [] |}; script := pac_script; running := false;
           addr := []; url := [] |} (Ok "127.0.0.1:1") = (Ok tt, s1).
Proof.
  destruct (pac_server_lifecycle
    {| cfg := {| ListenAddr := []; ProxyAddr := [] |}; script := pac_script; running := false;
       addr := []; url := [] |} "127.0.0.1:1" [] None (ServeDone None) eq_refl) as (s1 & Hs & _).
  exists s1. exact Hs.
Defined.
End pac_witnesses.
