(* ===== verification/DnsMsg.v ===== *)
(** DNS messages as the program sees them through github.com/miekg/dns: the
    fields it reads or writes, and the library functions it calls as parameters
    with their documented behaviour. *)
From stdpp Require Import strings.
From Stdlib Require Import Ascii.
From S2P Require Import Prelude GoStrings GoNet.

Definition TypeA : Z := 1.
Definition TypeAAAA : Z := 28.
Definition TypeOPT : Z := 41.
Definition TypeSVCB : Z := 64.
Definition TypeHTTPS : Z := 65.
Definition ClassINET : Z := 1.
Definition RcodeSuccess : Z := 0.
Definition RcodeServerFailure : Z := 2.

Record Question := { QName : gostring; Qtype : Z; Qclass : Z }.

(** The data of a record: an address, or anything else. *)
Inductive rdata :=
| RData_A (ip : IP)
| RData_AAAA (ip : IP)
| RData_Other (raw : gostring).

Record RR := { RName : gostring; Rrtype : Z; RClass : Z; Ttl : Z; Rdata : rdata }.

(** The record lists may hold nil entries, as the code allows for. *)
Record Msg := {
  Id : Z;
  Response : bool;
  Authoritative : bool;
  RecursionDesired : bool;
  RecursionAvailable : bool;
  Rcode : Z;
  MQuestion : list Question;
  Answer : list (option RR);
  Ns : list (option RR);
  Extra : list (option RR);
}.

#[export] Instance Question_eq_dec : EqDecision Question.
Proof. solve_decision. Defined.
#[export] Instance rdata_eq_dec : EqDecision rdata.
Proof. solve_decision. Defined.
#[export] Instance RR_eq_dec : EqDecision RR.
Proof. solve_decision. Defined.
#[export] Instance Msg_eq_dec : EqDecision Msg.
Proof. solve_decision. Defined.

(** miekg/dns: Msg.SetReply, Msg.SetRcode and Msg.SetQuestion on a new message,
    and dns.Fqdn. *)
Class DNSLib := {
  SetReply : Msg -> Msg;
  SetRcode : Msg -> Z -> Msg;
  SetQuestion : gostring -> Z -> Msg;
  Fqdn : gostring -> gostring;
}.

(** Their documented behaviour: a reply carries the request's id, is marked as a
    response with the given code and has no records yet. *)
Class DNSLibLaws `{DNSLib} : Prop := {
  SetReply_spec req : Id (SetReply req) = Id req ∧ Response (SetReply req) = true ∧
    Rcode (SetReply req) = RcodeSuccess ∧ Answer (SetReply req) = [] ∧
    Ns (SetReply req) = [] ∧ Extra (SetReply req) = [];
  SetRcode_spec req rc : Id (SetRcode req rc) = Id req ∧ Response (SetRcode req rc) = true ∧
    Rcode (SetRcode req rc) = rc ∧ Answer (SetRcode req rc) = [] ∧
    Ns (SetRcode req rc) = [] ∧ Extra (SetRcode req rc) = [];
}.

(** ** A concrete instance, used by the witnesses *)

Definition empty_reply (req : Msg) (rc : Z) : Msg :=
  {| Id := Id req; Response := true; Authoritative := false; RecursionDesired := RecursionDesired req; RecursionAvailable := false; Rcode := rc;
     MQuestion := take 1 (MQuestion req); Answer := []; Ns := []; Extra := [] |}.
Definition simple_question (name : gostring) (qtype : Z) : Msg :=
  {| Id := 1; Response := false; Authoritative := false; RecursionDesired := true; RecursionAvailable := false; Rcode := 0;
     MQuestion := [{| QName := name; Qtype := qtype; Qclass := ClassINET |}];
     Answer := []; Ns := []; Extra := [] |}.
Definition simple_dns : DNSLib :=
  {| SetReply req := empty_reply req RcodeSuccess; SetRcode := empty_reply;
     SetQuestion := simple_question; Fqdn name := name ++ "." |}.

#[export] Instance simple_dns_laws : @DNSLibLaws simple_dns.
Proof. by split. Qed.
