(* ===== verification/Resolver.v ===== *)
(** The host resolver (src/internal/resolver/resolver.go): address policy,
    response parsing, the query strategy and the cache.

    The system resolver, the DNS client, the wire format and the HTTP exchange
    are parameters. *)
From stdpp Require Import strings.
From Stdlib Require Import Ascii Permutation.
From S2P Require Import Prelude GoStrings GoNet External World Rules Config DnsMsg.

(** resolver.Config has the fields of the resolver section of the configuration. *)
Definition ConfigFromApp (cfg : Config) : ResolverConfig := Resolver cfg.

Record cacheEntry := { ips : list IP; expire : Time }.

Record Client := { ccfg : ResolverConfig; cache : gmap gostring cacheEntry }.

Definition New (cfg : ResolverConfig) : Client :=
  {| ccfg := {| RMode := if bool_decide (RMode cfg = []) then ResolverSystem else RMode cfg;
                Servers := Servers cfg; PreferIPv4 := PreferIPv4 cfg; PreferIPv6 := PreferIPv6 cfg;
                DisableIPv6 := DisableIPv6 cfg;
                CacheTTL := if (CacheTTL cfg <=? 0)%Z then (10 * Minute)%Z else CacheTTL cfg;
                RTimeout := if (RTimeout cfg <=? 0)%Z then (5 * Second)%Z else RTimeout cfg |};
     cache := ∅ |}.

(** * Address policy *)

(** One iteration of the filter: the keys seen and the addresses kept. *)
Definition keepIP (disableIPv6 : bool) (s : gset gostring * list IP) (ip : IP) : gset gostring * list IP :=
  let '(seen, filtered) := s in
  if bool_decide (ip = []) then s
  else if disableIPv6 && negb (is_v4 ip) then s
  else
    let key := IPString ip in
    if bool_decide (key ∈ seen) then s else ({[key]} ∪ seen, filtered ++ [ip]).

(** The stable sorts: addresses of the preferred family come first. *)
Definition family_first (v4 : bool) (a b : IP) : Prop := is_v4 a = v4 ∨ is_v4 b ≠ v4.

#[export] Instance family_first_dec v4 : RelDecision (family_first v4).
Proof. unfold family_first. intros a b. apply _. Defined.

Definition applyPolicy (cfg : ResolverConfig) (input : list IP) : list IP :=
  let filtered := (foldl (keepIP (DisableIPv6 cfg)) (∅, []) input).2 in
  let sorted4 := if PreferIPv4 cfg then stable_sort (family_first true) filtered else filtered in
  if PreferIPv6 cfg then stable_sort (family_first false) sorted4 else sorted4.

(** * Lifetimes *)

Definition minDuration (a b : Duration) : Duration :=
  if (a <=? 0)%Z then b
  else if (b <=? 0)%Z then a
  else if (a <? b)%Z then a
  else b.

Definition minPositiveTTL (current : Duration) (ttl : Z) : Duration :=
  let next := (ttl * Second)%Z in
  if (current =? 0)%Z || (next <? current)%Z then next else current.

(** * Responses *)

(** One record of the answer section; nil entries do not occur in messages that
    the library has unpacked. *)
Definition takeRecord (qtype : Z) (s : list IP * Duration) (rr : RR) : list IP * Duration :=
  let '(acc, ttl) := s in
  match Rdata rr with
  | RData_A ip => if bool_decide (qtype = TypeA) then (acc ++ [ip], minPositiveTTL ttl (Ttl rr)) else s
  | RData_AAAA ip => if bool_decide (qtype = TypeAAAA) then (acc ++ [ip], minPositiveTTL ttl (Ttl rr)) else s
  | RData_Other _ => s
  end.

Definition parseDNSResponse (resp : option Msg) (qtype : Z) : result (list IP * Duration) :=
  match resp with
  | None => Err (Errorf "empty DNS response" [])
  | Some m =>
      if negb (bool_decide (Rcode m = RcodeSuccess))
      then Err (Errorf "DNS response code %s" [Itoa (Rcode m)])
      else
        let '(acc, ttl) := foldl (takeRecord qtype) ([], 0%Z) (omap id (Answer m)) in
        if bool_decide (acc = []) then Err (Errorf "DNS response has no %s records" [Itoa qtype])
        else Ok (acc, ttl)
  end.

Definition normalizeDNSServer (server : gostring) : gostring :=
  match SplitHostPort server with
  | Ok _ => server
  | Err _ => JoinHostPort (Trim server "[]") "53"
  end.

Section resolver.
Context `{Externals} `{DNSLib}.

Variable LookupIPAddr : gostring -> result (list IP).
Variable Exchange : gostring -> gostring -> Msg -> result (option Msg).
Variable Pack : Msg -> result gostring.
Variable Unpack : gostring -> result Msg.
Variable httpPost : gostring -> gostring -> result (Z * gostring * result gostring).

Definition newQuestion (host : gostring) (qtype : Z) : Msg :=
  let msg := SetQuestion (Fqdn host) qtype in
  {| Id := Id msg; Response := Response msg; Authoritative := Authoritative msg; RecursionDesired := true;
     RecursionAvailable := RecursionAvailable msg; Rcode := Rcode msg; MQuestion := MQuestion msg;
     Answer := Answer msg; Ns := Ns msg; Extra := Extra msg |}.

Definition resolveSystem (c : Client) (host : gostring) : result (list IP * Duration) :=
  do addrs <- wrap_err "system resolve %s: %w" [host] (LookupIPAddr host);
  Ok (addrs, CacheTTL (ccfg c)).

(** The loop over the servers: the first usable answer, else the last error. *)
Fixpoint firstAnswer (ask : gostring -> result (list IP * Duration)) (none : error)
    (servers : list gostring) (lastErr : option error) : result (list IP * Duration) :=
  match servers with
  | [] => Err (default none lastErr)
  | server :: rest =>
      match ask server with
      | Ok r => Ok r
      | Err e => firstAnswer ask none rest (Some e)
      end
  end.

Definition askDNS (network host : gostring) (qtype : Z) (server : gostring) : result (list IP * Duration) :=
  do resp <- Exchange network (normalizeDNSServer server) (newQuestion host qtype);
  parseDNSResponse resp qtype.

Definition queryDoH (host : gostring) (qtype : Z) (server : gostring) : result (list IP * Duration) :=
  do endpoint <- url_Parse server;
  if negb (bool_decide (Scheme endpoint = "http")) && negb (bool_decide (Scheme endpoint = "https"))
  then Err (Errorf "DoH server %q must use http or https" [server])
  else
    do wire <- Pack (newQuestion host qtype);
    do r <- httpPost server wire;
    let '(status, text, body) := r in
    if (status <? 200)%Z || (300 <=? status)%Z then Err (Errorf "DoH server returned %s" [text])
    else
      do data <- body;
      do msg <- Unpack data;
      parseDNSResponse (Some msg) qtype.

(** The texts of the failed queries go into the message of the error only. *)
Definition resolveByQueries (c : Client) (host : gostring) (query : Z -> result (list IP * Duration))
  : result (list IP * Duration) :=
  let '(all1, ttl1) :=
    match query TypeA with
    | Err _ => ([], CacheTTL (ccfg c))
    | Ok (a, aTTL) => (a, minDuration (CacheTTL (ccfg c)) aTTL)
    end in
  let '(all2, ttl2) :=
    if DisableIPv6 (ccfg c) then (all1, ttl1)
    else match query TypeAAAA with
         | Err _ => (all1, ttl1)
         | Ok (aaaa, aaaaTTL) => (all1 ++ aaaa, minDuration ttl1 aaaaTTL)
         end in
  if bool_decide (all2 = []) then Err (Errorf "resolve %s failed: %s" [host])
  else Ok (all2, ttl2).

Definition resolveDNS (c : Client) (host network : gostring) : result (list IP * Duration) :=
  resolveByQueries c host (fun qtype =>
    firstAnswer (askDNS network host qtype) (Errorf "no DNS servers configured" []) (Servers (ccfg c)) None).

Definition resolveDoH (c : Client) (host : gostring) : result (list IP * Duration) :=
  resolveByQueries c host (fun qtype =>
    firstAnswer (queryDoH host qtype) (Errorf "no DoH servers configured" []) (Servers (ccfg c)) None).

Definition resolveFresh (c : Client) (host : gostring) : result (list IP * Duration) :=
  let mode := RMode (ccfg c) in
  if bool_decide (mode = ResolverSystem) then resolveSystem c host
  else if bool_decide (mode = ResolverUDP) || bool_decide (mode = ResolverTCP) then resolveDNS c host mode
  else if bool_decide (mode = ResolverDoH) then resolveDoH c host
  else Err (Errorf "unsupported resolver mode %q" [mode]).

(** * The cache *)

Definition getCache (c : Client) (now : Time) (host : gostring) : option (list IP) * Client :=
  match cache c !! host with
  | None => (None, c)
  | Some entry =>
      if (expire entry <? now)%Z
      then (None, {| ccfg := ccfg c; cache := delete host (cache c) |})
      else (Some (ips entry), c)
  end.

Definition putCache (c : Client) (now : Time) (host : gostring) (addrs : list IP) (ttl : Duration) : Client :=
  {| ccfg := ccfg c; cache := <[host := {| ips := addrs; expire := (now + ttl)%Z |}]> (cache c) |}.

(** [tget] and [tput] are the clock readings of the lookup and of the store. *)
Definition Resolve (c : Client) (tget tput : Time) (host : gostring) : result (list IP) * Client :=
  match NormalizeHost host with
  | Err e => (Err (Wrapf "normalize host: %w" [] e), c)
  | Ok normalized =>
      let ip := ParseIP normalized in
      if negb (bool_decide (ip = [])) then
        let addrs := applyPolicy (ccfg c) [ip] in
        if bool_decide (addrs = []) then (Err (Errorf "no usable IPs for %s" [normalized]), c)
        else (Ok addrs, c)
      else match getCache c tget normalized with
           | (Some addrs, c1) => (Ok addrs, c1)
           | (None, c1) =>
               match resolveFresh c1 normalized with
               | Err e => (Err e, c1)
               | Ok (raw, ttl) =>
                   let addrs := applyPolicy (ccfg c1) raw in
                   if bool_decide (addrs = []) then (Err (Errorf "no usable IPs for %s" [normalized]), c1)
                   else
                     let maxTTL := CacheTTL (ccfg c1) in
                     let ttl1 := if (ttl <=? 0)%Z then maxTTL else ttl in
                     let ttl2 := if (maxTTL <? ttl1)%Z then maxTTL else ttl1 in
                     (Ok addrs, putCache c1 tput normalized addrs ttl2)
               end
           end
  end.
End resolver.

(** * Properties *)

(** ** Address policy *)

Lemma family_split v4 (l : list IP) :
  stable_sort (family_first v4) l = filter (fun ip => is_v4 ip = v4) l ++ filter (fun ip => is_v4 ip <> v4) l.
Proof.
  assert (Hins : forall x a b, Forall (fun ip => is_v4 ip = v4) a -> Forall (fun ip => is_v4 ip <> v4) b ->
    stable_insert (family_first v4) x (a ++ b) =
    if decide (is_v4 x = v4) then x :: a ++ b else a ++ x :: b).
  { intros x a b Ha Hb. induction Ha as [|y a Hy _ IH]; cbn [app stable_insert].
    - destruct b as [|y b]; cbn [stable_insert]; [by destruct (decide (is_v4 x = v4))|].
      inversion Hb; subst. destruct (decide (family_first _ x y)) as [|Hn]; [by case_decide|].
      destruct Hn. by right.
    - destruct (decide (family_first _ x y)) as [[Hx|Hx]|Hn].
      + by rewrite decide_True by done.
      + done.
      + rewrite IH. rewrite !decide_False by (intros ?; apply Hn; by left). done. }
  induction l as [|x l IH]; [done|]. cbn [stable_sort foldr]. fold (stable_sort (family_first v4) l).
  rewrite IH, Hins by (apply Forall_forall; by intros ? [? _]%list_elem_of_filter).
  destruct (decide (is_v4 x = v4)) as [Hx|Hx].
  - rewrite (filter_cons_True _ x), (filter_cons_False _ x) by (done || by intros []). done.
  - rewrite (filter_cons_False _ x), (filter_cons_True _ x) by done. done.
Qed.

(** What the filter has kept after the addresses [l]. *)
Definition kept (disable : bool) (l : list IP) (s : gset gostring * list IP) : Prop :=
  NoDup (IPString <$> s.2) ∧
  (forall k, k ∈ s.1 <-> k ∈ IPString <$> s.2) ∧
  (forall ip, ip ∈ s.2 -> ip ∈ l ∧ ip <> [] ∧ (disable = true -> is_v4 ip = true)) ∧
  (forall ip, ip ∈ l -> ip <> [] -> (disable = true -> is_v4 ip = true) -> IPString ip ∈ s.1).

Lemma keepIP_kept disable l s ip : kept disable l s -> kept disable (l ++ [ip]) (keepIP disable s ip).
Proof.
  destruct s as [seen out]. intros (Hnd & Hs & Hin & Hall). cbn [fst snd] in *. unfold keepIP.
  assert (Hskip : (ip <> [] -> (disable = true -> is_v4 ip = true) -> IPString ip ∈ seen) ->
    kept disable (l ++ [ip]) (seen, out)).
  { intros Hsk. split_and!; cbn [fst snd]; [done..| |].
    - intros x Hx. destruct (Hin x Hx) as (? & ? & ?). split_and!; [set_solver|done..].
    - intros x [?| ->%list_elem_of_singleton]%elem_of_app; [by apply Hall|by apply Hsk]. }
  case_bool_decide as H1; [by apply Hskip|].
  destruct (disable && negb (is_v4 ip)) eqn:E2.
  { apply Hskip. intros _ Hv. destruct disable; [|done]. rewrite Hv in E2 by done. done. }
  case_bool_decide as H3; [by apply Hskip|].
  split_and!; cbn [fst snd]; rewrite ?fmap_app; cbn [fmap list_fmap].
  - apply NoDup_app. split_and!; [done| |by apply NoDup_singleton].
    intros x Hx ->%list_elem_of_singleton. by apply H3, Hs.
  - intros k. rewrite elem_of_union, elem_of_singleton, elem_of_app, list_elem_of_singleton, Hs. tauto.
  - intros x [Hx| ->%list_elem_of_singleton]%elem_of_app.
    + destruct (Hin x Hx) as (? & ? & ?). split_and!; [set_solver|done..].
    + split_and!; [set_solver|done|]. intros ->. by destruct (is_v4 ip).
  - intros x [Hx| ->%list_elem_of_singleton]%elem_of_app ? ?; [|set_solver].
    apply elem_of_union_r. by apply Hall.
Qed.

Lemma foldl_kept disable l pre s : kept disable pre s -> kept disable (pre ++ l) (foldl (keepIP disable) s l).
Proof.
  revert pre s; induction l as [|ip l IH]; intros pre s Hs; cbn [foldl]; [by rewrite app_nil_r|].
  rewrite cons_middle, app_assoc. by apply IH, keepIP_kept.
Qed.

Lemma filtered_kept disable l : kept disable l (foldl (keepIP disable) (∅, []) l).
Proof.
  apply (foldl_kept disable l []). split_and!; cbn; [constructor|set_solver|set_solver|].
  by intros ip ?%elem_of_nil.
Qed.

Lemma applyPolicy_perm cfg l :
  Permutation (applyPolicy cfg l) (foldl (keepIP (DisableIPv6 cfg)) (∅, []) l).2.
Proof.
  unfold applyPolicy. destruct (PreferIPv4 cfg), (PreferIPv6 cfg); rewrite ?stable_sort_perm; done.
Qed.

(** The addresses a client may use: distinct, usable, of the allowed family. *)
Definition policy_ok (cfg : ResolverConfig) (addrs : list IP) : Prop :=
  NoDup (IPString <$> addrs) ∧ (forall ip, ip ∈ addrs -> ip <> []) ∧
  (DisableIPv6 cfg = true -> forall ip, ip ∈ addrs -> is_v4 ip = true) ∧
  (PreferIPv4 cfg = true -> PreferIPv6 cfg = false -> exists a b, addrs = a ++ b ∧
     (forall ip, ip ∈ a -> is_v4 ip = true) ∧ (forall ip, ip ∈ b -> is_v4 ip = false)) ∧
  (PreferIPv6 cfg = true -> exists a b, addrs = a ++ b ∧
     (forall ip, ip ∈ a -> is_v4 ip = false) ∧ (forall ip, ip ∈ b -> is_v4 ip = true)).

Lemma family_split_parts v4 l :
  exists a b, stable_sort (family_first v4) l = a ++ b ∧
    (forall ip, ip ∈ a -> is_v4 ip = v4) ∧ (forall ip, ip ∈ b -> is_v4 ip = negb v4).
Proof.
  rewrite family_split. eexists _, _. split_and!; [done|..].
  - by intros ip [? _]%list_elem_of_filter.
  - intros ip [Hn _]%list_elem_of_filter. by destruct (is_v4 ip), v4.
Qed.

Lemma applyPolicy_ok cfg l : policy_ok cfg (applyPolicy cfg l).
Proof.
  destruct (filtered_kept (DisableIPv6 cfg) l) as (Hnd & _ & Hin & _).
  pose proof (applyPolicy_perm cfg l) as Hp. split_and!.
  - by rewrite Hp.
  - intros ip Hip. rewrite Hp in Hip. by apply Hin.
  - intros Hd ip Hip. rewrite Hp in Hip. by apply Hin.
  - intros H4 H6. unfold applyPolicy. rewrite H4, H6. apply family_split_parts.
  - intros H6. unfold applyPolicy. rewrite H6. apply (family_split_parts false).
Qed.

(** The address policy returns each usable address once, of the allowed
    families only and the preferred family first, and loses none: every allowed
    address of the input is represented in the output and nothing else is. *)
Theorem applyPolicy_spec cfg l :
  policy_ok cfg (applyPolicy cfg l) ∧
  (forall ip, ip ∈ applyPolicy cfg l -> ip ∈ l) ∧
  (forall ip, ip ∈ l -> ip <> [] -> (DisableIPv6 cfg = true -> is_v4 ip = true) ->
     exists ip', ip' ∈ applyPolicy cfg l ∧ IPString ip' = IPString ip).
Proof.
  destruct (filtered_kept (DisableIPv6 cfg) l) as (_ & Hs & Hin & Hall).
  pose proof (applyPolicy_perm cfg l) as Hp. split_and!; [apply applyPolicy_ok|..].
  - intros ip Hip. rewrite Hp in Hip. by apply Hin.
  - intros ip Hl Hne Hd. specialize (Hall ip Hl Hne Hd). apply Hs in Hall.
    apply list_elem_of_fmap in Hall as (ip' & ? & ?). exists ip'. by rewrite Hp.
Qed.

(** With one preferred family the output keeps the order of the input within
    each family: it is the preferred addresses followed by the others. *)
Theorem applyPolicy_stable cfg l :
  PreferIPv4 cfg = true -> PreferIPv6 cfg = false ->
  let kept := (foldl (keepIP (DisableIPv6 cfg)) (∅, []) l).2 in
  applyPolicy cfg l = filter (fun ip => is_v4 ip = true) kept ++ filter (fun ip => is_v4 ip <> true) kept.
Proof. intros H4 H6. cbn zeta. unfold applyPolicy. rewrite H4, H6. apply family_split. Qed.

(** ** Queries *)

Section query_properties.
Context (c : Client) (host : gostring) (query : Z -> result (list IP * Duration)).

(** The addresses a query contributes. *)
Definition found (r : result (list IP * Duration)) : list IP :=
  match r with Ok (l, _) => l | Err _ => [] end.

Lemma resolveByQueries_value :
  let all := found (query TypeA) ++ (if DisableIPv6 (ccfg c) then [] else found (query TypeAAAA)) in
  (all = [] -> exists e, resolveByQueries c host query = Err e) ∧
  (all <> [] -> exists ttl, resolveByQueries c host query = Ok (all, ttl)).
Proof.
  unfold resolveByQueries, found. destruct (query TypeA) as [[a ta]|ea]; destruct (DisableIPv6 (ccfg c));
    [| destruct (query TypeAAAA) as [[b tb]|eb] | | destruct (query TypeAAAA) as [[b tb]|eb]];
    cbn zeta; cbn [app]; rewrite ?app_nil_r;
    (split; [intros Hn; rewrite bool_decide_eq_true_2 by done; eauto
            |intros Hne; try done; rewrite bool_decide_eq_false_2 by done; eauto]).
Qed.

(** Resolving by queries succeeds exactly when some permitted query finds an
    address, one failing family does not hide the other, and with IPv6 disabled
    the result does not depend on any AAAA query. *)
Theorem resolveByQueries_spec :
  (is_ok (resolveByQueries c host query) = true <->
     found (query TypeA) <> [] ∨ (DisableIPv6 (ccfg c) = false ∧ found (query TypeAAAA) <> [])) ∧
  (forall addrs ttl, resolveByQueries c host query = Ok (addrs, ttl) ->
     addrs = found (query TypeA) ++ (if DisableIPv6 (ccfg c) then [] else found (query TypeAAAA))) ∧
  (DisableIPv6 (ccfg c) = true -> forall query', query' TypeA = query TypeA ->
     resolveByQueries c host query' = resolveByQueries c host query).
Proof.
  destruct resolveByQueries_value as [Hnil Hcons].
  set (all := found (query TypeA) ++ _) in *.
  assert (Hall : all <> [] <-> found (query TypeA) <> [] ∨ (DisableIPv6 (ccfg c) = false ∧ found (query TypeAAAA) <> [])).
  { unfold all. destruct (DisableIPv6 (ccfg c)).
    - rewrite app_nil_r. split; [by left|]. by intros [?|[? _]].
    - destruct (found (query TypeA)); cbn [app]; [|by split; [left|]].
      split; [by right|]. by intros [?|[_ ?]]. }
  rewrite <-Hall. split_and!.
  - destruct (decide (all = [])) as [Ha|Ha].
    + destruct (Hnil Ha) as [e ->]. done.
    + destruct (Hcons Ha) as [ttl ->]. done.
  - intros addrs ttl Hr. destruct (decide (all = [])) as [Ha|Ha].
    + destruct (Hnil Ha) as [e He]. congruence.
    + destruct (Hcons Ha) as [ttl' He]. congruence.
  - intros Hd query' Hq. unfold resolveByQueries. by rewrite Hq, Hd.
Qed.
End query_properties.

(** ** Resolve *)

Section resolve_properties.
Context `{Externals} `{DNSLib}.
Context (LookupIPAddr : gostring -> result (list IP))
  (Exchange : gostring -> gostring -> Msg -> result (option Msg)) (Pack : Msg -> result gostring)
  (Unpack : gostring -> result Msg)
  (httpPost : gostring -> gostring -> result (Z * gostring * result gostring)).

#[local] Abbreviation fresh := (resolveFresh LookupIPAddr Exchange Pack Unpack httpPost).
#[local] Abbreviation resolve := (Resolve LookupIPAddr Exchange Pack Unpack httpPost).

(** The cache invariant: every entry is a non-empty list that obeys the policy. *)
Definition cache_ok (c : Client) : Prop :=
  forall h e, cache c !! h = Some e -> ips e <> [] ∧ policy_ok (ccfg c) (ips e).

Lemma getCache_ok c now h r c' :
  getCache c now h = (r, c') -> cache_ok c ->
  ccfg c' = ccfg c ∧ cache_ok c' ∧ forall addrs, r = Some addrs -> addrs <> [] ∧ policy_ok (ccfg c) addrs.
Proof.
  unfold getCache. intros Hg Hc. destruct (cache c !! h) as [e|] eqn:Ee; [|by simplify_eq].
  destruct (expire e <? now)%Z; simplify_eq.
  - split_and!; [done| |done]. intros h' e'. cbn. rewrite lookup_delete_Some. intros [_ ?]. by eapply Hc.
  - split_and!; [done..|]. intros addrs [= <-]. by eapply Hc.
Qed.

Lemma putCache_ok c now h addrs ttl :
  cache_ok c -> addrs <> [] -> policy_ok (ccfg c) addrs -> cache_ok (putCache c now h addrs ttl).
Proof.
  intros Hc Hne Hp h' e. cbn. rewrite lookup_insert_Some. intros [[_ <-]|[_ ?]]; [done|by eapply Hc].
Qed.

(** C37: whatever path an answer takes (literal, cache or fresh query), Resolve
    returns at least one address, every address obeys the address policy of the
    client, and the cache keeps that property. *)
Theorem Resolve_policy c tget tput host r c' :
  resolve c tget tput host = (r, c') -> cache_ok c ->
  cache_ok c' ∧ ccfg c' = ccfg c ∧
  forall addrs, r = Ok addrs -> addrs <> [] ∧ policy_ok (ccfg c) addrs.
Proof.
  unfold Resolve. intros Hr Hc. destruct (NormalizeHost host) as [n|e]; [|by simplify_eq].
  destruct (negb (bool_decide (ParseIP n = []))).
  { case_bool_decide as Ha; simplify_eq; split_and!; try done. intros addrs [= <-].
    split; [done|apply applyPolicy_ok]. }
  destruct (getCache c tget n) as [o c1] eqn:Eg.
  destruct (getCache_ok _ _ _ _ _ Eg Hc) as (Hcfg & Hc1 & Ho). destruct o as [addrs|].
  { simplify_eq. split_and!; [done..|]. intros ? [= <-]. by apply Ho. }
  destruct (fresh c1 n) as [[raw ttl]|e]; [|simplify_eq; by split_and!].
  case_bool_decide as Ha; simplify_eq; [by split_and!|].
  split_and!; [|done|].
  - apply putCache_ok; [done..|apply applyPolicy_ok].
  - intros ? [= <-]. rewrite <-Hcfg. split; [done|apply applyPolicy_ok].
Qed.

(** A second lookup of the same host before the entry expires returns the
    same addresses without asking anyone, and an entry expires at the latest
    CacheTTL after it was stored. *)
Theorem Resolve_cached c tget tput host n addrs c' :
  NormalizeHost host = Ok n -> ParseIP n = [] -> (0 < CacheTTL (ccfg c))%Z ->
  getCache c tget n = (None, c) -> resolve c tget tput host = (Ok addrs, c') ->
  exists e, cache c' !! n = Some e ∧ ips e = addrs ∧ (expire e <= tput + CacheTTL (ccfg c))%Z ∧
    forall t t', (t <= expire e)%Z -> resolve c' t t' host = (Ok addrs, c').
Proof.
  intros Hn Hp Ht Hg Hr. unfold Resolve in *. rewrite Hn, Hp in *.
  rewrite bool_decide_eq_true_2 in Hr |- * by done. cbn [negb] in *. rewrite Hg in Hr.
  destruct (fresh c n) as [[raw ttl]|e]; [|done]. case_bool_decide as Ha; [done|].
  injection Hr as <- <-. set (ttl2 := if (_ <? _)%Z then _ else _).
  assert (Hl : (ttl2 <= CacheTTL (ccfg c))%Z).
  { unfold ttl2. destruct (Z.leb_spec ttl 0); case_match eqn:E; try lia; apply Z.ltb_ge in E; lia. }
  eexists. split; [cbn; by rewrite lookup_insert_eq|]. cbn [ips expire]. split_and!; [done|lia|].
  intros t t' Ht'. unfold getCache. cbn [putCache cache]. rewrite lookup_insert_eq. cbn [expire ips].
  by rewrite (proj2 (Z.ltb_ge _ _) Ht').
Qed.

End resolve_properties.

Lemma zero_ttl_records qtype rrs acc :
  (forall rr, rr ∈ rrs -> Ttl rr = 0%Z) -> (foldl (takeRecord qtype) (acc, 0%Z) rrs).2 = 0%Z.
Proof.
  revert acc; induction rrs as [|rr rrs IH]; intros acc Hz; [done|]. cbn [foldl].
  assert (Hs : exists acc', takeRecord qtype (acc, 0%Z) rr = (acc', 0%Z)).
  { unfold takeRecord, minPositiveTTL. rewrite (Hz rr) by left.
    destruct (Rdata rr); try case_bool_decide; eauto. }
  destruct Hs as [acc' ->]. apply IH. intros; apply Hz. by right.
Qed.

(** A DNS answer whose records all have lifetime zero (do not cache) is kept
    for the longest time the configuration allows. *)
Theorem zero_ttl_cached_longest c host m query addrs ttl :
  (forall rr, Some rr ∈ Answer m -> Ttl rr = 0%Z) -> DisableIPv6 (ccfg c) = true ->
  (0 < CacheTTL (ccfg c))%Z -> query TypeA = parseDNSResponse (Some m) TypeA -> resolveByQueries c host query = Ok (addrs, ttl) ->
  addrs <> [] ∧ ttl = CacheTTL (ccfg c).
Proof.
  intros Hz Hd Hc Hq. unfold resolveByQueries. rewrite Hq, Hd. clear Hq. unfold parseDNSResponse.
  assert (Hz' : forall rr, rr ∈ omap id (Answer m) -> Ttl rr = 0%Z).
  { intros rr (o & Ho & Hrr)%list_elem_of_omap. apply Hz. by rewrite <-Hrr. }
  pose proof (zero_ttl_records TypeA _ [] Hz') as H0.
  destruct (foldl (takeRecord TypeA) _ _) as [acc t]. cbn in H0. subst t.
  destruct (negb _); [by case_bool_decide|]. destruct (bool_decide (acc = [])) eqn:Ea; [by case_bool_decide|].
  rewrite Ea. intros [= <- <-]. boolify. split; [done|].
  unfold minDuration. destruct (Z.leb_spec (CacheTTL (ccfg c)) 0); [lia|done].
Qed.

(** The lifetime of an answer depends on the order of its records: a zero
    lifetime is forgotten when a longer one follows it and wins when it comes
    last. *)
Theorem minPositiveTTL_order ttl :
  (0 < ttl)%Z ->
  minPositiveTTL (minPositiveTTL 0%Z 0) ttl = (ttl * Second)%Z ∧
  minPositiveTTL (minPositiveTTL 0%Z ttl) 0 = 0%Z.
Proof.
  intros Ht. assert (Hs : (0 < Second)%Z) by done. unfold minPositiveTTL. rewrite Z.mul_0_l. cbn [Z.eqb orb].
  split; [done|]. destruct (Z.ltb_spec 0 (ttl * Second)); [by rewrite orb_true_r|nia].
Qed.

(** ** Witnesses *)

Section resolver_witnesses.
#[local] Existing Instance simple_externals.
#[local] Existing Instance simple_dns.

Definition sample_resolver : ResolverConfig :=
  {| RMode := "system"; Servers := []; PreferIPv4 := true; PreferIPv6 := false; DisableIPv6 := false;
     CacheTTL := (10 * Minute)%Z; RTimeout := (5 * Second)%Z |}.
Definition sample_client : Client := New sample_resolver.
Definition udp_client : Client :=
  {| ccfg := {| RMode := "udp"; Servers := ["1.1.1.1"]; PreferIPv4 := true; PreferIPv6 := false;
                DisableIPv6 := true; CacheTTL := (10 * Minute)%Z; RTimeout := (5 * Second)%Z |};
     cache := ∅ |}.
Definition sample_lookup : gostring -> result (list IP) :=
  fun _ => Ok [IPv6loopback; [10; 0; 0; 1]%Z; [10; 0; 0; 1]%Z].
Definition zero_answer : Msg :=
  {| Id := 1; Response := true; Authoritative := false; RecursionDesired := true; RecursionAvailable := true; Rcode := 0;
     MQuestion := [];
     Answer := [Some {| RName := "github.com."; Rrtype := TypeA; RClass := ClassINET; Ttl := 0;
                        Rdata := RData_A [10; 0; 0; 1]%Z |}]; Ns := []; Extra := [] |}.
Definition zero_exchange : gostring -> gostring -> Msg -> result (option Msg) :=
  fun _ _ _ => Ok (Some zero_answer).
Definition no_pack : Msg -> result gostring := fun _ => Err (External "pack").
Definition no_unpack : gostring -> result Msg := fun _ => Err (External "unpack").
Definition no_post : gostring -> gostring -> result (Z * gostring * result gostring) :=
  fun _ _ => Err (External "post").
Definition sample_resolve := Resolve sample_lookup zero_exchange no_pack no_unpack no_post.

Lemma applyPolicy_stable_witness :
  applyPolicy sample_resolver [IPv6loopback; [10; 0; 0; 1]%Z; [10; 0; 0; 1]%Z] = [[10; 0; 0; 1]%Z; IPv6loopback].
Proof.
  rewrite (applyPolicy_stable sample_resolver [IPv6loopback; [10; 0; 0; 1]%Z; [10; 0; 0; 1]%Z] eq_refl eq_refl).
  vm_compute. reflexivity.
Defined.

Lemma sample_client_ok : cache_ok sample_client.
Proof. intros h e. cbn. by rewrite lookup_empty. Qed.

Lemma Resolve_policy_witness : policy_ok sample_resolver [[10; 0; 0; 1]%Z; IPv6loopback].
Proof.
  pose proof (Resolve_policy sample_lookup zero_exchange no_pack no_unpack no_post sample_client 0%Z 0%Z
    "GitHub.com" _ _ (surjective_pairing _) sample_client_ok) as (_ & _ & Hp).
  apply (Hp [[10; 0; 0; 1]%Z; IPv6loopback]). vm_compute. reflexivity.
Defined.

Lemma Resolve_cached_witness : exists e,
  cache (sample_resolve sample_client 0%Z 0%Z "github.com").2 !! ("github.com" : gostring) = Some e.
Proof.
  destruct (Resolve_cached sample_lookup zero_exchange no_pack no_unpack no_post sample_client 0%Z 0%Z
    "github.com" "github.com" [[10; 0; 0; 1]%Z; IPv6loopback]
    (sample_resolve sample_client 0%Z 0%Z "github.com").2) as (e & He & _);
    [vm_compute; reflexivity..|]. exists e. exact He.
Defined.

Lemma zero_ttl_cached_longest_witness : exists ttl,
  resolveByQueries udp_client "github.com" (fun qtype => askDNS zero_exchange "udp" "github.com" qtype "1.1.1.1") =
    Ok ([[10; 0; 0; 1]%Z], ttl) ∧ ttl = CacheTTL (ccfg udp_client).
Proof.
  exists 600000000000%Z. split; [vm_compute; reflexivity|].
  refine (proj2 (zero_ttl_cached_longest udp_client "github.com" zero_answer
    (fun qtype => askDNS zero_exchange "udp" "github.com" qtype "1.1.1.1") [[10; 0; 0; 1]%Z] _ _ eq_refl eq_refl _ _));
    [by intros rr [[= ->]|?%elem_of_nil]%elem_of_cons|reflexivity|vm_compute; reflexivity].
Defined.

Lemma minPositiveTTL_order_witness : minPositiveTTL (minPositiveTTL 0%Z 300) 0 = 0%Z.
Proof. apply (minPositiveTTL_order 300). done. Defined.
End resolver_witnesses.
