(* ===== verification/DnsIntercept.v ===== *)
(** The DNS interception server (src/internal/dnsintercept/server.go).

    Queries for hosts the rules match are answered with the mapped addresses;
    every other query is answered from the cache or forwarded.  Messages have the
    fields of miekg/dns that the program reads or writes; the library's reply
    constructors, its wire format and its network client are parameters. *)
From stdpp Require Import strings.
From Stdlib Require Import Ascii.
From S2P Require Import Prelude GoStrings GoNet External World Rules Config DnsMsg.

Definition withId (m : Msg) (id : Z) : Msg :=
  {| Id := id; Response := Response m; Authoritative := Authoritative m;
     RecursionDesired := RecursionDesired m; RecursionAvailable := RecursionAvailable m; Rcode := Rcode m; MQuestion := MQuestion m;
     Answer := Answer m; Ns := Ns m; Extra := Extra m |}.

Definition withAnswer (m : Msg) (auth ra : bool) (answer : list (option RR)) : Msg :=
  {| Id := Id m; Response := Response m; Authoritative := auth;
     RecursionDesired := RecursionDesired m; RecursionAvailable := ra; Rcode := Rcode m; MQuestion := MQuestion m;
     Answer := answer; Ns := Ns m; Extra := Extra m |}.

(** * The server state *)

Record ServerConfig := {
  SStrategy : gostring;
  SListenAddr : gostring;
  SMapIPv4 : IP;
  SMapIPv6 : IP;
  STTL : Duration;
  SCacheTTL : Duration;
  SBlockHTTPS : bool;
  SForwardTimeout : Duration;
}.

Record cacheEntry := { resp : Msg; expires : Time }.

(** The counters are unsigned 64-bit integers. *)
Record Counters := {
  targetQueries : Z;
  forwardedQueries : Z;
  cacheHits : Z;
  blockedQueries : Z;
  errorQueries : Z;
}.

Record Server := {
  scfg : ServerConfig;
  matcher : Matcher;
  running : bool;
  listenAddr : gostring;
  cache : gmap gostring cacheEntry;
  counters : Counters;
}.

Definition add64 (n : Z) : Z := ((n + 1) mod 2 ^ 64)%Z.

Definition uint32 (n : Z) : Z := (n mod 2 ^ 32)%Z.

Inductive counter := CTarget | CForwarded | CCacheHit | CBlocked | CError.

#[export] Instance counter_eq_dec : EqDecision counter.
Proof. solve_decision. Defined.

Definition bump (c : counter) (k : Counters) : Counters :=
  {| targetQueries := if decide (c = CTarget) then add64 (targetQueries k) else targetQueries k;
     forwardedQueries := if decide (c = CForwarded) then add64 (forwardedQueries k) else forwardedQueries k;
     cacheHits := if decide (c = CCacheHit) then add64 (cacheHits k) else cacheHits k;
     blockedQueries := if decide (c = CBlocked) then add64 (blockedQueries k) else blockedQueries k;
     errorQueries := if decide (c = CError) then add64 (errorQueries k) else errorQueries k |}.

Definition count (s : Server) (c : counter) : Server :=
  {| scfg := scfg s; matcher := matcher s; running := running s; listenAddr := listenAddr s;
     cache := cache s; counters := bump c (counters s) |}.

Definition setCache (s : Server) (m : gmap gostring cacheEntry) : Server :=
  {| scfg := scfg s; matcher := matcher s; running := running s; listenAddr := listenAddr s;
     cache := m; counters := counters s |}.

(** The clock readings of one query: when the cache is looked up, when the
    remaining lifetime is computed and when an answer is stored. *)
Record Clock := { t_lookup : Time; t_until : Time; t_store : Time }.

(** * Configuration *)

Definition ConfigFromApp (cfg : Config) : ServerConfig :=
  let d := DNS cfg in
  let fwd := RTimeout (Resolver cfg) in
  {| SStrategy := Strategy d;
     SListenAddr := TrimSpace (DNSListenAddr d);
     SMapIPv4 := if bool_decide (MapIPv4 d = []) then [] else To4 (ParseIP (MapIPv4 d));
     SMapIPv6 := if bool_decide (MapIPv6 d = []) then [] else To16 (ParseIP (MapIPv6 d));
     STTL := if (TTL d <=? 0)%Z then (30 * Second)%Z else TTL d;
     SCacheTTL := CacheTTL (Resolver cfg);
     SBlockHTTPS := BlockHTTPSRecords d;
     SForwardTimeout := if (fwd <=? 0)%Z then (5 * Second)%Z else fwd |}.

(** The matcher is [None] for a nil pointer. *)
Definition New (cfg : ServerConfig) (m : option Matcher) (hasForwarder : bool) : result Server :=
  match m with
  | None => Err (Errorf "dns intercept matcher is required" [])
  | Some mm =>
      if negb hasForwarder then Err (Errorf "dns intercept forwarder is required" [])
      else if is_blank (SListenAddr cfg) then Err (Errorf "dns intercept listen address is required" [])
      else if bool_decide (SMapIPv4 cfg = []) && bool_decide (SMapIPv6 cfg = [])
      then Err (Errorf "dns intercept requires at least one map address" [])
      else
        Ok {| scfg :=
                {| SStrategy := SStrategy cfg; SListenAddr := SListenAddr cfg;
                   SMapIPv4 := SMapIPv4 cfg; SMapIPv6 := SMapIPv6 cfg;
                   STTL := if (STTL cfg <=? 0)%Z then (30 * Second)%Z else STTL cfg;
                   SCacheTTL := if (SCacheTTL cfg <=? 0)%Z then (10 * Minute)%Z else SCacheTTL cfg;
                   SBlockHTTPS := SBlockHTTPS cfg;
                   SForwardTimeout := if (SForwardTimeout cfg <=? 0)%Z then (5 * Second)%Z
                                      else SForwardTimeout cfg |};
              matcher := mm; running := false; listenAddr := []; cache := ∅;
              counters := {| targetQueries := 0; forwardedQueries := 0; cacheHits := 0;
                             blockedQueries := 0; errorQueries := 0 |} |}
  end.

(** * Record lifetimes *)

Definition allRecords (m : Msg) : list (option RR) := Answer m ++ Ns m ++ Extra m.

(** The loop of responseTTL: the smallest lifetime seen so far. *)
Definition minTTL (records : list (option RR)) : option Z :=
  foldl (fun ttl rr =>
    match rr with
    | None => ttl
    | Some r =>
        match ttl with
        | None => Some (Ttl r)
        | Some t => if (Ttl r <? t)%Z then Some (Ttl r) else ttl
        end
    end) None records.

Definition responseTTL (m : Msg) (maxTTL : Duration) : Duration :=
  let maxTTL' := if (maxTTL <=? 0)%Z then (10 * Minute)%Z else maxTTL in
  match minTTL (allRecords m) with
  | None => maxTTL'
  | Some ttl => let duration := (ttl * Second)%Z in if (maxTTL' <? duration)%Z then maxTTL' else duration
  end.

Definition capRR (remaining : Z) (rr : option RR) : option RR :=
  match rr with
  | Some r => if (remaining <? Ttl r)%Z
              then Some {| RName := RName r; Rrtype := Rrtype r; RClass := RClass r;
                           Ttl := remaining; Rdata := Rdata r |}
              else rr
  | None => None
  end.

Definition capResponseTTL (m : Msg) (remaining : Z) : Msg :=
  {| Id := Id m; Response := Response m; Authoritative := Authoritative m;
     RecursionDesired := RecursionDesired m; RecursionAvailable := RecursionAvailable m; Rcode := Rcode m; MQuestion := MQuestion m;
     Answer := capRR remaining <$> Answer m; Ns := capRR remaining <$> Ns m;
     Extra := capRR remaining <$> Extra m |}.

Section handling.
Context `{Externals} `{DNSLib}.

(** * The cache *)

Definition cacheKey (req : Msg) : option gostring :=
  match MQuestion req with
  | [q] => Some (ToLower (QName q) ++ "|" ++ Itoa (Qtype q) ++ "|" ++ Itoa (Qclass q))
  | _ => None
  end.

Definition getCache (s : Server) (clk : Clock) (req : Msg) : option Msg * Server :=
  match cacheKey req with
  | None => (None, s)
  | Some key =>
      match cache s !! key with
      | None => (None, s)
      | Some entry =>
          if negb (t_lookup clk <? expires entry)%Z
          then (None, setCache s (delete key (cache s)))
          else
            let remaining := uint32 (Z.quot (expires entry - t_until clk) Second) in
            (Some (capResponseTTL (withId (resp entry) (Id req)) remaining), s)
      end
  end.

Definition putCache (s : Server) (clk : Clock) (req response : Msg) : Server :=
  if negb (bool_decide (Rcode response = RcodeSuccess)) then s
  else match cacheKey req with
       | None => s
       | Some key =>
           let ttl := responseTTL response (SCacheTTL (scfg s)) in
           if (ttl <=? 0)%Z then s
           else setCache s (<[key := {| resp := withId response 0; expires := (t_store clk + ttl)%Z |}]> (cache s))
       end.

Definition responseWithRCode (req : Msg) (rcode : Z) : Msg := SetRcode req rcode.

(** [forward] is what the forwarder answers: an error, a message or nil. *)
Definition forwardResponse (s : Server) (clk : Clock) (forward : Msg -> result (option Msg)) (req : Msg)
  : Msg * Server :=
  match getCache s clk req with
  | (Some m, s1) => (m, count s1 CCacheHit)
  | (None, s1) =>
      let s2 := count s1 CForwarded in
      match forward req with
      | Err _ | Ok None => (responseWithRCode req RcodeServerFailure, count s2 CError)
      | Ok (Some m) =>
          let m' := withId m (Id req) in
          (m', putCache s2 clk req m')
      end
  end.

Definition shouldForwardTargetQuery (s : Server) (q : Question) : bool :=
  bool_decide (Qclass q = ClassINET) &&
  (bool_decide (Qtype q = TypeHTTPS) || bool_decide (Qtype q = TypeSVCB)) &&
  negb (SBlockHTTPS (scfg s)).

Definition targetResponse (s : Server) (req : Msg) (q : Question) : Msg * Server :=
  let reply := withAnswer (SetReply req) true true (Answer (SetReply req)) in
  if negb (bool_decide (Qclass q = ClassINET)) then (reply, count s CBlocked)
  else
    let ttl := uint32 (Z.quot (STTL (scfg s)) Second) in
    if bool_decide (Qtype q = TypeA) then
      if bool_decide (SMapIPv4 (scfg s) = []) then (reply, count s CBlocked)
      else (withAnswer reply true true (Answer reply ++
              [Some {| RName := QName q; Rrtype := TypeA; RClass := ClassINET; Ttl := ttl;
                       Rdata := RData_A (To4 (SMapIPv4 (scfg s))) |}]), s)
    else if bool_decide (Qtype q = TypeAAAA) then
      if bool_decide (SMapIPv6 (scfg s) = []) then (reply, count s CBlocked)
      else (withAnswer reply true true (Answer reply ++
              [Some {| RName := QName q; Rrtype := TypeAAAA; RClass := ClassINET; Ttl := ttl;
                       Rdata := RData_AAAA (To16 (SMapIPv6 (scfg s))) |}]), s)
    else if bool_decide (Qtype q = TypeHTTPS) || bool_decide (Qtype q = TypeSVCB) then
      if SBlockHTTPS (scfg s) then (reply, count s CBlocked) else (reply, s)
    else (reply, count s CBlocked).

Definition handle (s : Server) (clk : Clock) (forward : Msg -> result (option Msg)) (req : Msg) : Msg * Server :=
  match MQuestion req with
  | [] => (SetReply req, s)
  | q :: _ =>
      let host := TrimSuffix (QName q) "." in
      match MatchHost (matcher s) host with
      | Some _ =>
          let s1 := count s CTarget in
          if shouldForwardTargetQuery s1 q then forwardResponse s1 clk forward req
          else targetResponse s1 req q
      | None => forwardResponse s clk forward req
      end
  end.

(** [written] says whether the answer could be written to the client. *)
Definition ServeDNS (s : Server) (clk : Clock) (forward : Msg -> result (option Msg)) (req : Msg)
    (written : bool) : Msg * Server :=
  let '(m, s') := handle s clk forward req in
  (m, if written then s' else count s' CError).
End handling.

(** * Sockets

    listenPair binds UDP and TCP on one address.  [tcp] and [udp] are the
    answers of the system to the n-th attempt; a TCP listener reports its port,
    or an address of another kind.  The result lists the sockets left open. *)
Inductive socket := UDPSocket (addr : gostring) | TCPSocket (addr : gostring) (attempt : nat).

#[export] Instance socket_eq_dec : EqDecision socket.
Proof. solve_decision. Defined.

Section listen.
Variable tcp : nat -> gostring -> result (option Z).
Variable udp : nat -> gostring -> result unit.

(** One round of the loop for port 0 closes the TCP listener when the UDP port
    of the same number is taken. *)
Fixpoint listenAny (addr host : gostring) (attempt fuel : nat) (lastErr : error)
  : result gostring * list socket :=
  match fuel with
  | O => (Err (Wrapf "listen DNS TCP/UDP %s after retries: %w" [addr] lastErr), [])
  | S fuel' =>
      match tcp attempt (JoinHostPort host "0") with
      | Err e => (Err (Wrapf "listen DNS TCP %s: %w" [addr] e), [])
      | Ok None => (Err (Errorf "listen DNS TCP %s: unexpected address %s" [addr]), [])
      | Ok (Some port) =>
          let actualAddr := JoinHostPort host (Itoa port) in
          match udp attempt actualAddr with
          | Ok _ => (Ok actualAddr, [UDPSocket actualAddr; TCPSocket actualAddr attempt])
          | Err e => listenAny addr host (S attempt) fuel' e
          end
      end
  end.

Definition listenPair (addr : gostring) : result gostring * list socket :=
  match SplitHostPort addr with
  | Err e => (Err (Wrapf "parse DNS listen address %q: %w" [addr] e), [])
  | Ok (host, port) =>
      if bool_decide (port = "0") then listenAny addr host 0 200 (Errorf [] [])
      else match udp 0 addr with
           | Err e => (Err (Wrapf "listen DNS UDP %s: %w" [addr] e), [])
           | Ok _ =>
               match tcp 0 addr with
               | Err e => (Err (Wrapf "listen DNS TCP %s: %w" [addr] e), [])
               | Ok _ => (Ok addr, [UDPSocket addr; TCPSocket addr 0])
               end
           end
  end.

Definition Start (s : Server) : result unit * Server * list socket :=
  if running s then (Ok tt, s, [])
  else match listenPair (SListenAddr (scfg s)) with
       | (Err e, socks) => (Err e, s, socks)
       | (Ok a, socks) =>
           (Ok tt, {| scfg := scfg s; matcher := matcher s; running := true; listenAddr := a;
                      cache := cache s; counters := counters s |}, socks)
       end.
End listen.

(** The results of shutting the two servers down. *)
Definition Stop (s : Server) (udpErr tcpErr : option error) : option error * Server :=
  let s' := {| scfg := scfg s; matcher := matcher s; running := false; listenAddr := [];
               cache := cache s; counters := counters s |} in
  if running s then
    (errors_Join (match udpErr with Some e => [Wrapf "stop DNS UDP server: %w" [] e] | None => [] end ++
                  match tcpErr with Some e => [Wrapf "stop DNS TCP server: %w" [] e] | None => [] end), s')
  else (None, s').

Record DNSStatus := {
  DStrategy : gostring;
  DListenAddr : gostring;
  DSystemDNS : bool;
  DCounters : Counters;
}.

Definition Status (s : Server) : DNSStatus :=
  {| DStrategy := SStrategy (scfg s);
     DListenAddr := if bool_decide (listenAddr s = []) then SListenAddr (scfg s) else listenAddr s;
     DSystemDNS := false; DCounters := counters s |}.

(** * Forwarding *)

Record RawForwarder := { fmode : gostring; fservers : list gostring; ftimeout : Duration }.

Definition withDefaultDNSPort (server : gostring) : gostring :=
  match SplitHostPort server with
  | Ok _ => server
  | Err _ => JoinHostPort server "53"
  end.

Definition NewRawForwarder (mode : gostring) (servers : list gostring) (timeout : Duration)
  : result RawForwarder :=
  let '(mode1, servers1) :=
    if bool_decide (mode = []) || bool_decide (mode = ResolverSystem)
    then (ResolverDoH, DefaultDoHServers) else (mode, servers) in
  let servers2 := if bool_decide (mode1 = ResolverDoH) && bool_decide (servers1 = [])
                  then DefaultDoHServers else servers1 in
  if bool_decide (servers2 = [])
  then Err (Errorf "dns intercept forwarder requires resolver servers for mode %q" [mode1])
  else
    let timeout' := if (timeout <=? 0)%Z then (5 * Second)%Z else timeout in
    let prepare server :=
      let t := TrimSpace server in
      if bool_decide (mode1 = ResolverUDP) || bool_decide (mode1 = ResolverTCP)
      then withDefaultDNSPort t else t in
    Ok {| fmode := mode1; fservers := prepare <$> servers2; ftimeout := timeout' |}.

Section forwarder.
(** The DNS client, the wire format and the HTTP exchange: the status code, its
    text and the body read up to 65536 bytes. *)
Variable exchange : gostring -> gostring -> Msg -> result Msg.
Variable Pack : Msg -> result gostring.
Variable Unpack : gostring -> result Msg.
Variable httpPost : gostring -> gostring -> result (Z * gostring * result gostring).

Definition forwardDNS (f : RawForwarder) (server : gostring) (req : Msg) : result Msg :=
  let netMode := if bool_decide (fmode f = ResolverTCP) then "tcp" else "udp" in
  exchange netMode server req.

Definition forwardDoH (f : RawForwarder) (server : gostring) (req : Msg) : result Msg :=
  do wire <- Pack req;
  do r <- httpPost server wire;
  let '(status, text, body) := r in
  if (status <? 200)%Z || (300 <=? status)%Z then Err (Errorf "DoH status %s" [text])
  else
    do data <- body;
    Unpack data.

Definition forwardOne (f : RawForwarder) (server : gostring) (req : Msg) : result Msg :=
  if bool_decide (fmode f = ResolverUDP) || bool_decide (fmode f = ResolverTCP)
  then forwardDNS f server req
  else if bool_decide (fmode f = ResolverDoH) then forwardDoH f server req
  else Err (Errorf "unsupported resolver mode %q" [fmode f]).

(** The servers are tried in order; with no server at all the result is a nil
    message and a nil error. *)
Fixpoint forwardLoop (f : RawForwarder) (req : Msg) (servers : list gostring) (errs : list error)
  : result (option Msg) :=
  match servers with
  | [] => match errors_Join errs with Some e => Err e | None => Ok None end
  | server :: rest =>
      match forwardOne f server req with
      | Ok m => Ok (Some m)
      | Err e => forwardLoop f req rest (errs ++ [Wrapf "%s: %w" [server] e])
      end
  end.

Definition Forward (f : RawForwarder) (req : Msg) : result (option Msg) :=
  forwardLoop f req (fservers f) [].
End forwarder.

(** * Properties *)

(** The loop of responseTTL computes the minimum. *)
Lemma minTTL_acc acc rrs :
  foldl (fun ttl rr =>
    match rr with
    | None => ttl
    | Some r => match ttl with
                | None => Some (Ttl r)
                | Some t => if (Ttl r <? t)%Z then Some (Ttl r) else ttl
                end
    end) acc rrs =
  match minTTL rrs, acc with
  | None, _ => acc
  | Some m, None => Some m
  | Some m, Some a => Some (Z.min a m)
  end.
Proof.
  unfold minTTL. revert acc; induction rrs as [|[r|] rrs IH]; intros acc; cbn; [done| |apply IH].
  rewrite IH, (IH (Some (Ttl r))). destruct (foldl _ None rrs) as [m|], acc as [a|]; try done.
  - destruct (Z.ltb_spec (Ttl r) a); f_equal; lia.
  - destruct (Z.ltb_spec (Ttl r) a); f_equal; lia.
Qed.

Lemma minTTL_cons r rrs :
  minTTL (Some r :: rrs) = Some (match minTTL rrs with Some m => Z.min (Ttl r) m | None => Ttl r end).
Proof. unfold minTTL at 1. cbn. rewrite minTTL_acc. by destruct (minTTL rrs). Qed.

Lemma minTTL_nil_cons rrs : minTTL (None :: rrs) = minTTL rrs.
Proof. reflexivity. Qed.

Lemma minTTL_None rrs : minTTL rrs = None <-> forall r, Some r ∉ rrs.
Proof.
  induction rrs as [|[r|] rrs IH].
  - split; [intros _ r; apply not_elem_of_nil|done].
  - rewrite minTTL_cons. split; [done|]. intros Hn. destruct (Hn r). left.
  - rewrite minTTL_nil_cons, IH. setoid_rewrite elem_of_cons. naive_solver.
Qed.

Lemma minTTL_le rrs m r : minTTL rrs = Some m -> Some r ∈ rrs -> (m <= Ttl r)%Z.
Proof.
  revert m; induction rrs as [|[x|] rrs IH]; intros m; [by intros _ ?%elem_of_nil|..].
  - rewrite minTTL_cons. intros Hm Hr. destruct (minTTL rrs) as [k|] eqn:Ek; injection Hm as <-.
    + apply elem_of_cons in Hr as [[= ->]|Hr]; [lia|]. specialize (IH k eq_refl Hr). lia.
    + apply elem_of_cons in Hr as [[= ->]|Hr]; [lia|]. by eapply minTTL_None in Hr.
  - rewrite minTTL_nil_cons. intros Hm [?|Hr]%elem_of_cons; [done|]. by apply IH.
Qed.

(** The lifetime of a stored answer exceeds neither the cache limit nor the
    lifetime of any of its records. *)
Lemma responseTTL_bound m maxTTL :
  (0 < maxTTL)%Z ->
  (responseTTL m maxTTL <= maxTTL)%Z ∧
  forall r, Some r ∈ allRecords m -> (responseTTL m maxTTL <= Ttl r * Second)%Z.
Proof.
  intros Hm. unfold responseTTL. destruct (Z.leb_spec maxTTL 0); [lia|].
  destruct (minTTL (allRecords m)) as [k|] eqn:Ek.
  - assert (Hs : (0 < Second)%Z) by done.
    split; [destruct (Z.ltb_spec maxTTL (k * Second)); lia|]. intros r Hr.
    pose proof (minTTL_le _ _ _ Ek Hr). destruct (Z.ltb_spec maxTTL (k * Second)); nia.
  - split; [lia|]. intros r Hr. by eapply minTTL_None in Hr.
Qed.

Section dns_properties.
Context `{Externals} `{DNSLibLaws}.

Lemma forwardResponse_id s clk f req : Id (forwardResponse s clk f req).1 = Id req.
Proof.
  unfold forwardResponse, getCache, responseWithRCode.
  destruct (cacheKey req) as [key|]; [destruct (cache s !! key) as [e|]; [destruct (negb _)|]|];
    cbn; try done; destruct (f req) as [[m|]|]; cbn; try done; apply SetRcode_spec.
Qed.

Lemma targetResponse_id s req q : Id (targetResponse s req q).1 = Id req.
Proof.
  unfold targetResponse. destruct (SetReply_spec req) as (Hid & _).
  repeat case_match; cbn; exact Hid.
Qed.

(** Every answer carries the id of its request, so no client is ever sent
    the answer to another query, cached answers included. *)
Theorem handle_id s clk f req : Id (handle s clk f req).1 = Id req.
Proof.
  unfold handle. destruct (MQuestion req) as [|q qs]; [apply SetReply_spec|].
  destruct (MatchHost _ _); [|apply forwardResponse_id].
  destruct (shouldForwardTargetQuery _ _); [apply forwardResponse_id|apply targetResponse_id].
Qed.

Lemma targetResponse_cache s req q : cache (targetResponse s req q).2 = cache s.
Proof. unfold targetResponse. repeat case_match; done. Qed.

(** C7: a query for a matched host never reaches the upstream resolver or the
    cache, whatever its type, unless HTTPS records are explicitly let through:
    the answer is the same for every forwarder and clock, and the cache is not
    changed. *)
Theorem target_never_forwarded s req q qs r clk clk' f f' :
  MQuestion req = q :: qs -> MatchHost (matcher s) (TrimSuffix (QName q) ".") = Some r ->
  SBlockHTTPS (scfg s) = true ∨ (Qtype q <> TypeHTTPS ∧ Qtype q <> TypeSVCB) ∨ Qclass q <> ClassINET ->
  handle s clk f req = handle s clk' f' req ∧ cache (handle s clk f req).2 = cache s.
Proof.
  intros Hq Hm Hb. unfold handle. rewrite Hq, Hm.
  assert (Hs : shouldForwardTargetQuery (count s CTarget) q = false).
  { unfold shouldForwardTargetQuery. cbn. destruct Hb as [->|[[H1' H2']|Hc]].
    - by rewrite andb_false_r.
    - by rewrite !(bool_decide_eq_false_2 (Qtype q = _)), andb_false_r by done.
    - by rewrite (bool_decide_eq_false_2 (Qclass q = _)) by done. }
  rewrite Hs. split; [done|]. by rewrite targetResponse_cache.
Qed.

(** An address query for a matched host is answered with exactly the mapped
    address of its family, authoritatively, under the name that was asked for
    and with the configured lifetime in whole seconds. *)
Theorem target_address_answer s req q qs r clk f :
  MQuestion req = q :: qs -> MatchHost (matcher s) (TrimSuffix (QName q) ".") = Some r ->
  Qclass q = ClassINET -> (0 <= STTL (scfg s) < 2 ^ 32 * Second)%Z ->
  let m := (handle s clk f req).1 in
  (Qtype q = TypeA ->
     Rcode m = RcodeSuccess ∧ Authoritative m = true ∧
     Answer m = if decide (SMapIPv4 (scfg s) = []) then []
                else [Some {| RName := QName q; Rrtype := TypeA; RClass := ClassINET;
                              Ttl := STTL (scfg s) / Second; Rdata := RData_A (To4 (SMapIPv4 (scfg s))) |}]) ∧
  (Qtype q = TypeAAAA ->
     Rcode m = RcodeSuccess ∧ Authoritative m = true ∧
     Answer m = if decide (SMapIPv6 (scfg s) = []) then []
                else [Some {| RName := QName q; Rrtype := TypeAAAA; RClass := ClassINET;
                              Ttl := STTL (scfg s) / Second; Rdata := RData_AAAA (To16 (SMapIPv6 (scfg s))) |}]).
Proof.
  intros Hq Hm Hc Ht. cbn zeta. unfold handle. rewrite Hq, Hm.
  destruct (SetReply_spec req) as (_ & _ & Hr & Ha & _).
  assert (Httl : uint32 (Z.quot (STTL (scfg s)) Second) = (STTL (scfg s) / Second)%Z).
  { rewrite Z.quot_div_nonneg by (done || lia). unfold uint32. apply Z.mod_small.
    split; [apply Z.div_pos; [lia|done]|]. apply Z.div_lt_upper_bound; [done|]. lia. }
  split; intros Ht'; unfold shouldForwardTargetQuery, targetResponse; rewrite Hc, Ht';
    cbn [scfg count]; eval_tests; rewrite Ha, Httl; case_bool_decide as Hm4.
  all: destruct (decide _); try done.
Qed.

(** ** The cache *)

Lemma cacheKey_parts req key : cacheKey req = Some key ->
  exists q, MQuestion req = [q] ∧ key = ToLower (QName q) ++ "|" ++ Itoa (Qtype q) ++ "|" ++ Itoa (Qclass q).
Proof.
  unfold cacheKey. destruct (MQuestion req) as [|q [|]]; try done. intros [= <-]. by exists q.
Qed.

Lemma Itoa_no_bar z : chr 124 ∉ Itoa z.
Proof.
  assert (Hd : forall n, chr 124 ∉ ItoaN n).
  { intros n Hin. pose proof (ItoaN_digits n) as Hds. rewrite forallb_forall in Hds.
    apply list_elem_of_In, Hds in Hin. by vm_compute in Hin. }
  unfold Itoa. destruct (z <? 0)%Z; [|apply Hd]. rewrite not_elem_of_cons. split; [done|apply Hd].
Qed.

Lemma Itoa_inj a b : (0 <= a)%Z -> (0 <= b)%Z -> Itoa a = Itoa b -> a = b.
Proof.
  intros Ha Hb. unfold Itoa. destruct (Z.ltb_spec a 0), (Z.ltb_spec b 0); try lia.
  intros E%ItoaN_inj. lia.
Qed.

Lemma bar_split (a b x y : gostring) :
  chr 124 ∉ b -> chr 124 ∉ y -> a ++ chr 124 :: b = x ++ chr 124 :: y -> a = x ∧ b = y.
Proof.
  intros Hb Hy E. assert (Hl : length a = length x).
  { pose proof (LastIndexByte_app a (chr 124) b Hb) as H1'. rewrite E, LastIndexByte_app in H1' by done. congruence. }
  apply app_inj_1 in E as [-> E]; [|done]. by injection E as ->.
Qed.

(** Two cacheable queries share a cache entry exactly when their names are
    equal up to letter case and their types and classes are equal. *)
Theorem cacheKey_eq req req' q q' :
  MQuestion req = [q] -> MQuestion req' = [q'] ->
  (0 <= Qtype q ∧ 0 <= Qclass q ∧ 0 <= Qtype q' ∧ 0 <= Qclass q')%Z ->
  cacheKey req = cacheKey req' <->
  ToLower (QName q) = ToLower (QName q') ∧ Qtype q = Qtype q' ∧ Qclass q = Qclass q'.
Proof.
  intros Hq Hq' (H1' & H2' & H3' & H4'). unfold cacheKey. rewrite Hq, Hq'. split.
  - intros E. apply (inj Some) in E. rewrite !app_assoc in E.
    rewrite <-(app_assoc _ "|" (Itoa (Qclass q))), <-(app_assoc _ "|" (Itoa (Qclass q'))) in E. cbn [app] in E.
    apply bar_split in E as [E Ec]; [|apply Itoa_no_bar..].
    rewrite <-!app_assoc in E. cbn [app] in E. apply bar_split in E as [E Et]; [|apply Itoa_no_bar..].
    split_and!; [done|by apply Itoa_inj..].
  - by intros (-> & -> & ->).
Qed.

Lemma put_get s clk clk' req req' m :
  cacheKey req = cacheKey req' -> is_Some (cacheKey req) -> Rcode m = RcodeSuccess ->
  (0 < responseTTL m (SCacheTTL (scfg s)))%Z ->
  (t_lookup clk' < t_store clk + responseTTL m (SCacheTTL (scfg s)))%Z ->
  getCache (putCache s clk req m) clk' req' =
    (Some (capResponseTTL (withId m (Id req'))
       (uint32 (Z.quot (t_store clk + responseTTL m (SCacheTTL (scfg s)) - t_until clk') Second))),
     putCache s clk req m).
Proof.
  intros Hk [key Hkey] Hr Ht Hl. unfold putCache, getCache. rewrite <-Hk, Hkey, Hr.
  rewrite bool_decide_eq_true_2 by done. cbn [negb].
  destruct (Z.leb_spec (responseTTL m (SCacheTTL (scfg s))) 0); [lia|]. cbn [setCache cache].
  rewrite lookup_insert_eq. cbn [expires resp]. rewrite (proj2 (Z.ltb_lt _ _) Hl). done.
Qed.

(** A record as it comes back with [left] seconds to live: the same record, which
    lives as long as it did or as long as is left, whichever is shorter. *)
Definition aged (left : Z) (a b : option RR) : Prop :=
  match a, b with
  | None, None => True
  | Some r, Some r' => RName r' = RName r ∧ Rrtype r' = Rrtype r ∧ RClass r' = RClass r ∧ Rdata r' = Rdata r ∧
      Ttl r' = Z.min left (Ttl r)
  | _, _ => False
  end.

Lemma capRR_aged left l : Forall2 (aged left) l (capRR left <$> l).
Proof.
  apply Forall2_fmap_r, Forall_Forall2_diag, Forall_true. intros [r|]; cbn; [|done].
  destruct (Z.ltb_spec left (Ttl r)); cbn; split_and!; (done || lia).
Qed.

(** C27: the cache returns what was stored: until a stored answer expires, any query with
    the same key gets it with its own id: the same code, flags and question, and all of
    its records in every section, in order, unchanged but for their lifetimes, which are
    capped by the whole seconds left.  The expiry keeps to the lifetime of every record
    and to the configured maximum, so nothing outlives either. *)
Theorem cache_roundtrip s clk clk' req req' m :
  cacheKey req = cacheKey req' -> is_Some (cacheKey req) -> Rcode m = RcodeSuccess ->
  (0 < SCacheTTL (scfg s) < 2 ^ 32 * Second)%Z ->
  let ttl := responseTTL m (SCacheTTL (scfg s)) in
  let deadline := (t_store clk + ttl)%Z in
  (0 < ttl)%Z -> (t_store clk <= t_lookup clk' <= t_until clk')%Z -> (t_until clk' <= deadline)%Z ->
  (t_lookup clk' < deadline)%Z ->
  exists m' left, (getCache (putCache s clk req m) clk' req').1 = Some m' ∧
    left = ((deadline - t_until clk') / Second)%Z ∧
    Id m' = Id req' ∧ MQuestion m' = MQuestion m ∧ Rcode m' = Rcode m ∧ Response m' = Response m ∧
    Authoritative m' = Authoritative m ∧ RecursionDesired m' = RecursionDesired m ∧
    RecursionAvailable m' = RecursionAvailable m ∧
    Forall2 (aged left) (Answer m) (Answer m') ∧ Forall2 (aged left) (Ns m) (Ns m') ∧
    Forall2 (aged left) (Extra m) (Extra m') ∧
    (t_until clk' + left * Second <= deadline <= t_store clk + SCacheTTL (scfg s))%Z ∧
    (forall r, Some r ∈ allRecords m -> deadline <= t_store clk + Ttl r * Second)%Z.
Proof.
  intros Hk Hs Hr Hc ttl deadline Ht Ho Hu Hl. rewrite put_get by done. fold ttl. fold deadline.
  set (rem := (deadline - t_until clk')%Z).
  destruct (responseTTL_bound m (SCacheTTL (scfg s)) ltac:(lia)) as [Hb Hbr]. fold ttl in Hb, Hbr.
  assert (Hrem : uint32 (Z.quot rem Second) = (rem / Second)%Z).
  { unfold rem, deadline in *. rewrite Z.quot_div_nonneg by (done || lia). unfold uint32. apply Z.mod_small.
    split; [apply Z.div_pos; [lia|done]|]. apply Z.div_lt_upper_bound; [done|]. lia. }
  rewrite Hrem. eexists _, (rem / Second)%Z. split; [done|]. split; [done|]. do 7 (split; [done|]). do 3 (split; [apply capRR_aged|]).
  pose proof (Z.mul_div_le rem Second ltac:(done)) as Hm. unfold rem, deadline in *.
  split; [lia|]. intros r Hin. apply Hbr in Hin. lia.
Qed.

(** A failed or empty answer of the forwarder becomes SERVFAIL, is counted
    as an error and leaves no trace in the cache. *)
Theorem forward_failure s clk f req :
  cacheKey req = None ∨ (exists k, cacheKey req = Some k ∧ cache s !! k = None) ->
  (exists e, f req = Err e) ∨ f req = Ok None ->
  Rcode (forwardResponse s clk f req).1 = RcodeServerFailure ∧
  cache (forwardResponse s clk f req).2 = cache s ∧
  errorQueries (counters (forwardResponse s clk f req).2) = add64 (errorQueries (counters s)).
Proof.
  intros Hk Hf. assert (Hg : getCache s clk req = (None, s)).
  { unfold getCache. destruct Hk as [->|(k & -> & ->)]; done. }
  unfold forwardResponse. rewrite Hg.
  destruct Hf as [[e ->]| ->]; cbn; (split; [apply SetRcode_spec|done]).
Qed.

(** An answer that holds a record of lifetime zero is never cached.  The OPT
    pseudo-record of EDNS counts as such a record: its TTL field holds flags and
    is zero in an ordinary answer, so answers to EDNS clients are not cached. *)
Theorem zero_ttl_not_cached s clk req m r :
  Some r ∈ allRecords m -> Ttl r = 0%Z ->
  putCache s clk req m = s.
Proof.
  intros Hr Hz. unfold putCache. destruct (negb _); [done|]. destruct (cacheKey req); [|done].
  destruct (Z.leb_spec (responseTTL m (SCacheTTL (scfg s))) 0) as [|Hp]; [done|]. exfalso.
  unfold responseTTL in Hp. destruct (minTTL (allRecords m)) as [k|] eqn:Ek.
  - pose proof (minTTL_le _ _ _ Ek Hr). assert (0 < Second)%Z by done.
    destruct (Z.ltb_spec (if (SCacheTTL (scfg s) <=? 0)%Z then (10 * Minute)%Z else SCacheTTL (scfg s)) (k * Second)); nia.
  - by eapply minTTL_None in Hr.
Qed.
End dns_properties.

(** ** Sockets *)

Section socket_properties.
Context (tcp : nat -> gostring -> result (option Z)) (udp : nat -> gostring -> result unit).

Lemma listenAny_sockets addr host attempt fuel e0 :
  match listenAny tcp udp addr host attempt fuel e0 with
  | (Err _, socks) => socks = []
  | (Ok a, socks) => exists k p, attempt <= k < attempt + fuel ∧
      tcp k (JoinHostPort host "0") = Ok (Some p) ∧ a = JoinHostPort host (Itoa p) ∧
      socks = [UDPSocket a; TCPSocket a k]
  end.
Proof.
  revert attempt e0; induction fuel as [|fuel IH]; intros attempt e0; cbn [listenAny]; [done|].
  destruct (tcp attempt _) as [[p|]|] eqn:Et; try done.
  destruct (udp attempt _) as [[]|e].
  - exists attempt, p. split_and!; [lia..|done|done|done].
  - specialize (IH (S attempt) e). destruct (listenAny _ _ _ _ _ fuel e) as [[a|] socks]; [|done].
    destruct IH as (k & p' & ? & ? & ? & ?). exists k, p'. split_and!; [lia..|done|done|done].
Qed.

(** Binding is all or nothing: on failure no socket stays open, however many
    attempts were made, and on success exactly one UDP and one TCP socket are
    open on the address that is reported. *)
Theorem listenPair_no_leak addr :
  match listenPair tcp udp addr with
  | (Err _, socks) => socks = []
  | (Ok a, socks) => exists k, k < 200 ∧ socks = [UDPSocket a; TCPSocket a k]
  end.
Proof.
  unfold listenPair. destruct (SplitHostPort addr) as [[host port]|]; [|done].
  case_bool_decide.
  - pose proof (listenAny_sockets addr host 0 200 (Errorf [] [])) as Hl.
    destruct (listenAny _ _ _ _ _ _ _) as [[a|] socks]; [|done].
    destruct Hl as (k & p & Hk & _ & _ & ->). exists k. split; [lia|done].
  - destruct (udp 0 addr) as [[]|]; [|done]. destruct (tcp 0 addr) as [?|]; [|done].
    exists 0. split; [lia|done].
Qed.
End socket_properties.

(** ** Forwarding *)

Section forward_properties.
Context (exchange : gostring -> gostring -> Msg -> result Msg) (Pack : Msg -> result gostring)
  (Unpack : gostring -> result Msg)
  (httpPost : gostring -> gostring -> result (Z * gostring * result gostring)).

#[local] Abbreviation one := (forwardOne exchange Pack Unpack httpPost).

Lemma forwardLoop_some f req servers errs m :
  forwardLoop exchange Pack Unpack httpPost f req servers errs = Ok (Some m) <->
  exists pre server post, servers = pre ++ server :: post ∧ one f server req = Ok m ∧
    forall s', s' ∈ pre -> is_ok (one f s' req) = false.
Proof.
  revert errs; induction servers as [|server servers IH]; intros errs; cbn [forwardLoop].
  - split; [by destruct (errors_Join errs)|]. by intros ([] & ? & ? & ? & _).
  - destruct (one f server req) as [m0|e] eqn:E.
    + split.
      * intros [= <-]. exists [], server, servers. split_and!; [done..|]. by intros ? ?%elem_of_nil.
      * intros ([|p pre] & s' & post & [= <- ->] & Hs & Hpre); [congruence|].
        specialize (Hpre server ltac:(left)). by rewrite E in Hpre.
    + rewrite IH. split.
      * intros (pre & s' & post & -> & Hs & Hpre). exists (server :: pre), s', post. split_and!; [done..|].
        intros x [->|Hx]%elem_of_cons; [by rewrite E|by apply Hpre].
      * intros ([|p pre] & s' & post & [= <- ->] & Hs & Hpre); [congruence|].
        exists pre, s', post. split_and!; [done..|]. intros x Hx. apply Hpre. by right.
Qed.

Lemma forwardLoop_none f req servers errs :
  errs <> [] ∨ servers <> [] -> forwardLoop exchange Pack Unpack httpPost f req servers errs <> Ok None.
Proof.
  revert errs; induction servers as [|server servers IH]; intros errs; cbn [forwardLoop].
  - intros [Hne|]; [|done]. by destruct errs.
  - intros _. destruct (forwardOne _ _ _ _ f server req); [done|]. apply IH. left. by destruct errs.
Qed.

(** A forwarder that could be created asks its servers in order and returns
    the first answer; it fails only when every server fails, and never returns
    nothing without an error. *)
Theorem Forward_first mode servers timeout f req :
  NewRawForwarder mode servers timeout = Ok f ->
  Forward exchange Pack Unpack httpPost f req <> Ok None ∧
  forall m, Forward exchange Pack Unpack httpPost f req = Ok (Some m) <->
    exists pre server post, fservers f = pre ++ server :: post ∧ one f server req = Ok m ∧
      forall s', s' ∈ pre -> is_ok (one f s' req) = false.
Proof.
  intros Hf. unfold Forward. split; [|intros m; apply forwardLoop_some].
  apply forwardLoop_none. right. unfold NewRawForwarder in Hf.
  destruct (if _ || _ then _ else _) as [mode1 servers1]. case_bool_decide as Hn; [done|].
  injection Hf as <-. cbn [fservers]. intros E. by apply fmap_nil_inv in E.
Qed.
End forward_properties.

(** ** Witnesses *)

Section dns_witnesses.
#[local] Existing Instance simple_externals.

#[local] Existing Instance simple_dns.

Definition sample_server : Server :=
  {| scfg := {| SStrategy := "manual"; SListenAddr := "127.0.0.1:53"; SMapIPv4 := [127; 0; 0; 1]%Z;
                SMapIPv6 := []; STTL := (30 * Second)%Z; SCacheTTL := (10 * Minute)%Z;
                SBlockHTTPS := true; SForwardTimeout := (5 * Second)%Z |};
     matcher := canonical_matcher [{| GroupName := "g"; Domains := ["github.com"] |}];
     running := true; listenAddr := "127.0.0.1:53"; cache := ∅;
     counters := {| targetQueries := 0; forwardedQueries := 0; cacheHits := 0; blockedQueries := 0;
                    errorQueries := 0 |} |}.

Definition query (id : Z) (name : gostring) (qtype : Z) : Msg :=
  {| Id := id; Response := false; Authoritative := false; RecursionDesired := true; RecursionAvailable := false; Rcode := 0;
     MQuestion := [{| QName := name; Qtype := qtype; Qclass := ClassINET |}];
     Answer := []; Ns := []; Extra := [] |}.
Definition clock0 : Clock := {| t_lookup := 0%Z; t_until := 0%Z; t_store := 0%Z |}.
Definition failing : Msg -> result (option Msg) := fun _ => Err (External "timeout").
Definition reply_with (ttl : Z) : Msg :=
  {| Id := 9; Response := true; Authoritative := false; RecursionDesired := true; RecursionAvailable := true; Rcode := 0;
     MQuestion := [{| QName := "example.org."; Qtype := TypeA; Qclass := ClassINET |}];
     Answer := [Some {| RName := "example.org."; Rrtype := TypeA; RClass := ClassINET; Ttl := ttl;
                        Rdata := RData_A [1; 2; 3; 4]%Z |}]; Ns := []; Extra := [] |}.

Lemma handle_id_witness : Id (handle sample_server clock0 failing (query 7 "github.com." TypeA)).1 = 7%Z.
Proof. apply (handle_id sample_server clock0 failing (query 7 "github.com." TypeA)). Defined.

Lemma target_never_forwarded_witness :
  cache (handle sample_server clock0 failing (query 7 "GitHub.com." TypeHTTPS)).2 = ∅.
Proof.
  refine (proj2 (target_never_forwarded sample_server (query 7 "GitHub.com." TypeHTTPS) _ []
    {| MHost := "github.com"; MGroupName := "g"; MRule := "github.com" |} clock0 clock0 failing failing
    eq_refl _ _)); [vm_compute; reflexivity|by left].
Defined.

Lemma target_address_answer_witness :
  Answer (handle sample_server clock0 failing (query 7 "GitHub.com." TypeA)).1 =
  [Some {| RName := "GitHub.com."; Rrtype := TypeA; RClass := ClassINET; Ttl := 30;
           Rdata := RData_A [127; 0; 0; 1]%Z |}].
Proof.
  refine (proj2 (proj2 (proj1 (target_address_answer sample_server (query 7 "GitHub.com." TypeA) _ []
    {| MHost := "github.com"; MGroupName := "g"; MRule := "github.com" |} clock0 failing
    eq_refl _ eq_refl _) eq_refl))); [vm_compute; reflexivity|by vm_compute].
Defined.

Lemma cacheKey_eq_witness :
  cacheKey (query 1 "A.org." TypeA) = cacheKey (query 2 "a.ORG." TypeA).
Proof.
  apply (cacheKey_eq (query 1 "A.org." TypeA) (query 2 "a.ORG." TypeA) _ _ eq_refl eq_refl);
    [by vm_compute|by vm_compute].
Defined.

Lemma cache_roundtrip_witness : exists m' r,
  (getCache (putCache sample_server clock0 (query 1 "example.org." TypeA) (reply_with 60))
     {| t_lookup := Second; t_until := Second; t_store := Second |} (query 2 "EXAMPLE.org." TypeA)).1 = Some m' ∧
  Id m' = 2%Z ∧ Rcode m' = RcodeSuccess ∧ Answer m' = [Some r] ∧ Rdata r = RData_A [1; 2; 3; 4]%Z ∧ Ttl r = 59%Z.
Proof.
  destruct (cache_roundtrip sample_server clock0 {| t_lookup := Second; t_until := Second; t_store := Second |}
    (query 1 "example.org." TypeA) (query 2 "EXAMPLE.org." TypeA) (reply_with 60))
    as (m' & left & Hm & Hleft & Hid & _ & Hrc & _ & _ & _ & _ & Ha & _); [reflexivity|by eexists|reflexivity|by vm_compute..|].
  apply Forall2_cons_inv_l in Ha as ([r|] & l & Hr & Hl & Ha); [|destruct Hr].
  apply Forall2_nil_inv_l in Hl as ->. destruct Hr as (_ & _ & _ & Hd & Ht).
  exists m', r. split; [exact Hm|]. split; [exact Hid|]. split; [exact Hrc|]. split; [exact Ha|]. split; [exact Hd|].
  rewrite Ht, Hleft. vm_compute. reflexivity.
Defined.

Lemma forward_failure_witness :
  Rcode (forwardResponse sample_server clock0 failing (query 1 "example.org." TypeA)).1 = RcodeServerFailure.
Proof.
  apply (forward_failure sample_server clock0 failing (query 1 "example.org." TypeA));
    [right; eexists; split; reflexivity|left; by eexists].
Defined.

Lemma zero_ttl_not_cached_witness :
  putCache sample_server clock0 (query 1 "example.org." TypeA) (reply_with 0) = sample_server.
Proof. eapply zero_ttl_not_cached; [left|reflexivity]. Defined.

Lemma Forward_first_witness :
  Forward (fun _ _ m => Ok m) (fun _ => Err (External [])) (fun _ => Err (External [])) (fun _ _ => Err (External []))
    {| fmode := "udp"; fservers := ["1.1.1.1:53"]; ftimeout := Second |} (reply_with 1) <> Ok None.
Proof.
  apply (Forward_first (fun _ _ m => Ok m) (fun _ => Err (External [])) (fun _ => Err (External []))
    (fun _ _ => Err (External [])) "udp" [" 1.1.1.1"] Second). vm_compute. reflexivity.
Defined.
End dns_witnesses.
