(* ===== verification/Upstream.v ===== *)
(** Outbound dialing (src/internal/upstream/upstream.go and probe.go): candidate
    selection, the direct dialer's TCP and TLS loops, the HTTP proxy dialer, proxy
    addresses and the TLS settings of a profile.

    The network is a parameter: what a TCP dial and a TLS handshake answer.  A
    connection is identified by its address, and every loop returns the list of
    connections it leaves open besides its result. *)
From stdpp Require Import strings.
From Stdlib Require Import Ascii.
From S2P Require Import Prelude GoStrings GoNet External Rules Profile Config.

(** * Configuration *)

Record UpConfig := {
  CType : gostring;
  CAddress : gostring;
  CUsername : gostring;
  CPassword : gostring;
  CTimeout : Duration;
  CProfiles : list Profile;
}.

Definition profileOf (p : OutboundProfileConfig) : Profile :=
  {| MatchDomains := OMatchDomains p; CandidateIPs := OCandidateIPs p; ForwardHost := OForwardHost p;
     TLSServerName := OTLSServerName p; IgnoreTLSNameMismatch := OIgnoreTLSNameMismatch p |}.

(** Provider profiles come before the configured ones. *)
Definition ConfigFromApp (cfg : Config) (providerProfiles : list Profile) : UpConfig :=
  {| CType := UType (Upstream cfg); CAddress := UAddress (Upstream cfg);
     CUsername := UUsername (Upstream cfg); CPassword := UPassword (Upstream cfg);
     CTimeout := DialTimeout (Proxy cfg);
     CProfiles := providerProfiles ++ (profileOf <$> UProfiles (Upstream cfg)) |}.

(** * Dial attempts and their error *)

Record DirectDialAttempt := {
  Stage : gostring;
  AttemptIP : IP;
  Address : gostring;
  Target : gostring;
  AttemptErr : option error;
}.

Record DirectDialError := {
  ENetwork : gostring;
  EHost : gostring;
  EPort : gostring;
  ResolveErr : option error;
  Attempts : list DirectDialAttempt;
}.

Section error_text.
(** The text of an error value. *)
Variable text : error -> gostring.

Definition attemptError (a : DirectDialAttempt) : gostring :=
  let stage := if bool_decide (Stage a = []) then "tcp" else Stage a in
  let target := if negb (bool_decide (Target a = [])) && negb (bool_decide (Target a = Address a))
                then Address a ++ " (" ++ Target a ++ ")" else Address a in
  match AttemptErr a with
  | None => stage ++ " " ++ target ++ " failed"
  | Some e => stage ++ " " ++ target ++ " failed: " ++ text e
  end.

Definition dialErrorText (e : DirectDialError) : gostring :=
  let target := JoinHostPort (EHost e) (EPort e) in
  match ResolveErr e with
  | Some re => "direct upstream resolve " ++ target ++ " failed: " ++ text re
  | None =>
      match Attempts e with
      | [] => "direct upstream dial " ++ target ++ " failed: no target IPs"
      | _ =>
          let n := length (Attempts e) in
          let limit := Nat.min n 5 in
          "direct upstream dial " ++ target ++ " failed after " ++ ItoaNat n ++ " attempt(s): " ++
          Join (attemptError <$> take limit (Attempts e)) "; " ++
          (if bool_decide (0 < n - limit) then "; " ++ ItoaNat (n - limit) ++ " more attempt(s) omitted" else [])
      end
  end.
End error_text.

Definition unwrap (e : DirectDialError) : option error :=
  match ResolveErr e with
  | Some re => Some re
  | None => match Attempts e with [a] => AttemptErr a | _ => None end
  end.

(** * TLS settings of a candidate *)

(** The parts of tls.Config the program looks at.  [Certs] are the peer's
    certificates, [Roots] a certificate pool. *)
Record TLSConfig (Roots Cert : Type) := {
  ServerName : gostring;
  InsecureSkipVerify : bool;
  RootCAs : option Roots;
  VerifyConnection : option (list Cert -> option error);
}.
Arguments ServerName {Roots Cert} t.
Arguments InsecureSkipVerify {Roots Cert} t.
Arguments RootCAs {Roots Cert} t.
Arguments VerifyConnection {Roots Cert} t.

Section tls_settings.
Context {Roots Cert : Type}.
(** x509: chain verification of the leaf against the roots with the rest of the
    chain as intermediates, without and with a host name. *)
Variable verifyChain : option Roots -> Cert -> list Cert -> option error.
Variable verifyName : gostring -> Cert -> option error.

Definition chainOnly (rootCAs : option Roots) (verifyHost : gostring)
    (inner : option (list Cert -> option error)) (certs : list Cert) : option error :=
  match certs with
  | [] => Some (Errorf "server did not present certificates" [])
  | leaf :: rest =>
      match verifyChain rootCAs leaf rest with
      | Some e => Some (Wrapf "verify certificate chain without hostname %q: %w" [verifyHost] e)
      | None => match inner with Some f => f certs | None => None end
      end
  end.

Definition cloneTLSConfig (cfg : option (TLSConfig Roots Cert)) (serverName verifyHost : gostring)
    (ignoreNameMismatch : bool) : TLSConfig Roots Cert :=
  let cloned := match cfg with
                | Some c => c
                | None => {| ServerName := []; InsecureSkipVerify := false; RootCAs := None;
                             VerifyConnection := None |}
                end in
  let name := if bool_decide (ServerName cloned = []) then serverName else ServerName cloned in
  if ignoreNameMismatch && negb (InsecureSkipVerify cloned)
  then {| ServerName := name; InsecureSkipVerify := true; RootCAs := RootCAs cloned;
          VerifyConnection := Some (chainOnly (RootCAs cloned) verifyHost (VerifyConnection cloned)) |}
  else {| ServerName := name; InsecureSkipVerify := InsecureSkipVerify cloned; RootCAs := RootCAs cloned;
          VerifyConnection := VerifyConnection cloned |}.

(** crypto/tls accepts a peer when the standard verification (unless skipped)
    and then VerifyConnection succeed. *)
Definition tls_accepts (c : TLSConfig Roots Cert) (certs : list Cert) : bool :=
  (if InsecureSkipVerify c then true
   else match certs with
        | [] => false
        | leaf :: rest =>
            match verifyChain (RootCAs c) leaf rest, verifyName (ServerName c) leaf with
            | None, None => true
            | _, _ => false
            end
        end) &&
  match VerifyConnection c with
  | Some f => match f certs with None => true | Some _ => false end
  | None => true
  end.
End tls_settings.

(** * Candidates *)

Record dialCandidate := {
  cip : IP;
  caddress : gostring;
  ctarget : gostring;
  cServerName : gostring;
  cIgnoreName : bool;
}.

#[export] Instance dialCandidate_eq_dec : EqDecision dialCandidate.
Proof. solve_decision. Defined.

(** The key under which a candidate counts as seen. *)
Definition candidateKey (address target serverName : gostring) : gostring :=
  address ++ [chr 0] ++ target ++ [chr 0] ++ serverName.

Definition addCandidate (host port target serverName : gostring) (ignore : bool)
    (s : gset gostring * list dialCandidate) (ip : IP) : gset gostring * list dialCandidate :=
  if bool_decide (ip = []) then s
  else
    let name := if bool_decide (serverName = []) then host else serverName in
    let address := JoinHostPort (IPString ip) port in
    let key := candidateKey address target name in
    if bool_decide (key ∈ s.1) then s
    else ({[key]} ∪ s.1,
          s.2 ++ [{| cip := ip; caddress := address; ctarget := target; cServerName := name;
                     cIgnoreName := ignore |}]).

Definition profileTLSServerName (p : compiledProfile) (host : gostring) : gostring :=
  if bool_decide (tlsServerName p = []) then host else tlsServerName p.

Section dialing.
Context `{Externals} {Roots Cert : Type} (verifyChain : option Roots -> Cert -> list Cert -> option error).

(** What the resolver answers. *)
Variable resolve : gostring -> result (list IP).

Definition addResolved (host port resolveHost serverName : gostring) (ignore : bool)
    (s : gset gostring * list dialCandidate * list DirectDialAttempt)
  : gset gostring * list dialCandidate * list DirectDialAttempt :=
  let '(acc, attempts) := s in
  match resolve resolveHost with
  | Err e => (acc, attempts ++ [{| Stage := "resolve"; AttemptIP := [];
                                   Address := JoinHostPort resolveHost port; Target := [];
                                   AttemptErr := Some e |}])
  | Ok ips => (foldl (addCandidate host port resolveHost serverName ignore) acc ips, attempts)
  end.

Definition candidates (profiles : list compiledProfile) (host port : gostring)
  : result (list dialCandidate * list DirectDialAttempt) :=
  match matchProfile profiles host with
  | None =>
      do ips <- resolve host;
      Ok ((fun ip => {| cip := ip; caddress := JoinHostPort (IPString ip) port; ctarget := host;
                        cServerName := host; cIgnoreName := false |}) <$> ips, [])
  | Some profile =>
      let name := profileTLSServerName profile host in
      let ignore := ignoreTLSNameMismatch profile in
      let s1 := foldl (addCandidate host port "profile-ip" name ignore) (∅, []) (candidateIPs profile) in
      let s2 := if negb (bool_decide (forwardHost profile = []))
                then addResolved host port (forwardHost profile) name ignore (s1, [])
                else (s1, []) in
      let '(acc, attempts) := addResolved host port host host ignore s2 in
      Ok (acc.2, attempts)
  end.

(** * The dial loops *)

(** What [net.Dialer.DialContext] answers for an address, and the TLS handshake
    for a connection to an address and the TLS settings. *)
Variable dial : gostring -> result unit.
Variable handshake : gostring -> TLSConfig Roots Cert -> result unit.

(** The handshake of DialTLSContext and probeHTTPS with a candidate. *)
Definition secure (cfg : option (TLSConfig Roots Cert)) (host : gostring) (c : dialCandidate) : result unit :=
  handshake (caddress c) (cloneTLSConfig verifyChain cfg (cServerName c) host (cIgnoreName c)).

Inductive dial_outcome :=
| Connected (c : dialCandidate)
| SplitFailed (e : error)
| DialFailed (e : DirectDialError).

Definition failedAttempt (stage : gostring) (c : dialCandidate) (e : error) : DirectDialAttempt :=
  {| Stage := stage; AttemptIP := cip c; Address := caddress c; Target := ctarget c; AttemptErr := Some e |}.

(** The loops return the chosen candidate or the attempts, and the addresses of
    the connections that are open at the end. *)
Fixpoint dialLoop (cs : list dialCandidate) (attempts : list DirectDialAttempt)
  : (dialCandidate + list DirectDialAttempt) * list gostring :=
  match cs with
  | [] => (inr attempts, [])
  | c :: cs' =>
      match dial (caddress c) with
      | Ok _ => (inl c, [caddress c])
      | Err e => dialLoop cs' (attempts ++ [failedAttempt "tcp" c e])
      end
  end.

Fixpoint dialTLSLoop (cfg : option (TLSConfig Roots Cert)) (host : gostring)
    (cs : list dialCandidate) (attempts : list DirectDialAttempt) (openConns : list gostring)
  : (dialCandidate + list DirectDialAttempt) * list gostring :=
  match cs with
  | [] => (inr attempts, openConns)
  | c :: cs' =>
      match dial (caddress c) with
      | Err e => dialTLSLoop cfg host cs' (attempts ++ [failedAttempt "tcp" c e]) openConns
      | Ok _ =>
          let opened := openConns ++ [caddress c] in
          match secure cfg host c with
          | Ok _ => (inl c, opened)
          | Err e =>
              let closed := take (length opened - 1) opened in
              dialTLSLoop cfg host cs' (attempts ++ [failedAttempt "tls" c e]) closed
          end
      end
  end.

Definition dialWith (loop : gostring -> list dialCandidate -> list DirectDialAttempt ->
      (dialCandidate + list DirectDialAttempt) * list gostring)
    (profiles : list compiledProfile) (network address : gostring) : dial_outcome * list gostring :=
  match SplitHostPort address with
  | Err e => (SplitFailed (Wrapf "split target address: %w" [] e), [])
  | Ok (host, port) =>
      match candidates profiles host port with
      | Err e => (DialFailed {| ENetwork := network; EHost := host; EPort := port;
                                ResolveErr := Some e; Attempts := [] |}, [])
      | Ok (cs, attempts) =>
          let '(r, conns) := loop host cs attempts in
          match r with
          | inl c => (Connected c, conns)
          | inr failed => (DialFailed {| ENetwork := network; EHost := host; EPort := port;
                                         ResolveErr := None; Attempts := failed |}, conns)
          end
      end
  end.

Definition DialContext : list compiledProfile -> gostring -> gostring -> dial_outcome * list gostring :=
  dialWith (fun _ => dialLoop).
Definition DialTLSContext (profiles : list compiledProfile) (network address : gostring)
    (tlsConfig : option (TLSConfig Roots Cert)) : dial_outcome * list gostring :=
  dialWith (fun host cs attempts => dialTLSLoop tlsConfig host cs attempts []) profiles network address.
End dialing.

(** * Proxy addresses *)

Definition defaultPortForScheme (scheme : gostring) : gostring :=
  if bool_decide (scheme = "http") then "8080"
  else if bool_decide (scheme = "socks5") then "1080"
  else "0".

Section proxy_address.
Context `{Externals}.

Definition parseProxyAddress (address defaultScheme username password : gostring)
  : result (gostring * gostring * gostring) :=
  let trimmed := TrimSpace address in
  if bool_decide (trimmed = []) then Err (Errorf "upstream address is required" [])
  else
    let full := if Contains trimmed "://" then trimmed else defaultScheme ++ "://" ++ trimmed in
    match url_Parse full with
    | Err _ => Err (Errorf "parse upstream address: invalid URL" [])
    | Ok parsed =>
        if bool_decide (URLHost parsed = []) then Err (Errorf "upstream address host is required" [])
        else
          let username' := match URLUser parsed with
                           | Some (u, _) => if bool_decide (username = []) then u else username
                           | None => username
                           end in
          let password' := match URLUser parsed with
                           | Some (_, Some p) => if bool_decide (password = []) then p else password
                           | _ => password
                           end in
          let host := match SplitHostPort (URLHost parsed) with
                      | Ok _ => URLHost parsed
                      | Err _ => JoinHostPort (URLHost parsed) (defaultPortForScheme defaultScheme)
                      end in
          Ok (host, username', password')
    end.

(** NewHTTPDialer and NewSOCKS5Dialer. *)
Record ProxyDialer := { proxyAddr : gostring; username : gostring; password : gostring; ptimeout : Duration }.

Definition newProxyDialer (cfg : UpConfig) (scheme : gostring) : result ProxyDialer :=
  let timeout := if (CTimeout cfg <=? 0)%Z then (30 * Second)%Z else CTimeout cfg in
  do x <- parseProxyAddress (CAddress cfg) scheme (CUsername cfg) (CPassword cfg);
  let '(addr, user, pass) := x in
  Ok {| proxyAddr := addr; username := user; password := pass; ptimeout := timeout |}.

Inductive Dialer :=
| DirectDialer (profiles : list compiledProfile) (timeout : Duration)
| HTTPDialer (d : ProxyDialer)
| SOCKS5Dialer (d : ProxyDialer).

Definition NewDialer (cfg : UpConfig) (hasResolver : bool) : result Dialer :=
  let timeout := if (CTimeout cfg <=? 0)%Z then (30 * Second)%Z else CTimeout cfg in
  if bool_decide (CType cfg = []) || bool_decide (CType cfg = UpstreamDirect) then
    if negb hasResolver then Err (Errorf "resolver is required for direct upstream" [])
    else do compiled <- compileProfiles (CProfiles cfg); Ok (DirectDialer compiled timeout)
  else if bool_decide (CType cfg = UpstreamHTTP) then rmap HTTPDialer (newProxyDialer cfg "http")
  else if bool_decide (CType cfg = UpstreamSOCKS5) then rmap SOCKS5Dialer (newProxyDialer cfg "socks5")
  else Err (Errorf "unsupported upstream type %q" [CType cfg]).
End proxy_address.

(** * Probes *)

Record ProbeResult := {
  RProviderID : gostring;
  RHost : gostring;
  RTarget : gostring;
  RTLSServerName : gostring;
  ROK : bool;
  RStage : gostring;
  RHTTPStatus : gostring;
  RError : gostring;
}.

Definition normalizeProbeTarget (t : ProbeTarget) : ProbeTarget :=
  let host := TrimSpace (TargetHost t) in
  let port := TrimSpace (TargetPort t) in
  let path := TrimSpace (TargetPath t) in
  {| ProviderID := ProviderID t; TargetHost := host;
     TargetPort := if bool_decide (port = []) then "443" else port;
     TargetPath := if bool_decide (path = []) || negb (HasPrefix path "/") then "/" else path |}.

Definition appendProbeFailure (failures : list gostring) (failure : gostring) : list gostring :=
  let f := TrimSpace failure in
  if bool_decide (f = []) then failures
  else if bool_decide (3 <= length failures) then failures
  else failures ++ [f].

Section probing.
Context `{Externals} {Roots Cert : Type} (verifyChain : option Roots -> Cert -> list Cert -> option error).
Variable text : error -> gostring.
Variable resolve : gostring -> result (list IP).
Variable dial : gostring -> result unit.
Variable handshake : gostring -> TLSConfig Roots Cert -> result unit.
(** The TLS settings of the probe options. *)
Variable tlsConfig : option (TLSConfig Roots Cert).
(** The HEAD request over an established connection: its status line. *)
Variable head : dialCandidate -> ProbeTarget -> result gostring.

Definition probeAttemptsError (attempts : list DirectDialAttempt) : gostring :=
  Join (foldl (fun fs a => appendProbeFailure fs (attemptError text a)) [] attempts) "; ".

Fixpoint probeLoop (t : ProbeTarget) (cs : list dialCandidate) (failures : list gostring)
    (r : ProbeResult) : ProbeResult * list gostring :=
  match cs with
  | [] => (r, failures)
  | c :: cs' =>
      let at_ stage := {| RProviderID := RProviderID r; RHost := RHost r; RTarget := ctarget c;
                          RTLSServerName := cServerName c; ROK := false; RStage := stage;
                          RHTTPStatus := RHTTPStatus r; RError := RError r |} in
      match dial (caddress c) with
      | Err e => probeLoop t cs' (appendProbeFailure failures (attemptError text (failedAttempt "tcp" c e))) (at_ "tcp")
      | Ok _ =>
          match secure verifyChain handshake tlsConfig (TargetHost t) c with
          | Err e => probeLoop t cs' (appendProbeFailure failures (attemptError text (failedAttempt "tls" c e))) (at_ "tls")
          | Ok _ =>
              match head c t with
              | Err e =>
                  probeLoop t cs' (appendProbeFailure failures
                    ("http " ++ JoinHostPort (TargetHost t) (TargetPort t) ++ " failed: " ++ text e)) (at_ "http")
              | Ok status =>
                  ({| RProviderID := RProviderID r; RHost := RHost r; RTarget := ctarget c;
                      RTLSServerName := cServerName c; ROK := true; RStage := "http";
                      RHTTPStatus := status; RError := [] |}, failures)
              end
          end
      end
  end.

Definition withError (r : ProbeResult) (e : gostring) : ProbeResult :=
  {| RProviderID := RProviderID r; RHost := RHost r; RTarget := RTarget r; RTLSServerName := RTLSServerName r;
     ROK := ROK r; RStage := RStage r; RHTTPStatus := RHTTPStatus r; RError := e |}.

Definition first_nonempty (xs : list gostring) : gostring :=
  default [] (List.find (fun x => negb (bool_decide (x = []))) xs).

Definition probeHTTPS (profiles : list compiledProfile) (t : ProbeTarget) : ProbeResult :=
  let r0 := {| RProviderID := ProviderID t; RHost := TargetHost t; RTarget := []; RTLSServerName := [];
               ROK := false; RStage := "resolve"; RHTTPStatus := []; RError := [] |} in
  match candidates resolve profiles (TargetHost t) (TargetPort t) with
  | Err e => withError r0 (text e)
  | Ok ([], attempts) => withError r0 (first_nonempty [probeAttemptsError attempts; "no probe candidates"])
  | Ok (cs, attempts) =>
      let failures := foldl (fun fs a => appendProbeFailure fs (attemptError text a)) [] attempts in
      let '(r, failures') := probeLoop t cs failures r0 in
      if ROK r then r
      else withError r (first_nonempty [Join failures' "; "; probeAttemptsError attempts; "all probe candidates failed"])
  end.

(** The probes run concurrently and each writes its own slot of the results. *)
Definition ProbeHTTPS (profiles : list compiledProfile) (targets : list ProbeTarget) : list ProbeResult :=
  (fun t => probeHTTPS profiles (normalizeProbeTarget t)) <$> targets.
End probing.

(** * Properties *)

Section loop_properties.
Context {Roots Cert : Type} (verifyChain : option Roots -> Cert -> list Cert -> option error)
  (dial : gostring -> result unit) (handshake : gostring -> TLSConfig Roots Cert -> result unit)
  (cfg : option (TLSConfig Roots Cert)) (host : gostring).
#[local] Abbreviation secured := (secure verifyChain handshake cfg host).

(** A candidate works when it can be dialed and, for TLS, the handshake succeeds;
    otherwise it contributes one attempt. *)
Definition tcp_fails (c : dialCandidate) (a : DirectDialAttempt) : Prop :=
  exists e, dial (caddress c) = Err e ∧ a = failedAttempt "tcp" c e.
Definition tls_fails (c : dialCandidate) (a : DirectDialAttempt) : Prop :=
  tcp_fails c a ∨ exists u e, dial (caddress c) = Ok u ∧ secured c = Err e ∧ a = failedAttempt "tls" c e.

Lemma dialLoop_spec cs attempts :
  match dialLoop dial cs attempts with
  | (inl c, conns) => conns = [caddress c] ∧ is_ok (dial (caddress c)) = true ∧
      exists pre post, cs = pre ++ c :: post ∧ forall c', c' ∈ pre -> is_ok (dial (caddress c')) = false
  | (inr failed, conns) => conns = [] ∧ exists tried, failed = attempts ++ tried ∧ Forall2 tcp_fails cs tried
  end.
Proof.
  revert attempts; induction cs as [|c cs IH]; intros attempts; cbn [dialLoop].
  { split; [done|]. exists []. by rewrite app_nil_r. }
  destruct (dial (caddress c)) as [u|e] eqn:Ed.
  - split_and!; [done|by rewrite Ed|]. exists [], cs. split; [done|]. by intros ? ?%elem_of_nil.
  - specialize (IH (attempts ++ [failedAttempt "tcp" c e])).
    destruct (dialLoop dial cs _) as [[c'|failed] conns].
    + destruct IH as (-> & Hok & pre & post & -> & Hpre). split_and!; [done..|].
      exists (c :: pre), post. split; [done|]. intros x [->|Hx]%elem_of_cons; [by rewrite Ed|by apply Hpre].
    + destruct IH as (-> & tried & -> & Hf). split; [done|]. exists (failedAttempt "tcp" c e :: tried).
      split; [by rewrite <-app_assoc|]. constructor; [by exists e|done].
Qed.

Lemma dialTLSLoop_spec cs attempts conns0 :
  match dialTLSLoop verifyChain dial handshake cfg host cs attempts conns0 with
  | (inl c, conns) => conns = conns0 ++ [caddress c] ∧ is_ok (dial (caddress c)) = true ∧
      is_ok (secured c) = true ∧
      exists pre post, cs = pre ++ c :: post ∧
        forall c', c' ∈ pre -> is_ok (dial (caddress c')) && is_ok (secured c') = false
  | (inr failed, conns) => conns = conns0 ∧ exists tried, failed = attempts ++ tried ∧ Forall2 tls_fails cs tried
  end.
Proof.
  revert attempts conns0; induction cs as [|c cs IH]; intros attempts conns0; cbn [dialTLSLoop].
  { split; [done|]. exists []. by rewrite app_nil_r. }
  assert (Hclose : take (length (conns0 ++ [caddress c]) - 1) (conns0 ++ [caddress c]) = conns0).
  { rewrite length_app. cbn [length]. rewrite Nat.add_sub. apply take_app_length. }
  destruct (dial (caddress c)) as [u|e] eqn:Ed; [destruct (secured c) as [v|e] eqn:Eh|].
  - split_and!; [done|by rewrite Ed|by rewrite Eh|]. exists [], cs. split; [done|]. by intros ? ?%elem_of_nil.
  - rewrite Hclose. specialize (IH (attempts ++ [failedAttempt "tls" c e]) conns0).
    destruct (dialTLSLoop verifyChain dial handshake cfg host cs _ _) as [[c'|failed] conns].
    + destruct IH as (-> & Hok & Hk & pre & post & -> & Hpre). split_and!; [done..|].
      exists (c :: pre), post. split; [done|].
      intros x [->|Hx]%elem_of_cons; [by rewrite Eh, andb_false_r|by apply Hpre].
    + destruct IH as (-> & tried & -> & Hf). split; [done|]. exists (failedAttempt "tls" c e :: tried).
      split; [by rewrite <-app_assoc|]. constructor; [right; eauto|done].
  - specialize (IH (attempts ++ [failedAttempt "tcp" c e]) conns0).
    destruct (dialTLSLoop verifyChain dial handshake cfg host cs _ _) as [[c'|failed] conns].
    + destruct IH as (-> & Hok & Hk & pre & post & -> & Hpre). split_and!; [done..|].
      exists (c :: pre), post. split; [done|].
      intros x [->|Hx]%elem_of_cons; [by rewrite Ed|by apply Hpre].
    + destruct IH as (-> & tried & -> & Hf). split; [done|]. exists (failedAttempt "tcp" c e :: tried).
      split; [by rewrite <-app_assoc|]. constructor; [left; by exists e|done].
Qed.
End loop_properties.

Section dial_properties.
Context `{Externals} (resolve : gostring -> result (list IP)) {Roots Cert : Type}
  (verifyChain : option Roots -> Cert -> list Cert -> option error) (dial : gostring -> result unit)
  (handshake : gostring -> TLSConfig Roots Cert -> result unit).

(** A TLS dial returns the first candidate, in order of preference, that both
    connects and completes its handshake; it fails only when every candidate
    fails and then reports one attempt per candidate after the failed lookups;
    and it leaves no connection open but the one it returns. *)
Theorem DialTLSContext_spec profiles network address cfg :
  match DialTLSContext verifyChain resolve dial handshake profiles network address cfg with
  | (Connected c, conns) =>
      conns = [caddress c] ∧ exists host port cs attempts pre post,
        SplitHostPort address = Ok (host, port) ∧
        candidates resolve profiles host port = Ok (cs, attempts) ∧ cs = pre ++ c :: post ∧
        is_ok (dial (caddress c)) = true ∧ is_ok (secure verifyChain handshake cfg host c) = true ∧
        forall c', c' ∈ pre -> is_ok (dial (caddress c')) && is_ok (secure verifyChain handshake cfg host c') = false
  | (SplitFailed _, conns) => conns = [] ∧ is_ok (SplitHostPort address) = false
  | (DialFailed e, conns) =>
      conns = [] ∧ SplitHostPort address = Ok (EHost e, EPort e) ∧
      match ResolveErr e with
      | Some re => candidates resolve profiles (EHost e) (EPort e) = Err re
      | None => exists cs attempts tried, candidates resolve profiles (EHost e) (EPort e) = Ok (cs, attempts) ∧
          Attempts e = attempts ++ tried ∧ Forall2 (tls_fails verifyChain dial handshake cfg (EHost e)) cs tried
      end
  end.
Proof.
  unfold DialTLSContext, dialWith. destruct (SplitHostPort address) as [[host port]|]; [|done].
  destruct (candidates resolve profiles host port) as [[cs attempts]|] eqn:Ec; cbn [EHost EPort ResolveErr]; [|done].
  pose proof (dialTLSLoop_spec verifyChain dial handshake cfg host cs attempts []) as Hl.
  destruct (dialTLSLoop verifyChain dial handshake cfg host cs attempts []) as [[c|failed] conns].
  - destruct Hl as (-> & Hd & Hh & pre & post & Hcs & Hpre). split; [done|].
    exists host, port, cs, attempts, pre, post. by split_and!.
  - destruct Hl as (-> & tried & Hf & Ht). cbn [ResolveErr EHost EPort Attempts]. split_and!; [done..|].
    by exists cs, attempts, tried.
Qed.

End dial_properties.

(** ** Candidates *)

Section candidate_properties.
Context `{Externals} (resolve : gostring -> result (list IP)).

(** The candidates of one source: they lead to its target with its server name,
    for distinct addresses. *)
Definition source (host port target name : gostring) (ignore : bool) (c : dialCandidate) : Prop :=
  ctarget c = target ∧ cServerName c = (if bool_decide (name = []) then host else name) ∧
  cIgnoreName c = ignore ∧ caddress c = JoinHostPort (IPString (cip c)) port ∧ cip c <> [].

Definition key_of (c : dialCandidate) : gostring := candidateKey (caddress c) (ctarget c) (cServerName c).

Definition seen_ok (s : gset gostring * list dialCandidate) : Prop :=
  NoDup (key_of <$> s.2) ∧ forall k, k ∈ s.1 <-> k ∈ key_of <$> s.2.

Lemma addCandidate_spec host port target name ignore s ip :
  seen_ok s ->
  let s' := addCandidate host port target name ignore s ip in
  seen_ok s' ∧ (exists new, s'.2 = s.2 ++ new ∧ Forall (source host port target name ignore) new) ∧
  (ip <> [] -> candidateKey (JoinHostPort (IPString ip) port) target (if bool_decide (name = []) then host else name) ∈ s'.1) ∧
  (forall k, k ∈ s.1 -> k ∈ s'.1).
Proof.
  intros [Hnd Hs]. cbn zeta. unfold addCandidate.
  destruct (bool_decide_reflect (ip = [])) as [Hip|Hip].
  { split_and!; [done| |done|done]. exists []. rewrite app_nil_r. by split. }
  set (nm := if bool_decide (name = []) then host else name).
  set (k0 := candidateKey (JoinHostPort (IPString ip) port) target nm).
  case_bool_decide as Hk.
  { split_and!; [done| |done|done]. exists []. rewrite app_nil_r. by split. }
  split_and!; cbn [fst snd].
  - split; cbn [fst snd]; rewrite fmap_app; cbn [fmap list_fmap key_of].
    + apply NoDup_app. split_and!; [done| |by apply NoDup_singleton].
      intros x Hx ->%list_elem_of_singleton. by apply Hk, Hs.
    + intros k. rewrite elem_of_union, elem_of_singleton, elem_of_app, list_elem_of_singleton, Hs. tauto.
  - eexists. split; [done|]. repeat constructor; cbn; done.
  - intros _. set_solver.
  - set_solver.
Qed.

Lemma foldl_addCandidate host port target name ignore ips s :
  seen_ok s ->
  let s' := foldl (addCandidate host port target name ignore) s ips in
  seen_ok s' ∧ (exists new, s'.2 = s.2 ++ new ∧ Forall (source host port target name ignore) new) ∧
  (forall ip, ip ∈ ips -> ip <> [] ->
     candidateKey (JoinHostPort (IPString ip) port) target (if bool_decide (name = []) then host else name) ∈ s'.1) ∧
  (forall k, k ∈ s.1 -> k ∈ s'.1).
Proof.
  revert s; induction ips as [|ip ips IH]; intros s Hs; cbn [foldl].
  { split_and!; [done| |by intros ? ?%elem_of_nil|done]. exists []. rewrite app_nil_r. by split. }
  destruct (addCandidate_spec host port target name ignore s ip Hs) as (Hs1 & (n1 & E1 & F1) & Hin & Hmono).
  destruct (IH _ Hs1) as (Hs2 & (n2 & E2 & F2) & Hin2 & Hmono2). split_and!; [done| | |].
  - exists (n1 ++ n2). rewrite E2, E1, app_assoc. split; [done|]. by apply Forall_app.
  - intros x [->|Hx]%elem_of_cons Hne; [by apply Hmono2, Hin|by apply Hin2].
  - intros k Hk. by apply Hmono2, Hmono.
Qed.

Lemma addResolved_spec host port target name ignore s attempts :
  seen_ok s ->
  let '(s', attempts') := addResolved resolve host port target name ignore (s, attempts) in
  seen_ok s' ∧ (exists new, s'.2 = s.2 ++ new ∧ Forall (source host port target name ignore) new) ∧
  (forall ips ip, resolve target = Ok ips -> ip ∈ ips -> ip <> [] ->
     candidateKey (JoinHostPort (IPString ip) port) target (if bool_decide (name = []) then host else name) ∈ s'.1) ∧
  (is_ok (resolve target) = false -> s' = s ∧ length attempts' = S (length attempts)).
Proof.
  intros Hs. unfold addResolved. destruct (resolve target) as [ips|e].
  - destruct (foldl_addCandidate host port target name ignore ips s Hs) as (? & ? & Hin & _).
    split_and!; [done..| |done]. intros ips' ip [= <-]. apply Hin.
  - split_and!; [done| |done|]. { exists []. rewrite app_nil_r. by split. }
    intros _. split; [done|]. rewrite length_app. cbn. lia.
Qed.

(** For a host with a profile the candidates are tried in the order pinned
    addresses, forward host, original host, none twice; the first two carry the
    profile's server name and the last the original host, and every address the
    original host resolves to remains as a fallback, so a profile never makes a
    reachable host unreachable. *)
Theorem candidates_profile profiles host port p :
  matchProfile profiles host = Some p ->
  exists cs attempts a b c, candidates resolve profiles host port = Ok (cs, attempts) ∧ cs = a ++ b ++ c ∧
    NoDup (key_of <$> cs) ∧
    Forall (source host port "profile-ip" (profileTLSServerName p host) (ignoreTLSNameMismatch p)) a ∧
    Forall (source host port (forwardHost p) (profileTLSServerName p host) (ignoreTLSNameMismatch p)) b ∧
    Forall (source host port host host (ignoreTLSNameMismatch p)) c ∧
    (forall ips ip, host <> [] -> resolve host = Ok ips -> ip ∈ ips -> ip <> [] ->
       candidateKey (JoinHostPort (IPString ip) port) host host ∈ key_of <$> cs).
Proof.
  intros Hm. unfold candidates. rewrite Hm.
  set (name := profileTLSServerName p host). set (ig := ignoreTLSNameMismatch p).
  assert (H0 : seen_ok (∅, [])) by (split; [constructor|set_solver]).
  destruct (foldl_addCandidate host port "profile-ip" name ig (candidateIPs p) _ H0) as (H1 & (a & Ea & Fa) & _ & _).
  set (s1 := foldl _ (∅, []) _) in *. cbn [snd app] in Ea.
  assert (H2 : exists s2 at2 b, (if negb (bool_decide (forwardHost p = []))
      then addResolved resolve host port (forwardHost p) name ig (s1, []) else (s1, [])) = (s2, at2) ∧
    seen_ok s2 ∧ s2.2 = a ++ b ∧ Forall (source host port (forwardHost p) name ig) b).
  { destruct (negb _).
    - pose proof (addResolved_spec host port (forwardHost p) name ig s1 [] H1) as Hr.
      destruct (addResolved _ _ _ _ _ _ _) as [s2 at2]. destruct Hr as (? & (b & Eb & Fb) & _).
      exists s2, at2, b. split_and!; [done..| |done]. by rewrite Eb, Ea.
    - exists s1, [], []. split_and!; [done..| |constructor]. by rewrite app_nil_r. }
  destruct H2 as (s2 & at2 & b & E2 & Hs2 & Eb & Fb). rewrite E2.
  pose proof (addResolved_spec host port host host ig s2 at2 Hs2) as Hr.
  destruct (addResolved resolve host port host host ig (s2, at2)) as [s3 at3].
  destruct Hr as ([Hnd Hk] & (c & Ec & Fc) & Hin & _).
  exists s3.2, at3, a, b, c. split_and!; [done|by rewrite Ec, Eb, app_assoc|done..|].
  intros ips ip Hne Hips Hip Hn. rewrite <-Hk. specialize (Hin ips ip Hips Hip Hn).
  by rewrite bool_decide_eq_false_2 in Hin.
Qed.

(** Whether the profile of a host, where it has one, opted out of verifying names. *)
Definition opted_out (profiles : list compiledProfile) (host : gostring) : bool :=
  match matchProfile profiles host with Some p => ignoreTLSNameMismatch p | None => false end.

(** The names a candidate's certificate may be verified against: the host dialed, and for
    the addresses the host's profile chose also the name that profile set. *)
Definition name_for (profiles : list compiledProfile) (host : gostring) (c : dialCandidate) (name : gostring) : Prop :=
  name = host ∨ exists p, matchProfile profiles host = Some p ∧ tlsServerName p <> [] ∧ name = tlsServerName p ∧
    (ctarget c = "profile-ip" ∨ ctarget c = forwardHost p).

Lemma candidates_named profiles host port cs attempts :
  candidates resolve profiles host port = Ok (cs, attempts) ->
  Forall (fun c => cIgnoreName c = opted_out profiles host ∧ name_for profiles host c (cServerName c)) cs.
Proof.
  intros Hc. unfold opted_out. destruct (matchProfile profiles host) as [p|] eqn:Em.
  - destruct (candidates_profile profiles host port p Em) as (cs' & at' & a & b & c & Hc' & -> & _ & Ha & Hb & Hd & _).
    rewrite Hc' in Hc. injection Hc as <- _.
    assert (Hn : (if bool_decide (profileTLSServerName p host = []) then host else profileTLSServerName p host) = host ∨
      tlsServerName p <> [] ∧ profileTLSServerName p host = tlsServerName p).
    { unfold profileTLSServerName. repeat case_bool_decide; by auto. }
    rewrite !Forall_app. split_and!; (eapply Forall_impl; [eassumption|]); intros x (Ht & Hs & Hi & _); (split; [done|]).
    + rewrite Hs. destruct Hn as [->|[Hne Hn]]; [by left|right; exists p]. rewrite Hn, bool_decide_eq_false_2 by done. by auto.
    + rewrite Hs. destruct Hn as [->|[Hne Hn]]; [by left|right; exists p]. rewrite Hn, bool_decide_eq_false_2 by done. by auto.
    + left. rewrite Hs. by case_bool_decide.
  - unfold candidates in Hc. rewrite Em in Hc. destruct (resolve host) as [ips|]; [|done]. injection Hc as <- _.
    apply Forall_fmap, Forall_true. intros ip. split; [done|by left].
Qed.
End candidate_properties.

(** ** Certificate verification *)

Section tls_properties.
Context {Roots Cert : Type} (verifyChain : option Roots -> Cert -> list Cert -> option error)
  (verifyName : gostring -> Cert -> option error).

(** A profile that ignores name mismatches still never accepts a peer whose
    certificate chain does not verify against the configured roots, keeps any
    verification hook of the caller, and without that option the name is
    verified as well. *)
Lemma cloneTLSConfig_verifies cfg serverName host ignore certs :
  let base := default {| ServerName := []; InsecureSkipVerify := false; RootCAs := None; VerifyConnection := None |} cfg in
  InsecureSkipVerify base = false ->
  tls_accepts verifyChain verifyName (cloneTLSConfig verifyChain cfg serverName host ignore) certs = true ->
  exists leaf rest, certs = leaf :: rest ∧ verifyChain (RootCAs base) leaf rest = None ∧
    (forall f, VerifyConnection base = Some f -> f certs = None) ∧
    (ignore = false -> verifyName (if bool_decide (ServerName base = []) then serverName else ServerName base) leaf = None).
Proof.
  cbn zeta. set (base := default _ cfg). intros Hi.
  assert (Hc : cloneTLSConfig verifyChain cfg serverName host ignore =
    cloneTLSConfig verifyChain (Some base) serverName host ignore) by (by destruct cfg).
  rewrite Hc. clear Hc. clearbody base. unfold cloneTLSConfig, tls_accepts. rewrite Hi.
  destruct ignore; cbn [andb negb InsecureSkipVerify VerifyConnection RootCAs ServerName].
  - unfold chainOnly. destruct certs as [|leaf rest]; [done|].
    destruct (verifyChain _ leaf rest) eqn:Ev; [done|]. intros Hv. exists leaf, rest.
    split_and!; [done..| |done]. intros f Hf. rewrite Hf in Hv. by destruct (f (leaf :: rest)).
  - destruct certs as [|leaf rest]; [done|]. destruct (verifyChain _ leaf rest) eqn:Ev; [done|].
    destruct (verifyName _ leaf) eqn:En; [done|]. intros Hv. exists leaf, rest.
    split_and!; [done..| |done]. intros f Hf. rewrite Hf in Hv. by destruct (f (leaf :: rest)).
Qed.

Context `{Externals} (resolve : gostring -> result (list IP)) (dial : gostring -> result unit)
  (handshake : gostring -> TLSConfig Roots Cert -> result unit) (peer : gostring -> list Cert).

(** C14: a TLS connection is only ever returned to a peer whose certificate chain
    verifies against the caller's roots and passes the caller's own verification
    hook.  The leaf's name is verified too, unless the profile that matches the host
    opted out of that: against the name the caller set, or else against the host or, for
    an address that the host's profile chose, the name that profile set. *)
Theorem DialTLSContext_secure profiles network address cfg c conns :
  let base := default {| ServerName := []; InsecureSkipVerify := false; RootCAs := None; VerifyConnection := None |} cfg in
  (forall a t, is_ok (handshake a t) = true -> tls_accepts verifyChain verifyName t (peer a) = true) ->
  InsecureSkipVerify base = false ->
  DialTLSContext verifyChain resolve dial handshake profiles network address cfg = (Connected c, conns) ->
  exists host port leaf rest, SplitHostPort address = Ok (host, port) ∧
    peer (caddress c) = leaf :: rest ∧ verifyChain (RootCAs base) leaf rest = None ∧
    (forall f, VerifyConnection base = Some f -> f (peer (caddress c)) = None) ∧
    (opted_out profiles host = false ->
       exists name, verifyName name leaf = None ∧
         if bool_decide (ServerName base = []) then name_for profiles host c name else name = ServerName base).
Proof.
  cbn zeta. intros Hh Hi. unfold DialTLSContext, dialWith.
  destruct (SplitHostPort address) as [[host port]|]; [|done].
  destruct (candidates resolve profiles host port) as [[cs attempts]|] eqn:Ec; [|done].
  pose proof (dialTLSLoop_spec verifyChain dial handshake cfg host cs attempts []) as Hl.
  destruct (dialTLSLoop _ _ _ _ _ _ _ _) as [[c'|failed] conns']; [|done].
  intros [= -> <-]. destruct Hl as (_ & _ & Hok & pre & post & Hcs & _).
  destruct (cloneTLSConfig_verifies cfg (cServerName c) host (cIgnoreName c) (peer (caddress c))) as (leaf & rest & Hp & Hv & Hf & Hn);
    [done|by apply Hh|].
  apply candidates_named in Ec. subst cs. apply Forall_app in Ec as [_ [[Hig Hname] _]%Forall_cons].
  exists host, port, leaf, rest. split_and!; [done..|]. intros Ho. rewrite <-Hig in Ho. eexists. split; [by apply Hn|].
  by case_bool_decide.
Qed.
End tls_properties.

(** ** Proxy addresses *)

Section proxy_address_properties.
Context `{Externals}.

Lemma bracketed_join v port :
  is_ok (SplitHostPort (JoinHostPort ([lbracket] ++ v ++ [rbracket]) port)) = false ∨ colon ∉ v.
Proof.
  destruct (decide (colon ∈ v)) as [Hc|]; [left|by right].
  destruct (SplitHostPort _) as [[h p]|] eqn:E; [|done]. exfalso.
  apply SplitHostPort_Ok in E as (_ & _ & _ & Hl & Hr & E').
  unfold JoinHostPort in E'. rewrite bool_decide_eq_true_2 in E' by set_solver. cbn [app] in E'.
  destruct E' as [[E' Hch]|E'].
  - destruct h as [|x h]; [by injection E'|]. injection E' as <- _. apply Hl. left.
  - injection E' as E'. destruct h as [|x h]; [by injection E'|]. injection E' as <- _. apply Hl. left.
Qed.

(** An IPv6 proxy address without a port is turned into an address that can
    never be dialed: net/url keeps the brackets of the host and joining the
    default port adds a second pair. *)
Theorem ipv6_proxy_without_port v scheme u p parsed :
  colon ∈ v -> url_Parse (scheme ++ "://" ++ [lbracket] ++ v ++ [rbracket]) = Ok parsed ->
  URLHost parsed = [lbracket] ++ v ++ [rbracket] -> is_ok (SplitHostPort (URLHost parsed)) = false ->
  TrimSpace ([lbracket] ++ v ++ [rbracket]) = [lbracket] ++ v ++ [rbracket] ->
  Contains ([lbracket] ++ v ++ [rbracket]) "://" = false ->
  exists addr u' p', parseProxyAddress ([lbracket] ++ v ++ [rbracket]) scheme u p = Ok (addr, u', p') ∧
    is_ok (SplitHostPort addr) = false.
Proof.
  intros Hc Hp Hh Hs Ht Hn. unfold parseProxyAddress. rewrite Ht, Hn, Hp.
  rewrite !bool_decide_eq_false_2 by (rewrite ?Hh; done).
  destruct (SplitHostPort (URLHost parsed)) as [?|]; [done|]. eexists _, _, _. split; [done|].
  rewrite Hh. by destruct (bracketed_join v (defaultPortForScheme scheme)).
Qed.
End proxy_address_properties.

(** * Witnesses *)

Section witnesses.
#[local] Existing Instance simple_externals.

Definition demo_profile : compiledProfile :=
  {| matchDomains := [{| dhost := "a.b"; dwildcard := false |}]; candidateIPs := [[10; 0; 0; 1]]%Z;
     forwardHost := "c.d"; tlsServerName := "e.f"; ignoreTLSNameMismatch := true |}.
Definition demo_resolve (h : gostring) : result (list IP) := Ok [[10; 0; 0; 2]]%Z.

Lemma candidates_profile_witness :
  exists cs attempts, candidates demo_resolve [demo_profile] "a.b" "443" = Ok (cs, attempts) ∧
    "10.0.0.2:443" ∈ (caddress <$> cs).
Proof.
  destruct (@candidates_profile simple_externals demo_resolve [demo_profile] "a.b" "443" demo_profile ltac:(vm_compute; reflexivity))
              as (cs & attempts & _ & _ & _ & E & _).
  exists cs, attempts. split; [done|]. vm_compute in E. injection E as <- <-. by_decide.
Defined.

(** Certificates are numbers; a chain verifies when its leaf is 1, and the
    name is that of one host. *)
Definition demo_chain (roots : option unit) (leaf : nat) (rest : list nat) : option error :=
  if bool_decide (leaf = 1) then None else Some (External "x509: unknown authority").
Definition demo_name (name : gostring) (leaf : nat) : option error :=
  if bool_decide (name = "c.d") then None else Some (External "x509: wrong name").
Definition demo_peer (address : gostring) : list nat :=
  if bool_decide (address = "10.0.0.1:443") then [2] else [1].
Definition demo_handshake (address : gostring) (t : TLSConfig unit nat) : result unit :=
  if tls_accepts demo_chain demo_name t (demo_peer address) then Ok tt else Err (External "tls").

(** The pinned address presents an untrusted certificate, the forward host a
    trusted one for another name; a host without a profile must show its own name. *)
Lemma DialTLSContext_secure_witness :
  (exists c leaf rest, (DialTLSContext demo_chain demo_resolve (fun _ => Ok tt) demo_handshake [demo_profile]
      "tcp" "a.b:443" None).1 = Connected c ∧
    demo_peer (caddress c) = leaf :: rest ∧ demo_chain None leaf rest = None) ∧
  (exists c leaf rest name, (DialTLSContext demo_chain demo_resolve (fun _ => Ok tt) demo_handshake [demo_profile]
      "tcp" "c.d:443" None).1 = Connected c ∧
    demo_peer (caddress c) = leaf :: rest ∧ demo_name name leaf = None ∧ name_for [demo_profile] "c.d" c name).
Proof.
  assert (Hh : forall a t, is_ok (demo_handshake a t) = true -> tls_accepts demo_chain demo_name t (demo_peer a) = true).
  { intros a t. unfold demo_handshake. by destruct (tls_accepts _ _ _ _). }
  split.
  - destruct (DialTLSContext demo_chain demo_resolve (fun _ => Ok tt) demo_handshake [demo_profile]
      "tcp" "a.b:443" None) as [out conns] eqn:E.
    assert (Hc : exists c, out = Connected c) by (vm_compute in E; injection E as <- <-; eauto).
    destruct Hc as [c ->].
    destruct (DialTLSContext_secure (H := simple_externals) demo_chain demo_name demo_resolve (fun _ => Ok tt) demo_handshake demo_peer
      [demo_profile] "tcp" "a.b:443" None c conns Hh eq_refl E) as (h & port & leaf & rest & _ & Hp & Hv & _).
    exists c, leaf, rest. split; [reflexivity|]. split; [exact Hp|exact Hv].
  - destruct (DialTLSContext demo_chain demo_resolve (fun _ => Ok tt) demo_handshake [demo_profile]
      "tcp" "c.d:443" None) as [out conns] eqn:E.
    assert (Hc : exists c, out = Connected c) by (vm_compute in E; injection E as <- <-; eauto).
    destruct Hc as [c ->].
    destruct (DialTLSContext_secure (H := simple_externals) demo_chain demo_name demo_resolve (fun _ => Ok tt) demo_handshake demo_peer
      [demo_profile] "tcp" "c.d:443" None c conns Hh eq_refl E) as (h & port & leaf & rest & Hsp & Hp & _ & _ & Hn).
    assert (h = "c.d") as -> by (vm_compute in Hsp; by injection Hsp as <- _).
    destruct Hn as (name & Hn & Hf); [vm_compute; reflexivity|].
    exists c, leaf, rest, name. split; [reflexivity|]. split; [exact Hp|]. split; [exact Hn|exact Hf].
Defined.

Lemma ipv6_proxy_without_port_witness :
  exists addr u p, parseProxyAddress "[::1]" "http" [] [] = Ok (addr, u, p) ∧ is_ok (SplitHostPort addr) = false.
Proof.
  apply (@ipv6_proxy_without_port simple_externals "::1" "http" [] []
    {| Scheme := "http"; URLHost := "[::1]"; URLUser := None |}); by_decide || reflexivity.
Defined.
End witnesses.
