(* ===== verification/Socks5.v ===== *)
(** The SOCKS5 client of src/internal/upstream/upstream.go: greeting, user name
    and password authentication, the connect request and the reply, over a byte
    stream whose reads and writes may fail.

    Bytes are integers between 0 and 255.  The wire format of RFC 1928 and 1929
    is written down independently of the code, as the parser a server would use,
    and the properties relate the two. *)
From stdpp Require Import strings.
From Stdlib Require Import Ascii.
From S2P Require Import Prelude GoStrings GoNet.

Definition bytes_of (s : gostring) : list Z := (fun c => Z.of_N (code c)) <$> s.

(** * The connection *)

(** [incoming] are the bytes the peer will still send, after which a read
    returns [readEnd]; each write consumes one entry of [writeFaults], where
    [Some (n, e)] lets [n] bytes through and then fails. *)
Record Conn := {
  incoming : list Z;
  readEnd : error;
  sent : list Z;
  writeFaults : list (option (nat * error));
  closed : bool;
}.

Definition set_incoming (bs : list Z) (c : Conn) : Conn :=
  {| incoming := bs; readEnd := readEnd c; sent := sent c; writeFaults := writeFaults c; closed := closed c |}.
(** The state after a write that let [out] through. *)
Definition add_sent (out : list Z) (c : Conn) : Conn :=
  {| incoming := incoming c; readEnd := readEnd c; sent := sent c ++ out;
     writeFaults := tail (writeFaults c); closed := closed c |}.

Abbreviation NetIO := (ST Conn).

Definition io_EOF : error := ErrorVar "io.EOF".
Definition io_ErrUnexpectedEOF : error := ErrorVar "io.ErrUnexpectedEOF".

(** io.ReadFull: exactly [n] bytes, or an error after what there was. *)
Definition ReadFull (n : nat) : NetIO (list Z) := fun c =>
  if bool_decide (n <= length (incoming c))
  then (Ok (take n (incoming c)), set_incoming (drop n (incoming c)) c)
  else (Err (if bool_decide (readEnd c = io_EOF) && negb (bool_decide (incoming c = []))
             then io_ErrUnexpectedEOF else readEnd c),
        set_incoming [] c).

Definition ConnWrite (data : list Z) : NetIO unit := fun c =>
  match writeFaults c with
  | Some (n, e) :: _ => (Err e, add_sent (take n data) c)
  | _ => (Ok tt, add_sent data c)
  end.

Definition CloseConn (c : Conn) : Conn :=
  {| incoming := incoming c; readEnd := readEnd c; sent := sent c; writeFaults := writeFaults c; closed := true |}.

(** * strconv.Atoi

    An optional sign and decimal digits, within the range of int64. *)
Definition Atoi (s : gostring) : option Z :=
  let '(neg, ds) := match s with
                    | c :: s' => if bool_decide (c = chr 45) then (true, s')
                                 else if bool_decide (c = chr 43) then (false, s') else (false, s)
                    | [] => (false, [])
                    end in
  if bool_decide (ds = []) || negb (forallb is_digit ds) then None
  else
    let v := Z.of_N (dec_value ds) in
    let z := (if neg then - v else v)%Z in
    if ((- 2 ^ 63 <=? z) && (z <? 2 ^ 63))%Z then Some z else None.

(** * The client *)

Definition socks5ConnectRequest (target : gostring) : result (list Z) :=
  do x <- wrap_err "split SOCKS5 target: %w" [] (SplitHostPort target);
  let '(host, portString) := x in
  match Atoi portString with
  | None => Err (Errorf "invalid SOCKS5 target port" [])
  | Some port =>
      if ((port <? 1) || (65535 <? port))%Z then Err (Errorf "invalid SOCKS5 target port" [])
      else
        let req := [5; 1; 0]%Z in
        let ip := ParseIP host in
        do addr <-
          (if negb (bool_decide (ip = [])) then
             if negb (bool_decide (To4 ip = [])) then Ok ([1%Z] ++ To4 ip) else Ok ([4%Z] ++ To16 ip)
           else if bool_decide (255 < length host)
           then Err (Errorf "SOCKS5 target host is too long" [])
           else Ok ([3%Z; (Z.of_nat (length host)) mod 256]%Z ++ bytes_of host));
        Ok (req ++ addr ++ [Z.shiftr port 8 mod 256; port mod 256]%Z)
  end.

Definition authenticate (username password : gostring) : NetIO unit :=
  if bool_decide (255 < length username) || bool_decide (255 < length password)
  then io_err (Errorf "SOCKS5 username/password are too long" [])
  else
    let req := [1%Z; (Z.of_nat (length username) mod 256)%Z] ++ bytes_of username ++
               [(Z.of_nat (length password) mod 256)%Z] ++ bytes_of password in
    io _ <- io_wrap "write SOCKS5 auth: %w" [] (ConnWrite req);
    io resp <- io_wrap "read SOCKS5 auth: %w" [] (ReadFull 2);
    if bool_decide (resp = [1; 0]%Z) then io_ret tt
    else io_err (Errorf "SOCKS5 authentication failed" []).

(** The number of address bytes a reply of the given address type carries. *)
Definition replyAddressLength (atyp : Z) : NetIO nat :=
  if (atyp =? 1)%Z then io_ret 4
  else if (atyp =? 3)%Z then
    io length <- io_wrap "read SOCKS5 domain length: %w" [] (ReadFull 1);
    io_ret (match length with n :: _ => Z.to_nat n | [] => 0 end)
  else if (atyp =? 4)%Z then io_ret 16
  else io_err (Errorf "invalid SOCKS5 address type %d" [Itoa atyp]).

Definition readSOCKS5Reply : NetIO unit :=
  io header <- io_wrap "read SOCKS5 reply: %w" [] (ReadFull 4);
  match header with
  | [version; code; _; atyp] =>
      if negb (version =? 5)%Z then io_err (Errorf "invalid SOCKS5 reply version %d" [Itoa version])
      else if negb (code =? 0)%Z then io_err (Errorf "SOCKS5 connect failed with code %d" [Itoa code])
      else
        io discard <- replyAddressLength atyp;
        io _ <- (if bool_decide (0 < discard)
                  then io_wrap "read SOCKS5 bind address: %w" [] (ReadFull discard) else io_ret []);
        io _ <- io_wrap "read SOCKS5 bind port: %w" [] (ReadFull 2);
        io_ret tt
  | _ => io_err (Errorf "unreachable" [])
  end.

Definition greetingOf (username password : gostring) : list Z :=
  if negb (bool_decide (username = [])) || negb (bool_decide (password = []))
  then [5; 2; 0; 2]%Z else [5; 1; 0]%Z.

Definition handshake (username password target : gostring) : NetIO unit :=
  io _ <- io_wrap "write SOCKS5 greeting: %w" [] (ConnWrite (greetingOf username password));
  io greeting <- io_wrap "read SOCKS5 greeting: %w" [] (ReadFull 2);
  match greeting with
  | [version; method] =>
      if negb (version =? 5)%Z then io_err (Errorf "invalid SOCKS5 version %d" [Itoa version])
      else
        io _ <- (if (method =? 0)%Z then io_ret tt
                  else if (method =? 2)%Z then authenticate username password
                  else io_err (Errorf "SOCKS5 upstream rejected authentication method" []));
        io request <- io_of (socks5ConnectRequest target);
        io _ <- io_wrap "write SOCKS5 connect: %w" [] (ConnWrite request);
        readSOCKS5Reply
  | _ => io_err (Errorf "unreachable" [])
  end.

(** SOCKS5Dialer.DialContext: [dialed] is what dialing the proxy gives and
    [deadline] the outcome of setting the handshake deadline.  The connection is
    returned with the result so that its state can be seen on every path. *)
Definition socks5Dial (username password network target : gostring)
    (dialed : result Conn) (deadline : result unit) : result unit * option Conn :=
  if negb (bool_decide (network ∈ (["tcp"; "tcp4"; "tcp6"] : list gostring)))
  then (Err (Errorf "SOCKS5 upstream only supports TCP networks" []), None)
  else match dialed with
       | Err e => (Err (Wrapf "dial SOCKS5 upstream: %w" [] e), None)
       | Ok conn =>
           match deadline with
           | Err e => (Err e, Some (CloseConn conn))
           | Ok _ =>
               match handshake username password target conn with
               | (Ok _, conn') => (Ok tt, Some conn')
               | (Err e, conn') => (Err e, Some (CloseConn conn'))
               end
           end
       end.

(** * The wire format

    RFC 1928, as a server reads a request and writes a reply. *)

Inductive wire_address :=
| V4 (b : list Z)
| Domain (name : list Z)
| V6 (b : list Z).

Definition take_exact (n : nat) (bs : list Z) : option (list Z * list Z) :=
  if bool_decide (n <= length bs) then Some (take n bs, drop n bs) else None.

Definition parse_address (atyp : Z) (bs : list Z) : option (wire_address * list Z) :=
  if (atyp =? 1)%Z then '(a, r) ← take_exact 4 bs; Some (V4 a, r)
  else if (atyp =? 3)%Z then
    match bs with
    | n :: bs' => '(a, r) ← take_exact (Z.to_nat n) bs'; Some (Domain a, r)
    | [] => None
    end
  else if (atyp =? 4)%Z then '(a, r) ← take_exact 16 bs; Some (V6 a, r)
  else None.

(** A CONNECT request: its address, its port and what follows it. *)
Definition parse_request (bs : list Z) : option (wire_address * Z * list Z) :=
  match bs with
  | 5%Z :: 1%Z :: 0%Z :: atyp :: bs' =>
      '(a, r) ← parse_address atyp bs';
      match r with
      | hi :: lo :: r' => Some (a, (hi * 256 + lo)%Z, r')
      | _ => None
      end
  | _ => None
  end.

(** A reply that reports success: what follows it. *)
Definition parse_reply (bs : list Z) : option (list Z) :=
  match bs with
  | 5%Z :: 0%Z :: _ :: atyp :: bs' =>
      '(_, r) ← parse_address atyp bs';
      '(_, r') ← take_exact 2 r; Some r'
  | _ => None
  end.

(** RFC 1929. *)
Definition parse_auth (bs : list Z) : option (list Z * list Z * list Z) :=
  match bs with
  | 1%Z :: n :: bs' =>
      '(u, r) ← take_exact (Z.to_nat n) bs';
      match r with
      | m :: r' => '(p, r'') ← take_exact (Z.to_nat m) r'; Some (u, p, r'')
      | [] => None
      end
  | _ => None
  end.

(** * Properties *)

Lemma take_exact_app a r n : length a = n -> take_exact n (a ++ r) = Some (a, r).
Proof.
  intros <-. unfold take_exact. rewrite bool_decide_eq_true_2 by (rewrite length_app; lia).
  by rewrite take_app_length, drop_app_length.
Qed.

Lemma take_exact_Some n bs a r : take_exact n bs = Some (a, r) <-> bs = a ++ r ∧ length a = n.
Proof.
  split; [|by intros [-> ?]; apply take_exact_app]. unfold take_exact. case_bool_decide; [|done].
  intros [= <- <-]. rewrite take_drop, length_take. split; [done|lia].
Qed.

Lemma ReadFull_Ok n c bs c' :
  ReadFull n c = (Ok bs, c') <->
  exists r, take_exact n (incoming c) = Some (bs, r) ∧ c' = set_incoming r c.
Proof.
  unfold ReadFull, take_exact. case_bool_decide; split.
  - intros [= <- <-]. eauto.
  - by intros (r & [= <- <-] & ->).
  - done.
  - by intros (r & ? & ?).
Qed.

Lemma ConnWrite_Ok data c c' : ConnWrite data c = (Ok tt, c') -> c' = add_sent data c.
Proof. unfold ConnWrite. repeat case_match; try done; by intros [= <-]. Qed.

Lemma ConnWrite_healthy data c : writeFaults c = [] -> ConnWrite data c = (Ok tt, add_sent data c).
Proof. unfold ConnWrite. by intros ->. Qed.

(** Reading [n] bytes and dropping them. *)
Lemma skip_Ok n c c' :
  (exists bs, (if bool_decide (0 < n) then io_wrap "read SOCKS5 bind address: %w" [] (ReadFull n)
               else io_ret []) c = (Ok bs, c')) <->
  exists a r, take_exact n (incoming c) = Some (a, r) ∧ c' = set_incoming r c.
Proof.
  case_bool_decide.
  - setoid_rewrite io_wrap_Ok. setoid_rewrite ReadFull_Ok. naive_solver.
  - assert (n = 0) as -> by lia. unfold take_exact, io_ret. destruct c; cbn. naive_solver.
Qed.

Lemma skip_address_Ok atyp c c' :
  (exists n c1, replyAddressLength atyp c = (Ok n, c1) ∧
     exists a r, take_exact n (incoming c1) = Some (a, r) ∧ c' = set_incoming r c1) <->
  exists a r, parse_address atyp (incoming c) = Some (a, r) ∧ c' = set_incoming r c.
Proof.
  unfold replyAddressLength, parse_address.
  destruct (atyp =? 1)%Z; [|destruct (atyp =? 3)%Z; [|destruct (atyp =? 4)%Z]].
  - unfold io_ret. destruct (take_exact 4 (incoming c)) as [[a r]|] eqn:E; cbn; split; naive_solver.
  - unfold io_bind, io_wrap, ReadFull. destruct c as [[|n bs] re se wf cl]; cbn [incoming length].
    { cbn. split; naive_solver. }
    rewrite bool_decide_eq_true_2 by lia. cbn [wrap_err take firstn set_incoming incoming drop].
    split; [intros (? & ? & [= <- <-] & a & r & Ht & ->)|intros (a & r & Ht & ->)]; cbn [incoming] in *.
    + change (take_exact (Z.to_nat n) bs = Some (a, r)) in Ht. rewrite Ht. cbn. eauto.
    + destruct (take_exact _ bs) as [[a' r']|] eqn:Et; [|done]. cbn in Ht. injection Ht as <- <-.
      eexists _, _. split; [done|]. by exists a', r'.
  - unfold io_ret. destruct (take_exact 16 (incoming c)) as [[a r]|] eqn:E; cbn; split; naive_solver.
  - split; naive_solver.
Qed.

(** The connect reply is accepted exactly when it is a success reply of the wire
    format, and precisely its bytes are consumed. *)
Lemma readSOCKS5Reply_Ok c c' :
  readSOCKS5Reply c = (Ok tt, c') <->
  exists r, parse_reply (incoming c) = Some r ∧ c' = set_incoming r c.
Proof.
  unfold readSOCKS5Reply. rewrite io_bind_Ok. setoid_rewrite io_wrap_Ok. setoid_rewrite ReadFull_Ok.
  destruct c as [bs re se wf cl]. cbn [incoming].
  destruct bs as [|b0 [|b1 [|b2 [|atyp bs]]]];
    [by split; [intros (? & ? & (? & ? & _) & _)|intros (? & Hr & _); cbn in Hr; repeat case_match]..|].
  destruct (Z.eqb_spec b0 5) as [->|H0]; cycle 1.
  { split; [|by intros (r & Hr & _); cbn in Hr; repeat case_match].
    intros (a & c1 & (r & [= <- <-] & ->) & Hk). cbn in Hk. by rewrite (proj2 (Z.eqb_neq b0 5) H0) in Hk. }
  destruct (Z.eqb_spec b1 0) as [->|H1]; cycle 1.
  { split; [|by intros (r & Hr & _); cbn in Hr; repeat case_match].
    intros (a & c1 & (r & [= <- <-] & ->) & Hk). cbn in Hk. by rewrite (proj2 (Z.eqb_neq b1 0) H1) in Hk. }
  set (c1 := {| incoming := bs; readEnd := re; sent := se; writeFaults := wf; closed := cl |}).
  trans (exists c2, (exists a r, parse_address atyp (incoming c1) = Some (a, r) ∧ c2 = set_incoming r c1) ∧
           exists a r, take_exact 2 (incoming c2) = Some (a, r) ∧ c' = set_incoming r c2).
  - setoid_rewrite <-(skip_address_Ok atyp c1).
    split.
    + intros (a & c0 & (r & [= <- <-] & ->) & Hk). cbn [Z.eqb negb] in Hk.
      apply io_bind_Ok in Hk as (n & c2 & Hn & Hk). apply io_bind_Ok in Hk as (bs1 & c3 & Hs & Hk).
      apply io_bind_Ok in Hk as (p & c4 & Hp & Hk). injection Hk as <-.
      apply io_wrap_Ok, ReadFull_Ok in Hp as (r & Hr & ->).
      exists c3. split; [|eauto]. exists n, c2. split; [done|]. apply skip_Ok. eauto.
    + intros (c3 & (n & c2 & Hn & Hs) & p & r & Hr & ->). apply skip_Ok in Hs as [bs1 Hs].
      exists [5%Z; 0%Z; b2; atyp], c1. split; [by exists bs|]. cbn [Z.eqb negb].
      apply io_bind_Ok. exists n, c2. split; [done|].
      apply io_bind_Ok. exists bs1, c3. split; [done|]. apply io_bind_Ok. exists p, (set_incoming r c3).
      split; [|done]. apply io_wrap_Ok, ReadFull_Ok. eauto.
  - cbn [parse_reply incoming c1]. change (incoming c1) with bs. split.
    + intros (c2 & (a & r & -> & ->) & p & r' & Hr & ->). cbn in Hr |- *. rewrite Hr. cbn. eauto.
    + intros (r & Hr & ->). destruct (parse_address atyp bs) as [[a r1]|]; [|done]. cbn in Hr.
      destruct (take_exact 2 r1) as [[p r2]|] eqn:Et; [|done]. cbn in Hr. injection Hr as <-.
      exists (set_incoming r1 c1). split; [eauto|]. cbn. rewrite Et. eauto.
Qed.

(** ** The connect request *)

Lemma bytes_of_octets s : Forall is_octet (bytes_of s).
Proof.
  unfold bytes_of. apply Forall_fmap, Forall_true. intros c. unfold is_octet, compose.
  destruct c as [[] [] [] [] [] [] [] []]; vm_compute; split; done || congruence.
Qed.

Lemma length_bytes_of s : length (bytes_of s) = length s.
Proof. apply length_fmap. Qed.

Lemma port_bytes port : (1 <= port <= 65535)%Z ->
  (Z.shiftr port 8 mod 256 * 256 + port mod 256)%Z = port ∧
  is_octet (Z.shiftr port 8 mod 256) ∧ is_octet (port mod 256).
Proof.
  intros Hp. rewrite Z.shiftr_div_pow2 by done. change (2 ^ 8)%Z with 256%Z.
  assert (Hd : (0 <= port / 256 < 256)%Z) by (split; [apply Z.div_pos; lia|apply Z.div_lt_upper_bound; lia]).
  rewrite (Z.mod_small (port / 256)) by done. pose proof (Z.mod_pos_bound port 256 ltac:(done)).
  pose proof (Z.div_mod port 256 ltac:(done)). unfold is_octet. lia.
Qed.

Lemma To4_16 ip : length ip = 16 -> To4 ip <> [] -> length (To4 ip) = 4 ∧ forall P : Z -> Prop, Forall P ip -> Forall P (To4 ip).
Proof.
  intros Hl. unfold To4. rewrite bool_decide_eq_false_2 by lia. case_bool_decide; [|done].
  intros _. rewrite length_drop, Hl. split; [done|]. intros P. apply Forall_drop.
Qed.

(** What the address of a request means for the host it was built from. *)
Definition names_host (a : wire_address) (host : gostring) : Prop :=
  match a with
  | V4 b => b = To4 (ParseIP host) ∧ b <> []
  | V6 b => b = ParseIP host ∧ b <> [] ∧ To4 b = []
  | Domain n => n = bytes_of host ∧ ParseIP host = []
  end.

(** A connect request is built for every target with a port from 1 to 65535
    and a host that is an IP literal or at most 255 bytes long, and for no
    other; the request is a sequence of bytes from which a server reads back
    exactly the host and the port, with nothing left over. *)
Theorem socks5ConnectRequest_roundtrip target host portString :
  SplitHostPort target = Ok (host, portString) ->
  (is_ok (socks5ConnectRequest target) = true <->
     (exists port, Atoi portString = Some port ∧ (1 <= port <= 65535)%Z) ∧
     (ParseIP host <> [] ∨ length host <= 255)) ∧
  forall req, socks5ConnectRequest target = Ok req ->
    Forall is_octet req ∧ exists a port, parse_request req = Some (a, port, []) ∧ names_host a host ∧
      Atoi portString = Some port.
Proof.
  intros Hs. unfold socks5ConnectRequest. rewrite Hs. cbn [wrap_err rbind].
  destruct (Atoi portString) as [port|]; [|by split; [split; [|intros [(? & ? & _) _]]|]].
  destruct (Z.ltb_spec port 1) as [|Hlo]; cbn [orb].
  { split; [split; [done|]|done]. intros [(? & [= <-] & ?) _]. lia. }
  destruct (Z.ltb_spec 65535 port) as [|Hhi].
  { split; [split; [done|]|done]. intros [(? & [= <-] & ?) _]. lia. }
  destruct (port_bytes port ltac:(lia)) as (Hport & Hb1 & Hb2).
  set (pb := [Z.shiftr port 8 mod 256; port mod 256]%Z).
  assert (Hpb : Forall is_octet pb) by (unfold pb; rewrite !Forall_cons, Forall_nil; done).
  assert (Hhead : forall n, is_octet n -> Forall is_octet [5; 1; 0; n]%Z).
  { intros n Hn. rewrite !Forall_cons, Forall_nil. unfold is_octet in *. lia. }
  destruct (bool_decide_reflect (ParseIP host = [])) as [Hip|Hip]; cbn [negb].
  - destruct (bool_decide_reflect (255 < length host)) as [Hlen|Hlen]; cbn [rbind].
    { split; [split; [done|]|done]. intros [_ [?|?]]; [done|lia]. }
    split; [split; [intros _; split; [eauto|right; lia]|done]|].
    intros req [= <-]. rewrite Z.mod_small by lia. split.
    { apply (Forall_app_2 _ [5; 1; 0; 3]%Z); [apply Hhead; unfold is_octet; lia|].
      constructor; [unfold is_octet; lia|]. apply Forall_app_2; [apply bytes_of_octets|done]. }
    exists (Domain (bytes_of host)), port. split; [|done].
    cbn [parse_request app parse_address Z.eqb Pos.eqb]. rewrite take_exact_app; [|rewrite length_bytes_of; lia].
    cbn. by rewrite Hport.
  - destruct (ParseIP_bytes host Hip) as [Hl Hb].
    assert (Hok : forall x y : list Z, is_ok (Ok (x ++ y)) = true <->
      (exists p, Some port = Some p ∧ (1 <= p <= 65535)%Z) ∧ (ParseIP host <> [] ∨ length host <= 255)).
    { intros x y. split; [intros _|done]. split; [exists port; split; [done|lia]|by left]. }
    destruct (bool_decide_reflect (To4 (ParseIP host) = [])) as [H4|H4]; cbn [negb rbind];
      (split; [apply Hok|]); intros req [= <-].
    + assert (Hto : To16 (ParseIP host) = ParseIP host).
      { unfold To16. rewrite Hl. done. }
      rewrite Hto. split.
      { apply (Forall_app_2 _ [5; 1; 0; 4]%Z); [apply Hhead; unfold is_octet; lia|]. by apply Forall_app_2. }
      exists (V6 (ParseIP host)), port. split; [|done].
      cbn [parse_request app parse_address Z.eqb Pos.eqb]. rewrite take_exact_app by done. cbn. by rewrite Hport.
    + destruct (To4_16 _ Hl H4) as [Hl4 Hf4]. split.
      { apply (Forall_app_2 _ [5; 1; 0; 1]%Z); [apply Hhead; unfold is_octet; lia|].
        apply Forall_app_2; [by apply Hf4|done]. }
      exists (V4 (To4 (ParseIP host))), port. split; [|done].
      cbn [parse_request app parse_address Z.eqb Pos.eqb]. rewrite take_exact_app by done. cbn. by rewrite Hport.
Qed.

(** ** The handshake *)

Definition authRequest (username password : gostring) : list Z :=
  [1%Z; (Z.of_nat (length username) mod 256)%Z] ++ bytes_of username ++
  [(Z.of_nat (length password) mod 256)%Z] ++ bytes_of password.

Lemma authRequest_wire username password :
  length username <= 255 -> length password <= 255 ->
  parse_auth (authRequest username password) = Some (bytes_of username, bytes_of password, []).
Proof.
  intros Hu Hp. unfold parse_auth, authRequest. cbn [app].
  rewrite (Z.mod_small (Z.of_nat (length username))), Nat2Z.id by lia. rewrite take_exact_app by apply length_bytes_of.
  cbn. rewrite Z.mod_small, Nat2Z.id by lia. rewrite <-(app_nil_r (bytes_of password)) at 1.
  by rewrite take_exact_app by apply length_bytes_of.
Qed.

Lemma authenticate_Ok username password c c' :
  authenticate username password c = (Ok tt, c') ->
  length username <= 255 ∧ length password <= 255 ∧
  exists r, incoming c = [1; 0]%Z ++ r ∧ c' = set_incoming r (add_sent (authRequest username password) c).
Proof.
  unfold authenticate. case_bool_decide; [done|]. case_bool_decide; [done|]. cbn [orb].
  intros Ha. apply io_bind_Ok in Ha as ([] & c1 & Hw & Ha). apply io_wrap_Ok, ConnWrite_Ok in Hw as ->.
  apply io_bind_Ok in Ha as (resp & c2 & Hr & Ha). apply io_wrap_Ok, ReadFull_Ok in Hr as (r & Hr & ->).
  apply take_exact_Some in Hr as [Hr _]. case_bool_decide as Hresp; [|done]. injection Ha as <-. subst resp.
  split; [lia|]. split; [lia|]. by exists r.
Qed.

Lemma authenticate_healthy username password c r :
  length username <= 255 -> length password <= 255 -> writeFaults c = [] -> incoming c = [1; 0]%Z ++ r ->
  authenticate username password c = (Ok tt, set_incoming r (add_sent (authRequest username password) c)).
Proof.
  intros Hu Hp Hw Hi. unfold authenticate. rewrite !bool_decide_eq_false_2 by lia. cbn [orb].
  erewrite io_bind_seq by (by apply io_wrap_Ok, ConnWrite_healthy).
  erewrite io_bind_seq by (apply io_wrap_Ok, ReadFull_Ok; eexists; split; [|reflexivity];
    cbn [incoming add_sent]; rewrite Hi; by apply take_exact_app).
  done.
Qed.

(** A server's side of a successful handshake: the method it chose, its answer
    to the credentials and its reply; [auth] is what the client must have sent
    in between and [rest] what the server sends after the handshake. *)
Definition accepts (username password : gostring) (stream auth rest : list Z) : Prop :=
  exists reply, parse_reply reply = Some rest ∧
    ((stream = [5; 0]%Z ++ reply ∧ auth = []) ∨
     (stream = [5; 2; 1; 0]%Z ++ reply ∧ length username <= 255 ∧ length password <= 255 ∧
      parse_auth auth = Some (bytes_of username, bytes_of password, []))).

Lemma handshake_sound username password target c c' :
  handshake username password target c = (Ok tt, c') ->
  exists auth request, accepts username password (incoming c) auth (incoming c') ∧
    socks5ConnectRequest target = Ok request ∧
    sent c' = sent c ++ greetingOf username password ++ auth ++ request.
Proof.
  intros Hh. unfold handshake in Hh.
  apply io_bind_Ok in Hh as ([] & c1 & Hw & Hh). apply io_wrap_Ok, ConnWrite_Ok in Hw as ->.
  apply io_bind_Ok in Hh as (g & c2 & Hr & Hh). apply io_wrap_Ok, ReadFull_Ok in Hr as (r & Hr & ->).
  apply take_exact_Some in Hr as [Hr Hl]. destruct g as [|v [|m [|? ?]]]; try done.
  destruct (Z.eqb_spec v 5) as [->|]; [|done]. cbn [negb] in Hh.
  apply io_bind_Ok in Hh as ([] & c3 & Ha & Hh). apply io_bind_Ok in Hh as (request & c4 & Hq & Hh).
  injection Hq as Hq <-. apply io_bind_Ok in Hh as ([] & c5 & Hw & Hh).
  apply io_wrap_Ok, ConnWrite_Ok in Hw as ->. apply readSOCKS5Reply_Ok in Hh as (rest & Hp & ->).
  cbn [incoming add_sent] in *.
  destruct (Z.eqb_spec m 0) as [->|]; [|destruct (Z.eqb_spec m 2) as [->|]; [|done]].
  - injection Ha as <-. exists [], request. split_and!; [|done|cbn; by rewrite app_assoc].
    exists r. split; [done|]. by left.
  - apply authenticate_Ok in Ha as (Hu & Hpw & r' & Hi & ->). cbn [incoming set_incoming] in *. subst r.
    exists (authRequest username password), request.
    split_and!; [|done|cbn [sent set_incoming add_sent]; by rewrite <-!app_assoc].
    exists r'. split; [done|]. right. split_and!; [done..|by apply authRequest_wire].
Qed.

Lemma handshake_complete username password target c auth rest :
  writeFaults c = [] -> is_ok (socks5ConnectRequest target) = true ->
  accepts username password (incoming c) auth rest ->
  exists c', handshake username password target c = (Ok tt, c') ∧ incoming c' = rest.
Proof.
  intros Hw Hq (reply & Hp & Hs).
  destruct (socks5ConnectRequest target) as [request|] eqn:Eq; [|done].
  assert (Htail : forall c3, incoming c3 = reply -> writeFaults c3 = [] -> exists c',
    io_bind (io_of (Ok request)) (fun request =>
      io _ <- io_wrap "write SOCKS5 connect: %w" [] (ConnWrite request); readSOCKS5Reply) c3 = (Ok tt, c') ∧
    incoming c' = rest).
  { intros c3 Hi3 Hw3. eexists (set_incoming rest (add_sent request c3)). split; [|done].
    apply io_bind_Ok. eexists _, _. split; [done|]. apply io_bind_Ok. eexists _, _.
    split; [by apply io_wrap_Ok, ConnWrite_healthy|]. apply readSOCKS5Reply_Ok. exists rest. cbn.
    by rewrite Hi3. }
  assert (Hgo : forall m r, incoming c = [5%Z; m] ++ r ->
    handshake username password target c =
    io_bind (if (m =? 0)%Z then io_ret tt else if (m =? 2)%Z then authenticate username password
              else io_err (Errorf "SOCKS5 upstream rejected authentication method" []))
      (fun _ => io_bind (io_of (Ok request)) (fun request =>
        io _ <- io_wrap "write SOCKS5 connect: %w" [] (ConnWrite request); readSOCKS5Reply))
      (set_incoming r (add_sent (greetingOf username password) c))).
  { intros m r Hi. unfold handshake.
    erewrite io_bind_seq by (by apply io_wrap_Ok, ConnWrite_healthy).
    erewrite io_bind_seq by (apply io_wrap_Ok, ReadFull_Ok; eexists; split; [|reflexivity];
      cbn [incoming add_sent]; rewrite Hi; by apply take_exact_app).
    cbn [Z.eqb Pos.eqb negb]. by rewrite Eq. }
  destruct Hs as [[Hs ->]|(Hs & Hu & Hpw & Ha)].
  - rewrite (Hgo 0%Z reply Hs). erewrite io_bind_seq by reflexivity. apply Htail; [done|]. cbn. by rewrite Hw.
  - rewrite (Hgo 2%Z ([1; 0]%Z ++ reply) Hs).
    erewrite io_bind_seq by (apply authenticate_healthy; [done|done|cbn; by rewrite Hw|done]).
    apply Htail; [done|]. cbn. by rewrite Hw.
Qed.

(** A handshake succeeds only when the server accepted it, whatever reads and
    writes fail: it has then sent the greeting, the credentials if the server
    asked for them and the connect request, and consumed the server's answers to
    the last byte, so the tunnel starts where the handshake ended.  When no write
    fails it does succeed against every accepting server. *)
Theorem handshake_spec username password target c :
  (forall c', handshake username password target c = (Ok tt, c') ->
     exists auth request, accepts username password (incoming c) auth (incoming c') ∧
       socks5ConnectRequest target = Ok request ∧
       sent c' = sent c ++ greetingOf username password ++ auth ++ request) ∧
  (forall auth rest, writeFaults c = [] -> is_ok (socks5ConnectRequest target) = true ->
     accepts username password (incoming c) auth rest ->
     exists c', handshake username password target c = (Ok tt, c') ∧ incoming c' = rest).
Proof. split; [apply handshake_sound|apply handshake_complete]. Qed.

(** The client accepts an authentication method it did not offer: configured
    without credentials it offers none, yet when the server asks for a user name
    and a password it sends empty ones and goes on. *)
Theorem unoffered_method_accepted target c reply :
  incoming c = [5; 2; 1; 0]%Z ++ reply -> is_Some (parse_reply reply) -> writeFaults c = [] ->
  is_ok (socks5ConnectRequest target) = true ->
  2%Z ∉ drop 2 (greetingOf [] []) ∧
  exists c', handshake [] [] target c = (Ok tt, c') ∧
    exists auth request, sent c' = sent c ++ greetingOf [] [] ++ auth ++ request ∧ parse_auth auth = Some ([], [], []).
Proof.
  intros Hi [rest Hr] Hw Hq. split; [by_decide|].
  assert (Ha : accepts [] [] (incoming c) (authRequest [] []) rest).
  { exists reply. split; [done|]. right. split_and!; [done|cbn; lia..|done]. }
  destruct (handshake_complete [] [] target c _ rest Hw Hq Ha) as (c' & Hc & _). exists c'. split; [done|].
  destruct (handshake_sound [] [] target c c' Hc) as (auth & request & (reply' & _ & Hs) & _ & Hsent).
  exists auth, request. split; [done|]. destruct Hs as [[Hs _]|(_ & _ & _ & Hp)]; [|done].
  by rewrite Hi in Hs.
Qed.

(** No step of the handshake closes the connection. *)
Definition same_closed (c c' : Conn) : Prop := closed c' = closed c.
#[local] Instance same_closed_preorder : PreOrder same_closed.
Proof. split; [done|]. intros x y z Hxy Hyz. unfold same_closed in *. congruence. Qed.

Lemma ReadFull_closed n : moves same_closed (ReadFull n).
Proof. intros c. unfold ReadFull. by case_bool_decide. Qed.
Lemma ConnWrite_closed d : moves same_closed (ConnWrite d).
Proof. intros c. unfold ConnWrite. by repeat case_match. Qed.
#[local] Hint Resolve ReadFull_closed ConnWrite_closed : golib.

Lemma handshake_closed username password target : moves same_closed (handshake username password target).
Proof.
  unfold handshake, authenticate, readSOCKS5Reply, replyAddressLength.
  repeat first [apply moves_bind; [apply _| |intros ?] | case_match | progress eauto with golib | done].
Qed.

(** A SOCKS5 dial leaves the connection open exactly when it returns it, and
    otherwise closes whatever it opened. *)
Theorem socks5Dial_closes username password network target dialed deadline r conn :
  (forall c, dialed = Ok c -> closed c = false) ->
  socks5Dial username password network target dialed deadline = (r, conn) ->
  match conn with
  | Some c => closed c = negb (is_ok r)
  | None => is_ok r = false
  end.
Proof.
  intros Hd. unfold socks5Dial. case_match; [by intros [= <- <-]|].
  destruct dialed as [c|]; [|by intros [= <- <-]]. destruct deadline; [|by intros [= <- <-]].
  specialize (Hd c eq_refl).
  pose proof (handshake_closed username password target c) as Hc.
  destruct (handshake username password target c) as [[[]|e] c']; intros [= <- <-]; [|done].
  cbn in *. congruence.
Qed.

(** ** Witnesses *)

Lemma socks5ConnectRequest_roundtrip_witness :
  exists req a, socks5ConnectRequest "a.b:443" = Ok req ∧ parse_request req = Some (a, 443%Z, []).
Proof.
  destruct (socks5ConnectRequest_roundtrip "a.b:443" "a.b" "443" eq_refl) as [_ H].
  destruct (socks5ConnectRequest "a.b:443") as [req|] eqn:E; [|by vm_compute in E].
  destruct (H req eq_refl) as (_ & a & port & Hp & _ & Ha). exists req, a. split; [done|].
  vm_compute in Ha. by injection Ha as <-.
Defined.

Definition demo_conn (bs : list Z) : Conn :=
  {| incoming := bs; readEnd := io_EOF; sent := []; writeFaults := []; closed := false |}.

Lemma unoffered_method_accepted_witness :
  exists c', handshake [] [] "a.b:443" (demo_conn [5; 2; 1; 0; 5; 0; 0; 1; 0; 0; 0; 0; 0; 0]%Z) = (Ok tt, c').
Proof.
  destruct (unoffered_method_accepted "a.b:443" (demo_conn [5; 2; 1; 0; 5; 0; 0; 1; 0; 0; 0; 0; 0; 0]%Z)
    [5; 0; 0; 1; 0; 0; 0; 0; 0; 0]%Z eq_refl (mk_is_Some _ [] eq_refl) eq_refl eq_refl) as (_ & c' & Hc & _).
  by exists c'.
Defined.

Lemma socks5Dial_closes_witness :
  exists c, (socks5Dial [] [] "tcp" "a.b:443" (Ok (demo_conn [5; 255]%Z)) (Ok tt)).2 = Some c ∧ closed c = true.
Proof.
  destruct (socks5Dial [] [] "tcp" "a.b:443" (Ok (demo_conn [5; 255]%Z)) (Ok tt)) as [r conn] eqn:E.
  assert (Hd : forall c, Ok (demo_conn [5; 255]%Z) = Ok c -> closed c = false) by (by intros c [= <-]).
  pose proof (socks5Dial_closes [] [] "tcp" "a.b:443" (Ok (demo_conn [5; 255]%Z)) (Ok tt) r conn Hd E) as H.
  vm_compute in E. injection E as <- <-. eexists. split; [reflexivity|]. exact H.
Defined.
