(* ===== verification/Diagnostics.v ===== *)
(** Upstream errors (src/internal/diagnostics/upstream.go): the text of an error is
    cut and cleaned before it is logged and sent to the client, and the log
    attributes of a failed direct dial. *)
From stdpp Require Import strings.
From Stdlib Require Import Ascii.
From S2P Require Import Prelude GoStrings GoNet External World Profile Config Upstream.

(** * Runes

    The number of bytes of the rune a text starts with, 0 when it is not valid
    UTF-8 there. *)
Definition second_byte (a b : byte) : bool :=
  if (code a =? 224)%N then utf8_between 160 191 b
  else if (code a =? 237)%N then utf8_between 128 159 b
  else if (code a =? 240)%N then utf8_between 144 191 b
  else if (code a =? 244)%N then utf8_between 128 143 b
  else utf8_cont b.

Definition runeWidth (s : gostring) : nat :=
  match s with
  | [] => 0
  | a :: s1 =>
      if utf8_between 0 127 a then 1
      else match s1 with
           | b :: s2 =>
               if negb (second_byte a b) then 0
               else if utf8_between 194 223 a then 2
               else match s2 with
                    | c :: s3 =>
                        if negb (utf8_cont c) then 0
                        else if utf8_between 224 239 a then 3
                        else match s3 with
                             | d :: _ => if utf8_between 240 244 a && utf8_cont d then 4 else 0
                             | [] => 0
                             end
                    | [] => 0
                    end
           | [] => 0
           end
  end.

(** U+FFFD, which strings.Map puts in the place of a byte that is no rune. *)
Definition RuneError : gostring := [chr 239; chr 191; chr 189].

(** strings.Map for a mapping that only changes ASCII characters.  Every rune takes
    at least one byte, so the length is enough fuel. *)
Fixpoint mapASCII_fuel (fuel : nat) (f : byte -> byte) (s : gostring) : gostring :=
  match fuel, s with
  | S fuel', a :: s' =>
      match runeWidth s with
      | 0 => RuneError ++ mapASCII_fuel fuel' f s'
      | 1 => f a :: mapASCII_fuel fuel' f s'
      | n => take n s ++ mapASCII_fuel fuel' f (drop n s)
      end
  | _, _ => []
  end.
Definition mapASCII (f : byte -> byte) (s : gostring) : gostring := mapASCII_fuel (length s) f s.

(** * Messages *)

Definition space : byte := chr 32.
Definition control_spaces : gostring := [chr 13; chr 10; chr 9].

Definition cleanByte (c : byte) : byte := if bool_decide (c ∈ control_spaces) then space else c.

(** The argument is [err.Error()], [None] for a nil error. *)
Definition UpstreamErrorMessage (text : option gostring) : gostring :=
  match text with
  | None => "unknown error"
  | Some text =>
      let msg := mapASCII cleanByte (TrimSpace text) in
      let msg := if bool_decide (1200 < length msg) then take 1200 msg ++ "..." else msg in
      if bool_decide (msg = []) then "unknown error" else msg
  end.

(** * Log attributes *)

Inductive AttrValue := AStr (s : gostring) | AInt (n : Z).

(** [e] is the direct dial error [errors.As] finds in the chain of the error. *)
Definition UpstreamErrorAttrs (e : option DirectDialError) : list (gostring * AttrValue) :=
  match e with
  | None => []
  | Some directErr =>
      let '(stage, target) :=
        match ResolveErr directErr with
        | Some _ => (("resolve" : gostring), EHost directErr ++ ":" ++ EPort directErr)
        | None =>
            match last (Attempts directErr) with
            | Some attempt =>
                (if bool_decide (Stage attempt = []) then ("tcp" : gostring) else Stage attempt,
                 if bool_decide (Target attempt = []) then Address attempt else Target attempt)
            | None => (("dial" : gostring), [])
            end
        end in
      [(("upstream_error_type" : gostring), AStr "direct");
       (("upstream_host" : gostring), AStr (EHost directErr));
       (("upstream_port" : gostring), AStr (EPort directErr));
       (("upstream_error_stage" : gostring), AStr stage);
       (("upstream_attempts" : gostring), AInt (Z.of_nat (length (Attempts directErr))))] ++
      (if bool_decide (target = []) then [] else [(("upstream_target" : gostring), AStr target)])
  end.

(** * Properties *)

Lemma control_spaces_code c : c ∈ control_spaces -> (code c <= 13)%N.
Proof.
  intros Hc. repeat (apply elem_of_cons in Hc as [->|Hc]; [by vm_compute|]). by apply elem_of_nil in Hc.
Qed.

Lemma utf8_between_code lo hi c : utf8_between lo hi c = true -> (lo <= code c <= hi)%N.
Proof. unfold utf8_between. rewrite andb_true_iff, !N.leb_le. done. Qed.

Lemma utf8_cont_code c : utf8_cont c = true -> (128 <= code c)%N.
Proof. intros H%utf8_between_code. lia. Qed.

Lemma second_byte_code a b : second_byte a b = true -> (128 <= code b)%N.
Proof. unfold second_byte. repeat case_match; intros ?%utf8_between_code; lia. Qed.

(** The bytes of a rune of several bytes are not ASCII. *)
Lemma runeWidth_high s n c : runeWidth s = S (S n) -> c ∈ take (S (S n)) s -> (128 <= code c)%N.
Proof.
  unfold runeWidth. intros Hn Hc. repeat case_match; try discriminate Hn.
  all: simplify_eq/=; boolify; try (match goal with H : _ && _ = true |- _ => apply andb_true_iff in H as [? ?] end);
    repeat match goal with
    | H : second_byte _ _ = true |- _ => apply second_byte_code in H
    | H : utf8_cont _ = true |- _ => apply utf8_cont_code in H
    | H : utf8_between _ _ _ = true |- _ => apply utf8_between_code in H
    end.
  all: rewrite ?take_0 in Hc; repeat (apply elem_of_cons in Hc as [->|Hc]; [lia|]); by apply elem_of_nil in Hc.
Qed.

Lemma mapASCII_fuel_clean fuel s c : c ∈ mapASCII_fuel fuel cleanByte s -> c ∉ control_spaces.
Proof.
  revert s. induction fuel as [|fuel IH]; intros s Hc; [by apply elem_of_nil in Hc|].
  destruct s as [|a s]; [by apply elem_of_nil in Hc|]. cbn [mapASCII_fuel] in Hc.
  destruct (runeWidth (a :: s)) as [|[|n]] eqn:Ew.
  - apply elem_of_app in Hc as [Hc|Hc]; [|by eapply IH]. intros Hs%control_spaces_code.
    repeat (apply elem_of_cons in Hc as [->|Hc]; [by vm_compute in Hs|]). by apply elem_of_nil in Hc.
  - apply elem_of_cons in Hc as [->|Hc]; [|by eapply IH].
    unfold cleanByte. case_bool_decide; [by_decide|done].
  - apply elem_of_app in Hc as [Hc|Hc]; [|by eapply IH].
    intros Hs%control_spaces_code. eapply runeWidth_high in Hc; [|done]. lia.
Qed.

(** C40: an error message shown to a client or written to the log is never empty, has
    at most 1203 bytes and holds no carriage return, line feed or tab, whatever bytes
    the text of the error has, so it cannot forge a log line or a header. *)
Theorem UpstreamErrorMessage_bounds text :
  let msg := UpstreamErrorMessage text in
  msg <> [] ∧ length msg <= 1203 ∧ Forall (fun c => c ∉ control_spaces) msg.
Proof.
  cbn zeta. unfold UpstreamErrorMessage.
  assert (Hu : Forall (fun c => c ∉ control_spaces) ("unknown error" : gostring)) by by_decide.
  destruct text as [t|]; [|split; [done|split; [by_decide|done]]].
  assert (Hm : Forall (fun c => c ∉ control_spaces) (mapASCII cleanByte (TrimSpace t))).
  { apply Forall_forall. apply mapASCII_fuel_clean. }
  generalize dependent (mapASCII cleanByte (TrimSpace t)). intros m Hm.
  destruct (bool_decide_reflect (1200 < length m)) as [Hl|Hl].
  - assert (Hne : take 1200 m ++ "..." <> []) by by intros [_ ?]%app_nil.
    rewrite bool_decide_eq_false_2 by done. split; [done|].
    split; [rewrite length_app, length_take; change (length ("..." : gostring)) with 3; lia|].
    apply Forall_app. split; [by apply Forall_take|by_decide].
  - case_bool_decide; [split; [done|split; [by_decide|done]]|]. split_and!; [done|lia|done].
Qed.

(** The stage is always reported, with the target that was dialed last. *)
Lemma UpstreamErrorAttrs_stage e s :
  (("upstream_error_stage" : gostring), AStr s) ∈ UpstreamErrorAttrs (Some e) -> s <> [].
Proof.
  unfold UpstreamErrorAttrs. case_match eqn:Es. rewrite elem_of_app, !elem_of_cons, elem_of_nil.
  intros Hin ->. destruct Hin as [Hin|Hin].
  - destruct_or! Hin; try done. injection Hin as <-. revert Es. repeat case_match; intros [= E _]; try done.
    all: boolify; congruence.
  - case_bool_decide; [by apply elem_of_nil in Hin|]. by apply list_elem_of_singleton in Hin.
Qed.
