(* ===== verification/SystemDns.v ===== *)
(** System DNS settings (src/internal/systemdns/systemdns.go and
    windows_platform.go): the settings of the chosen network interfaces are
    saved, pointed at the local DNS server and put back.

    The operations are written against a platform, as in the source.  The Windows
    platform works on a table of adapters; what its PowerShell scripts do to the
    table is their documented meaning, one cmdlet call at a time, and the text of
    the scripts is modelled as well. *)
From stdpp Require Import strings.
From Stdlib Require Import Ascii.
From S2P Require Import Prelude GoStrings GoNet External World Rollback Config.

Definition StateKind : gostring := "system_dns".
Definition stateVersion : Z := 1.
Definition ErrNoState : error := ErrorVar "systemdns.ErrNoState".
Definition ErrUnsupported : error := ErrorVar "systemdns.ErrUnsupported".

Record DNSSettings := {
  SRollbackPath : gostring;
  SInterfaces : list gostring;
  SServerIPs : list gostring;
}.

Record Result := {
  RInterfaces : nat;
  RServerIPs : list gostring;
  RViaHelper : bool;
}.

Record InterfaceState := {
  InterfaceAlias : gostring;
  InterfaceIndex : Z;
  InterfaceGUID : gostring;
  AddressFamily : gostring;
  Source : gostring;
  IServers : list gostring;
  StaticServers : list gostring;
  StaticNameServer : gostring;
}.

Record State := {
  StKind : gostring;
  StVersion : Z;
  StOS : gostring;
  StMode : gostring;
  StInterfaces : list InterfaceState;
  StServerIPs : list gostring;
  StCreatedAt : Time;
}.

(** * Normalization and validation *)

Section settings.
Context `{Externals}.

(** One iteration of cleanStrings: the keys seen and the values kept. *)
Definition cleanStep (s : gset gostring * list gostring) (raw : gostring) : gset gostring * list gostring :=
  let value := TrimSpace raw in
  if bool_decide (value = []) then s
  else
    let key := ToLower value in
    if bool_decide (key ∈ s.1) then s else ({[key]} ∪ s.1, s.2 ++ [value]).

Definition cleanStrings (values : list gostring) : list gostring := (foldl cleanStep (∅, []) values).2.

Definition normalizeConfig (cfg : DNSSettings) : DNSSettings :=
  {| SRollbackPath := TrimSpace (SRollbackPath cfg); SInterfaces := cleanStrings (SInterfaces cfg);
     SServerIPs := cleanStrings (SServerIPs cfg) |}.

Definition loopbackServer (server : gostring) : bool :=
  let ip := ParseIP server in
  negb (bool_decide (ip = []) || negb (IsLoopback ip) || bool_decide (To4 ip = [])).

Definition validateConfig (cfg : DNSSettings) : result unit :=
  if is_blank (SRollbackPath cfg) then Err (Errorf "rollback path is required" [])
  else if bool_decide (SInterfaces cfg = []) then Err (Errorf "system DNS interfaces are required" [])
  else if existsb is_blank (SInterfaces cfg)
  then Err (Errorf "system DNS interfaces cannot contain empty values" [])
  else if bool_decide (SServerIPs cfg = []) then Err (Errorf "system DNS server IPs are required" [])
  else match List.find (fun s => negb (loopbackServer s)) (SServerIPs cfg) with
       | Some server => Err (Errorf "system DNS server IP %q must be an IPv4 loopback address" [server])
       | None => Ok tt
       end.

Definition ConfigFromApp (cfg : Config) : result DNSSettings :=
  do hp <- wrap_err "invalid dns_intercept listen_addr: %w" [] (SplitHostPort (DNSListenAddr (DNS cfg)));
  let '(h, _) := hp in
  let host := if EqualFold (TrimSpace h) "localhost" then "127.0.0.1" else h in
  let ip := ParseIP host in
  if bool_decide (ip = []) || negb (IsLoopback ip) || bool_decide (To4 ip = [])
  then Err (Errorf "system DNS requires an IPv4 loopback DNS server" [])
  else
    let out := {| SRollbackPath := RtRollbackPath (Runtime cfg);
                  SInterfaces := cleanStrings (Interfaces (DNS cfg));
                  SServerIPs := [IPString ip] |} in
    do _ <- validateConfig out; Ok out.
End settings.

Definition completeState (s : State) (platformName : gostring) (cfg : DNSSettings) (now : Time) : State :=
  {| StKind := StateKind; StVersion := stateVersion; StOS := platformName; StMode := ModeDNS;
     StInterfaces := StInterfaces s; StServerIPs := SServerIPs cfg; StCreatedAt := now |}.

Definition resultFromState (s : State) : Result :=
  {| RInterfaces := length (StInterfaces s); RServerIPs := StServerIPs s; RViaHelper := false |}.

(** * The rollback state *)

Definition interface_json (i : InterfaceState) : json :=
  JObj ([("interface_alias", JStr (InterfaceAlias i)); ("interface_index", JNum (InterfaceIndex i))] ++
        omitempty "interface_guid" (bool_decide (InterfaceGUID i = [])) (JStr (InterfaceGUID i)) ++
        [("address_family", JStr (AddressFamily i)); ("source", JStr (Source i))] ++
        omitempty "servers" (bool_decide (IServers i = [])) (strings_json (IServers i)) ++
        omitempty "static_servers" (bool_decide (StaticServers i = [])) (strings_json (StaticServers i)) ++
        omitempty "static_name_server" (bool_decide (StaticNameServer i = [])) (JStr (StaticNameServer i))).

Definition json_interface (j : json) : result InterfaceState :=
  do fs <- as_object j;
  do alias <- get_string fs "interface_alias";
  do index <- get_int fs "interface_index";
  do guid <- get_string fs "interface_guid";
  do family <- get_string fs "address_family";
  do source <- get_string fs "source";
  do servers <- get_list as_string fs "servers";
  do static <- get_list as_string fs "static_servers";
  do nameServer <- get_string fs "static_name_server";
  Ok {| InterfaceAlias := alias; InterfaceIndex := index; InterfaceGUID := guid; AddressFamily := family;
        Source := source; IServers := servers; StaticServers := static; StaticNameServer := nameServer |}.

Section state.
Context `{Encoding}.

Definition interfaces_json (l : list InterfaceState) : json :=
  match l with [] => JNull | _ => JArr (interface_json <$> l) end.

Definition state_json (s : State) : json :=
  JObj [("kind", JStr (StKind s)); ("version", JNum (StVersion s)); ("os", JStr (StOS s));
        ("mode", JStr (StMode s)); ("interfaces", interfaces_json (StInterfaces s));
        ("server_ips", strings_json (StServerIPs s)); ("created_at", JStr (time_Format (StCreatedAt s)))].

Definition json_state (j : json) : result State :=
  do fs <- as_object j;
  do kind <- get_string fs "kind";
  do version <- get_int fs "version";
  do os <- get_string fs "os";
  do mode <- get_string fs "mode";
  do interfaces <- get_list json_interface fs "interfaces";
  do servers <- get_list as_string fs "server_ips";
  do created <- get_time fs "created_at";
  Ok {| StKind := kind; StVersion := version; StOS := os; StMode := mode; StInterfaces := interfaces;
        StServerIPs := servers; StCreatedAt := created |}.

Definition codec : Codec State := {| texts := rollback_texts; toJSON := state_json; fromJSON := json_state; createdAt := StCreatedAt |}.
End state.

(** * The operations *)

(** The interface the operations are written against. *)
Record Platform (X : Type) := {
  PName : gostring;
  PSnapshot : DNSSettings -> IO X State;
  PApply : DNSSettings -> State -> IO X unit;
  PRestore : State -> IO X unit;
}.
Arguments PName {X} p.
Arguments PSnapshot {X} p.
Arguments PApply {X} p.
Arguments PRestore {X} p.

Section operations.
Context {X : Type} `{Externals} `{Encoding}.

Definition PreflightWithPlatform (cfg : DNSSettings) (platform : option (Platform X)) (now : Time) : IO X Result :=
  match platform with
  | None => io_err (Errorf "system DNS platform is required" [])
  | Some p =>
      let cfg := normalizeConfig cfg in
      io _ <- io_of (validateConfig cfg);
      io snapshot <- PSnapshot p cfg;
      io_ret (resultFromState (completeState snapshot (PName p) cfg now))
  end.

Definition ApplyWithPlatform (cfg : DNSSettings) (platform : option (Platform X)) (now : Time) : IO X Result :=
  match platform with
  | None => io_err (Errorf "system DNS platform is required" [])
  | Some p =>
      let cfg := normalizeConfig cfg in
      io _ <- io_of (validateConfig cfg);
      io snapshot <- PSnapshot p cfg;
      let state := completeState snapshot (PName p) cfg now in
      io _ <- WriteState codec (SRollbackPath cfg) state;
      io _ <- io_wrap "apply system DNS: %w; rollback retained at %s" [SRollbackPath cfg] (PApply p cfg state);
      io_ret (resultFromState state)
  end.

Definition RestoreWithPlatform (rollbackPath : gostring) (platform : option (Platform X)) : IO X Result :=
  match platform with
  | None => io_err (Errorf "system DNS platform is required" [])
  | Some p =>
      try st <- ReadState codec rollbackPath;
      match st with
      | Err e => if errors_Is e os_ErrNotExist then io_err ErrNoState else io_err e
      | Ok state =>
          if negb (bool_decide (StKind state = [])) && negb (bool_decide (StKind state = StateKind))
          then io_err (Errorf "rollback state kind %q is not %q" [StKind state; StateKind])
          else if negb (bool_decide (StMode state = [])) && negb (bool_decide (StMode state = ModeDNS))
          then io_err (Errorf "rollback state mode %q is not %q" [StMode state; ModeDNS])
          else if negb (bool_decide (StOS state = [])) && negb (bool_decide (StOS state = PName p))
          then io_err (Errorf "rollback state was created for %s, current platform is %s" [StOS state; PName p])
          else
            io _ <- PRestore p state;
            io _ <- RemoveState rollbackPath;
            io_ret (resultFromState state)
      end
  end.

Definition HasState (path : gostring) (w : World X) : bool :=
  if is_blank path then false
  else match (ReadState codec path w).1 with
       | Err _ => false
       | Ok s => bool_decide (StKind s = StateKind) || bool_decide (StMode s = ModeDNS)
       end.

Definition unsupportedPlatform (name : gostring) : Platform X := {|
  PName := name;
  PSnapshot _ := io_err (Wrapf "%w: %s" [name] ErrUnsupported);
  PApply _ _ := io_err (Wrapf "%w: %s" [name] ErrUnsupported);
  PRestore _ := io_err (Wrapf "%w: %s" [name] ErrUnsupported);
|}.
End operations.

(** * The Windows platform *)

Record windowsDNSInterface := {
  WAlias : gostring;
  WIndex : Z;
  WGuid : gostring;
  WFamily : gostring;
  WStaticNameServer : gostring;
  WServers : list gostring;
}.

Definition json_windows (j : json) : result windowsDNSInterface :=
  do fs <- as_object j;
  do alias <- get_string fs "InterfaceAlias";
  do index <- get_int fs "InterfaceIndex";
  do guid <- get_string fs "InterfaceGuid";
  do family <- get_string fs "AddressFamily";
  do nameServer <- get_string fs "StaticNameServer";
  do servers <- get_list as_string fs "Servers";
  Ok {| WAlias := alias; WIndex := index; WGuid := guid; WFamily := family;
        WStaticNameServer := nameServer; WServers := servers |}.

(** One object or an array of them: ConvertTo-Json unwraps a single element. *)
Definition decodeWindowsDNSInterfaces `{Encoding} (out : gostring) : result (list windowsDNSInterface) :=
  let out := TrimSpace out in
  if bool_decide (out = []) then Ok []
  else
    match json_decode (fun j => match j with
                                | JNull => Ok []
                                | JArr l => rmapM json_windows l
                                | _ => Err (UnmarshalTypeError [])
                                end) out with
    | Ok items => Ok items
    | Err _ => do item <- wrap_err "parse Windows DNS interface snapshot: %w" [] (json_decode json_windows out);
               Ok [item]
    end.

Section windows.
Context `{Externals}.

Definition normalizeWindowsGUID (value : gostring) : gostring :=
  ToLower (TrimSuffix (TrimPrefix (TrimSpace value) "{") "}").

Definition server_separator (c : byte) : bool :=
  bool_decide (c ∈ [chr 44; chr 59; chr 32; chr 9; chr 13; chr 10]).

Definition parseWindowsServerList (value : gostring) : list gostring :=
  cleanStrings (FieldsFunc value server_separator).

Definition windowsInterfaceMatches (item : windowsDNSInterface) (selector : gostring) : bool :=
  let selector := TrimSpace selector in
  if bool_decide (selector = []) then false
  else if bool_decide (Itoa (WIndex item) = selector) then true
  else if EqualFold (WAlias item) selector then true
  else EqualFold (normalizeWindowsGUID (WGuid item)) (normalizeWindowsGUID selector).

Definition interfaceStateFromWindows (item : windowsDNSInterface) : InterfaceState :=
  let static := parseWindowsServerList (WStaticNameServer item) in
  {| InterfaceAlias := TrimSpace (WAlias item); InterfaceIndex := WIndex item;
     InterfaceGUID := normalizeWindowsGUID (WGuid item); AddressFamily := TrimSpace (WFamily item);
     Source := if bool_decide (static = []) then "dhcp" else "static";
     IServers := cleanStrings (WServers item); StaticServers := static;
     StaticNameServer := TrimSpace (WStaticNameServer item) |}.

(** The inner loop for one selector: the indexes seen, the interfaces selected
    and whether anything matched. *)
Definition selectItem (selector : gostring) (s : gset Z * list InterfaceState * bool) (item : windowsDNSInterface)
  : gset Z * list InterfaceState * bool :=
  let '(seen, selected, matched) := s in
  if negb (windowsInterfaceMatches item selector) then s
  else if bool_decide (WIndex item ∈ seen) then (seen, selected, true)
  else ({[WIndex item]} ∪ seen, selected ++ [interfaceStateFromWindows item], true).

Definition selectOne (items : list windowsDNSInterface) (s : gset Z * list InterfaceState) (selector : gostring)
  : result (gset Z * list InterfaceState) :=
  let '(seen, selected, matched) := foldl (selectItem selector) (s.1, s.2, false) items in
  if negb matched then Err (Errorf "system DNS interface %q was not found" [selector])
  else Ok (seen, selected).

Definition selectWindowsDNSInterfaces (items : list windowsDNSInterface) (selectors : list gostring)
  : result (list InterfaceState) :=
  if bool_decide (selectors = []) then Err (Errorf "system DNS interfaces are required" [])
  else
    do s <- rfold (selectOne items) (∅, []) selectors;
    if bool_decide (s.2 = []) then Err (Errorf "no system DNS interfaces selected" [])
    else Ok s.2.

Definition interfaceIndexes (l : list InterfaceState) : list Z :=
  filter (fun i => 0 < i)%Z (InterfaceIndex <$> l).

(** ** The scripts *)

Definition quote : byte := chr 39.

Definition psQuote (value : gostring) : gostring := [quote] ++ ReplaceAll value [quote] [quote; quote] ++ [quote].

Definition psStringArray (values : list gostring) : gostring :=
  match values with
  | [] => "@()"
  | _ => "@(" ++ Join (psQuote <$> values) ", " ++ ")"
  end.

Definition psIntArray (values : list Z) : gostring :=
  match values with
  | [] => "@()"
  | _ => "@(" ++ Join (Itoa <$> values) ", " ++ ")"
  end.

Definition stop_on_error : gostring := "$ErrorActionPreference = 'Stop'" ++ nl.

Definition buildWindowsApplyScript (indexes : list Z) (serverIPs : list gostring) : gostring :=
  stop_on_error ++ "$servers = " ++ psStringArray serverIPs ++ nl ++
  "$indexes = " ++ psIntArray indexes ++ nl ++
  "foreach ($idx in $indexes) {" ++ nl ++
  "  Set-DnsClientServerAddress -InterfaceIndex ([int]$idx) -ServerAddresses $servers" ++ nl ++
  "}" ++ nl.

(** What a restore script does with an interface: the servers to set, or [None]
    to reset it to DHCP. *)
Definition restoreServers (i : InterfaceState) : list gostring :=
  match StaticServers i with [] => parseWindowsServerList (StaticNameServer i) | l => l end.
Definition restoreSource (i : InterfaceState) : gostring :=
  if bool_decide (keyword (Source i) = "static") then "static" else "dhcp".

Definition restoreItem (i : InterfaceState) : gostring :=
  "@{ InterfaceIndex = " ++ Itoa (InterfaceIndex i) ++ "; Source = " ++ psQuote (restoreSource i) ++
  "; Servers = " ++ psStringArray (restoreServers i) ++ " }".

Definition buildWindowsRestoreScript (l : list InterfaceState) : gostring :=
  stop_on_error ++ "$items = @(" ++ nl ++ "  " ++ Join (restoreItem <$> l) ("," ++ nl ++ "  ") ++ nl ++ ")" ++ nl ++
  "foreach ($item in $items) {" ++ nl ++
  "  if ($item.Source -eq 'dhcp') {" ++ nl ++
  "    Set-DnsClientServerAddress -InterfaceIndex ([int]$item.InterfaceIndex) -ResetServerAddresses" ++ nl ++
  "  } else {" ++ nl ++
  "    Set-DnsClientServerAddress -InterfaceIndex ([int]$item.InterfaceIndex) -ServerAddresses $item.Servers" ++ nl ++
  "  }" ++ nl ++ "}" ++ nl.

(** ** Their meaning

    The adapter table holds, for each interface, the InterfaceGuid that
    Get-NetAdapter reports (blank for an interface it does not list), the name
    [aKey] of the interface's key under Tcpip\Parameters\Interfaces, the name
    servers set by hand (the NameServer value of that key, blank under DHCP) and
    those DHCP provides. *)
Record Adapter := {
  aAlias : gostring;
  aIndex : Z;
  aGuid : gostring;
  aKey : gostring;
  aNameServer : gostring;
  aDHCP : list gostring;
}.

(** The servers in effect on an adapter. *)
Definition effective (a : Adapter) : list gostring :=
  match parseWindowsServerList (aNameServer a) with [] => aDHCP a | l => l end.

Definition setNameServer (v : gostring) (a : Adapter) : Adapter :=
  {| aAlias := aAlias a; aIndex := aIndex a; aGuid := aGuid a; aKey := aKey a; aNameServer := v; aDHCP := aDHCP a |}.

Definition set_adapter (idx : Z) (v : gostring) (table : list Adapter) : list Adapter :=
  (fun a => if bool_decide (aIndex a = idx) then setNameServer v a else a) <$> table.

(** Set-DnsClientServerAddress with -ServerAddresses, or with
    -ResetServerAddresses for [None]: fails for an unknown interface and for an
    empty address list; the addresses are stored as one comma-separated value, a
    reset clears it. *)
Definition SetDnsClientServerAddress (idx : Z) (servers : option (list gostring)) : IO (list Adapter) unit :=
  os_call (fun e => e) (fun w =>
    if bool_decide (servers = Some []) then (Err (External "Cannot bind argument to parameter ServerAddresses"), w)
    else if bool_decide (idx ∈ aIndex <$> sys w)
    then (Ok tt, set_sys (set_adapter idx (Join (default [] servers) ",") (sys w)) w)
    else (Err (External "No MSFT_DNSClientServerAddress objects found"), w)).

Fixpoint foreach {A} (body : A -> IO (list Adapter) unit) (l : list A) : IO (list Adapter) unit :=
  match l with
  | [] => io_ret tt
  | x :: l' => io _ <- body x; foreach body l'
  end.

Definition runApplyScript (indexes : list Z) (serverIPs : list gostring) : IO (list Adapter) unit :=
  foreach (fun idx => SetDnsClientServerAddress idx (Some serverIPs)) indexes.

Definition runRestoreScript (l : list InterfaceState) : IO (list Adapter) unit :=
  foreach (fun i => SetDnsClientServerAddress (InterfaceIndex i)
    (if bool_decide (restoreSource i = "dhcp") then None else Some (restoreServers i))) l.

(** The registry lookup of the snapshot script: the key is named by the reported
    identifier between braces, and a missing key reads as no static servers. *)
Definition readNameServer (a : Adapter) : gostring :=
  if is_blank (aGuid a) then []
  else if bool_decide ("{" ++ aGuid a ++ "}" = aKey a) then aNameServer a else [].

(** Get-DnsClientServerAddress with the registry value of every adapter. *)
Definition snapshotItem (a : Adapter) : windowsDNSInterface :=
  {| WAlias := aAlias a; WIndex := aIndex a; WGuid := aGuid a; WFamily := "IPv4";
     WStaticNameServer := readNameServer a; WServers := effective a |}.
Definition runSnapshotScript : IO (list Adapter) (list windowsDNSInterface) :=
  os_call (fun e => e) (fun w => (Ok (snapshotItem <$> sys w), w)).

Definition windowsPlatform : Platform (list Adapter) := {|
  PName := "windows";
  PSnapshot cfg :=
    io items <- runSnapshotScript;
    io selected <- io_of (selectWindowsDNSInterfaces items (SInterfaces cfg));
    io_ret {| StKind := []; StVersion := 0; StOS := []; StMode := []; StInterfaces := selected;
              StServerIPs := []; StCreatedAt := 0%Z |};
  PApply cfg state :=
    let indexes := interfaceIndexes (StInterfaces state) in
    if bool_decide (indexes = []) then io_err (Errorf "system DNS rollback state has no interfaces" [])
    else runApplyScript indexes (SServerIPs cfg);
  PRestore state :=
    if bool_decide (StInterfaces state = []) then io_err (Errorf "system DNS rollback state has no interfaces" [])
    else runRestoreScript (StInterfaces state);
|}.
End windows.

(** * Properties *)

(** ** Cleaned lists *)

Section clean_properties.
Context `{Externals}.

(** What cleanStrings establishes: no blank value, no two values equal up to
    letter case, white space trimmed. *)
Definition clean (l : list gostring) : Prop :=
  Forall (fun v => v <> [] ∧ TrimSpace v = v) l ∧ NoDup (ToLower <$> l).

Definition clean_inv (s : gset gostring * list gostring) : Prop :=
  clean s.2 ∧ forall k, k ∈ s.1 <-> k ∈ ToLower <$> s.2.

Lemma cleanStep_inv s raw : clean_inv s -> clean_inv (cleanStep s raw).
Proof.
  intros [[Hf Hnd] Hs]. unfold cleanStep.
  destruct (bool_decide_reflect (TrimSpace raw = [])) as [|Hne]; [done|].
  case_bool_decide as Hk; [done|]. split; cbn [fst snd].
  - split.
    + apply Forall_app. split; [done|]. repeat constructor; [done|apply TrimSpace_idemp].
    + rewrite fmap_app. apply NoDup_app. split_and!; [done| |apply NoDup_singleton].
      intros x Hx ->%list_elem_of_singleton. by apply Hk, Hs.
  - intros k. rewrite fmap_app. cbn [fmap list_fmap]. rewrite elem_of_union, elem_of_singleton, elem_of_app, list_elem_of_singleton, Hs. tauto.
Qed.

Lemma cleanStep_mono s raw k : k ∈ s.1 -> k ∈ (cleanStep s raw).1.
Proof. intros Hk. unfold cleanStep. repeat case_bool_decide; [done..|]. by apply elem_of_union_r. Qed.

Lemma foldl_clean l s :
  clean_inv s -> clean_inv (foldl cleanStep s l) ∧
  (forall k, k ∈ s.1 -> k ∈ (foldl cleanStep s l).1) ∧
  (forall raw, raw ∈ l -> is_blank raw = false -> ToLower (TrimSpace raw) ∈ (foldl cleanStep s l).1) ∧
  (forall v, v ∈ (foldl cleanStep s l).2 -> v ∈ s.2 ∨ exists raw, raw ∈ l ∧ TrimSpace raw = v).
Proof.
  revert s; induction l as [|raw l IH]; intros s Hs; cbn [foldl].
  { split_and!; [done|done|by intros ? ?%elem_of_nil|by left]. }
  destruct (IH _ (cleanStep_inv _ raw Hs)) as (H1 & H2 & H3 & H4). split_and!; [done| | |].
  - intros k Hk. by apply H2, cleanStep_mono.
  - intros r [->|Hr]%elem_of_cons Hb; [|by apply H3]. apply H2. unfold is_blank in Hb. unfold cleanStep.
    rewrite Hb. destruct (bool_decide_reflect (ToLower (TrimSpace raw) ∈ s.1)) as [Hk|Hk]; [exact Hk|]. by apply elem_of_union_l, elem_of_singleton_2.
  - intros v Hv. destruct (H4 v Hv) as [Hv'|(r & Hr & <-)]; [|right; exists r; split; [by right|done]].
    revert Hv'. unfold cleanStep. repeat case_bool_decide; [by left..|].
    intros [?|Hx]%elem_of_app; [by left|]. apply list_elem_of_singleton in Hx as ->. right. exists raw. split; [left|done].
Qed.

Lemma clean_nil : clean_inv (∅, []).
Proof. split; [split; constructor|set_solver]. Qed.

Lemma cleanStrings_clean l : clean (cleanStrings l).
Proof. apply (foldl_clean l _ clean_nil). Qed.

Lemma cleanStrings_from l v : v ∈ cleanStrings l -> exists raw, raw ∈ l ∧ TrimSpace raw = v.
Proof. intros Hv. by destruct (proj2 (proj2 (proj2 (foldl_clean l _ clean_nil))) v Hv) as [?%elem_of_nil|?]. Qed.

Lemma cleanStrings_covers l raw :
  raw ∈ l -> is_blank raw = false -> ToLower (TrimSpace raw) ∈ ToLower <$> cleanStrings l.
Proof.
  intros Hr Hb. destruct (foldl_clean l _ clean_nil) as ([_ Hs] & _ & Hc & _). by apply Hs, Hc.
Qed.

(** A clean list is left as it is. *)
Lemma cleanStrings_id l : clean l -> cleanStrings l = l.
Proof.
  intros Hl. unfold cleanStrings. assert (Hgo : forall seen acc, (forall v, v ∈ l -> ToLower v ∉ seen) ->
    (foldl cleanStep (seen, acc) l).2 = acc ++ l).
  { induction l as [|v l IH]; intros seen acc Hseen; cbn [foldl]; [by rewrite app_nil_r|].
    destruct Hl as [[[Hne Ht] Hf]%Forall_cons Hnd]. cbn [fmap list_fmap] in Hnd. apply NoDup_cons in Hnd as [Hv Hnd].
    unfold cleanStep at 2. rewrite Ht, bool_decide_eq_false_2 by done.
    rewrite bool_decide_eq_false_2 by (apply Hseen; left). cbn [fst snd]. rewrite IH; [by rewrite <-app_assoc|done|].
    intros x Hx. apply not_elem_of_union. split; [|apply Hseen; by right].
    intros Hxv%elem_of_singleton. apply Hv. rewrite <-Hxv. by apply list_elem_of_fmap_2. }
  rewrite Hgo; [done|]. intros v _. apply not_elem_of_empty.
Qed.

Lemma cleanStrings_idemp l : cleanStrings (cleanStrings l) = cleanStrings l.
Proof. apply cleanStrings_id, cleanStrings_clean. Qed.
End clean_properties.

(** ** Server lists *)

Section server_lists.
Context `{Externals}.

(** A word of a separated list. *)
Definition word (p : byte -> bool) (w : gostring) : Prop := w <> [] ∧ forallb (fun c => negb (p c)) w = true.

Lemma FieldsFunc_words p s acc :
  forallb (fun c => negb (p c)) acc = true -> Forall (word p) (FieldsFunc_aux p acc s).
Proof.
  assert (Hflush : forall a, forallb (fun c => negb (p c)) a = true ->
    Forall (word p) (match a with [] => [] | _ => [reverse a] end)).
  { intros [|c a] Ha; [constructor|]. repeat constructor.
    - intros E%(f_equal length). rewrite length_reverse in E. done.
    - apply forallb_forall. intros x Hx%list_elem_of_In. apply (proj1 (elem_of_reverse _ _)) in Hx.
      rewrite forallb_forall in Ha. by apply Ha, list_elem_of_In. }
  revert acc; induction s as [|c s IH]; intros acc Ha; cbn [FieldsFunc_aux]; [by apply Hflush|].
  destruct (p c) eqn:Ep.
  - apply Forall_app. split; [by apply Hflush|by apply IH].
  - apply IH. cbn [forallb]. by rewrite Ep.
Qed.

Lemma FieldsFunc_word p acc w t :
  forallb (fun c => negb (p c)) w = true -> FieldsFunc_aux p acc (w ++ t) = FieldsFunc_aux p (reverse w ++ acc) t.
Proof.
  revert acc; induction w as [|c w IH]; intros acc Hw; [done|]. cbn [forallb] in Hw.
  apply andb_true_iff in Hw as [Hc Hw]. cbn [app FieldsFunc_aux].
  rewrite (proj1 (negb_true_iff _) Hc), IH by done. by rewrite reverse_cons, <-app_assoc.
Qed.

Lemma FieldsFunc_Join p ws (sep : byte) :
  p sep = true -> Forall (word p) ws -> FieldsFunc (Join ws [sep]) p = ws.
Proof.
  intros Hsep Hws. unfold FieldsFunc.
  assert (Hflush : forall w, word p w -> match reverse w ++ [] with [] => [] | _ => [reverse (reverse w ++ [])] end = [w]).
  { intros w [Hne _]. rewrite app_nil_r, reverse_involutive. destruct (reverse w) eqn:E; [|done].
    apply (f_equal reverse) in E. by rewrite reverse_involutive in E. }
  induction Hws as [|w ws Hw Hws IH]; [done|]. destruct (decide (ws = [])) as [->|Hne].
  - cbn [Join]. rewrite <-(app_nil_r w) at 1. rewrite FieldsFunc_word by apply Hw. cbn [FieldsFunc_aux]. by apply Hflush.
  - rewrite Join_cons, FieldsFunc_word by (done || apply Hw). cbn [app FieldsFunc_aux]. rewrite Hsep, IH.
    by rewrite Hflush.
Qed.

Lemma parse_words v : Forall (word server_separator) (parseWindowsServerList v).
Proof.
  apply Forall_forall. intros x Hx. pose proof (proj1 (cleanStrings_clean (FieldsFunc v server_separator))) as Hc.
  rewrite Forall_forall in Hc. split; [by apply Hc|].
  apply cleanStrings_from in Hx as (raw & Hraw & <-).
  pose proof (FieldsFunc_words server_separator v [] eq_refl) as Hw. rewrite Forall_forall in Hw.
  destruct (Hw raw Hraw) as [_ Hr]. rewrite forallb_forall in Hr |- *.
  intros c Hc'%list_elem_of_In. apply Hr, list_elem_of_In. by apply TrimSpace_elem.
Qed.

(** Storing a list of servers and reading it back gives the same list. *)
Lemma parse_Join l :
  clean l -> Forall (word server_separator) l -> parseWindowsServerList (Join l ",") = l.
Proof.
  intros Hc Hw. unfold parseWindowsServerList. change "," with [chr 44]. rewrite (FieldsFunc_Join server_separator l (chr 44)) by done.
  by apply cleanStrings_id.
Qed.

Lemma parse_idemp v : parseWindowsServerList (Join (parseWindowsServerList v) ",") = parseWindowsServerList v.
Proof. apply parse_Join; [apply cleanStrings_clean|apply parse_words]. Qed.
End server_lists.

(** ** The stored state *)

Section state_properties.
Context `{EncodingLaws}.

Lemma interface_roundtrip i : json_interface (interface_json i) = Ok i.
Proof.
  destruct i as [alias idx guid family src servers static ns]. unfold interface_json, json_interface.
  cbn [InterfaceAlias InterfaceIndex InterfaceGUID AddressFamily Source IServers StaticServers StaticNameServer].
  set (fs := _ ++ _). cbn [as_object rbind].
  assert (Hguid : get_string fs "interface_guid" = Ok guid).
  { destruct guid; [apply get_string_absent|apply get_string_field]; unfold fs; destruct servers, static, ns; reflexivity. }
  assert (Hns : get_string fs "static_name_server" = Ok ns).
  { destruct ns; [apply get_string_absent|apply get_string_field]; unfold fs; destruct guid, servers, static; reflexivity. }
  assert (Hs : get_list as_string fs "servers" = Ok servers).
  { apply get_list_strings. unfold fs. destruct guid, servers, static, ns; reflexivity. }
  assert (Hst : get_list as_string fs "static_servers" = Ok static).
  { apply get_list_strings. unfold fs. destruct guid, servers, static, ns; reflexivity. }
  rewrite (get_string_field fs "interface_alias" alias) by (unfold fs; destruct guid, servers, static, ns; reflexivity).
  rewrite (get_string_field fs "address_family" family) by (unfold fs; destruct guid, servers, static, ns; reflexivity).
  rewrite (get_string_field fs "source" src) by (unfold fs; destruct guid, servers, static, ns; reflexivity).
  assert (Hi : get_int fs "interface_index" = Ok idx).
  { unfold get_int, fs. destruct guid, servers, static, ns; reflexivity. }
  by rewrite Hi, Hguid, Hs, Hst, Hns.
Qed.

Lemma dns_state_roundtrip s :
  json_utf8 (state_json s) = true -> time_encodable (StCreatedAt s) = true -> storable codec s.
Proof.
  intros Hu Ht. split; [done|]. cbn [toJSON fromJSON codec]. unfold json_decode. rewrite json_roundtrip by done.
  destruct s as [kind ver os mode ifs servers created]. cbn [rbind]. unfold state_json, json_state.
  cbn [StKind StVersion StOS StMode StInterfaces StServerIPs StCreatedAt] in *. set (fs := _ :: _).
  cbn [as_object rbind].
  assert (Hi : get_list json_interface fs "interfaces" = Ok ifs).
  { unfold get_list. change (field fs "interfaces") with (interfaces_json ifs). destruct ifs as [|i l]; [done|].
    unfold interfaces_json. apply rmapM_Forall2. apply Forall2_fmap_l, Forall_Forall2_diag, Forall_true.
    apply interface_roundtrip. }
  assert (Hs : get_list as_string fs "server_ips" = Ok servers) by by apply get_list_strings.
  rewrite Hi, Hs. change (get_time fs "created_at") with (time_Parse (time_Format created)).
  by rewrite time_roundtrip.
Qed.
End state_properties.

(** ** The adapter table *)

Section table.
Context `{Externals} {A : Type} (idx : A -> Z) (servers : A -> option (list gostring)).

Definition stored (x : A) : gostring := Join (default [] (servers x)) ",".

(** What a script does to one adapter. *)
Definition updated (l : list A) (a : Adapter) : Adapter :=
  foldl (fun a x => if bool_decide (aIndex a = idx x) then setNameServer (stored x) a else a) a l.

Lemma foreach_set l w :
  faults w = [] -> (forall x, x ∈ l -> servers x <> Some [] ∧ idx x ∈ aIndex <$> sys w) ->
  foreach (fun x => SetDnsClientServerAddress (idx x) (servers x)) l w = (Ok tt, set_sys (updated l <$> sys w) w).
Proof.
  revert w; induction l as [|x l IH]; intros w Hf Hl; cbn [foreach].
  { unfold io_ret. cbn [updated foldl]. by rewrite list_fmap_id; destruct w. }
  unfold SetDnsClientServerAddress at 1, io_bind. rewrite os_call_healthy by done.
  destruct (Hl x ltac:(left)) as [Hs Hi]. rewrite bool_decide_eq_false_2 by done.
  rewrite bool_decide_eq_true_2 by done.
  assert (Hidx : forall v t, aIndex <$> set_adapter (idx x) v t = aIndex <$> t).
  { intros v t. unfold set_adapter. rewrite <-list_fmap_compose. apply list_fmap_ext. intros i a _. cbn.
    by case_bool_decide. }
  rewrite IH; [|done|].
  - unfold set_sys, set_adapter. cbn [files faults sys]. do 2 f_equal. rewrite <-list_fmap_compose.
    apply list_fmap_ext. intros i a _. unfold updated, compose. cbn [foldl]. done.
  - intros y Hy. cbn [sys set_sys]. rewrite Hidx. apply Hl. by right.
Qed.

Lemma updated_fields l a :
  aIndex (updated l a) = aIndex a ∧ aAlias (updated l a) = aAlias a ∧ aGuid (updated l a) = aGuid a ∧
  aDHCP (updated l a) = aDHCP a.
Proof.
  unfold updated. revert a; induction l as [|x l IH]; intros a; [done|]. cbn [foldl].
  destruct (IH (if bool_decide (aIndex a = idx x) then setNameServer (stored x) a else a)) as (-> & -> & -> & ->).
  by case_bool_decide.
Qed.

Lemma updated_other l a : aIndex a ∉ idx <$> l -> updated l a = a.
Proof.
  unfold updated. induction l as [|x l IH]; [done|]. cbn [foldl fmap list_fmap].
  rewrite not_elem_of_cons. intros [Hx Hl]. rewrite bool_decide_eq_false_2 by done. by apply IH.
Qed.

Lemma updated_selected l a x :
  NoDup (idx <$> l) -> x ∈ l -> aIndex a = idx x -> updated l a = setNameServer (stored x) a.
Proof.
  unfold updated. induction l as [|y l IH]; [by intros _ ?%elem_of_nil|]. cbn [foldl fmap list_fmap].
  intros [Hy Hnd]%NoDup_cons [->|Hx]%elem_of_cons Ha.
  - rewrite bool_decide_eq_true_2 by done. apply updated_other. cbn [aIndex setNameServer]. by rewrite Ha.
  - rewrite bool_decide_eq_false_2; [by apply IH|]. rewrite Ha. intros E. apply Hy. rewrite <-E.
    by apply list_elem_of_fmap_2.
Qed.
End table.

(** ** Selecting interfaces *)

Section selection.
Context `{Externals}.

Definition select_inv (items : list windowsDNSInterface) (selectors : list gostring)
    (s : gset Z * list InterfaceState) : Prop :=
  NoDup (InterfaceIndex <$> s.2) ∧ (forall i, i ∈ s.1 <-> i ∈ InterfaceIndex <$> s.2) ∧
  (forall i, i ∈ s.2 -> exists item selector, item ∈ items ∧ selector ∈ selectors ∧
     windowsInterfaceMatches item selector = true ∧ i = interfaceStateFromWindows item).

Lemma select_inv_weaken items sels sels' s :
  (forall x, x ∈ sels -> x ∈ sels') -> select_inv items sels s -> select_inv items sels' s.
Proof. intros Hs (H1 & H2 & H3). split_and!; [done..|]. intros i Hi. destruct (H3 i Hi) as (? & ? & ? & ? & ?). eauto 10. Qed.

Lemma selectItems_spec all items selectors selector seen selected m :
  (forall x, x ∈ items -> x ∈ all) -> selector ∈ selectors -> select_inv all selectors (seen, selected) ->
  let '(seen', selected', m') := foldl (selectItem selector) (seen, selected, m) items in
  select_inv all selectors (seen', selected') ∧ (forall k, k ∈ seen -> k ∈ seen') ∧
  (forall item, item ∈ items -> windowsInterfaceMatches item selector = true -> WIndex item ∈ seen') ∧
  (m' = true <-> m = true ∨ exists item, item ∈ items ∧ windowsInterfaceMatches item selector = true).
Proof.
  revert seen selected m; induction items as [|item items IH]; intros seen selected m Hall Hsel Hinv; cbn [foldl].
  { split_and!; [done|done|by intros ? ?%elem_of_nil|]. split; [by left|]. by intros [?|(? & ?%elem_of_nil & _)]. }
  assert (Hrest : forall x, x ∈ items -> x ∈ all) by (intros; apply Hall; by right).
  unfold selectItem at 2. destruct (windowsInterfaceMatches item selector) eqn:Em; cbn [negb].
  - set (st := if bool_decide (WIndex item ∈ seen) then _ else _).
    assert (Hst : exists seen1 selected1, st = (seen1, selected1, true) ∧ select_inv all selectors (seen1, selected1) ∧
      WIndex item ∈ seen1 ∧ forall k, k ∈ seen -> k ∈ seen1).
    { unfold st. case_bool_decide as Hk; [by exists seen, selected|]. eexists _, _. split; [done|].
      destruct Hinv as (Hnd & Hs & Hf). cbn [fst snd] in *. unfold select_inv. split_and!; cbn [fst snd].
      - rewrite fmap_app. cbn [fmap list_fmap]. apply NoDup_app. split_and!; [done| |apply NoDup_singleton].
        intros x Hx ->%list_elem_of_singleton. by apply Hk, Hs.
      - intros k. rewrite fmap_app. cbn [fmap list_fmap].
        rewrite elem_of_union, elem_of_singleton, elem_of_app, list_elem_of_singleton, Hs. cbn [interfaceStateFromWindows InterfaceIndex]. tauto.
      - intros i [Hi|Hi]%elem_of_app; [by apply Hf|]. apply list_elem_of_singleton in Hi as ->.
        exists item, selector. split_and!; [apply Hall; left|done..].
      - by apply elem_of_union_l, elem_of_singleton_2.
      - intros k Hk'. by apply elem_of_union_r. }
    destruct Hst as (seen1 & selected1 & -> & Hinv1 & Hin & Hmono).
    specialize (IH seen1 selected1 true Hrest Hsel Hinv1).
    destruct (foldl _ _ _) as [[seen' selected'] m']. destruct IH as (I1 & I2 & I3 & I4).
    split_and!; [done|by intros k Hk; apply I2, Hmono| |].
    + intros x [->|Hx]%elem_of_cons Hmx; [by apply I2|by apply I3].
    + rewrite I4. split; [|by left]. intros _. right. exists item. split; [left|done].
  - specialize (IH seen selected m Hrest Hsel Hinv).
    destruct (foldl _ _ _) as [[seen' selected'] m']. destruct IH as (I1 & I2 & I3 & I4).
    split_and!; [done|done| |].
    + intros x [->|Hx]%elem_of_cons Hmx; [congruence|by apply I3].
    + rewrite I4. split; intros [?|(x & Hx & Hmx)]; [by left| |by left|].
      * right. exists x. split; [by right|done].
      * apply elem_of_cons in Hx as [->|Hx]; [congruence|]. right. eauto.
Qed.

Lemma selectAll_spec items selectors pre s s' :
  select_inv items pre s -> (forall sel item, sel ∈ pre -> item ∈ items -> windowsInterfaceMatches item sel = true ->
     WIndex item ∈ s.1) ->
  rfold (selectOne items) s selectors = Ok s' ->
  select_inv items (pre ++ selectors) s' ∧
  (forall sel, sel ∈ selectors -> exists item, item ∈ items ∧ windowsInterfaceMatches item sel = true) ∧
  (forall sel item, sel ∈ pre ++ selectors -> item ∈ items -> windowsInterfaceMatches item sel = true ->
     WIndex item ∈ s'.1).
Proof.
  revert pre s; induction selectors as [|sel selectors IH]; intros pre s Hinv Hpre; cbn [rfold].
  { intros [= <-]. rewrite app_nil_r. split_and!; [done|by intros ? ?%elem_of_nil|done]. }
  destruct s as [seen selected]. unfold selectOne at 1. cbn [fst snd].
  assert (Hinv' : select_inv items (pre ++ [sel]) (seen, selected)).
  { eapply select_inv_weaken; [|exact Hinv]. intros x Hx. apply elem_of_app. by left. }
  assert (Hin : sel ∈ pre ++ [sel]) by (apply elem_of_app; right; apply list_elem_of_singleton; done).
  pose proof (selectItems_spec items items (pre ++ [sel]) sel seen selected false ltac:(done) Hin Hinv') as Hi.
  destruct (foldl _ _ items) as [[seen1 selected1] m]. destruct Hi as (I1 & I2 & I3 & I4).
  destruct m; cbn [negb rbind]; [|done]. intros Hf.
  assert (Hpre1 : forall x item, x ∈ pre ++ [sel] -> item ∈ items -> windowsInterfaceMatches item x = true ->
    WIndex item ∈ (seen1, selected1).1).
  { intros x item [Hx|Hx]%elem_of_app Hit Hm; cbn [fst].
    - apply I2. by eapply (Hpre x).
    - apply list_elem_of_singleton in Hx as ->. by apply I3. }
  destruct (IH (pre ++ [sel]) _ I1 Hpre1 Hf) as (J1 & J2 & J3). rewrite <-app_assoc in J1, J3.
  split_and!; [done| |done]. intros x [->|Hx]%elem_of_cons; [|by apply J2].
  by destruct (proj1 I4 eq_refl) as [?|?].
Qed.

Lemma select_sound items selectors selected :
  selectWindowsDNSInterfaces items selectors = Ok selected ->
  NoDup (InterfaceIndex <$> selected) ∧ selected <> [] ∧
  (forall i, i ∈ selected -> exists item selector, item ∈ items ∧ selector ∈ selectors ∧
     windowsInterfaceMatches item selector = true ∧ i = interfaceStateFromWindows item) ∧
  (forall selector, selector ∈ selectors -> exists item, item ∈ items ∧
     windowsInterfaceMatches item selector = true) ∧
  (forall selector item, selector ∈ selectors -> item ∈ items -> windowsInterfaceMatches item selector = true ->
     WIndex item ∈ InterfaceIndex <$> selected).
Proof.
  unfold selectWindowsDNSInterfaces. case_bool_decide; [done|].
  destruct (rfold _ _ _) as [s|] eqn:E; cbn [rbind]; [|done]. case_bool_decide; [done|]. intros [= <-].
  assert (Hinit : select_inv items [] (∅, [])).
  { split_and!; cbn; [constructor|set_solver|by intros ? ?%elem_of_nil]. }
  destruct (selectAll_spec items selectors [] _ _ Hinit ltac:(by intros ? ? ?%elem_of_nil) E)
    as ((Hnd & Hs & Hf) & Hm & Hc).
  split_and!; try done. intros sel item Hsel Hit Hmt. by apply Hs, (Hc sel).
Qed.

Lemma selectOne_ok items s sel :
  is_ok (selectOne items s sel) = existsb (fun item => windowsInterfaceMatches item sel) items.
Proof.
  assert (Hm : forall st, (foldl (selectItem sel) st items).2 =
    st.2 || existsb (fun item => windowsInterfaceMatches item sel) items).
  { induction items as [|item items IH]; intros [[seen selected] m]; cbn [foldl existsb]; [by rewrite orb_false_r|].
    rewrite IH. unfold selectItem. destruct (windowsInterfaceMatches item sel); cbn [negb snd]; [|done].
    by case_bool_decide; cbn [snd]; rewrite orb_true_r. }
  unfold selectOne. specialize (Hm (s.1, s.2, false)). destruct (foldl _ _ items) as [[seen selected] m].
  cbn [snd orb] in Hm. rewrite <-Hm. by destruct m.
Qed.

Lemma selectAll_ok items s selectors :
  is_ok (rfold (selectOne items) s selectors) =
  forallb (fun sel => existsb (fun item => windowsInterfaceMatches item sel) items) selectors.
Proof.
  revert s; induction selectors as [|sel selectors IH]; intros s; [done|]. cbn [rfold forallb].
  rewrite <-(selectOne_ok items s sel). destruct (selectOne items s sel); [apply IH|done].
Qed.

(** The interfaces whose settings are changed are exactly those some
    configured selector names by index, alias or GUID, each once.  Selection
    succeeds exactly when there are selectors and each of them names an interface:
    an unknown name is an error, never silently ignored. *)
Theorem selectWindowsDNSInterfaces_spec items selectors :
  (is_ok (selectWindowsDNSInterfaces items selectors) = true <->
     selectors <> [] ∧ forall selector, selector ∈ selectors -> exists item, item ∈ items ∧
       windowsInterfaceMatches item selector = true) ∧
  forall selected, selectWindowsDNSInterfaces items selectors = Ok selected ->
    NoDup (InterfaceIndex <$> selected) ∧
    (forall i, i ∈ selected -> exists item selector, item ∈ items ∧ selector ∈ selectors ∧
       windowsInterfaceMatches item selector = true ∧ i = interfaceStateFromWindows item) ∧
    (forall selector item, selector ∈ selectors -> item ∈ items -> windowsInterfaceMatches item selector = true ->
       WIndex item ∈ InterfaceIndex <$> selected).
Proof.
  split; [|intros selected Hs; destruct (select_sound _ _ _ Hs) as (? & _ & ? & _ & ?); by split_and!].
  unfold selectWindowsDNSInterfaces. destruct (bool_decide_reflect (selectors = [])) as [->|Hne].
  { split; [done|]. by intros [? _]. }
  assert (Hm : is_ok (rfold (selectOne items) (∅, []) selectors) = true <->
    forall selector, selector ∈ selectors -> exists item, item ∈ items ∧ windowsInterfaceMatches item selector = true).
  { rewrite selectAll_ok, forallb_forall. setoid_rewrite existsb_exists. setoid_rewrite <-list_elem_of_In. done. }
  destruct (rfold _ _ _) as [s|] eqn:E; cbn [rbind is_ok] in *; [|by rewrite <-Hm; intuition].
  assert (Hinit : select_inv items [] (∅, [])).
  { split_and!; cbn; [constructor|set_solver|by intros ? ?%elem_of_nil]. }
  destruct (selectAll_spec items selectors [] _ _ Hinit ltac:(by intros ? ? ?%elem_of_nil) E) as ((_ & Hs & _) & Hf & Hc).
  rewrite bool_decide_eq_false_2; [by intuition|]. intros Hnil.
  destruct selectors as [|sel sels]; [done|]. destruct (Hf sel ltac:(left)) as (item & Hit & Hmt).
  specialize (Hc sel item ltac:(left) Hit Hmt). apply Hs in Hc. rewrite Hnil in Hc. by apply elem_of_nil in Hc.
Qed.
End selection.

(** ** Applying and restoring on Windows *)

Section windows_properties.
Context `{Externals} `{EncodingLaws}.

(** The state saved for a selection of interfaces. *)
Definition savedState (cfg : DNSSettings) (selected : list InterfaceState) (now : Time) : State :=
  {| StKind := StateKind; StVersion := stateVersion; StOS := "windows"; StMode := ModeDNS;
     StInterfaces := selected; StServerIPs := SServerIPs cfg; StCreatedAt := now |}.

(** What the operations need to run without failing: an accepted configuration
    whose selectors name interfaces of the table with proper indexes, and names
    that can be stored. *)
Definition ready (cfg : DNSSettings) (now : Time) (selected : list InterfaceState) (w : World (list Adapter)) : Prop :=
  faults w = [] ∧ validateConfig (normalizeConfig cfg) = Ok tt ∧ time_encodable now = true ∧
  selectWindowsDNSInterfaces (snapshotItem <$> sys w) (SInterfaces (normalizeConfig cfg)) = Ok selected ∧
  Forall (fun i => 0 < InterfaceIndex i)%Z selected ∧ json_utf8 (interfaces_json selected) = true.

(** The table after the interfaces were pointed at the given servers. *)
Definition redirected (selected : list InterfaceState) (servers : list gostring) : Adapter -> Adapter :=
  updated InterfaceIndex (fun _ => Some servers) selected.
(** ... and after they were put back. *)
Definition putBack (selected : list InterfaceState) : Adapter -> Adapter :=
  updated InterfaceIndex (fun i => if bool_decide (restoreSource i = "dhcp") then None else Some (restoreServers i))
    selected.

Lemma loopbackServer_word s : loopbackServer s = true -> word server_separator s ∧ utf8_ValidString s = true.
Proof.
  unfold loopbackServer. rewrite negb_true_iff, !orb_false_iff. intros [[Hip _] _]. boolify.
  pose proof (ParseIP_chars s Hip) as Hc. rewrite forallb_forall in Hc. split.
  - split; [by intros ->|]. apply forallb_forall. intros c Hin. specialize (Hc c Hin). clear -Hc.
    revert Hc. by destruct c as [[] [] [] [] [] [] [] []]; vm_compute.
  - apply utf8_ascii, forallb_forall. intros c Hin. specialize (Hc c Hin). clear -Hc.
    revert Hc. by destruct c as [[] [] [] [] [] [] [] []]; vm_compute.
Qed.

Lemma valid_servers cfg :
  validateConfig (normalizeConfig cfg) = Ok tt ->
  let l := SServerIPs (normalizeConfig cfg) in
  l <> [] ∧ clean l ∧ Forall (word server_separator) l ∧ forallb utf8_ValidString l = true ∧
  is_blank (SRollbackPath (normalizeConfig cfg)) = false.
Proof.
  cbn zeta. intros Hv. unfold validateConfig in Hv.
  destruct (is_blank _); [done|]. case_bool_decide; [done|]. destruct (existsb _ _); [done|].
  destruct (bool_decide_reflect (SServerIPs (normalizeConfig cfg) = [])) as [|Hne]; [done|].
  destruct (List.find _ _) eqn:Ef; [done|].
  assert (Hall : forall s, s ∈ SServerIPs (normalizeConfig cfg) -> loopbackServer s = true).
  { intros s Hs%list_elem_of_In. pose proof (find_none _ _ Ef s Hs) as Hn. by apply negb_false_iff in Hn. }
  split_and!; [done|apply cleanStrings_clean| | |done].
  - apply Forall_forall. intros s Hs. by apply loopbackServer_word, Hall.
  - apply forallb_forall. intros s Hs%list_elem_of_In. by apply loopbackServer_word, Hall.
Qed.

Lemma savedState_storable cfg now selected w :
  ready cfg now selected w -> storable codec (savedState (normalizeConfig cfg) selected now).
Proof.
  intros (_ & Hv & Ht & _ & _ & Hu). apply dns_state_roundtrip; [|done].
  destruct (valid_servers cfg Hv) as (_ & _ & _ & Hs & _).
  unfold state_json, savedState. cbn [StKind StVersion StOS StMode StInterfaces StServerIPs StCreatedAt json_utf8 forallb fst snd].
  rewrite Hu, strings_json_utf8, Hs, time_Format_utf8. reflexivity.
Qed.

Lemma interfaceIndexes_positive l :
  Forall (fun i => 0 < InterfaceIndex i)%Z l -> interfaceIndexes l = InterfaceIndex <$> l.
Proof.
  unfold interfaceIndexes. induction 1 as [|i l Hi _ IH]; [done|]. cbn [fmap list_fmap].
  rewrite filter_cons_True by done. by rewrite IH.
Qed.

Lemma selected_known table selectors selected i :
  selectWindowsDNSInterfaces (snapshotItem <$> table) selectors = Ok selected -> i ∈ selected ->
  exists a, a ∈ table ∧ i = interfaceStateFromWindows (snapshotItem a).
Proof.
  intros Hs Hi. destruct (select_sound _ _ _ Hs) as (_ & _ & Hf & _). destruct (Hf i Hi) as (item & _ & Hit & _ & _ & ->).
  apply list_elem_of_fmap in Hit as (a & -> & Ha). eauto.
Qed.

Lemma indexes_known table selectors selected :
  selectWindowsDNSInterfaces (snapshotItem <$> table) selectors = Ok selected ->
  forall i, i ∈ selected -> InterfaceIndex i ∈ aIndex <$> table.
Proof.
  intros Hs i Hi. destruct (selected_known _ _ _ _ Hs Hi) as (a & Ha & ->). cbn. by apply list_elem_of_fmap_2.
Qed.

Lemma foreach_fmap {A B} (g : A -> B) body l : foreach body (g <$> l) = foreach (fun x => body (g x)) l.
Proof. induction l as [|x l IH]; [done|]. cbn. by rewrite IH. Qed.

Lemma Apply_windows cfg now selected w :
  ready cfg now selected w ->
  let st := savedState (normalizeConfig cfg) selected now in
  ApplyWithPlatform cfg (Some windowsPlatform) now w =
    (Ok (resultFromState st),
     {| files := <[SRollbackPath (normalizeConfig cfg) := json_Marshal (state_json st)]> (files w); faults := [];
        sys := redirected selected (SServerIPs (normalizeConfig cfg)) <$> sys w |}).
Proof.
  intros Hr. pose proof (savedState_storable _ _ _ _ Hr) as Hst.
  destruct Hr as (Hf & Hv & Ht & Hsel & Hpos & Hu).
  destruct (valid_servers cfg Hv) as (Hne & _ & _ & _ & Hb). cbn zeta.
  unfold ApplyWithPlatform. erewrite io_bind_seq by (unfold io_of; by rewrite Hv).
  cbn [PSnapshot PApply PName windowsPlatform].
  erewrite io_bind_seq; cycle 1.
  { erewrite io_bind_seq by (unfold runSnapshotScript; by rewrite os_call_healthy).
    by erewrite io_bind_seq by (unfold io_of; by rewrite Hsel). }
  erewrite io_bind_seq by (by apply WriteState_healthy).
  erewrite io_bind_seq; [reflexivity|]. apply io_wrap_Ok. cbn [StInterfaces completeState].
  destruct (select_sound _ _ _ Hsel) as (Hnd & Hnil & _).
  rewrite interfaceIndexes_positive, bool_decide_eq_false_2 by (done || by destruct selected).
  unfold runApplyScript. rewrite foreach_fmap.
  rewrite (foreach_set InterfaceIndex (fun _ => Some (SServerIPs (normalizeConfig cfg)))); [by rewrite <-Hf|done|].
  intros x Hx. cbn [sys set_files]. split; [congruence|]. by eapply indexes_known.
Qed.

Lemma Restore_windows st path w :
  StKind st = StateKind -> StMode st = ModeDNS -> StOS st = "windows" -> StInterfaces st <> [] ->
  storable codec st -> faults w = [] -> files w !! path = Some (json_Marshal (state_json st)) ->
  (forall i, i ∈ StInterfaces st -> InterfaceIndex i ∈ aIndex <$> sys w ∧
     (restoreSource i = "dhcp" ∨ restoreServers i <> [])) ->
  RestoreWithPlatform path (Some windowsPlatform) w =
    (Ok (resultFromState st),
     {| files := delete path (files w); faults := []; sys := putBack (StInterfaces st) <$> sys w |}).
Proof.
  intros Hk Hm Ho Hne Hst Hf Hfile Hi. unfold RestoreWithPlatform, io_try.
  rewrite (ReadState_healthy codec path st) by done. rewrite Hk, Hm, Ho. cbn [PName PRestore windowsPlatform].
  eval_tests. rewrite bool_decide_eq_false_2 by done. unfold runRestoreScript.
  erewrite io_bind_seq by (apply (foreach_set InterfaceIndex
    (fun i => if bool_decide (restoreSource i = "dhcp") then None else Some (restoreServers i))); [done|];
    intros x Hx; destruct (Hi x Hx) as [Hx1 Hx2]; split; [|done]; case_bool_decide; naive_solver).
  erewrite io_bind_seq by (by apply RemoveState_healthy). unfold io_ret. by rewrite <-Hf.
Qed.

Definition is_selected (selected : list InterfaceState) (a : Adapter) : Prop := aIndex a ∈ InterfaceIndex <$> selected.
#[local] Instance is_selected_dec selected a : Decision (is_selected selected a).
Proof. unfold is_selected. apply _. Defined.

Lemma redirected_effective selected servers a :
  NoDup (InterfaceIndex <$> selected) -> servers <> [] -> clean servers -> Forall (word server_separator) servers ->
  is_selected selected a -> effective (redirected selected servers a) = servers.
Proof.
  intros Hnd Hne Hc Hw (i & Ha & Hi)%list_elem_of_fmap. unfold redirected.
  rewrite (updated_selected InterfaceIndex _ selected a i) by done.
  unfold effective. cbn [aNameServer setNameServer stored default].
  unfold stored. cbn [default]. rewrite parse_Join by done. by destruct servers.
Qed.

(** The adapters whose registry key the snapshot finds. *)
Definition readable (a : Adapter) : Prop := is_blank (aGuid a) = false ∧ "{" ++ aGuid a ++ "}" = aKey a.

Lemma readable_read a : readable a -> readNameServer a = aNameServer a.
Proof. intros [Hb Hk]. unfold readNameServer. by rewrite Hb, Hk, bool_decide_eq_true_2. Qed.

(** What is saved of an adapter puts back the servers the snapshot saw. *)
Lemma saved_servers a b :
  let i := interfaceStateFromWindows (snapshotItem a) in
  aDHCP b = aDHCP a ->
  (restoreSource i = "dhcp" ∨ restoreServers i <> []) ∧
  effective (setNameServer (stored (fun i => if bool_decide (restoreSource i = "dhcp") then None
    else Some (restoreServers i)) i) b) = effective (setNameServer (readNameServer a) a).
Proof.
  cbn zeta. intros Hd. unfold restoreSource, restoreServers, stored, effective.
  cbn [interfaceStateFromWindows snapshotItem Source StaticServers WStaticNameServer aNameServer setNameServer aDHCP].
  destruct (parseWindowsServerList (readNameServer a)) as [|v l] eqn:Ep.
  - change (bool_decide (keyword (if bool_decide ([] = [] :> list gostring) then "dhcp" else "static") = "static")) with false.
    cbn [bool_decide]. eval_tests. split; [by left|]. cbn [default Join]. by rewrite Hd.
  - change (bool_decide (keyword (if bool_decide (v :: l = []) then "dhcp" else "static") = "static")) with true.
    eval_tests. split; [by right|].
    assert (Hj : parseWindowsServerList (Join (v :: l) ",") = v :: l) by (rewrite <-Ep; apply parse_idemp).
    change (default [] (Some (v :: l))) with (v :: l). by rewrite Hj.
Qed.

Lemma NoDup_fmap_eq {A B} (f : A -> B) l x y : NoDup (f <$> l) -> x ∈ l -> y ∈ l -> f x = f y -> x = y.
Proof.
  intros Hnd [i Hi]%list_elem_of_lookup [j Hj]%list_elem_of_lookup E.
  assert (i = j) as ->; [|congruence].
  apply (proj1 (NoDup_alt _) Hnd i j (f x)); rewrite list_lookup_fmap; [by rewrite Hi|by rewrite Hj, E].
Qed.

Lemma putBack_spec table selectors selected servers a :
  selectWindowsDNSInterfaces (snapshotItem <$> table) selectors = Ok selected -> NoDup (aIndex <$> table) ->
  a ∈ table ->
  let b := putBack selected (redirected selected servers a) in
  (is_selected selected a -> effective b = effective (setNameServer (readNameServer a) a)) ∧
  aIndex b = aIndex a ∧ aAlias b = aAlias a ∧ aGuid b = aGuid a ∧ aDHCP b = aDHCP a ∧
  (~ is_selected selected a -> b = a).
Proof.
  intros Hs Htab Ha. cbn zeta. destruct (select_sound _ _ _ Hs) as (Hnd & _).
  pose proof (updated_fields InterfaceIndex (fun _ => Some servers) selected a) as (F1 & F2 & F3 & F4).
  fold (redirected selected servers) in *. set (r := redirected selected servers a) in *.
  pose proof (updated_fields InterfaceIndex (fun i => if bool_decide (restoreSource i = "dhcp") then None
    else Some (restoreServers i)) selected r) as (G1 & G2 & G3 & G4). fold (putBack selected) in *.
  rewrite G1, G2, G3, G4, F1, F2, F3, F4.
  assert (Hother : ~ is_selected selected a -> putBack selected r = a).
  { intros Hn. unfold r, putBack, redirected. rewrite (updated_other _ (fun _ => Some servers)) by done.
    by apply updated_other. }
  split_and!; try done. intros (i & Hai & Hi)%list_elem_of_fmap.
  destruct (selected_known _ _ _ _ Hs Hi) as (a' & Ha' & Ei).
  assert (a' = a) as ->.
  { apply (NoDup_fmap_eq aIndex table); [done..|]. by rewrite Hai, Ei. }
  unfold putBack. rewrite (updated_selected InterfaceIndex _ selected r i) by (done || by rewrite F1).
  rewrite Ei. by apply saved_servers.
Qed.

Lemma effective_putBack table selectors selected servers a :
  selectWindowsDNSInterfaces (snapshotItem <$> table) selectors = Ok selected -> NoDup (aIndex <$> table) ->
  a ∈ table -> readable a -> effective (putBack selected (redirected selected servers a)) = effective a.
Proof.
  intros Hs Htab Ha Hr. destruct (putBack_spec _ _ _ servers _ Hs Htab Ha) as (Hb & _ & _ & _ & _ & Hn).
  destruct (decide (is_selected selected a)) as [Hsel|Hns]; [|by rewrite Hn].
  rewrite Hb, readable_read by done. by destruct a.
Qed.

Lemma selected_restorable table selectors selected :
  selectWindowsDNSInterfaces (snapshotItem <$> table) selectors = Ok selected ->
  forall i, i ∈ selected -> restoreSource i = "dhcp" ∨ restoreServers i <> [].
Proof. intros Hs i Hi. destruct (selected_known _ _ _ _ Hs Hi) as (a & _ & ->). by apply (saved_servers a a). Qed.

Lemma redirected_indexes selected servers (table : list Adapter) :
  aIndex <$> (redirected selected servers <$> table) = aIndex <$> table.
Proof.
  rewrite <-list_fmap_compose. apply list_fmap_ext. intros k a _. unfold compose, redirected. apply updated_fields.
Qed.

(** Restore after Apply, from the state of the world that Apply left. *)
Lemma Apply_Restore_windows cfg now selected w :
  ready cfg now selected w ->
  let path := SRollbackPath (normalizeConfig cfg) in
  let w1 := (ApplyWithPlatform cfg (Some windowsPlatform) now w).2 in
  RestoreWithPlatform path (Some windowsPlatform) w1 =
    (Ok (resultFromState (savedState (normalizeConfig cfg) selected now)),
     {| files := delete path (files w); faults := [];
        sys := (fun a => putBack selected (redirected selected (SServerIPs (normalizeConfig cfg)) a)) <$> sys w |}).
Proof.
  intros Hr. cbn zeta. rewrite (Apply_windows _ _ _ _ Hr). cbn [snd].
  pose proof (savedState_storable _ _ _ _ Hr) as Hst. destruct Hr as (Hf & Hv & Ht & Hsel & Hpos & Hu).
  destruct (select_sound _ _ _ Hsel) as (Hnd & Hnil & _).
  rewrite (Restore_windows (savedState (normalizeConfig cfg) selected now));
    [|done|done|done|exact Hnil|exact Hst|done|cbn; by rewrite lookup_insert_eq|].
  - cbn [files sys]. rewrite delete_insert_eq, <-list_fmap_compose. reflexivity.
  - cbn [StInterfaces savedState sys]. intros i Hi. rewrite redirected_indexes. split; [by eapply indexes_known|].
    by eapply selected_restorable.
Qed.

(** The restore, adapter by adapter: a selected one gets back the servers in effect where
    its registry value was read or is empty, and the automatic ones where a value set by
    hand was not read; one that was not selected is as before. *)
Definition put_back (selected : list InterfaceState) (a b : Adapter) : Prop :=
  aIndex b = aIndex a ∧ aAlias b = aAlias a ∧ aGuid b = aGuid a ∧ aDHCP b = aDHCP a ∧
  (is_selected selected a -> readable a ∨ parseWindowsServerList (aNameServer a) = [] -> effective b = effective a) ∧
  (is_selected selected a -> ~ readable a -> effective b = aDHCP a) ∧
  (~ is_selected selected a -> b = a).

Lemma unreadable_read a : ~ readable a -> readNameServer a = [].
Proof.
  unfold readable, readNameServer. intros Hn. destruct (is_blank (aGuid a)); [done|].
  case_bool_decide; [|done]. by destruct Hn.
Qed.

Lemma putBack_put_back table selectors selected servers a :
  selectWindowsDNSInterfaces (snapshotItem <$> table) selectors = Ok selected -> NoDup (aIndex <$> table) ->
  a ∈ table -> put_back selected a (putBack selected (redirected selected servers a)).
Proof.
  intros Hs Hnd Ha. destruct (putBack_spec _ _ _ servers _ Hs Hnd Ha) as (He & ? & ? & ? & ? & Hn).
  assert (Hno : ~ readable a -> effective (setNameServer (readNameServer a) a) = aDHCP a)
    by (intros Hr; by rewrite unreadable_read).
  split_and!; try done; [|intros Hsel Hr; by rewrite He, Hno].
  intros Hsel Hr. rewrite (He Hsel). destruct (decide (is_blank (aGuid a) = false ∧ "{" ++ aGuid a ++ "}" = aKey a)) as [Hd|Hd].
  - rewrite readable_read by done. by destruct a.
  - destruct Hr as [Hr|Hr]; [done|]. rewrite Hno by done. unfold effective. by rewrite Hr.
Qed.

(** C24: on Windows, applying and restoring the system DNS settings.  In between exactly
    the selected adapters use the local server.  After the restore the rollback file is
    gone, the adapters that were not selected are as they were throughout, and a selected
    one has the servers it had before if they were automatic or its registry value could
    be read, which the snapshot can when the identifier is reported without braces; where
    it could not, servers set by hand are lost to the automatic ones. *)
Theorem system_dns_roundtrip cfg now selected w :
  ready cfg now selected w -> NoDup (aIndex <$> sys w) ->
  exists r w1 w2, ApplyWithPlatform cfg (Some windowsPlatform) now w = (Ok r, w1) ∧
    Forall2 (fun a b => if decide (is_selected selected a) then effective b = SServerIPs (normalizeConfig cfg) else b = a)
      (sys w) (sys w1) ∧
    RestoreWithPlatform (SRollbackPath (normalizeConfig cfg)) (Some windowsPlatform) w1 = (Ok r, w2) ∧
    Forall2 (put_back selected) (sys w) (sys w2) ∧
    files w2 = delete (SRollbackPath (normalizeConfig cfg)) (files w).
Proof.
  intros Hr Hnd.
  pose proof (Apply_Restore_windows _ _ _ _ Hr) as Hres. cbn zeta in Hres.
  pose proof (Apply_windows _ _ _ _ Hr) as Hap. cbn zeta in Hap. rewrite Hap in Hres |- *. cbn [snd] in Hres.
  destruct Hr as (Hf & Hv & Ht & Hsel & Hpos & Hu). destruct (select_sound _ _ _ Hsel) as (Hndi & Hnil & _).
  destruct (valid_servers cfg Hv) as (Hne & Hc & Hw & _ & _).
  eexists _, _, _. split; [done|]. split; [|split; [exact Hres|]].
  - cbn [sys]. apply Forall2_fmap_r, Forall_Forall2_diag, Forall_forall. intros a Ha.
    case_decide; [by apply redirected_effective|]. by apply updated_other.
  - cbn [sys files]. split; [|done]. apply Forall2_fmap_r, Forall_Forall2_diag, Forall_forall. intros a Ha.
    by eapply putBack_put_back.
Qed.

(** The static servers of an adapter whose identifier is reported with its
    braces are lost: the snapshot script adds a second pair, does not find the
    registry key and records the adapter as configured by DHCP, so that after
    Apply and Restore it uses the DHCP servers whatever was set by hand. *)
Theorem braced_guid_loses_static cfg now selected w :
  ready cfg now selected w -> NoDup (aIndex <$> sys w) ->
  exists r w1 w2, ApplyWithPlatform cfg (Some windowsPlatform) now w = (Ok r, w1) ∧
    RestoreWithPlatform (SRollbackPath (normalizeConfig cfg)) (Some windowsPlatform) w1 = (Ok r, w2) ∧
    Forall2 (fun a b => is_selected selected a -> aGuid a = aKey a -> effective b = aDHCP a) (sys w) (sys w2).
Proof.
  intros Hr Hnd. pose proof (Apply_Restore_windows _ _ _ _ Hr) as Hres. cbn zeta in Hres.
  pose proof (Apply_windows _ _ _ _ Hr) as Hap. cbn zeta in Hap. rewrite Hap in Hres |- *. cbn [snd] in Hres.
  eexists _, _, _. split; [done|]. split; [exact Hres|]. cbn [sys].
  apply Forall2_fmap_r, Forall_Forall2_diag, Forall_forall. intros a Ha Hsel Hk.
  destruct Hr as (_ & _ & _ & Hs & _). rewrite (proj1 (putBack_spec _ _ _ _ _ Hs Hnd Ha) Hsel).
  replace (readNameServer a) with ([] : gostring); [done|]. unfold readNameServer. rewrite Hk.
  destruct (is_blank _); [done|]. rewrite bool_decide_eq_false_2; [done|].
  intros E%(f_equal length). rewrite !length_app in E. cbn in E. lia.
Qed.

Lemma redirected_readable selected servers a : readable a -> readable (redirected selected servers a).
Proof.
  unfold redirected, updated. revert a. induction selected as [|i l IH]; intros a Ha; [done|]. cbn. apply IH.
  by case_bool_decide.
Qed.

(** The saved state does not survive a second Apply: when the settings were
    applied and not restored (the process was killed), the next Apply saves the
    redirected settings over the original ones, and a later Restore leaves every
    adapter that was redirected pointing at the local server with nothing left to
    restore from. *)
Theorem second_apply_loses_settings cfg now now' selected selected' w :
  ready cfg now selected w -> NoDup (aIndex <$> sys w) -> Forall readable (sys w) ->
  let w1 := (ApplyWithPlatform cfg (Some windowsPlatform) now w).2 in
  ready cfg now' selected' w1 ->
  let w2 := (ApplyWithPlatform cfg (Some windowsPlatform) now' w1).2 in
  exists r w3, RestoreWithPlatform (SRollbackPath (normalizeConfig cfg)) (Some windowsPlatform) w2 = (Ok r, w3) ∧
    Forall2 (fun a b => is_selected selected a -> effective b = SServerIPs (normalizeConfig cfg)) (sys w) (sys w3) ∧
    files w3 !! SRollbackPath (normalizeConfig cfg) = None.
Proof.
  intros Hr Hnd Hread. rewrite Forall_forall in Hread. cbn zeta. rewrite (Apply_windows _ _ _ _ Hr). cbn [snd]. intros Hr'.
  pose proof (Apply_Restore_windows _ _ _ _ Hr') as Hres. cbn zeta in Hres.
  eexists _, _. split; [exact Hres|]. cbn [files sys]. split; [|apply lookup_delete_eq].
  destruct Hr as (Hf & Hv & Ht & Hsel & Hpos & Hu). destruct Hr' as (_ & _ & _ & Hsel' & _).
  destruct (valid_servers cfg Hv) as (Hne & Hc & Hw & _ & _). destruct (select_sound _ _ _ Hsel) as (Hndi & _).
  cbn [sys] in Hsel'. apply Forall2_fmap_r, Forall2_fmap_r, Forall_Forall2_diag, Forall_forall. intros a Ha Hs.
  rewrite (effective_putBack _ _ _ _ _ Hsel').
  - by apply redirected_effective.
  - by rewrite redirected_indexes.
  - by apply list_elem_of_fmap_2.
  - by apply redirected_readable, Hread.
Qed.
End windows_properties.

(** ** Any schedule of failures *)

(** What Apply relies on whatever fails: taking a snapshot changes nothing and
    applying settings touches no file. *)
Class QuietPlatform {X} (p : Platform X) : Prop := {
  quiet_snapshot_sys cfg : moves same_sys (PSnapshot p cfg);
  quiet_snapshot_files cfg : moves same_files (PSnapshot p cfg);
  quiet_apply_files cfg st : moves same_files (PApply p cfg st);
}.

Section any_schedule.
Context {X : Type} `{Externals} `{Encoding}.

(** Whatever system calls fail, the settings of the system are never changed
    before the state that undoes the change is on disk: when Apply leaves the
    settings different from what they were, the rollback file holds the snapshot
    taken before, and no other file is touched. *)
Theorem settings_saved_first cfg (p : Platform X) now w r w' :
  QuietPlatform p -> ApplyWithPlatform cfg (Some p) now w = (r, w') ->
  let path := SRollbackPath (normalizeConfig cfg) in
  (forall q, q <> path -> files w' !! q = files w !! q) ∧
  (sys w' <> sys w ∨ is_ok r = true -> exists snapshot, (PSnapshot p (normalizeConfig cfg) w).1 = Ok snapshot ∧
     files w' !! path = Some (json_Marshal (state_json (completeState snapshot (PName p) (normalizeConfig cfg) now)))).
Proof.
  intros Hp Ha. cbn zeta. unfold ApplyWithPlatform in Ha. set (cfg' := normalizeConfig cfg) in *.
  unfold io_bind at 1, io_of in Ha. destruct (validateConfig cfg') as [[]|]; [|by injection Ha as <- <-; intuition].
  unfold io_bind at 1 in Ha. pose proof (quiet_snapshot_sys cfg' w) as Hs1. pose proof (quiet_snapshot_files cfg' w) as Hs2.
  destruct (PSnapshot p cfg' w) as [[snap|e] w1]; cbn [snd fst] in *; unfold same_sys, same_files in *;
    [|injection Ha as <- <-; rewrite Hs2; split; [done|intros [Hx|Hx]; [congruence|done]]].
  unfold io_bind at 1 in Ha. set (st := completeState snap (PName p) cfg' now) in *.
  pose proof (WriteState_sys codec (SRollbackPath cfg') st w1) as Hw1.
  pose proof (WriteState_touches codec (SRollbackPath cfg') st w1) as Hw2.
  pose proof (WriteState_stored codec (SRollbackPath cfg') st w1) as Hw3.
  destruct (WriteState codec (SRollbackPath cfg') st w1) as [[[]|e] w2]; cbn [snd] in *; unfold same_sys, touches in *;
    [|injection Ha as <- <-; split; [intros q Hq; by rewrite Hw2, Hs2|intros [Hx|Hx]; [congruence|done]]].
  specialize (Hw3 w2 eq_refl). unfold io_bind, io_wrap in Ha. pose proof (quiet_apply_files cfg' st w2) as Hf.
  destruct (PApply p cfg' st w2) as [ra w3]. cbn [snd] in Hf. unfold same_files in Hf.
  assert (w' = w3) as -> by (by destruct ra; injection Ha as _ <-).
  split; [intros q Hq; by rewrite Hf, Hw2, Hs2|]. intros _. exists snap. by rewrite Hf.
Qed.
End any_schedule.

#[export] Instance windows_quiet `{Externals} : QuietPlatform windowsPlatform.
Proof.
  assert (Hset : forall idx s, moves same_files (SetDnsClientServerAddress idx s)).
  { intros idx s. apply os_call_moves; [apply _|apply next_fault_files|]. intros w. by repeat case_bool_decide. }
  assert (Heach : forall (A : Type) f (g : A -> option (list gostring)) l,
    moves same_files (foreach (fun x => SetDnsClientServerAddress (f x) (g x)) l)).
  { intros A f g l. induction l as [|x l IH]; [done|]. apply moves_bind; [apply _|apply Hset|by intros _]. }
  split; cbn [PSnapshot PApply windowsPlatform].
  - intros cfg. apply moves_bind; [apply _| |intros items; apply moves_bind; [apply _|done|done]].
    apply os_call_moves; [apply _|apply next_fault_sys|done].
  - intros cfg. apply moves_bind; [apply _| |intros items; apply moves_bind; [apply _|done|done]].
    apply os_call_moves; [apply _|apply next_fault_files|done].
  - intros cfg st. case_bool_decide; [done|]. apply (Heach Z (fun i => i) (fun _ => Some (SServerIPs cfg))).
Qed.

(** ** Consistency with the configuration *)

Section from_app.
Context `{Externals}.

(** A configuration that passed validation for the system DNS strategy always
    yields valid settings: one IPv4 loopback server and the named interfaces. *)
Theorem ConfigFromApp_total cfg :
  validateDNSSystemConfig (DNS cfg) = Ok tt -> is_blank (RtRollbackPath (Runtime cfg)) = false ->
  existsb (fun i => negb (is_blank i)) (Interfaces (DNS cfg)) = true ->
  exists s ip, ConfigFromApp cfg = Ok s ∧ SServerIPs s = [IPString ip] ∧ IsLoopback ip = true ∧
    is_v4 ip = true ∧ SInterfaces s = cleanStrings (Interfaces (DNS cfg)) ∧ SInterfaces s <> [].
Proof.
  intros Hv Hb Hi. unfold validateDNSSystemConfig in Hv. unfold ConfigFromApp.
  destruct (SplitHostPort (DNSListenAddr (DNS cfg))) as [[h port]|]; [|done]. cbn [wrap_err rbind] in *.
  destruct (negb (bool_decide (port = "53"))); [done|].
  set (host := if EqualFold (TrimSpace h) "localhost" then "127.0.0.1" else h) in *. set (ip := ParseIP host) in *.
  destruct (bool_decide_reflect (ip = [])) as [|Hne]; [done|]. cbn [orb] in *.
  destruct (IsLoopback ip) eqn:El; [|done]. cbn [negb] in *.
  destruct (bool_decide_reflect (To4 ip = [])) as [|H4]; [done|]. cbn [orb].
  destruct (ParseIP_bytes host Hne) as [Hlen Hoct]. fold ip in Hlen, Hoct.
  assert (Hloop : loopbackServer (IPString ip) = true).
  { unfold loopbackServer. rewrite ParseIP_IPString by done. rewrite El.
    by rewrite !bool_decide_eq_false_2. }
  assert (Hint : cleanStrings (Interfaces (DNS cfg)) <> []).
  { apply existsb_exists in Hi as (x & Hx%list_elem_of_In & Hnb%negb_true_iff).
    pose proof (cleanStrings_covers _ _ Hx Hnb) as Hc. intros E. rewrite E in Hc. by apply elem_of_nil in Hc. }
  assert (Hblank : existsb is_blank (cleanStrings (Interfaces (DNS cfg))) = false).
  { destruct (existsb is_blank _) eqn:E; [|done]. apply existsb_exists in E as (x & Hx%list_elem_of_In & Hbx).
    pose proof (proj1 (cleanStrings_clean (Interfaces (DNS cfg)))) as Hf. rewrite Forall_forall in Hf.
    destruct (Hf x Hx) as [Hx1 Hx2]. unfold is_blank in Hbx. rewrite Hx2 in Hbx. by boolify. }
  eexists _, ip. unfold validateConfig. cbn [SRollbackPath SInterfaces SServerIPs].
  rewrite Hb, Hblank, bool_decide_eq_false_2 by done. rewrite bool_decide_eq_false_2 by done. cbn [List.find].
  rewrite Hloop. cbn [negb rbind]. split; [reflexivity|]. cbn [SServerIPs SInterfaces].
  split_and!; try done. unfold is_v4. by apply bool_decide_eq_true_2.
Qed.
End from_app.

(** ** Quoting

    How PowerShell reads a single-quoted string: it ends at the first quote that
    is not doubled, and the typographic quotes U+2018 to U+201B count as quotes. *)
Definition quote_at (s : gostring) : option (gostring * gostring) :=
  match s with
  | a :: s1 =>
      if bool_decide (a = quote) then Some ([a], s1)
      else match s1 with
           | b :: c :: s3 =>
               if bool_decide (a = chr 226 ∧ b = chr 128 ∧ c ∈ [chr 152; chr 153; chr 154; chr 155])
               then Some ([a; b; c], s3) else None
           | _ => None
           end
  | [] => None
  end.

(** The rest of a string whose opening quote was read: its value and what
    follows.  Every round consumes a byte. *)
Fixpoint ps_rest (fuel : nat) (s : gostring) : option (gostring * gostring) :=
  match fuel with
  | O => None
  | S fuel' =>
      match quote_at s with
      | Some (q, s') =>
          match quote_at s' with
          | Some (_, s'') => '(v, r) ← ps_rest fuel' s''; Some (q ++ v, r)
          | None => Some ([], s')
          end
      | None => match s with
                | c :: s' => '(v, r) ← ps_rest fuel' s'; Some (c :: v, r)
                | [] => None
                end
      end
  end.

Definition ps_string (s : gostring) : option (gostring * gostring) :=
  match s with
  | c :: s' => if bool_decide (c = quote) then ps_rest (S (length s')) s' else None
  | [] => None
  end.

(** No typographic quote starts anywhere in the value. *)
Fixpoint plain (s : gostring) : bool :=
  match s with
  | [] => true
  | c :: s' => (bool_decide (c = quote) || negb (bool_decide (is_Some (quote_at s)))) && plain s'
  end.

Fixpoint doubled (s : gostring) : gostring :=
  match s with
  | [] => []
  | c :: s' => if bool_decide (c = quote) then quote :: quote :: doubled s' else c :: doubled s'
  end.

Lemma ReplaceAll_quote s : ReplaceAll s [quote] [quote; quote] = doubled s.
Proof.
  unfold ReplaceAll, Replace. induction s as [|c s IH]; [done|]. cbn [length Replace_fuel CutPrefix doubled].
  destruct (bool_decide_reflect (quote = c)) as [<-|Hc].
  - rewrite bool_decide_eq_true_2 by done. assert (CutPrefix s [] = Some s) as -> by by destruct s.
    change (pred <$> None) with (@None nat). by rewrite IH.
  - rewrite bool_decide_eq_false_2 by congruence. by rewrite IH.
Qed.

(** Doubling quotes does not make a typographic quote out of bytes that were none. *)
Lemma quote_at_doubled c v rest :
  c <> quote -> quote_at (c :: v) = None -> quote_at (c :: doubled v ++ quote :: rest) = None.
Proof.
  intros Hc. unfold quote_at. rewrite bool_decide_eq_false_2 by done.
  destruct v as [|b v]; cbn [doubled app].
  { intros _. destruct rest; [done|]. by rewrite bool_decide_eq_false_2 by (intros (_ & Hx & _); vm_compute in Hx; discriminate Hx). }
  destruct (bool_decide_reflect (b = quote)) as [->|Hb]; cbn [app].
  { intros _. by rewrite bool_decide_eq_false_2 by (intros (_ & Hx & _); vm_compute in Hx; discriminate Hx). }
  destruct v as [|x v]; cbn [doubled app].
  { intros _. by rewrite bool_decide_eq_false_2 by (intros (_ & _ & Hx); vm_compute in Hx; set_solver). }
  destruct (bool_decide_reflect (x = quote)) as [->|Hx]; cbn [app]; [|by case_bool_decide].
  intros _. rewrite bool_decide_eq_false_2; [done|]. intros (_ & _ & Hx). vm_compute in Hx. set_solver.
Qed.

Lemma ps_rest_doubled v rest fuel :
  plain v = true -> quote_at rest = None -> length v < fuel ->
  ps_rest fuel (doubled v ++ quote :: rest) = Some (v, rest).
Proof.
  intros Hp Hr. revert fuel; induction v as [|c v IH]; intros [|fuel] Hl; cbn [length] in Hl; try lia.
  { cbn [doubled app ps_rest]. change (quote_at (quote :: rest)) with (Some ([quote], rest)). cbn beta iota. by rewrite Hr. }
  cbn [plain] in Hp. apply andb_true_iff in Hp as [Hc Hp]. cbn [doubled].
  destruct (bool_decide_reflect (c = quote)) as [->|Hne]; cbn [app ps_rest].
  - change (quote_at (quote :: quote :: doubled v ++ quote :: rest))
      with (Some ([quote], quote :: doubled v ++ quote :: rest)). cbn beta iota.
    change (quote_at (quote :: doubled v ++ quote :: rest)) with (Some ([quote], doubled v ++ quote :: rest)).
    cbn beta iota. rewrite IH by (done || lia). done.
  - cbn [orb] in Hc. apply negb_true_iff, bool_decide_eq_false_1, eq_None_not_Some in Hc.
    rewrite quote_at_doubled by done. rewrite IH by (done || lia). done.
Qed.

(** A value without typographic quotes is read back by PowerShell exactly as
    it was, and the script goes on after it: no such value can break out of its
    quotes. *)
Theorem psQuote_exact v rest :
  plain v = true -> quote_at rest = None -> ps_string (psQuote v ++ rest) = Some (v, rest).
Proof.
  intros Hp Hr. unfold psQuote. rewrite ReplaceAll_quote. cbn [app ps_string].
  rewrite bool_decide_eq_true_2, <-app_assoc by done. cbn [app]. apply ps_rest_doubled; [done..|].
  rewrite length_app. assert (length v <= length (doubled v)); [|cbn; lia].
  clear. induction v as [|c v IH]; cbn [doubled length]; [done|]. case_bool_decide; cbn [length]; lia.
Qed.

Lemma quote_at_before c x t :
  c <> quote -> quote_at (c :: x) = None -> quote_at (c :: x ++ chr 226 :: chr 128 :: t) = None.
Proof.
  intros Hc. unfold quote_at. rewrite !bool_decide_eq_false_2 by done.
  destruct x as [|b1 [|b2 x]]; cbn [app]; intros Hx.
  - by rewrite bool_decide_eq_false_2 by (intros (_ & H1 & _); vm_compute in H1; discriminate H1).
  - by rewrite bool_decide_eq_false_2 by (intros (_ & _ & H1); vm_compute in H1; set_solver).
  - by case_bool_decide.
Qed.

(** A typographic quote in a value ends the string early: psQuote doubles only
    the ASCII quote, so what follows the typographic one is read as code. *)
Theorem psQuote_escape a b q :
  plain a = true -> existsb (fun c => bool_decide (c = quote)) a = false ->
  q ∈ [chr 152; chr 153; chr 154; chr 155] -> quote_at (doubled b ++ [quote]) = None ->
  ps_string (psQuote (a ++ [chr 226; chr 128; q] ++ b)) = Some (a, doubled b ++ [quote]).
Proof.
  intros Hp Hq Hin Hb. unfold psQuote. rewrite ReplaceAll_quote. cbn [app ps_string].
  rewrite bool_decide_eq_true_2 by done.
  assert (Hqb : bool_decide (q = quote) = false).
  { apply bool_decide_eq_false_2. intros ->. vm_compute in Hin. set_solver. }
  assert (Hd : forall x, existsb (fun c => bool_decide (c = quote)) x = false -> doubled (x ++ chr 226 :: chr 128 :: q :: b) =
     x ++ chr 226 :: chr 128 :: q :: doubled b).
  { induction x as [|c x IH]; cbn [existsb app doubled]; [by rewrite Hqb|].
    intros [Hc Hx]%orb_false_iff. rewrite Hc, IH by done. done. }
  rewrite Hd by done. rewrite <-app_assoc. cbn [app].
  assert (Hend : quote_at (chr 226 :: chr 128 :: q :: doubled b ++ [quote]) = Some ([chr 226; chr 128; q], doubled b ++ [quote])).
  { unfold quote_at. rewrite bool_decide_eq_false_2 by done. by rewrite bool_decide_eq_true_2. }
  assert (Hgo : forall x fuel, plain x = true -> existsb (fun c => bool_decide (c = quote)) x = false ->
    length x < fuel -> ps_rest fuel (x ++ chr 226 :: chr 128 :: q :: doubled b ++ [quote]) = Some (x, doubled b ++ [quote])).
  { induction x as [|c x IH]; intros [|fuel] Hpx Hqx Hl; cbn [length] in Hl; try lia; cbn [app ps_rest].
    { by rewrite Hend, Hb. }
    cbn [plain existsb] in *. apply orb_false_iff in Hqx as [Hc Hqx]. rewrite Hc in Hpx. cbn [orb] in Hpx.
    apply andb_true_iff in Hpx as [Hc' Hpx]. boolify.
    assert (Hn : quote_at (c :: x ++ chr 226 :: chr 128 :: q :: doubled b ++ [quote]) = None).
    { apply quote_at_before; [done|]. by apply eq_None_not_Some in Hc'. }
    rewrite Hn, IH by (done || lia). done. }
  apply Hgo; [done..|]. rewrite length_app. cbn. lia.
Qed.



(** ** Witnesses *)

Section dns_settings_witnesses.
#[local] Existing Instance simple_externals.
#[local] Existing Instance simple_encoding.

Definition no_adapter : Adapter :=
  {| aAlias := []; aIndex := 0%Z; aGuid := []; aKey := []; aNameServer := []; aDHCP := [] |}.
Definition sample_table : list Adapter :=
  [{| aAlias := "Ethernet"; aIndex := 3%Z; aGuid := "AB"; aKey := "{AB}"; aNameServer := "8.8.8.8 1.1.1.1"; aDHCP := ["10.0.0.1"] |};
   {| aAlias := "Wi-Fi"; aIndex := 7%Z; aGuid := "CD"; aKey := "{CD}"; aNameServer := []; aDHCP := ["10.0.0.1"] |}].
Definition sample_settings : DNSSettings :=
  {| SRollbackPath := "/run/dns.json"; SInterfaces := ["ethernet"; "3"]; SServerIPs := ["127.0.0.1"] |}.
Definition sample_world : World (list Adapter) := {| files := ∅; faults := []; sys := sample_table |}.
Definition sample_selected : list InterfaceState :=
  interfaceStateFromWindows <$> (snapshotItem <$> take 1 sample_table).

Lemma sample_ready : ready sample_settings 0%Z sample_selected sample_world.
Proof. split_and!; try (vm_compute; reflexivity). by_decide. Qed.

Lemma sample_readable : Forall readable (sys sample_world).
Proof. repeat constructor. Qed.

(** An adapter with two servers set by hand, its identifier reported with braces. *)
Definition braced_world : World (list Adapter) :=
  {| files := ∅; faults := [];
     sys := [{| aAlias := "Ethernet"; aIndex := 3%Z; aGuid := "{AB}"; aKey := "{AB}";
                aNameServer := "8.8.8.8 1.1.1.1"; aDHCP := ["10.0.0.1"] |}] |}.

Lemma braced_ready : ready sample_settings 0%Z (interfaceStateFromWindows <$> (snapshotItem <$> sys braced_world)) braced_world.
Proof. split_and!; try (vm_compute; reflexivity). by_decide. Qed.

(** One adapter reported without braces, one with automatic servers and one reported
    with braces: the last loses the servers set by hand. *)
Definition mixed_table : list Adapter :=
  sample_table ++ [{| aAlias := "VPN"; aIndex := 9%Z; aGuid := "{EF}"; aKey := "{EF}"; aNameServer := "9.9.9.9"; aDHCP := ["10.0.0.2"] |}].
Definition mixed_world : World (list Adapter) := {| files := ∅; faults := []; sys := mixed_table |}.
Definition mixed_settings : DNSSettings :=
  {| SRollbackPath := "/run/dns.json"; SInterfaces := ["ethernet"; "3"; "vpn"]; SServerIPs := ["127.0.0.1"] |}.
Definition mixed_selected : list InterfaceState :=
  interfaceStateFromWindows <$> (snapshotItem <$> [nth 0 mixed_table no_adapter; nth 2 mixed_table no_adapter]).

Lemma mixed_ready : ready mixed_settings 0%Z mixed_selected mixed_world.
Proof. split_and!; try (vm_compute; reflexivity). by_decide. Qed.

Lemma system_dns_roundtrip_witness :
  exists w1 w2, (ApplyWithPlatform mixed_settings (Some windowsPlatform) 0%Z mixed_world).2 = w1 ∧
    RestoreWithPlatform "/run/dns.json" (Some windowsPlatform) w1 = (Ok {| RInterfaces := 2; RServerIPs := ["127.0.0.1"]; RViaHelper := false |}, w2) ∧
    effective <$> sys mixed_world = [["8.8.8.8"; "1.1.1.1"]; ["10.0.0.1"]; ["9.9.9.9"]] ∧
    effective <$> sys w2 = [["8.8.8.8"; "1.1.1.1"]; ["10.0.0.1"]; ["10.0.0.2"]].
Proof.
  destruct (system_dns_roundtrip mixed_settings 0%Z mixed_selected mixed_world mixed_ready ltac:(by_decide))
    as (r & w1 & w2 & Ha & _ & Hr & Hs & _).
  exists w1, w2. rewrite Ha. split; [reflexivity|]. split; [|split; [vm_compute; reflexivity|]].
  - vm_compute in Ha. injection Ha as <- _. exact Hr.
  - apply Forall2_cons_inv_l in Hs as (b1 & l1 & (_ & _ & _ & _ & H1 & _) & Hs & ->).
    apply Forall2_cons_inv_l in Hs as (b2 & l2 & (_ & _ & _ & _ & _ & _ & H2) & Hs & ->).
    apply Forall2_cons_inv_l in Hs as (b3 & l3 & (_ & _ & _ & _ & _ & H3 & _) & Hs & ->).
    apply Forall2_nil_inv_l in Hs as ->. cbn [fmap list_fmap].
    rewrite H1, H2, H3; [vm_compute; reflexivity|unfold is_selected; by_decide|by intros [_ ?]|unfold is_selected; by_decide..|].
    left. by split.
Defined.

Lemma braced_guid_loses_static_witness :
  exists r w1 w2, ApplyWithPlatform sample_settings (Some windowsPlatform) 0%Z braced_world = (Ok r, w1) ∧
    RestoreWithPlatform "/run/dns.json" (Some windowsPlatform) w1 = (Ok r, w2) ∧
    effective <$> sys braced_world = [["8.8.8.8"; "1.1.1.1"]] ∧ effective <$> sys w2 = [["10.0.0.1"]].
Proof.
  destruct (braced_guid_loses_static sample_settings 0%Z _ braced_world braced_ready ltac:(by_decide))
    as (r & w1 & w2 & Ha & Hr & Hs).
  exists r, w1, w2. split; [exact Ha|]. split; [exact Hr|]. split; [vm_compute; reflexivity|].
  apply Forall2_cons_inv_l in Hs as (b & l & Hb & Hl & ->). apply Forall2_nil_inv_l in Hl as ->.
  cbn. rewrite Hb; [reflexivity|unfold is_selected; by_decide|reflexivity].
Defined.

(** A second start after a crash, and then a stop: the original servers are gone. *)
Lemma second_apply_loses_settings_witness :
  let w1 := (ApplyWithPlatform sample_settings (Some windowsPlatform) 0%Z sample_world).2 in
  let w2 := (ApplyWithPlatform sample_settings (Some windowsPlatform) 0%Z w1).2 in
  exists w3, (RestoreWithPlatform "/run/dns.json" (Some windowsPlatform) w2).2 = w3 ∧
    files w3 !! ("/run/dns.json" : gostring) = None.
Proof.
  cbn zeta.
  destruct (second_apply_loses_settings sample_settings 0%Z 0%Z sample_selected
    [{| InterfaceAlias := "Ethernet"; InterfaceIndex := 3; InterfaceGUID := "ab"; AddressFamily := "IPv4";
        Source := "static"; IServers := ["127.0.0.1"]; StaticServers := ["127.0.0.1"]; StaticNameServer := "127.0.0.1" |}]
    sample_world sample_ready ltac:(by_decide) sample_readable) as (r & w3 & Hr & _ & Hf).
  - split_and!; try (vm_compute; reflexivity). by_decide.
  - change (SRollbackPath (normalizeConfig sample_settings)) with ("/run/dns.json" : gostring) in Hr, Hf.
    exists w3. rewrite Hr. split; [reflexivity|exact Hf].
Defined.

Lemma settings_saved_first_witness :
  files (ApplyWithPlatform sample_settings (Some windowsPlatform) 0%Z sample_world).2 !! ("/x" : gostring) = None.
Proof.
  pose proof (settings_saved_first sample_settings windowsPlatform 0%Z sample_world _ _ windows_quiet
    (surjective_pairing _)) as [Hq _].
  rewrite Hq by discriminate. reflexivity.
Defined.

Lemma psQuote_exact_witness : ps_string (psQuote ("it" ++ [quote] ++ "s") ++ " }") = Some ("it" ++ [quote] ++ "s", " }").
Proof. apply (psQuote_exact ("it" ++ [quote] ++ "s") " }"); vm_compute; reflexivity. Defined.

Lemma psQuote_escape_witness :
  ps_string (psQuote ("8.8.8.8" ++ [chr 226; chr 128; chr 153] ++ "; calc #")) = Some ("8.8.8.8", "; calc #" ++ [quote]).
Proof. apply (psQuote_escape "8.8.8.8" "; calc #" (chr 153)); (vm_compute; reflexivity) || by_decide. Defined.

Definition sample_app : Config :=
  let c := Default "/etc/hosts" "/certs" "/state.json" "/run/rollback.json" in
  {| Mode := ModeDNS; ProvidersEnabled := ProvidersEnabled c; Proxy := Proxy c;
     DNS := {| DNSEnabled := true; Strategy := DNSInterceptSystem; DNSListenAddr := "localhost:53";
               DNSAllowLAN := false; Interfaces := ["Ethernet"]; MapIPv4 := "127.0.0.1"; MapIPv6 := [];
               TTL := Second; BlockHTTPSRecords := true |};
     PAC := PAC c; Hosts := Hosts c; Cert := Cert c; Resolver := Resolver c; Upstream := Upstream c;
     PageEnhance := PageEnhance c; SystemServices := []; CustomDomains := []; Runtime := Runtime c |}.

Lemma ConfigFromApp_total_witness :
  exists s, ConfigFromApp sample_app = Ok s ∧ SServerIPs s = ["127.0.0.1"].
Proof.
  destruct (ConfigFromApp_total sample_app) as (s & ip & Hs & _); [vm_compute; reflexivity..|].
  exists s. split; [exact Hs|]. vm_compute in Hs. injection Hs as <-. reflexivity.
Defined.
End dns_settings_witnesses.
