(* ===== verification/SystemProxy.v ===== *)
(** System proxy settings (src/internal/systemproxy/systemproxy.go,
    windows_platform.go, registry_windows.go and macos_platform.go): the settings
    are saved, replaced by the local proxy or its PAC script, and put back.

    The operations are written against a platform, as in the source.  The Windows
    platform works on the three registry values of the Internet Settings key, the
    macOS platform on the table of network services through networksetup, whose
    commands and output texts are modelled. *)
From stdpp Require Import strings.
From Stdlib Require Import Ascii.
From S2P Require Import Prelude GoStrings GoNet External World Rollback Config.

Definition stateVersion : Z := 1.
Definition ErrNoState : error := ErrorVar "systemproxy.ErrNoState".
Definition ErrUnsupported : error := ErrorVar "systemproxy.ErrUnsupported".

Record ProxySettings := {
  SMode : gostring;
  SProxyAddr : gostring;
  SPACURL : gostring;
  SRollbackPath : gostring;
  SServices : list gostring;
}.

Record WindowsDWORD := { DExists : bool; DValue : Z }.
Record WindowsString := { VExists : bool; VValue : gostring }.
Record WindowsState := {
  ProxyEnable : WindowsDWORD;
  ProxyServer : WindowsString;
  AutoConfigURL : WindowsString;
}.

Record MacOSProxyState := {
  PEnabled : bool;
  PServer : gostring;
  PPort : gostring;
  PAuthenticated : bool;
}.
Record MacOSAutoState := { AEnabled : bool; AURL : gostring }.
Record MacOSServiceState := {
  MName : gostring;
  MWeb : MacOSProxyState;
  MSecure : MacOSProxyState;
  MAuto : MacOSAutoState;
}.
(** MacOSState has one field, the services. *)
Definition MacOSState := list MacOSServiceState.

Record State := {
  StVersion : Z;
  StOS : gostring;
  StMode : gostring;
  StProxyAddr : gostring;
  StPACURL : gostring;
  StServices : list gostring;
  StCreatedAt : Time;
  StWindows : option WindowsState;
  StMacOS : option MacOSState;
}.

Definition ConfigFromApp (cfg : Config) (proxyAddr pacURL : gostring) : ProxySettings :=
  {| SMode := Mode cfg; SProxyAddr := proxyAddr; SPACURL := pacURL;
     SRollbackPath := RtRollbackPath (Runtime cfg); SServices := SystemServices cfg |}.

(** * The rollback state *)

Definition dword_json (d : WindowsDWORD) : json := JObj [("exists", JBool (DExists d)); ("value", JNum (DValue d))].
Definition json_dword (j : json) : result WindowsDWORD :=
  do fs <- as_object j; do e <- get_bool fs "exists"; do v <- get_int fs "value"; Ok {| DExists := e; DValue := v |}.
Definition string_json (d : WindowsString) : json := JObj [("exists", JBool (VExists d)); ("value", JStr (VValue d))].
Definition json_string (j : json) : result WindowsString :=
  do fs <- as_object j; do e <- get_bool fs "exists"; do v <- get_string fs "value"; Ok {| VExists := e; VValue := v |}.

Definition windows_json (s : WindowsState) : json :=
  JObj [("proxy_enable", dword_json (ProxyEnable s)); ("proxy_server", string_json (ProxyServer s));
        ("auto_config_url", string_json (AutoConfigURL s))].
Definition json_windows (j : json) : result WindowsState :=
  do fs <- as_object j;
  do e <- json_dword (field fs "proxy_enable");
  do s <- json_string (field fs "proxy_server");
  do u <- json_string (field fs "auto_config_url");
  Ok {| ProxyEnable := e; ProxyServer := s; AutoConfigURL := u |}.

Definition proxy_json (p : MacOSProxyState) : json :=
  JObj ([("enabled", JBool (PEnabled p))] ++
        omitempty "server" (bool_decide (PServer p = [])) (JStr (PServer p)) ++
        omitempty "port" (bool_decide (PPort p = [])) (JStr (PPort p)) ++
        omitempty "authenticated" (negb (PAuthenticated p)) (JBool (PAuthenticated p))).
Definition json_proxy (j : json) : result MacOSProxyState :=
  do fs <- as_object j;
  do e <- get_bool fs "enabled"; do s <- get_string fs "server"; do p <- get_string fs "port";
  do a <- get_bool fs "authenticated";
  Ok {| PEnabled := e; PServer := s; PPort := p; PAuthenticated := a |}.
Definition auto_json (a : MacOSAutoState) : json :=
  JObj ([("enabled", JBool (AEnabled a))] ++ omitempty "url" (bool_decide (AURL a = [])) (JStr (AURL a))).
Definition json_auto (j : json) : result MacOSAutoState :=
  do fs <- as_object j; do e <- get_bool fs "enabled"; do u <- get_string fs "url"; Ok {| AEnabled := e; AURL := u |}.
Definition service_json (s : MacOSServiceState) : json :=
  JObj [("name", JStr (MName s)); ("web", proxy_json (MWeb s)); ("secure", proxy_json (MSecure s));
        ("auto", auto_json (MAuto s))].
Definition json_service (j : json) : result MacOSServiceState :=
  do fs <- as_object j;
  do n <- get_string fs "name"; do w <- json_proxy (field fs "web"); do s <- json_proxy (field fs "secure");
  do a <- json_auto (field fs "auto");
  Ok {| MName := n; MWeb := w; MSecure := s; MAuto := a |}.
Definition macos_json (s : MacOSState) : json :=
  JObj [("services", match s with [] => JArr [] | _ => JArr (service_json <$> s) end)].
Definition json_macos (j : json) : result MacOSState :=
  do fs <- as_object j; get_list json_service fs "services".

Definition get_pointer {A} (decode : json -> result A) (fs : list (gostring * json)) (key : gostring)
  : result (option A) :=
  match field fs key with
  | JNull => Ok None
  | j => rmap Some (decode j)
  end.

Section state.
Context `{Encoding}.

Definition pointer_json {A} (key : gostring) (encode : A -> json) (v : option A) : list (gostring * json) :=
  match v with Some a => [(key, encode a)] | None => [] end.

Definition state_json (s : State) : json :=
  JObj ([("version", JNum (StVersion s)); ("os", JStr (StOS s)); ("mode", JStr (StMode s))] ++
        omitempty "proxy_addr" (bool_decide (StProxyAddr s = [])) (JStr (StProxyAddr s)) ++
        omitempty "pac_url" (bool_decide (StPACURL s = [])) (JStr (StPACURL s)) ++
        omitempty "services" (bool_decide (StServices s = [])) (strings_json (StServices s)) ++
        [("created_at", JStr (time_Format (StCreatedAt s)))] ++
        pointer_json "windows" windows_json (StWindows s) ++ pointer_json "macos" macos_json (StMacOS s)).

Definition json_state (j : json) : result State :=
  do fs <- as_object j;
  do version <- get_int fs "version";
  do os <- get_string fs "os";
  do mode <- get_string fs "mode";
  do proxyAddr <- get_string fs "proxy_addr";
  do pacURL <- get_string fs "pac_url";
  do services <- get_list as_string fs "services";
  do created <- get_time fs "created_at";
  do windows <- get_pointer json_windows fs "windows";
  do macos <- get_pointer json_macos fs "macos";
  Ok {| StVersion := version; StOS := os; StMode := mode; StProxyAddr := proxyAddr; StPACURL := pacURL;
        StServices := services; StCreatedAt := created; StWindows := windows; StMacOS := macos |}.

Definition codec : Codec State := {| texts := rollback_texts; toJSON := state_json; fromJSON := json_state; createdAt := StCreatedAt |}.
End state.

(** * The operations *)

Record Platform (X : Type) := {
  PName : gostring;
  PSnapshot : ProxySettings -> IO X State;
  PApplyPAC : ProxySettings -> IO X unit;
  PApplySystem : ProxySettings -> IO X unit;
  PRestore : State -> IO X unit;
}.
Arguments PName {X} p.
Arguments PSnapshot {X} p.
Arguments PApplyPAC {X} p.
Arguments PApplySystem {X} p.
Arguments PRestore {X} p.

Definition completeState (s : State) (os : gostring) (cfg : ProxySettings) (now : Time) : State :=
  {| StVersion := stateVersion; StOS := os; StMode := SMode cfg; StProxyAddr := SProxyAddr cfg;
     StPACURL := SPACURL cfg; StServices := SServices cfg; StCreatedAt := now;
     StWindows := StWindows s; StMacOS := StMacOS s |}.

Section operations.
Context {X : Type} `{Externals} `{Encoding}.

Definition validateConfig (cfg : ProxySettings) : result unit :=
  if is_blank (SRollbackPath cfg) then Err (Errorf "rollback path is required" [])
  else if bool_decide (SMode cfg = ModePAC) then
    if is_blank (SPACURL cfg) then Err (Errorf "pac URL is required" [])
    else match url_Parse (SPACURL cfg) with
         | Ok u => if negb (bool_decide (Scheme u = "http")) || bool_decide (URLHost u = [])
                   then Err (Errorf "invalid pac URL %q" [SPACURL cfg]) else Ok tt
         | Err _ => Err (Errorf "invalid pac URL %q" [SPACURL cfg])
         end
  else if bool_decide (SMode cfg = ModeSystem) then
    do _ <- wrap_err "invalid proxy address: %w" [] (SplitHostPort (SProxyAddr cfg)); Ok tt
  else Err (Errorf "unsupported system proxy mode %q" [SMode cfg]).

Definition applyMode (cfg : ProxySettings) (p : Platform X) : IO X unit :=
  if bool_decide (SMode cfg = ModePAC) then PApplyPAC p cfg
  else if bool_decide (SMode cfg = ModeSystem) then PApplySystem p cfg
  else io_err (Errorf "unsupported system proxy mode %q" [SMode cfg]).

Definition ApplyWithPlatform (cfg : ProxySettings) (platform : option (Platform X)) (now : Time) : IO X unit :=
  match platform with
  | None => io_err (Errorf "system proxy platform is required" [])
  | Some p =>
      io _ <- io_of (validateConfig cfg);
      io snapshot <- PSnapshot p cfg;
      io _ <- WriteState codec (SRollbackPath cfg) (completeState snapshot (PName p) cfg now);
      applyMode cfg p
  end.

Definition RestoreWithPlatform (rollbackPath : gostring) (platform : option (Platform X)) : IO X unit :=
  match platform with
  | None => io_err (Errorf "system proxy platform is required" [])
  | Some p =>
      try st <- ReadState codec rollbackPath;
      match st with
      | Err e => if errors_Is e os_ErrNotExist then io_err ErrNoState else io_err e
      | Ok state =>
          if negb (bool_decide (StOS state = [])) && negb (bool_decide (StOS state = PName p))
          then io_err (Errorf "rollback state was created for %s, current platform is %s" [StOS state; PName p])
          else
            io _ <- PRestore p state;
            RemoveState rollbackPath
      end
  end.

(** os.Stat: a file that can be looked at. *)
Definition HasState (path : gostring) (w : World X) : bool :=
  if is_blank path then false
  else match next_fault w with
       | (None, w') => bool_decide (is_Some (files w' !! path))
       | (Some _, _) => false
       end.

Definition unsupportedPlatform (name : gostring) : Platform X := {|
  PName := name;
  PSnapshot _ := io_err (Wrapf "%w: %s" [name] ErrUnsupported);
  PApplyPAC _ := io_err (Wrapf "%w: %s" [name] ErrUnsupported);
  PApplySystem _ := io_err (Wrapf "%w: %s" [name] ErrUnsupported);
  PRestore _ := io_err (Wrapf "%w: %s" [name] ErrUnsupported);
|}.
End operations.

(** * The Windows platform *)

(** The three values under Internet Settings, absent ones being [None]. *)
Record Registry := {
  rEnable : option Z;
  rServer : option gostring;
  rURL : option gostring;
}.

Section registry.
Abbreviation RIO := (IO Registry).

Definition registry_ErrNotExist : error := ErrorVar "registry.ErrNotExist".
Definition OpenKey : RIO unit := os_call (fun e => e) (io_ret tt).

(** key.GetIntegerValue and key.GetStringValue. *)
Definition reg_get {A} (read : Registry -> option A) : RIO A := os_call (fun e => e) (fun w =>
  match read (sys w) with
  | Some v => (Ok v, w)
  | None => (Err registry_ErrNotExist, w)
  end).
Definition reg_update (f : Registry -> Registry) : RIO unit :=
  os_call (fun e => e) (fun w => (Ok tt, set_sys (f (sys w)) w)).
Definition reg_delete {A} (read : Registry -> option A) (f : Registry -> Registry) : RIO unit :=
  os_call (fun e => e) (fun w =>
    match read (sys w) with
    | Some _ => (Ok tt, set_sys (f (sys w)) w)
    | None => (Err registry_ErrNotExist, w)
    end).

Definition set_rEnable (v : option Z) (r : Registry) : Registry :=
  {| rEnable := v; rServer := rServer r; rURL := rURL r |}.
Definition set_rServer (v : option gostring) (r : Registry) : Registry :=
  {| rEnable := rEnable r; rServer := v; rURL := rURL r |}.
Definition set_rURL (v : option gostring) (r : Registry) : Registry :=
  {| rEnable := rEnable r; rServer := rServer r; rURL := v |}.

Definition getDWORDValue (read : Registry -> option Z) (name : gostring) : RIO WindowsDWORD :=
  try r <- reg_get read;
  match r with
  | Ok v => io_ret {| DExists := true; DValue := v |}
  | Err e => if errors_Is e registry_ErrNotExist then io_ret {| DExists := false; DValue := 0 |}
             else io_err (Wrapf "read %s: %w" [name] e)
  end.
Definition getStringValue (read : Registry -> option gostring) (name : gostring) : RIO WindowsString :=
  try r <- reg_get read;
  match r with
  | Ok v => io_ret {| VExists := true; VValue := v |}
  | Err e => if errors_Is e registry_ErrNotExist then io_ret {| VExists := false; VValue := [] |}
             else io_err (Wrapf "read %s: %w" [name] e)
  end.
Definition deleteValue {A} (read : Registry -> option A) (f : Registry -> Registry) (name : gostring) : RIO unit :=
  try r <- reg_delete read f;
  match r with
  | Ok _ => io_ret tt
  | Err e => if errors_Is e registry_ErrNotExist then io_ret tt else io_err (Wrapf "delete %s: %w" [name] e)
  end.

(** InternetSetOption twice and a broadcast: the settings stay as they are. *)
Definition notifyWindowsProxyChanged : RIO unit :=
  io _ <- os_call (Wrapf "notify WinINet option %d: %w" ["39"]) (io_ret tt);
  io _ <- os_call (Wrapf "notify WinINet option %d: %w" ["37"]) (io_ret tt);
  os_call (Wrapf "broadcast internet settings change: %w" []) (io_ret tt).

(** SetDWordValue keeps the low 32 bits. *)
Definition restoreDWORDValue (d : WindowsDWORD) : RIO unit :=
  if negb (DExists d) then deleteValue rEnable (set_rEnable None) "ProxyEnable"
  else io_wrap "restore %s: %w" ["ProxyEnable"] (reg_update (set_rEnable (Some (DValue d mod 2 ^ 32)%Z))).
Definition restoreStringValue (read : Registry -> option gostring) (set : option gostring -> Registry -> Registry)
    (name : gostring) (v : WindowsString) : RIO unit :=
  if negb (VExists v) then deleteValue read (set None) name
  else io_wrap "restore %s: %w" [name] (reg_update (set (Some (VValue v)))).

Definition openSettings {A} (k : RIO A) : RIO A :=
  io _ <- io_wrap "open internet settings: %w" [] OpenKey; k.

Definition windowsSnapshot : RIO WindowsState :=
  openSettings (
    io enable <- getDWORDValue rEnable "ProxyEnable";
    io server <- getStringValue rServer "ProxyServer";
    io url <- getStringValue rURL "AutoConfigURL";
    io_ret {| ProxyEnable := enable; ProxyServer := server; AutoConfigURL := url |}).

Definition windowsApplyPAC (pacURL : gostring) : RIO unit :=
  openSettings (
    io _ <- io_wrap "set AutoConfigURL: %w" [] (reg_update (set_rURL (Some pacURL)));
    io _ <- io_wrap "set ProxyEnable: %w" [] (reg_update (set_rEnable (Some 0%Z)));
    notifyWindowsProxyChanged).

Definition windowsApplySystem (proxyAddr : gostring) : RIO unit :=
  openSettings (
    io _ <- io_wrap "set ProxyServer: %w" []
              (reg_update (set_rServer (Some ("http=" ++ proxyAddr ++ ";https=" ++ proxyAddr))));
    io _ <- io_wrap "set ProxyEnable: %w" [] (reg_update (set_rEnable (Some 1%Z)));
    io _ <- deleteValue rURL (set_rURL None) "AutoConfigURL";
    notifyWindowsProxyChanged).

Definition windowsRestore (s : WindowsState) : RIO unit :=
  openSettings (
    io _ <- restoreDWORDValue (ProxyEnable s);
    io _ <- restoreStringValue rServer set_rServer "ProxyServer" (ProxyServer s);
    io _ <- restoreStringValue rURL set_rURL "AutoConfigURL" (AutoConfigURL s);
    notifyWindowsProxyChanged).

Definition with_windows (s : WindowsState) : State :=
  {| StVersion := 0; StOS := []; StMode := []; StProxyAddr := []; StPACURL := []; StServices := [];
     StCreatedAt := 0%Z; StWindows := Some s; StMacOS := None |}.

Definition windowsPlatform : Platform Registry := {|
  PName := "windows";
  PSnapshot _ := io s <- windowsSnapshot; io_ret (with_windows s);
  PApplyPAC cfg := windowsApplyPAC (SPACURL cfg);
  PApplySystem cfg := windowsApplySystem (SProxyAddr cfg);
  PRestore state :=
    match StWindows state with
    | None => io_err (Errorf "rollback state does not contain windows proxy settings" [])
    | Some s => windowsRestore s
    end;
|}.
End registry.

(** * The macOS platform *)

Section macos.
Context {X : Type} `{Externals}.
(** networksetup with its arguments: the output. *)
Variable run : list gostring -> IO X gostring.

Definition parseBool (value : gostring) : bool :=
  bool_decide (keyword value ∈ (["yes"; "on"; "1"; "true"; "enabled"] : list gostring)).
Definition onOff (value : bool) : gostring := if value then "on" else "off".

Definition parseLine (values : gmap gostring gostring) (line : gostring) : gmap gostring gostring :=
  let '(key, value, ok) := Cut line ":" in
  if ok then <[keyword key := TrimSpace value]> values else values.
Definition parseNetworkSetupOutput (out : gostring) : gmap gostring gostring :=
  foldl parseLine ∅ (Split out (chr 10)).
(** A missing key reads as the empty string. *)
Definition value_of (values : gmap gostring gostring) (key : gostring) : gostring := default [] (values !! key).

Definition listedService (line : gostring) : option gostring :=
  let line := TrimSpace line in
  if bool_decide (line = []) || Contains line "asterisk" then None
  else if HasPrefix line "*" then None else Some line.

Definition macServices (configured : list gostring) : IO X (list gostring) :=
  if negb (bool_decide (configured = [])) then
    let services := filter (fun s => s <> []) (TrimSpace <$> configured) in
    if bool_decide (services = []) then io_err (Errorf "no macOS network services configured" [])
    else io_ret services
  else
    io out <- run ["-listallnetworkservices"];
    let services := omap listedService (Split out (chr 10)) in
    if bool_decide (services = []) then io_err (Errorf "no enabled macOS network services found" [])
    else io_ret services.

Definition getProxy (command service : gostring) : IO X MacOSProxyState :=
  io out <- run [command; service];
  let values := parseNetworkSetupOutput out in
  io_ret {| PEnabled := parseBool (value_of values "enabled"); PServer := value_of values "server";
            PPort := value_of values "port";
            PAuthenticated := parseBool (value_of values "authenticated proxy enabled") |}.

Definition getAuto (service : gostring) : IO X MacOSAutoState :=
  io out <- run ["-getautoproxyurl"; service];
  let values := parseNetworkSetupOutput out in
  io_ret {| AEnabled := parseBool (value_of values "enabled"); AURL := value_of values "url" |}.

(** A loop over the services; the results are collected. *)
Fixpoint eachService {A} (body : gostring -> IO X A) (services : list gostring) : IO X (list A) :=
  match services with
  | [] => io_ret []
  | s :: rest => io a <- body s; io l <- eachService body rest; io_ret (a :: l)
  end.

Definition snapshotService (service : gostring) : IO X MacOSServiceState :=
  io web <- getProxy "-getwebproxy" service;
  io secure <- getProxy "-getsecurewebproxy" service;
  if PAuthenticated web || PAuthenticated secure
  then io_err (Errorf "macOS authenticated proxy on service %q cannot be safely restored" [service])
  else
    io auto <- getAuto service;
    io_ret {| MName := service; MWeb := web; MSecure := secure; MAuto := auto |}.

Definition runAll (commands : list (list gostring)) : IO X unit :=
  foldr (fun c k => io _ <- run c; k) (io_ret tt) commands.

Definition pacCommands (pacURL service : gostring) : list (list gostring) :=
  [["-setautoproxyurl"; service; pacURL]; ["-setautoproxystate"; service; "on"];
   ["-setwebproxystate"; service; "off"]; ["-setsecurewebproxystate"; service; "off"]].

Definition systemCommands (host port service : gostring) : list (list gostring) :=
  [["-setwebproxy"; service; host; port]; ["-setsecurewebproxy"; service; host; port];
   ["-setwebproxystate"; service; "on"]; ["-setsecurewebproxystate"; service; "on"];
   ["-setautoproxystate"; service; "off"]].

Definition restoreProxyCommands (set setstate service : gostring) (p : MacOSProxyState) : list (list gostring) :=
  (if negb (bool_decide (PServer p = [])) && negb (bool_decide (PPort p = []))
   then [[set; service; PServer p; PPort p]] else []) ++
  [[setstate; service; onOff (PEnabled p)]].

Definition restoreCommands (s : MacOSServiceState) : list (list gostring) :=
  restoreProxyCommands "-setwebproxy" "-setwebproxystate" (MName s) (MWeb s) ++
  restoreProxyCommands "-setsecurewebproxy" "-setsecurewebproxystate" (MName s) (MSecure s) ++
  (if negb (bool_decide (AURL (MAuto s) = [])) then [["-setautoproxyurl"; MName s; AURL (MAuto s)]] else []) ++
  [["-setautoproxystate"; MName s; onOff (AEnabled (MAuto s))]].

Definition with_macos (s : MacOSState) : State :=
  {| StVersion := 0; StOS := []; StMode := []; StProxyAddr := []; StPACURL := []; StServices := [];
     StCreatedAt := 0%Z; StWindows := None; StMacOS := Some s |}.

Definition macOSPlatform : Platform X := {|
  PName := "darwin";
  PSnapshot cfg :=
    io services <- macServices (SServices cfg);
    io states <- eachService snapshotService services;
    io_ret (with_macos states);
  PApplyPAC cfg :=
    io services <- macServices (SServices cfg);
    io _ <- eachService (fun s => runAll (pacCommands (SPACURL cfg) s)) services;
    io_ret tt;
  PApplySystem cfg :=
    io services <- macServices (SServices cfg);
    io hp <- io_wrap "split proxy address: %w" [] (io_of (SplitHostPort (SProxyAddr cfg)));
    let host := Trim hp.1 "[]" in
    io _ <- eachService (fun s => runAll (systemCommands host hp.2 s)) services;
    io_ret tt;
  PRestore state :=
    match StMacOS state with
    | None => io_err (Errorf "rollback state does not contain macOS proxy settings" [])
    | Some services => runAll (mjoin (restoreCommands <$> services))
    end;
|}.
End macos.

(** * Properties *)

(** ** The stored state *)

Section state_properties.
Context `{EncodingLaws}.

Lemma dword_roundtrip d : json_dword (dword_json d) = Ok d.
Proof. by destruct d. Qed.
Lemma string_roundtrip d : json_string (string_json d) = Ok d.
Proof. by destruct d. Qed.

Lemma windows_roundtrip s : json_windows (windows_json s) = Ok s.
Proof.
  destruct s as [e p u]. unfold json_windows, windows_json. set (fs := _ :: _). cbn [as_object rbind].
  change (field fs "proxy_enable") with (dword_json e). change (field fs "proxy_server") with (string_json p).
  change (field fs "auto_config_url") with (string_json u). by rewrite dword_roundtrip, !string_roundtrip.
Qed.

Lemma proxy_roundtrip p : json_proxy (proxy_json p) = Ok p.
Proof. destruct p as [e [|] [|] []]; reflexivity. Qed.
Lemma auto_roundtrip a : json_auto (auto_json a) = Ok a.
Proof. destruct a as [e [|]]; reflexivity. Qed.

Lemma service_roundtrip s : json_service (service_json s) = Ok s.
Proof.
  destruct s as [n w c a]. unfold json_service, service_json. set (fs := _ :: _). cbn [as_object rbind].
  change (get_string fs "name") with (Ok n). change (field fs "web") with (proxy_json w).
  change (field fs "secure") with (proxy_json c). change (field fs "auto") with (auto_json a).
  cbn [rbind]. by rewrite !proxy_roundtrip; cbn [rbind]; rewrite auto_roundtrip.
Qed.

Lemma macos_roundtrip s : json_macos (macos_json s) = Ok s.
Proof.
  unfold json_macos, macos_json. destruct s as [|x l]; [done|]. cbn [as_object rbind].
  change (rmapM json_service (service_json <$> (x :: l)) = Ok (x :: l)).
  apply rmapM_Forall2, Forall2_fmap_l, Forall_Forall2_diag, Forall_true, service_roundtrip.
Qed.

Lemma proxy_state_roundtrip s :
  json_utf8 (state_json s) = true -> time_encodable (StCreatedAt s) = true -> storable codec s.
Proof.
  intros Hu Ht. split; [done|]. cbn [toJSON fromJSON codec]. unfold json_decode. rewrite json_roundtrip by done.
  clear Hu. destruct s as [ver os mode addr pac services created win mac]. cbn [rbind StCreatedAt] in *.
  unfold state_json, json_state.
  cbn [StVersion StOS StMode StProxyAddr StPACURL StServices StCreatedAt StWindows StMacOS].
  set (fs := _ ++ _). cbn [as_object rbind].
  assert (Hver : get_int fs "version" = Ok ver) by (unfold fs; destruct addr, pac, services, win, mac; reflexivity).
  assert (Hos : get_string fs "os" = Ok os) by (unfold fs; destruct addr, pac, services, win, mac; reflexivity).
  assert (Hmode : get_string fs "mode" = Ok mode) by (unfold fs; destruct addr, pac, services, win, mac; reflexivity).
  assert (Haddr : get_string fs "proxy_addr" = Ok addr) by (unfold fs; destruct addr, pac, services, win, mac; reflexivity).
  assert (Hpac : get_string fs "pac_url" = Ok pac) by (unfold fs; destruct addr, pac, services, win, mac; reflexivity).
  assert (Hsv : get_list as_string fs "services" = Ok services).
  { apply get_list_strings. unfold fs. destruct addr, pac, services, win, mac; reflexivity. }
  assert (Hc : get_time fs "created_at" = Ok created).
  { transitivity (time_Parse (time_Format created)); [|by apply time_roundtrip].
    unfold get_time, fs. destruct addr, pac, services, win, mac; reflexivity. }
  assert (Hw : get_pointer json_windows fs "windows" = Ok win).
  { transitivity (match win with Some x => rmap Some (json_windows (windows_json x)) | None => Ok None end).
    - unfold get_pointer, fs. destruct addr, pac, services, win, mac; reflexivity.
    - destruct win; [by rewrite windows_roundtrip|done]. }
  assert (Hm : get_pointer json_macos fs "macos" = Ok mac).
  { transitivity (match mac with Some x => rmap Some (json_macos (macos_json x)) | None => Ok None end).
    - unfold get_pointer, fs. destruct addr, pac, services, win, mac; reflexivity.
    - destruct mac; [by rewrite macos_roundtrip|done]. }
  by rewrite Hver, Hos, Hmode, Haddr, Hpac, Hsv, Hc, Hw, Hm.
Qed.
End state_properties.

(** ** Any schedule of failures *)

Class QuietPlatform {X} (p : Platform X) : Prop := {
  quiet_snapshot_sys cfg : moves same_sys (PSnapshot p cfg);
  quiet_snapshot_files cfg : moves same_files (PSnapshot p cfg);
  quiet_pac_files cfg : moves same_files (PApplyPAC p cfg);
  quiet_system_files cfg : moves same_files (PApplySystem p cfg);
}.

Section any_schedule.
Context {X : Type} `{Externals} `{Encoding}.

(** Whatever system calls fail, the proxy settings of the system are never
    changed before the state that undoes the change is on disk; no file but the
    rollback file is touched, and a reported success means the rollback state is
    there. *)
Theorem proxy_settings_saved_first cfg (p : Platform X) now w r w' :
  QuietPlatform p -> ApplyWithPlatform cfg (Some p) now w = (r, w') ->
  (forall q, q <> SRollbackPath cfg -> files w' !! q = files w !! q) ∧
  (sys w' <> sys w ∨ is_ok r = true -> exists snapshot, (PSnapshot p cfg w).1 = Ok snapshot ∧
     files w' !! SRollbackPath cfg = Some (json_Marshal (state_json (completeState snapshot (PName p) cfg now)))).
Proof.
  intros Hp Ha. unfold ApplyWithPlatform in Ha. unfold io_bind at 1, io_of in Ha.
  destruct (validateConfig cfg) as [[]|]; [|by injection Ha as <- <-; intuition].
  unfold io_bind at 1 in Ha. pose proof (quiet_snapshot_sys cfg w) as Hs1. pose proof (quiet_snapshot_files cfg w) as Hs2.
  destruct (PSnapshot p cfg w) as [[snap|e] w1]; cbn [snd fst] in *; unfold same_sys, same_files in *;
    [|injection Ha as <- <-; rewrite Hs2; split; [done|intros [Hx|Hx]; [congruence|done]]].
  unfold io_bind at 1 in Ha. set (st := completeState snap (PName p) cfg now) in *.
  pose proof (WriteState_sys codec (SRollbackPath cfg) st w1) as Hw1.
  pose proof (WriteState_touches codec (SRollbackPath cfg) st w1) as Hw2.
  pose proof (WriteState_stored codec (SRollbackPath cfg) st w1) as Hw3.
  destruct (WriteState codec (SRollbackPath cfg) st w1) as [[[]|e] w2]; cbn [snd] in *; unfold same_sys, touches in *;
    [|injection Ha as <- <-; split; [intros q Hq; by rewrite Hw2, Hs2|intros [Hx|Hx]; [congruence|done]]].
  specialize (Hw3 w2 eq_refl).
  assert (Hf : moves same_files (applyMode cfg p)).
  { unfold applyMode. repeat case_bool_decide; [apply quiet_pac_files|apply quiet_system_files|done]. }
  specialize (Hf w2). rewrite Ha in Hf. cbn [snd] in Hf. unfold same_files in Hf.
  split; [intros q Hq; by rewrite Hf, Hw2, Hs2|]. intros _. exists snap. by rewrite Hf.
Qed.
End any_schedule.

Lemma os_call_same_files {X A} onerr (k : IO X A) : moves same_files k -> moves same_files (os_call onerr k).
Proof. apply os_call_moves; [apply _|apply next_fault_files]. Qed.
Lemma os_call_same_sys {X A} onerr (k : IO X A) : moves same_sys k -> moves same_sys (os_call onerr k).
Proof. apply os_call_moves; [apply _|apply next_fault_sys]. Qed.

(** Decomposes a computation down to its system calls. *)
Ltac quiet :=
  repeat first
    [ apply moves_bind; [apply _| |intros ?]
    | apply moves_try; [apply _| |intros ?]
    | apply moves_wrap
    | apply os_call_same_files
    | apply os_call_same_sys
    | solve [intros w; cbn; repeat case_match; reflexivity]
    | case_match ].

Lemma windowsSnapshot_quiet :
  moves same_sys windowsSnapshot ∧ moves same_files windowsSnapshot.
Proof.
  unfold windowsSnapshot, openSettings, OpenKey, getDWORDValue, getStringValue, reg_get.
  split; quiet.
Qed.

#[export] Instance windows_quiet : QuietPlatform windowsPlatform.
Proof.
  destruct windowsSnapshot_quiet as [H1 H2].
  split; cbn [PSnapshot PApplyPAC PApplySystem windowsPlatform]; intros cfg.
  - apply moves_bind; [apply _|done|done].
  - apply moves_bind; [apply _|done|done].
  - unfold windowsApplyPAC, openSettings, OpenKey, reg_update, notifyWindowsProxyChanged.
    quiet.
  - unfold windowsApplySystem, openSettings, OpenKey, reg_update, deleteValue, reg_delete, notifyWindowsProxyChanged.
    quiet.
Qed.

(** ** Round trip on Windows *)

Section windows_properties.
Context `{Externals} `{EncodingLaws}.

Definition saved (r : Registry) : WindowsState :=
  {| ProxyEnable := match rEnable r with Some v => {| DExists := true; DValue := v |} | None => {| DExists := false; DValue := 0 |} end;
     ProxyServer := match rServer r with Some v => {| VExists := true; VValue := v |} | None => {| VExists := false; VValue := [] |} end;
     AutoConfigURL := match rURL r with Some v => {| VExists := true; VValue := v |} | None => {| VExists := false; VValue := [] |} end |}.

Lemma windowsSnapshot_healthy fs r :
  windowsSnapshot {| files := fs; faults := []; sys := r |} = (Ok (saved r), {| files := fs; faults := []; sys := r |}).
Proof. by destruct r as [[] [] []]. Qed.

(** The settings while the local proxy or its PAC script is in place. *)
Definition pointed (cfg : ProxySettings) (r : Registry) : Registry :=
  if bool_decide (SMode cfg = ModePAC) then set_rEnable (Some 0%Z) (set_rURL (Some (SPACURL cfg)) r)
  else {| rEnable := Some 1%Z; rServer := Some ("http=" ++ SProxyAddr cfg ++ ";https=" ++ SProxyAddr cfg); rURL := None |}.

Lemma windowsApply_healthy cfg fs r :
  validateConfig cfg = Ok tt ->
  applyMode cfg windowsPlatform {| files := fs; faults := []; sys := r |} =
    (Ok tt, {| files := fs; faults := []; sys := pointed cfg r |}).
Proof.
  intros Hv. unfold validateConfig in Hv. destruct (is_blank _); [done|]. unfold applyMode, pointed.
  case_bool_decide; [by destruct r|]. case_bool_decide; [|done]. by destruct r as [? ? []].
Qed.

Lemma windowsRestore_healthy fs r x :
  (forall v, rEnable r = Some v -> 0 <= v < 2 ^ 32)%Z ->
  windowsRestore (saved r) {| files := fs; faults := []; sys := x |} = (Ok tt, {| files := fs; faults := []; sys := r |}).
Proof.
  intros Hr. destruct r as [[v|] s u]; [|by destruct s, u, x as [[] [] []]].
  assert (Hm : (v mod 2 ^ 32)%Z = v) by (apply Z.mod_small, Hr; done).
  destruct s, u, x as [? [] []]; cbn; unfold set_rEnable, set_rServer, set_rURL; cbn; by rewrite ?Hm.
Qed.

(** C25: on Windows, applying and restoring the system proxy is a round trip: in
    PAC mode the script is in place and the manual proxy off, in system mode the
    local proxy is set for both protocols and no script is; after the restore the
    three registry values are exactly what they were, absent ones absent again,
    and the rollback file is gone. *)
Theorem system_proxy_roundtrip cfg now w :
  let st := completeState (with_windows (saved (sys w))) "windows" cfg now in
  faults w = [] -> validateConfig cfg = Ok tt -> time_encodable now = true -> json_utf8 (state_json st) = true ->
  (forall v, rEnable (sys w) = Some v -> 0 <= v < 2 ^ 32)%Z ->
  exists w1, ApplyWithPlatform cfg (Some windowsPlatform) now w = (Ok tt, w1) ∧ sys w1 = pointed cfg (sys w) ∧
    RestoreWithPlatform (SRollbackPath cfg) (Some windowsPlatform) w1 =
      (Ok tt, set_files (delete (SRollbackPath cfg) (files w)) w).
Proof.
  cbn zeta. destruct w as [fs ft r]. cbn [faults sys files]. intros -> Hv Ht Hu Hr.
  set (st := completeState (with_windows (saved r)) "windows" cfg now) in *.
  assert (Hst : storable codec st) by by apply proxy_state_roundtrip.
  assert (Hb : is_blank (SRollbackPath cfg) = false).
  { unfold validateConfig in Hv. by destruct (is_blank (SRollbackPath cfg)). }
  eexists. split.
  { unfold ApplyWithPlatform. erewrite io_bind_seq by (unfold io_of; by rewrite Hv).
    erewrite io_bind_seq by (cbn [PSnapshot windowsPlatform]; by erewrite io_bind_seq by apply windowsSnapshot_healthy).
    erewrite io_bind_seq by (by apply (WriteState_healthy codec _ st)). unfold set_files. cbn [faults sys].
    by apply windowsApply_healthy. }
  cbn [sys]. split; [done|]. unfold RestoreWithPlatform, io_try.
  rewrite (ReadState_healthy codec _ st) by (done || (cbn; by rewrite lookup_insert_eq)).
  cbn [StOS st completeState PName windowsPlatform]. eval_tests. cbn [PRestore StWindows with_windows completeState].
  erewrite io_bind_seq by (by apply windowsRestore_healthy). rewrite RemoveState_healthy by done.
  unfold set_files. cbn [files faults sys]. by rewrite delete_insert_eq.
Qed.

(** A failing Apply can leave the system pointed at the local proxy: when only
    the notification of running programs fails, Apply reports an error although
    the registry is already changed, and only the rollback file allows undoing it. *)
Theorem failed_apply_leaves_proxy cfg now fs r e p :
  validateConfig cfg = Ok tt -> SMode cfg = ModeSystem ->
  time_encodable now = true ->
  let w := {| files := fs; sys := r;
              faults := replicate 6 None ++ replicate 4 None ++ [Some {| fault_err := e; fault_partial := p |}] |} in
  exists e' w', ApplyWithPlatform cfg (Some windowsPlatform) now w = (Err e', w') ∧ sys w' = pointed cfg r ∧
    is_Some (files w' !! SRollbackPath cfg).
Proof.
  intros Hv Hm Ht. cbn zeta. cbn [replicate app].
  assert (Hb : is_blank (SRollbackPath cfg) = false).
  { unfold validateConfig in Hv. by destruct (is_blank (SRollbackPath cfg)). }
  unfold ApplyWithPlatform. erewrite io_bind_seq by (unfold io_of; by rewrite Hv).
  erewrite io_bind_seq by (cbn [PSnapshot windowsPlatform]; erewrite io_bind_seq; [reflexivity|];
    instantiate (1 := {| files := fs; sys := r; faults := _ |}); instantiate (2 := saved r); by destruct r as [[] [] []]).
  unfold WriteState, encodeState. rewrite Hb. cbn [createdAt codec completeState StCreatedAt]. rewrite Ht.
  cbn -[json_Marshal]. unfold applyMode, pointed. rewrite Hm. eval_tests.
  destruct r as [en srv [u|]]; cbn -[json_Marshal]; eexists _, _; split_and!; try reflexivity; cbn;
    rewrite lookup_insert_eq; eauto.
Qed.
End windows_properties.

(** ** Witnesses *)

Section proxy_witnesses.
#[local] Existing Instance simple_externals.
#[local] Existing Instance simple_encoding.

Definition sample_proxy : ProxySettings :=
  {| SMode := ModeSystem; SProxyAddr := "127.0.0.1:8080"; SPACURL := []; SRollbackPath := "/run/rb.json"; SServices := [] |}.
Definition sample_registry : Registry := {| rEnable := Some 0%Z; rServer := Some "old:1"; rURL := Some "http://old/p.pac" |}.
Definition sample_world : World Registry := {| files := ∅; faults := []; sys := sample_registry |}.

Lemma proxy_settings_saved_first_witness :
  files (ApplyWithPlatform sample_proxy (Some windowsPlatform) 0%Z sample_world).2 !! ("/x" : gostring) = None.
Proof.
  pose proof (proxy_settings_saved_first sample_proxy windowsPlatform 0%Z sample_world _ _ windows_quiet
    (surjective_pairing _)) as [Hq _].
  rewrite Hq by discriminate. reflexivity.
Defined.

Lemma system_proxy_roundtrip_witness :
  exists w1, ApplyWithPlatform sample_proxy (Some windowsPlatform) 0%Z sample_world = (Ok tt, w1) ∧
    sys (RestoreWithPlatform "/run/rb.json" (Some windowsPlatform) w1).2 = sample_registry.
Proof.
  destruct (system_proxy_roundtrip sample_proxy 0%Z sample_world) as (w1 & Ha & _ & Hr);
    [reflexivity|vm_compute; reflexivity|reflexivity|vm_compute; reflexivity|by intros v [= <-]|].
  exists w1. split; [exact Ha|]. change (SRollbackPath sample_proxy) with ("/run/rb.json" : gostring) in Hr.
  rewrite Hr. reflexivity.
Defined.

Lemma failed_apply_leaves_proxy_witness :
  exists e' w', ApplyWithPlatform sample_proxy (Some windowsPlatform) 0%Z
    {| files := ∅; sys := sample_registry;
       faults := replicate 6 None ++ replicate 4 None ++
                 [Some {| fault_err := External "timeout"; fault_partial := None |}] |} = (Err e', w') ∧
    rEnable (sys w') = Some 1%Z.
Proof.
  destruct (failed_apply_leaves_proxy sample_proxy 0%Z ∅ sample_registry (External "timeout") None)
    as (e' & w' & Ha & Hs & _); [vm_compute; reflexivity|reflexivity|reflexivity|].
  exists e', w'. split; [exact Ha|]. rewrite Hs. reflexivity.
Defined.
End proxy_witnesses.
