(* ===== verification/MacProxy.v ===== *)
(** The system proxy on macOS (src/internal/systemproxy/macos_platform.go): what the
    platform of [SystemProxy] does to the network services through networksetup.

    networksetup is a parameter.  What it prints and what its commands change is taken
    from its manual: a law for every command that the platform runs. *)
From stdpp Require Import strings.
From Stdlib Require Import Ascii.
From S2P Require Import Prelude GoStrings GoNet External World Rollback Config SystemProxy.

(** * networksetup *)

(** The settings of a network service.  A service without a script shows the address
    (null). *)
Record NetworkService := {
  nsWeb : MacOSProxyState;
  nsSecure : MacOSProxyState;
  nsAuto : MacOSAutoState;
}.

Class NetworkSetup (X : Type) := {
  networkServices : X -> gmap gostring NetworkService;
  (** The names in the order of the list; a disabled service is marked. *)
  serviceOrder : list (gostring * bool);
  networksetup : list gostring -> IO X gostring;
}.

Definition line (s : gostring) : gostring := s ++ nl.
Definition yesNo (b : bool) : gostring := if b then "Yes" else "No".
Definition oneZero (b : bool) : gostring := if b then "1" else "0".

Definition proxy_text (p : MacOSProxyState) : gostring :=
  line ("Enabled: " ++ yesNo (PEnabled p)) ++ line ("Server: " ++ PServer p) ++ line ("Port: " ++ PPort p) ++
  line ("Authenticated Proxy Enabled: " ++ oneZero (PAuthenticated p)).
Definition auto_text (a : MacOSAutoState) : gostring :=
  line ("URL: " ++ AURL a) ++ line ("Enabled: " ++ yesNo (AEnabled a)).
Definition list_text (order : list (gostring * bool)) : gostring :=
  line "An asterisk (*) denotes that a network service is disabled." ++
  flat_map (fun x : gostring * bool => let '(name, disabled) := x in line (if disabled then "*" ++ name else name)) order.

Definition on_web (f : MacOSProxyState -> MacOSProxyState) (s : NetworkService) : NetworkService :=
  {| nsWeb := f (nsWeb s); nsSecure := nsSecure s; nsAuto := nsAuto s |}.
Definition on_secure (f : MacOSProxyState -> MacOSProxyState) (s : NetworkService) : NetworkService :=
  {| nsWeb := nsWeb s; nsSecure := f (nsSecure s); nsAuto := nsAuto s |}.
Definition on_auto (f : MacOSAutoState -> MacOSAutoState) (s : NetworkService) : NetworkService :=
  {| nsWeb := nsWeb s; nsSecure := nsSecure s; nsAuto := f (nsAuto s) |}.

Definition switched (v : gostring) (p : MacOSProxyState) : MacOSProxyState :=
  {| PEnabled := bool_decide (v = "on"); PServer := PServer p; PPort := PPort p; PAuthenticated := PAuthenticated p |}.
Definition addressed (h port : gostring) (p : MacOSProxyState) : MacOSProxyState :=
  {| PEnabled := true; PServer := h; PPort := port; PAuthenticated := PAuthenticated p |}.

(** The service a command is about and what the command makes of it. *)
Definition effect_of (args : list gostring) : option (gostring * (NetworkService -> NetworkService)) :=
  match args with
  | [c; s; v] =>
      if bool_decide (c = "-setwebproxystate") then Some (s, on_web (switched v))
      else if bool_decide (c = "-setsecurewebproxystate") then Some (s, on_secure (switched v))
      else if bool_decide (c = "-setautoproxyurl") then Some (s, on_auto (fun _ => {| AEnabled := true; AURL := v |}))
      else if bool_decide (c = "-setautoproxystate") then Some (s, on_auto (fun a => {| AEnabled := bool_decide (v = "on"); AURL := AURL a |}))
      else None
  | [c; s; h; port] =>
      if bool_decide (c = "-setwebproxy") then Some (s, on_web (addressed h port))
      else if bool_decide (c = "-setsecurewebproxy") then Some (s, on_secure (addressed h port))
      else None
  | _ => None
  end.

Class NetworkSetupLaws (X : Type) `{!NetworkSetup X} : Prop := {
  lists (w : World X) : faults w = [] -> networksetup ["-listallnetworkservices"] w = (Ok (list_text serviceOrder), w);
  shows_web (w : World X) s st : faults w = [] -> networkServices (sys w) !! s = Some st ->
    networksetup ["-getwebproxy"; s] w = (Ok (proxy_text (nsWeb st)), w);
  shows_secure (w : World X) s st : faults w = [] -> networkServices (sys w) !! s = Some st ->
    networksetup ["-getsecurewebproxy"; s] w = (Ok (proxy_text (nsSecure st)), w);
  shows_auto (w : World X) s st : faults w = [] -> networkServices (sys w) !! s = Some st ->
    networksetup ["-getautoproxyurl"; s] w = (Ok (auto_text (nsAuto st)), w);
  changes (w : World X) args s f st : faults w = [] -> effect_of args = Some (s, f) -> networkServices (sys w) !! s = Some st ->
    exists out w', networksetup args w = (Ok out, w') ∧ networkServices (sys w') = <[s := f st]> (networkServices (sys w)) ∧
      files w' = files w ∧ faults w' = [];
}.

(** * Reading the output *)

(** Text that networksetup prints in one line as it is. *)
Definition one_line (v : gostring) : Prop := chr 10 ∉ v ∧ TrimSpace v = v.

Lemma TrimSpace_blank v : TrimSpace (chr 32 :: v) = TrimSpace v.
Proof. reflexivity. Qed.

Section reading.
Context `{Externals}.

Lemma Split_line s t : chr 10 ∉ s -> Split (line s ++ t) (chr 10) = s :: Split t (chr 10).
Proof. intros Hs. unfold line, nl. rewrite <-app_assoc. cbn [app]. rewrite Split_app_sep. by rewrite Split_no_sep. Qed.

Lemma parseLine_field values key v : ":"%char ∉ key -> one_line v ->
  parseLine values (key ++ ": " ++ v) = <[keyword key := v]> values.
Proof.
  intros Hk [_ Hv]. unfold parseLine. change (key ++ ": " ++ v) with (key ++ ":"%char :: chr 32 :: v).
  change (":" : gostring) with [":"%char]. rewrite Cut_byte by done. by rewrite TrimSpace_blank, Hv.
Qed.

Lemma parseLine_blank values : parseLine values [] = values.
Proof. reflexivity. Qed.

Definition proxy_plain (p : MacOSProxyState) : Prop := PAuthenticated p = false ∧ one_line (PServer p) ∧ one_line (PPort p).
Definition plain (s : NetworkService) : Prop := proxy_plain (nsWeb s) ∧ proxy_plain (nsSecure s) ∧ one_line (AURL (nsAuto s)).

Lemma fields_read (fs : list (gostring * gostring)) values :
  Forall (fun kv => chr 10 ∉ kv.1 ∧ ":"%char ∉ kv.1 ∧ one_line kv.2) fs ->
  foldl parseLine values (Split (flat_map (fun kv => line (kv.1 ++ ": " ++ kv.2)) fs) (chr 10)) =
    foldl (fun m kv => <[keyword kv.1 := kv.2]> m) values fs.
Proof.
  intros Hf. revert values. induction Hf as [|[k v] fs (Hk & Hc & Hv) Hf IH]; intros values; [reflexivity|].
  cbn [flat_map fst snd] in *. rewrite Split_line; [cbn [foldl fst snd]; by rewrite parseLine_field|].
  rewrite !not_elem_of_app. split; [done|]. split; [by_decide|apply Hv].
Qed.

Lemma yesNo_read b : one_line (yesNo b) ∧ parseBool (yesNo b) = b.
Proof. destruct b; (split; [split; [by_decide|reflexivity]|reflexivity]). Qed.
Lemma oneZero_read b : one_line (oneZero b) ∧ parseBool (oneZero b) = b.
Proof. destruct b; (split; [split; [by_decide|reflexivity]|reflexivity]). Qed.

Definition proxy_fields (p : MacOSProxyState) : list (gostring * gostring) :=
  [("Enabled", yesNo (PEnabled p)); ("Server", PServer p); ("Port", PPort p); ("Authenticated Proxy Enabled", oneZero (PAuthenticated p))]%go.
Definition auto_fields (a : MacOSAutoState) : list (gostring * gostring) :=
  [("URL", AURL a); ("Enabled", yesNo (AEnabled a))]%go.

Lemma proxy_read p : one_line (PServer p) -> one_line (PPort p) ->
  parseNetworkSetupOutput (proxy_text p) =
    foldl (fun m kv => <[keyword kv.1 := kv.2]> m) ∅ (proxy_fields p).
Proof.
  intros Hs Hp. unfold parseNetworkSetupOutput. rewrite <-fields_read.
  - f_equal. f_equal. unfold proxy_text, proxy_fields. cbn [flat_map fst snd]. by rewrite app_nil_r.
  - pose proof (yesNo_read (PEnabled p)) as []. pose proof (oneZero_read (PAuthenticated p)) as [].
    repeat (apply Forall_cons; split; [split; [by_decide|split; [by_decide|done]]|]). by apply Forall_nil.
Qed.

Lemma auto_read a : one_line (AURL a) ->
  parseNetworkSetupOutput (auto_text a) = foldl (fun m kv => <[keyword kv.1 := kv.2]> m) ∅ (auto_fields a).
Proof.
  intros Hu. unfold parseNetworkSetupOutput. rewrite <-fields_read.
  - f_equal. f_equal. unfold auto_text, auto_fields. cbn [flat_map fst snd]. by rewrite app_nil_r.
  - pose proof (yesNo_read (AEnabled a)) as [].
    repeat (apply Forall_cons; split; [split; [by_decide|split; [by_decide|done]]|]). by apply Forall_nil.
Qed.

Lemma value_insert (m : gmap gostring gostring) k v key :
  value_of (<[k := v]> m) key = if bool_decide (k = key) then v else value_of m key.
Proof. unfold value_of. case_bool_decide as Hk; [by rewrite Hk, lookup_insert_eq|by rewrite lookup_insert_ne]. Qed.

Lemma proxy_values p : proxy_plain p ->
  let values := parseNetworkSetupOutput (proxy_text p) in
  {| PEnabled := parseBool (value_of values "enabled"); PServer := value_of values "server";
     PPort := value_of values "port"; PAuthenticated := parseBool (value_of values "authenticated proxy enabled") |} = p.
Proof.
  intros (_ & Hs & Hp). cbn zeta. rewrite proxy_read by done. unfold proxy_fields. cbn [foldl fst snd].
  change (keyword "Enabled") with ("enabled" : gostring). change (keyword "Server") with ("server" : gostring).
  change (keyword "Port") with ("port" : gostring).
  change (keyword "Authenticated Proxy Enabled") with ("authenticated proxy enabled" : gostring).
  rewrite !value_insert. by destruct p as [[] s q []].
Qed.

Lemma auto_values a : one_line (AURL a) ->
  let values := parseNetworkSetupOutput (auto_text a) in
  {| AEnabled := parseBool (value_of values "enabled"); AURL := value_of values "url" |} = a.
Proof.
  intros Hu. cbn zeta. rewrite auto_read by done. unfold auto_fields. cbn [foldl fst snd].
  change (keyword "Enabled") with ("enabled" : gostring). change (keyword "URL") with ("url" : gostring).
  rewrite !value_insert. by destruct a as [[] u].
Qed.

(** The names the platform works on: the enabled services of the list. *)
Definition listable (name : gostring) : Prop :=
  one_line name ∧ name <> [] ∧ Contains name "asterisk" = false ∧ HasPrefix name "*" = false.

Lemma listed_name name : listable name -> listedService name = Some name.
Proof.
  intros ([_ Ht] & Hn & Ha & Hp). unfold listedService. rewrite Ht, bool_decide_eq_false_2, Ha, Hp by done. done.
Qed.

Lemma listed_disabled name : listedService ("*" ++ name) = None.
Proof.
  unfold listedService. assert (Hl : TrimLeftSpace ("*" ++ name) = "*" ++ name).
  { apply trim_runes_id. destruct (graphic_not_space "*"%char eq_refl) as (_ & H2 & H3).
    destruct name as [|b [|c name]]; [done|cbn; by rewrite (proj1 (H2 b))|]. cbn. by rewrite (proj1 (H2 b)), (proj1 (H3 b c)). }
  destruct (TrimRightSpace_prefix ("*" ++ name)) as [t Ht]. unfold TrimSpace. rewrite Hl.
  destruct (TrimRightSpace ("*" ++ name)) as [|c s]; [done|]. injection Ht as <- _.
  destruct (_ || _); [done|]. by rewrite (HasPrefix_app ["*"%char] s : HasPrefix ("*"%char :: s) "*" = true).
Qed.

Definition enabled_names (order : list (gostring * bool)) : list gostring := (filter (fun x => x.2 = false) order).*1.

Lemma listed_cons name lines : omap listedService (name :: lines) =
  match listedService name with Some n => n :: omap listedService lines | None => omap listedService lines end.
Proof. reflexivity. Qed.

Lemma list_read order : Forall (fun x => chr 10 ∉ x.1 ∧ (x.2 = false -> listable x.1)) order ->
  omap listedService (Split (list_text order) (chr 10)) = enabled_names order.
Proof.
  intros Ho. unfold list_text. rewrite Split_line by by_decide. rewrite listed_cons.
  change (listedService "An asterisk (*) denotes that a network service is disabled.") with (@None gostring). cbn beta iota.
  unfold enabled_names. induction Ho as [|[name []] order [Hn Hl] Ho IH]; [reflexivity| |]; cbn [flat_map fst snd] in *.
  - rewrite Split_line by (change ("*" ++ name) with ("*"%char :: name); apply not_elem_of_cons; split; [by_decide|done]).
    rewrite filter_cons_False by done. by rewrite listed_cons, listed_disabled.
  - rewrite Split_line by done. rewrite filter_cons_True by done. rewrite listed_cons, listed_name by auto. by rewrite IH.
Qed.
End reading.

(** * The platform *)

Section platform.
Context `{Externals} `{EncodingLaws} {X : Type} `{!NetworkSetup X} `{!NetworkSetupLaws X}.

Implicit Types w : World X.

#[local] Abbreviation services w := (networkServices (sys w)).

(** What the snapshot keeps of a service. *)
Definition saved_service (name : gostring) (s : NetworkService) : MacOSServiceState :=
  {| MName := name; MWeb := nsWeb s; MSecure := nsSecure s; MAuto := nsAuto s |}.

Definition chosen (configured : list gostring) : list gostring :=
  if bool_decide (configured = []) then enabled_names serviceOrder else filter (fun s => s <> []) (TrimSpace <$> configured).

Definition order_listable : Prop := Forall (fun x => chr 10 ∉ x.1 ∧ (x.2 = false -> listable x.1)) serviceOrder.

Lemma macServices_chosen configured w :
  faults w = [] -> order_listable -> chosen configured <> [] -> macServices networksetup configured w = (Ok (chosen configured), w).
Proof.
  intros Hf Ho Hc. unfold macServices, chosen in *. case_bool_decide as Hn; cbn [negb].
  - erewrite io_bind_seq by (by apply lists). rewrite list_read by done. by rewrite bool_decide_eq_false_2.
  - by rewrite bool_decide_eq_false_2.
Qed.

Lemma snapshotService_saved w name s : faults w = [] -> services w !! name = Some s -> plain s ->
  snapshotService networksetup name w = (Ok (saved_service name s), w).
Proof.
  intros Hf Hs (Hw & Hsec & Ha). unfold snapshotService, getProxy, getAuto.
  erewrite io_bind_seq by (erewrite io_bind_seq by (by eapply shows_web); unfold io_ret; by rewrite proxy_values).
  erewrite io_bind_seq by (erewrite io_bind_seq by (by eapply shows_secure); unfold io_ret; by rewrite proxy_values).
  rewrite (proj1 Hw), (proj1 Hsec). cbn [orb].
  erewrite io_bind_seq by (erewrite io_bind_seq by (by eapply shows_auto); unfold io_ret; by rewrite auto_values). done.
Qed.

Lemma eachService_pure {A} (body : gostring -> IO X A) (g : gostring -> A) names w :
  Forall (fun n => body n w = (Ok (g n), w)) names -> eachService body names w = (Ok (g <$> names), w).
Proof.
  intros Hn. induction Hn as [|n names Hb Hn IH]; [done|]. cbn [eachService].
  erewrite io_bind_seq by exact Hb. by erewrite io_bind_seq by exact IH.
Qed.

(** ** Running commands *)

(** What a list of commands makes of the services. *)
Definition change (t : gmap gostring NetworkService) (args : list gostring) : gmap gostring NetworkService :=
  match effect_of args with Some (s, f) => alter f s t | None => t end.

Definition known (t : gmap gostring NetworkService) (args : list gostring) : Prop :=
  exists s f, effect_of args = Some (s, f) ∧ is_Some (t !! s).

(** Commands that ran: the services are changed and nothing else is. *)
Definition ran (cmds : list (list gostring)) (w w' : World X) : Prop :=
  services w' = foldl change (services w) cmds ∧ files w' = files w ∧ faults w' = [].

Lemma alter_is_Some (t : gmap gostring NetworkService) f s n : is_Some (t !! n) -> is_Some (alter f s t !! n).
Proof. intros [v Hv]. rewrite lookup_alter. case_decide; [subst|]; rewrite Hv; by eexists. Qed.

Lemma changes_is_Some cmds t n : is_Some (t !! n) -> is_Some (foldl change t cmds !! n).
Proof.
  revert t. induction cmds as [|c cmds IH]; intros t Ht; [done|]. cbn. apply IH. unfold change.
  destruct (effect_of c) as [[]|]; [by apply alter_is_Some|done].
Qed.

Lemma runAll_ran cmds w : faults w = [] -> Forall (known (services w)) cmds ->
  exists w', runAll networksetup cmds w = (Ok tt, w') ∧ ran cmds w w'.
Proof.
  revert w. induction cmds as [|c cmds IH]; intros w Hf Hc; [by exists w|]. apply Forall_cons in Hc as [(s & f & He & st & Hst) Hc].
  destruct (changes w c s f st Hf He Hst) as (out & w1 & Hr & Ht & Hfiles & Hf1).
  assert (Hch : services w1 = change (services w) c) by (rewrite Ht; unfold change; rewrite He; apply map_eq; intros n;
    rewrite lookup_insert, lookup_alter; case_decide as Hd; [subst n; by rewrite Hst|done]).
  destruct (IH w1 Hf1) as (w2 & Hr2 & Ht2 & Hf2 & Hff2).
  - rewrite Hch. eapply Forall_impl; [exact Hc|]. intros args (s' & f' & He' & Hs'). exists s', f'. split; [done|].
    unfold change. rewrite He. by apply alter_is_Some.
  - exists w2. split; [unfold runAll; cbn [foldr]; by erewrite io_bind_seq by exact Hr|]. unfold ran. cbn [foldl].
    rewrite <-Hch. split_and!; [done|congruence|done].
Qed.

Lemma eachService_ran (g : gostring -> list (list gostring)) names w :
  faults w = [] -> Forall (fun n => Forall (known (services w)) (g n)) names ->
  exists r w', eachService (fun n => runAll networksetup (g n)) names w = (Ok r, w') ∧ ran (mjoin (g <$> names)) w w'.
Proof.
  revert w. induction names as [|n names IH]; intros w Hf Hn; [by exists [], w|]. apply Forall_cons in Hn as [Hg Hn].
  destruct (runAll_ran (g n) w Hf Hg) as (w1 & Hr & Ht & Hfiles & Hf1).
  destruct (IH w1 Hf1) as (r & w2 & Hr2 & Ht2 & Hfiles2 & Hf2).
  - eapply Forall_impl; [exact Hn|]. intros m Hm. eapply Forall_impl; [exact Hm|]. intros args (s & f & He & Hs).
    exists s, f. split; [done|]. rewrite Ht. by apply changes_is_Some.
  - exists (tt :: r), w2. cbn [eachService]. erewrite io_bind_seq by exact Hr. erewrite io_bind_seq by exact Hr2. split; [done|].
    unfold ran. rewrite Ht2, Ht, fmap_cons. cbn [mjoin list_join]. rewrite foldl_app. split_and!; [done|congruence|done].
Qed.

(** ** One service after the other *)

Definition effects (cmds : list (list gostring)) (s : NetworkService) : NetworkService :=
  foldl (fun s c => match effect_of c with Some (_, f) => f s | None => s end) s cmds.

Definition about (name : gostring) (cmds : list (list gostring)) : Prop := Forall (fun c => fst <$> effect_of c = Some name) cmds.

Lemma about_changes name cmds t n : about name cmds ->
  foldl change t cmds !! n = if decide (n = name) then effects cmds <$> t !! n else t !! n.
Proof.
  intros Ha. revert t. induction Ha as [|c cmds Hc Ha IH]; intros t; cbn [foldl].
  - case_decide; [|done]. by destruct (t !! n).
  - rewrite IH. unfold change, effects. cbn [foldl]. revert Hc. destruct (effect_of c) as [[s f]|]; [|discriminate]. intros [= ->].
    case_decide as Hn; [subst; rewrite lookup_alter_eq; by destruct (t !! name)|by rewrite lookup_alter_ne].
Qed.

Lemma about_known name cmds t : about name cmds -> is_Some (t !! name) -> Forall (known t) cmds.
Proof.
  intros Ha Ht. eapply Forall_impl; [exact Ha|]. intros c. unfold known.
  destruct (effect_of c) as [[s f]|]; [|discriminate]. intros [= ->]. by exists name, f.
Qed.

Lemma each_changes (g : gostring -> list (list gostring)) names t n : NoDup names -> (forall m, about m (g m)) ->
  foldl change t (mjoin (g <$> names)) !! n = if decide (n ∈ names) then effects (g n) <$> t !! n else t !! n.
Proof.
  intros Hd Hg. revert t. induction Hd as [|m names Hm Hd IH]; intros t; [done|].
  rewrite fmap_cons. cbn [mjoin list_join]. rewrite foldl_app, IH, (about_changes m) by done.
  destruct (decide (n = m)) as [->|Hn].
  - rewrite decide_False by done. by rewrite decide_True by left.
  - destruct (decide (n ∈ names)) as [Hin|Hin]; [by rewrite decide_True by set_solver|]. by rewrite decide_False by set_solver.
Qed.

(** ** Setting and restoring a service *)

Section settings.
Context (cfg : ProxySettings).

#[local] Abbreviation pac := (bool_decide (SMode cfg = ModePAC)).

(** Host and port of the local proxy. *)
Definition local_address : gostring * gostring :=
  match SplitHostPort (SProxyAddr cfg) with Ok (host, port) => (Trim host "[]", port) | Err _ => ([], []) end.

Definition settingCommands (name : gostring) : list (list gostring) :=
  if pac then pacCommands (SPACURL cfg) name else systemCommands local_address.1 local_address.2 name.

(** A service that uses the local proxy, or its script. *)
Definition uses_local (s : NetworkService) : NetworkService :=
  if pac then {| nsWeb := switched "off" (nsWeb s); nsSecure := switched "off" (nsSecure s);
                 nsAuto := {| AEnabled := true; AURL := SPACURL cfg |} |}
  else {| nsWeb := addressed local_address.1 local_address.2 (nsWeb s); nsSecure := addressed local_address.1 local_address.2 (nsSecure s);
          nsAuto := {| AEnabled := false; AURL := AURL (nsAuto s) |} |}.

(** A proxy that had no address keeps the one of the local proxy, switched as it was. *)
Definition restored_proxy (p : MacOSProxyState) : MacOSProxyState :=
  if (bool_decide (PServer p = []) || bool_decide (PPort p = [])) && negb pac
  then {| PEnabled := PEnabled p; PServer := local_address.1; PPort := local_address.2; PAuthenticated := PAuthenticated p |}
  else p.
Definition restored_auto (a : MacOSAutoState) : MacOSAutoState :=
  if bool_decide (AURL a = []) && pac then {| AEnabled := AEnabled a; AURL := SPACURL cfg |} else a.
Definition restored (s : NetworkService) : NetworkService :=
  {| nsWeb := restored_proxy (nsWeb s); nsSecure := restored_proxy (nsSecure s); nsAuto := restored_auto (nsAuto s) |}.

Lemma setting_about name : about name (settingCommands name).
Proof. unfold settingCommands. destruct pac; repeat (apply Forall_cons; split; [reflexivity|]); by apply Forall_nil. Qed.

Lemma setting_effects name s : effects (settingCommands name) s = uses_local s.
Proof. unfold settingCommands, uses_local. destruct pac; reflexivity. Qed.

Lemma restore_about name s : about name (restoreCommands (saved_service name s)).
Proof.
  unfold restoreCommands, restoreProxyCommands, saved_service. cbn [MName MWeb MSecure MAuto].
  repeat (apply Forall_app; split); try (case_match; repeat (apply Forall_cons; split; [reflexivity|]); by apply Forall_nil);
    repeat (apply Forall_cons; split; [reflexivity|]); by apply Forall_nil.
Qed.

(** What the restore of a proxy makes of the one that is set. *)
Definition put_back (p q : MacOSProxyState) : MacOSProxyState :=
  if bool_decide (PServer p = []) || bool_decide (PPort p = [])
  then {| PEnabled := PEnabled p; PServer := PServer q; PPort := PPort q; PAuthenticated := PAuthenticated q |}
  else {| PEnabled := PEnabled p; PServer := PServer p; PPort := PPort p; PAuthenticated := PAuthenticated q |}.

Lemma web_effects name p s :
  effects (restoreProxyCommands "-setwebproxy" "-setwebproxystate" name p) s = on_web (put_back p) s.
Proof.
  unfold restoreProxyCommands, put_back, onOff.
  destruct (PEnabled p), (bool_decide (PServer p = [])), (bool_decide (PPort p = [])); reflexivity.
Qed.

Lemma secure_effects name p s :
  effects (restoreProxyCommands "-setsecurewebproxy" "-setsecurewebproxystate" name p) s = on_secure (put_back p) s.
Proof.
  unfold restoreProxyCommands, put_back, onOff.
  destruct (PEnabled p), (bool_decide (PServer p = [])), (bool_decide (PPort p = [])); reflexivity.
Qed.

Lemma effects_app c1 c2 s : effects (c1 ++ c2) s = effects c2 (effects c1 s).
Proof. apply foldl_app. Qed.

Lemma put_back_restored p :
  put_back p (if pac then switched "off" p else addressed local_address.1 local_address.2 p) = restored_proxy p.
Proof.
  destruct p as [en sv pt au]. unfold put_back, restored_proxy. cbn [PServer PPort PEnabled PAuthenticated].
  destruct pac, (bool_decide (sv = [])), (bool_decide (pt = [])); reflexivity.
Qed.

Lemma restore_effects name s : effects (restoreCommands (saved_service name s)) (uses_local s) = restored s.
Proof.
  unfold restoreCommands. cbn [MName MWeb MSecure MAuto saved_service]. rewrite !effects_app, web_effects, secure_effects.
  unfold restored, restored_auto. rewrite <-!put_back_restored. unfold uses_local. destruct s as [w sec [ae au]]. unfold onOff.
  cbn [nsWeb nsSecure nsAuto AURL AEnabled].
  destruct pac, ae, (bool_decide_reflect (au = [])); subst; reflexivity.
Qed.
End settings.

(** ** The round trip *)

Definition unset : NetworkService :=
  let p := {| PEnabled := false; PServer := []; PPort := []; PAuthenticated := false |} in
  {| nsWeb := p; nsSecure := p; nsAuto := {| AEnabled := false; AURL := [] |} |}.
Definition service_of (t : gmap gostring NetworkService) (name : gostring) : NetworkService := default unset (t !! name).

Definition snapshot_of (cfg : ProxySettings) w : State :=
  with_macos ((fun n => saved_service n (service_of (services w) n)) <$> chosen (SServices cfg)).

Lemma snapshot_runs cfg w : faults w = [] -> order_listable -> chosen (SServices cfg) <> [] ->
  Forall (fun n => exists s, services w !! n = Some s ∧ plain s) (chosen (SServices cfg)) ->
  PSnapshot (macOSPlatform networksetup) cfg w = (Ok (snapshot_of cfg w), w).
Proof.
  intros Hf Ho Hn Hs. cbn [PSnapshot macOSPlatform]. erewrite io_bind_seq by by apply macServices_chosen.
  erewrite io_bind_seq; [reflexivity|]. apply (eachService_pure _ (fun n => saved_service n (service_of (services w) n))).
  eapply Forall_impl; [exact Hs|]. intros n (s & Hl & Hp). unfold service_of. rewrite Hl. by apply snapshotService_saved.
Qed.

Lemma setting_runs cfg w : faults w = [] -> validateConfig cfg = Ok tt -> order_listable -> chosen (SServices cfg) <> [] ->
  Forall (fun n => is_Some (services w !! n)) (chosen (SServices cfg)) ->
  exists w', applyMode cfg (macOSPlatform networksetup) w = (Ok tt, w') ∧ ran (mjoin (settingCommands cfg <$> chosen (SServices cfg))) w w'.
Proof.
  intros Hf Hv Ho Hc Hs. destruct (eachService_ran (settingCommands cfg) (chosen (SServices cfg)) w Hf) as (r & w' & Hr & Hw').
  { eapply Forall_impl; [exact Hs|]. intros n Hn. eapply about_known; [apply setting_about|done]. }
  exists w'. split; [|done]. unfold applyMode, validateConfig in *. destruct (is_blank _); [done|]. unfold settingCommands, local_address in Hr.
  destruct (bool_decide_reflect (SMode cfg = ModePAC)) as [Hm|Hm].
  - cbn [PApplyPAC macOSPlatform]. erewrite io_bind_seq by by apply macServices_chosen. by erewrite io_bind_seq by exact Hr.
  - destruct (bool_decide_reflect (SMode cfg = ModeSystem)) as [Hm'|]; [|done]. cbn [PApplySystem macOSPlatform].
    erewrite io_bind_seq by by apply macServices_chosen.
    destruct (SplitHostPort (SProxyAddr cfg)) as [[host port]|e]; [|done]. erewrite io_bind_seq by reflexivity.
    cbn [fst snd] in *. by erewrite io_bind_seq by exact Hr.
Qed.

(** C26: on macOS, for the services that are configured or listed as enabled, whatever they
    are set to as long as no proxy needs a password: applying makes each of them use the
    local proxy or its script, and the restore brings back every switch and every address
    that was there, removes the rollback file and leaves other services alone.  A proxy
    that had no address keeps that of the local proxy, switched as it was. *)
Theorem macos_proxy_roundtrip cfg now w :
  let names := chosen (SServices cfg) in
  let st := completeState (snapshot_of cfg w) "darwin" cfg now in
  faults w = [] -> validateConfig cfg = Ok tt -> time_encodable now = true -> json_utf8 (state_json st) = true ->
  order_listable -> names <> [] -> NoDup names -> Forall (fun n => exists s, services w !! n = Some s ∧ plain s) names ->
  exists w1 w2, ApplyWithPlatform cfg (Some (macOSPlatform networksetup)) now w = (Ok tt, w1) ∧
    (forall n, services w1 !! n = if decide (n ∈ names) then uses_local cfg <$> services w !! n else services w !! n) ∧
    RestoreWithPlatform (SRollbackPath cfg) (Some (macOSPlatform networksetup)) w1 = (Ok tt, w2) ∧
    (forall n, services w2 !! n = if decide (n ∈ names) then restored cfg <$> services w !! n else services w !! n) ∧
    files w2 = delete (SRollbackPath cfg) (files w).
Proof.
  intros names st Hf Hv Ht Hu Ho Hn Hd Hs.
  assert (Hst : storable codec st) by by apply proxy_state_roundtrip.
  assert (Hb : is_blank (SRollbackPath cfg) = false) by (unfold validateConfig in Hv; by destruct (is_blank (SRollbackPath cfg))).
  set (w0 := set_files (<[SRollbackPath cfg := json_Marshal (state_json st)]> (files w)) w).
  assert (Hknown : Forall (fun n => is_Some (services w !! n)) names) by (eapply Forall_impl; [exact Hs|]; intros n (s & -> & _); by eexists).
  destruct (setting_runs cfg w0 Hf Hv Ho Hn Hknown) as (w1 & Ha & Ht1 & Hfiles1 & Hf1). fold names in Ht1.
  assert (Hs1 : forall n, services w1 !! n = if decide (n ∈ names) then uses_local cfg <$> services w !! n else services w !! n).
  { intros n. rewrite Ht1, each_changes by (done || apply setting_about). case_decide; [|done]. cbn [sys w0 set_files].
    destruct (services w !! n); [|done]. cbn. by rewrite setting_effects. }
  destruct (runAll_ran (mjoin ((fun n => restoreCommands (saved_service n (service_of (services w) n))) <$> names)) w1 Hf1) as (w2 & Hr & Ht2 & Hfiles2 & Hf2).
  { apply Forall_join, Forall_fmap, Forall_forall. intros n Hin. cbn. eapply about_known; [apply restore_about|].
    rewrite Hs1, decide_True by done. rewrite Forall_forall in Hknown. destruct (Hknown n Hin) as [s ->]. by eexists. }
  exists w1, (set_files (delete (SRollbackPath cfg) (files w2)) w2). split; [|split; [done|split; [|split]]].
  - unfold ApplyWithPlatform. erewrite io_bind_seq by (unfold io_of; by rewrite Hv).
    erewrite io_bind_seq by by apply snapshot_runs.
    erewrite io_bind_seq by (by apply (WriteState_healthy codec _ st)). exact Ha.
  - unfold RestoreWithPlatform, io_try. rewrite (ReadState_healthy codec _ st) by (done || (rewrite Hfiles1; apply lookup_insert_eq)).
    cbn [StOS st completeState PName macOSPlatform]. eval_tests.
    change (PRestore (macOSPlatform networksetup) st) with
      (runAll networksetup (mjoin (restoreCommands <$> ((fun n => saved_service n (service_of (services w) n)) <$> names)))).
    rewrite <-list_fmap_compose. erewrite io_bind_seq by exact Hr. by apply RemoveState_healthy.
  - intros n. cbn [sys set_files]. rewrite Ht2, each_changes by (done || (intros; apply restore_about)). rewrite Hs1. case_decide; [|done].
    unfold service_of. destruct (services w !! n) as [s|]; [|done]. cbn. by rewrite restore_effects.
  - cbn [files set_files]. rewrite Hfiles2, Hfiles1. cbn [files w0 set_files]. by rewrite delete_insert_eq.
Qed.
End platform.

(** * Witness *)

Section mac_witness.
#[local] Existing Instance simple_externals.
#[local] Existing Instance simple_encoding.

(** Two services in a table: Wi-Fi has a proxy that is switched off and no script, the
    disabled one is not touched. *)
#[local] Abbreviation table := (gmap gostring NetworkService).

#[local] Instance table_setup : NetworkSetup table := {
  networkServices t := t;
  serviceOrder := [("Wi-Fi", false); ("Bridge", true)]%go;
  networksetup args w :=
    match effect_of args with
    | Some (s, f) => (Ok ([] : gostring), {| files := files w; faults := faults w; sys := alter f s (sys w) |})
    | None =>
        match args with
        | [c] => (Ok (list_text [("Wi-Fi", false); ("Bridge", true)]%go), w)
        | c :: s :: _ =>
            match sys w !! s with
            | None => (Err (External "not a recognized network service"), w)
            | Some st => (Ok (if bool_decide (c = "-getwebproxy") then proxy_text (nsWeb st)
                              else if bool_decide (c = "-getsecurewebproxy") then proxy_text (nsSecure st) else auto_text (nsAuto st)), w)
            end
        | [] => (Ok [], w)
        end
    end;
}.

#[local] Instance table_laws : NetworkSetupLaws table.
Proof.
  split; [done|by (intros w s st _ Hs; cbn in *; rewrite Hs)..|].
  intros w args s f st Hf He Hs. cbn in *. rewrite He. eexists _, _. split; [reflexivity|]. cbn. split; [|done].
  apply map_eq. intros n. destruct (decide (n = s)) as [->|Hn];
      [by rewrite lookup_alter_eq, lookup_insert_eq, Hs|by rewrite lookup_alter_ne, lookup_insert_ne by done].
Qed.

Definition old_proxy : MacOSProxyState := {| PEnabled := false; PServer := "proxy.example"; PPort := "3128"; PAuthenticated := false |}.
Definition wifi : NetworkService := {| nsWeb := old_proxy; nsSecure := old_proxy; nsAuto := {| AEnabled := false; AURL := "(null)" |} |}.
Definition mac_world : World table := {| files := ∅; faults := []; sys := {[ "Wi-Fi"%go := wifi ]} |}.

Lemma wifi_plain : Forall (fun n => exists s, networkServices (sys mac_world) !! n = Some s ∧ plain s) (chosen (SServices sample_proxy)).
Proof. apply Forall_cons. split; [|by apply Forall_nil]. exists wifi. split; [reflexivity|]. repeat split; by_decide. Qed.

Lemma order_lists : order_listable.
Proof. repeat (apply Forall_cons; split; [split; [by_decide|]|]); [|done|by apply Forall_nil]. intros _. repeat split; by_decide. Qed.

Lemma mac_state_utf8 : json_utf8 (state_json (completeState (snapshot_of sample_proxy mac_world) "darwin" sample_proxy 0%Z)) = true.
Proof. vm_compute. reflexivity. Qed.

Lemma macos_proxy_roundtrip_witness :
  exists w1 w2, ApplyWithPlatform sample_proxy (Some (macOSPlatform networksetup)) 0%Z mac_world = (Ok tt, w1) ∧
    networkServices (sys w1) !! ("Wi-Fi" : gostring) = Some (uses_local sample_proxy wifi) ∧
    RestoreWithPlatform "/run/rb.json" (Some (macOSPlatform networksetup)) w1 = (Ok tt, w2) ∧
    networkServices (sys w2) !! ("Wi-Fi" : gostring) = Some wifi.
Proof.
  destruct (macos_proxy_roundtrip sample_proxy 0%Z mac_world eq_refl eq_refl eq_refl mac_state_utf8 order_lists ltac:(discriminate)
    (NoDup_singleton _) wifi_plain) as (w1 & w2 & Ha & H1 & Hr & H2 & _).
  exists w1, w2. split; [exact Ha|]. split; [exact (H1 "Wi-Fi"%go)|]. split; [exact Hr|]. exact (H2 "Wi-Fi"%go).
Defined.
End mac_witness.
