(* ===== verification/CertStore.v ===== *)
(** The certificate store (src/internal/certstore/certstore.go and
    platform_windows.go): the local root certificate with its key on disk, the
    certificates made for sites, and the trust of the root in the system.

    Signing and parsing of certificates is crypto/x509, a parameter with its documented
    behaviour as laws; keys, serial numbers and nonces drawn from the random source are
    arguments.  The Windows platform works on the two Root stores of the system, the
    scripts it falls back to have the documented meaning of their calls. *)
From stdpp Require Import strings.
From Stdlib Require Import Ascii.
From S2P Require Import Prelude GoStrings GoNet External World FilePath Rules Config.

(** * Certificates *)

Record Certificate := {
  Raw : gostring;
  SerialNumber : Z;
  CommonName : gostring;
  Organization : list gostring;
  NotBefore : Time;
  NotAfter : Time;
  KeyUsage : list gostring;
  ExtKeyUsage : list gostring;
  BasicConstraintsValid : bool;
  IsCA : bool;
  DNSNames : list gostring;
  PublicKey : gostring;
}.

(** crypto/x509, crypto/ecdsa, crypto/sha1 and encoding/pem.  [x509_checkSignature pub
    der] says that the certificate [der] is signed by the key with public key [pub]. *)
Class X509 := {
  Key : Type;
  Key_eq_dec :: EqDecision Key;
  Public : Key -> gostring;
  x509_CreateCertificate : gostring -> Certificate -> Certificate -> gostring -> Key -> result gostring;
  x509_ParseCertificate : gostring -> result Certificate;
  x509_checkSignature : gostring -> gostring -> bool;
  x509_MarshalECPrivateKey : Key -> result gostring;
  x509_ParseECPrivateKey : gostring -> result Key;
  sha1_Sum : gostring -> gostring;
  pem_Encode : gostring -> gostring -> gostring;
  pem_Decode : gostring -> option (gostring * gostring);
}.

(** The types of the blocks the program writes. *)
Definition blockCertificate : gostring := "CERTIFICATE".
Definition blockKey : gostring := "EC PRIVATE KEY".

(** What a template asks for, apart from the validity, which is kept in seconds. *)
Definition made_from (template cert : Certificate) (pub : gostring) : Prop :=
  SerialNumber cert = SerialNumber template ∧ CommonName cert = CommonName template ∧
  Organization cert = Organization template ∧ KeyUsage cert = KeyUsage template ∧
  ExtKeyUsage cert = ExtKeyUsage template ∧ BasicConstraintsValid cert = BasicConstraintsValid template ∧
  IsCA cert = IsCA template ∧ DNSNames cert = DNSNames template ∧ PublicKey cert = pub ∧
  (NotBefore cert <= NotBefore template < NotBefore cert + Second)%Z ∧
  (NotAfter cert <= NotAfter template < NotAfter cert + Second)%Z.

(** CreateCertificate refuses a key that does not belong to the parent, where the
    parent has a public key. *)
Class X509Laws `{X509} : Prop := {
  x509_created nonce template parent pub key der :
    x509_CreateCertificate nonce template parent pub key = Ok der ->
    (PublicKey parent <> [] -> PublicKey parent = Public key) ∧
    x509_checkSignature (Public key) der = true ∧
    exists cert, x509_ParseCertificate der = Ok cert ∧ made_from template cert pub;
  x509_raw der cert : x509_ParseCertificate der = Ok cert -> Raw cert = der;
  x509_key key der : x509_MarshalECPrivateKey key = Ok der -> x509_ParseECPrivateKey der = Ok key;
  pem_certificate der : pem_Decode (pem_Encode blockCertificate der) = Some (blockCertificate, der);
  pem_key der : pem_Decode (pem_Encode blockKey der) = Some (blockKey, der);
}.

(** * The manager *)

Definition rootCertFile : gostring := "root-ca.pem".
Definition rootKeyFile : gostring := "root-ca-key.pem".
Definition rootName : gostring := "steam-accelerator-core Local Root CA".

Definition ErrNoCA : error := ErrorVar "certstore.ErrNoCA".
Definition ErrUnsupported : error := ErrorVar "certstore.ErrUnsupported".

(** certstore.Config *)
Record CertConfig := { Dir : gostring; StoreScope : gostring }.

Record TrustResult := {
  TPlatform : gostring;
  TCertPath : gostring;
  TThumbprint : gostring;
  TStoreScope : gostring;
  TAlreadyTrusted : bool;
  TInstalled : bool;
  TChanged : bool;
  TViaHelper : bool;
}.

Definition ConfigFromApp (cfg : Config.Config) : CertConfig :=
  {| Dir := CertDir (Cert cfg); StoreScope := Config.StoreScope (Cert cfg) |}.

(** The platform the trust is kept on; certificate, path and scope are passed as in
    the source. *)
Record Platform (X : Type) := {
  PName : gostring;
  PIsInstalled : Certificate -> gostring -> gostring -> IO X bool;
  PInstall : Certificate -> gostring -> gostring -> IO X unit;
  PUninstall : Certificate -> gostring -> IO X unit;
}.
Arguments PName {X} p.
Arguments PIsInstalled {X} p.
Arguments PInstall {X} p.
Arguments PUninstall {X} p.

(** platform_other.go *)
Definition unsupportedPlatform {X : Type} (GOOS : gostring) : Platform X := {|
  PName := GOOS;
  PIsInstalled _ _ _ := io_err (Wrapf "%w: %s" [GOOS] ErrUnsupported);
  PInstall _ _ _ := io_err (Wrapf "%w: %s" [GOOS] ErrUnsupported);
  PUninstall _ _ := io_err (Wrapf "%w: %s" [GOOS] ErrUnsupported);
|}.

Definition upper_hex_digit (n : N) : byte := nth (N.to_nat n) ("0123456789ABCDEF" : gostring) "?"%char.

(** strings.ToUpper(hex.EncodeToString(b)) *)
Definition upper_hex (b : gostring) : gostring :=
  flat_map (fun c => [upper_hex_digit (N.shiftr (code c) 4); upper_hex_digit (N.land (code c) 15)]) b.

Section manager.
Context `{X509} `{Externals} `{FilePath}.

Definition Thumbprint (cert : Certificate) : gostring := upper_hex (sha1_Sum (Raw cert)).

Record TLSCertificate := { Chain : list gostring; PrivateKey : Key; Leaf : Certificate }.

Record Manager := {
  mcfg : CertConfig;
  rootCert : option Certificate;
  rootKey : option Key;
  cache : gmap gostring TLSCertificate;
  loadedCA : bool;
}.

Definition normalizeConfig (cfg : CertConfig) : CertConfig :=
  let scope := keyword (StoreScope cfg) in
  if bool_decide (scope ∈ [[]; CertStoreMachine; "local_machine"; "local-machine"])
  then {| Dir := Dir cfg; StoreScope := CertStoreMachine |}
  else if bool_decide (scope ∈ [CertStoreUser; "current_user"; "current-user"])
  then {| Dir := Dir cfg; StoreScope := CertStoreUser |}
  else cfg.

Definition New (cfg : CertConfig) : Manager :=
  {| mcfg := normalizeConfig cfg; rootCert := None; rootKey := None; cache := ∅; loadedCA := false |}.

Definition RootCertPath (m : Manager) : gostring := filepath_Join (Dir (mcfg m)) rootCertFile.
Definition RootKeyPath (m : Manager) : gostring := filepath_Join (Dir (mcfg m)) rootKeyFile.

(** ** Certificates and keys *)

(** What is drawn from the random source to make one certificate. *)
Record Draw := { dKey : result Key; dSerial : result Z; dNonce : gostring }.

Definition randomSerial (drawn : result Z) : result Z := wrap_err "generate certificate serial: %w" [] drawn.

Definition Hour : Z := (3600 * Second)%Z.

Definition rootTemplate (serial : Z) (now : Time) : Certificate :=
  {| Raw := []; SerialNumber := serial; CommonName := rootName; Organization := ["steam-accelerator-core"];
     NotBefore := (now - Hour)%Z; NotAfter := (now + 10 * 365 * 24 * Hour)%Z;
     KeyUsage := ["CertSign"; "CRLSign"]; ExtKeyUsage := []; BasicConstraintsValid := true; IsCA := true;
     DNSNames := []; PublicKey := [] |}.

Definition generateRootCA (d : Draw) (now : Time) : result (Certificate * Key) :=
  do key <- wrap_err "generate root private key: %w" [] (dKey d);
  do serial <- randomSerial (dSerial d);
  let template := rootTemplate serial now in
  do der <- wrap_err "create root certificate: %w" [] (x509_CreateCertificate (dNonce d) template template (Public key) key);
  do cert <- wrap_err "parse generated root certificate: %w" [] (x509_ParseCertificate der);
  Ok (cert, key).

Definition siteTemplate (serial : Z) (now : Time) (normalized : gostring) : Certificate :=
  {| Raw := []; SerialNumber := serial; CommonName := normalized; Organization := [];
     NotBefore := (now - Hour)%Z; NotAfter := (now + 90 * 24 * Hour)%Z;
     KeyUsage := ["DigitalSignature"]; ExtKeyUsage := ["ServerAuth"]; BasicConstraintsValid := true; IsCA := false;
     DNSNames := [normalized]; PublicKey := [] |}.

(** The part of Certificate that makes the certificate of a site. *)
Definition issue (root : Certificate) (key : Key) (d : Draw) (now : Time) (normalized : gostring) : result TLSCertificate :=
  do leafKey <- wrap_err "generate site private key: %w" [] (dKey d);
  do serial <- randomSerial (dSerial d);
  do der <- wrap_err "create site certificate: %w" []
              (x509_CreateCertificate (dNonce d) (siteTemplate serial now normalized) root (Public leafKey) key);
  do leaf <- wrap_err "parse site certificate: %w" [] (x509_ParseCertificate der);
  Ok {| Chain := [der; Raw root]; PrivateKey := leafKey; Leaf := leaf |}.

(** ** Operations

    They run on the manager and the world together. *)
Section operations.
Context {X : Type} (platform : Platform X).

Definition M (A : Type) : Type := ST (Manager * World X) A.

Definition lift {A} (k : IO X A) : M A := fun s => let '(r, w) := k s.2 in (r, (s.1, w)).
Definition get : M Manager := fun s => (Ok s.1, s).
Definition put (m : Manager) : M unit := fun s => (Ok tt, (m, s.2)).

Definition with_root (cert : Certificate) (key : Key) (m : Manager) : Manager :=
  {| mcfg := mcfg m; rootCert := Some cert; rootKey := Some key; cache := cache m; loadedCA := true |}.
Definition with_cached (host : gostring) (t : TLSCertificate) (m : Manager) : Manager :=
  {| mcfg := mcfg m; rootCert := rootCert m; rootKey := rootKey m; cache := <[host := t]> (cache m); loadedCA := loadedCA m |}.

(** The pair the manager holds already. *)
Definition loaded (m : Manager) : option (Certificate * Key) :=
  match loadedCA m, rootCert m, rootKey m with
  | true, Some cert, Some key => Some (cert, key)
  | _, _, _ => None
  end.

(** What the two files say. *)
Definition parseKeypair (certPEM keyPEM : gostring) : result (Certificate * Key) :=
  match pem_Decode certPEM with
  | Some (t, certDER) =>
      if negb (bool_decide (t = blockCertificate)) then Err (Errorf "invalid root certificate PEM" [])
      else match pem_Decode keyPEM with
           | Some (t', keyDER) =>
               if negb (bool_decide (t' = blockKey)) then Err (Errorf "invalid root private key PEM" [])
               else
                 do cert <- wrap_err "parse root certificate: %w" [] (x509_ParseCertificate certDER);
                 do key <- wrap_err "parse root private key: %w" [] (x509_ParseECPrivateKey keyDER);
                 Ok (cert, key)
           | None => Err (Errorf "invalid root private key PEM" [])
           end
  | None => Err (Errorf "invalid root certificate PEM" [])
  end.

(** Reading one of the two files; a missing one means that there is no root. *)
Definition readPEM (path format : gostring) : IO X gostring :=
  try r <- os_ReadFile path;
  match r with
  | Ok d => io_ret d
  | Err e => if os_IsNotExist e then io_err ErrNoCA else io_err (Wrapf format [] e)
  end.

Definition loadRootKeypairLocked : M (Certificate * Key) :=
  io m <- get;
  match loaded m with
  | Some ck => io_ret ck
  | None =>
      io certPEM <- lift (readPEM (RootCertPath m) "read root certificate: %w");
      io keyPEM <- lift (readPEM (RootKeyPath m) "read root private key: %w");
      io ck <- io_of (parseKeypair certPEM keyPEM);
      io _ <- put (with_root ck.1 ck.2 m);
      io_ret ck
  end.

Definition writePEMFile (path blockType der : gostring) : IO X unit :=
  io _ <- io_wrap "open %s: %w" [filepath_Base path] (os_WriteFile path []);
  try r <- io_wrap "write %s: %w" [filepath_Base path] (os_Write path (pem_Encode blockType der));
  try _ <- os_Close path;
  io_of r.

Definition ensureRootKeypairLocked (d : Draw) (now : Time) : M (Certificate * Key) :=
  try r <- loadRootKeypairLocked;
  match r with
  | Ok ck => io_ret ck
  | Err e =>
      if negb (errors_Is e ErrNoCA) then io_err e
      else
        io m <- get;
        io ck <- io_of (generateRootCA d now);
        io _ <- lift (io_wrap "create certificate directory: %w" [] (os_MkdirAll (Dir (mcfg m))));
        io _ <- lift (writePEMFile (RootCertPath m) blockCertificate (Raw ck.1));
        io keyDER <- io_of (wrap_err "marshal root private key: %w" [] (x509_MarshalECPrivateKey ck.2));
        io _ <- lift (writePEMFile (RootKeyPath m) blockKey keyDER);
        io _ <- put (with_root ck.1 ck.2 m);
        io_ret ck
  end.

Definition EnsureRootCA (d : Draw) (now : Time) : M Certificate :=
  io ck <- ensureRootKeypairLocked d now; io_ret ck.1.

Definition loadRootCA : M Certificate := io ck <- loadRootKeypairLocked; io_ret ck.1.

Definition IsInstalled : M bool :=
  if negb (bool_decide (PName platform = "windows")) then io_err (Wrapf "%w: %s" [PName platform] ErrUnsupported)
  else
    try r <- loadRootCA;
    match r with
    | Err e => if errors_Is e ErrNoCA then io_ret false else io_err e
    | Ok cert => io m <- get; lift (PIsInstalled platform cert (RootCertPath m) (StoreScope (mcfg m)))
    end.

Definition EnsureTrusted (d : Draw) (now : Time) : M TrustResult :=
  if negb (bool_decide (PName platform = "windows")) then io_err (Wrapf "%w: %s" [PName platform] ErrUnsupported)
  else
    io cert <- EnsureRootCA d now;
    io m <- get;
    io installed <- lift (PIsInstalled platform cert (RootCertPath m) (StoreScope (mcfg m)));
    let trust (already installed : bool) :=
      {| TPlatform := PName platform; TCertPath := RootCertPath m; TThumbprint := Thumbprint cert;
         TStoreScope := StoreScope (mcfg m); TAlreadyTrusted := already; TInstalled := installed; TChanged := installed;
         TViaHelper := false |} in
    if (installed : bool) then io_ret (trust true false)
    else
      io _ <- lift (PInstall platform cert (RootCertPath m) (StoreScope (mcfg m)));
      io_ret (trust false true).

Definition Install (d : Draw) (now : Time) : M unit := io _ <- EnsureTrusted d now; io_ret tt.

Definition Uninstall : M unit :=
  if negb (bool_decide (PName platform = "windows")) then io_err (Wrapf "%w: %s" [PName platform] ErrUnsupported)
  else
    io cert <- loadRootCA;
    io m <- get;
    io installed <- lift (PIsInstalled platform cert (RootCertPath m) (StoreScope (mcfg m)));
    if negb installed then io_ret tt
    else lift (PUninstall platform cert (StoreScope (mcfg m))).

(** The certificate for the server name [host]; [d] is drawn if there is no root yet. *)
Definition Manager_Certificate (d leaf : Draw) (now : Time) (host : gostring) : M TLSCertificate :=
  io normalized <- io_of (NormalizeHost host);
  io m <- get;
  match cache m !! normalized with
  | Some t => io_ret t
  | None =>
      io ck <- ensureRootKeypairLocked d now;
      io t <- io_of (issue ck.1 ck.2 leaf now normalized);
      io m <- get;
      io _ <- put (with_cached normalized t m);
      io_ret t
  end.
End operations.
End manager.

(** A platform whose operations write no files. *)
Class QuietCerts {X} (p : Platform X) : Prop := {
  certs_installed cert path scope : moves same_files (PIsInstalled p cert path scope);
  certs_install cert path scope : moves same_files (PInstall p cert path scope);
  certs_uninstall cert scope : moves same_files (PUninstall p cert scope);
}.

(** * The interface

    What the privileged helper uses of a certificate store: every call works on a new
    manager, as in the source. *)
Record CertStore (X : Type) := {
  SIsInstalled : CertConfig -> IO X bool;
  SEnsureTrusted : CertConfig -> IO X TrustResult;
  SUninstall : CertConfig -> IO X unit;
  SRootCertPath : CertConfig -> gostring;
}.
Arguments SIsInstalled {X} c.
Arguments SEnsureTrusted {X} c.
Arguments SUninstall {X} c.
Arguments SRootCertPath {X} c.

Section store.
Context `{X509} `{Externals} `{FilePath} {X : Type} (platform : Platform X).

(** Running an operation on a new manager. *)
Definition fresh {A} (cfg : CertConfig) (k : M (X := X) A) : IO X A := fun w =>
  let '(r, (_, w')) := k (New cfg, w) in (r, w').

Definition store (d : Draw) (now : Time) : CertStore X := {|
  SIsInstalled c := fresh c (IsInstalled platform);
  SEnsureTrusted c := fresh c (EnsureTrusted platform d now);
  SUninstall c := fresh c (Uninstall platform);
  SRootCertPath c := RootCertPath (New c);
|}.
End store.

(** * Properties *)

Section manager_properties.
Context `{X509} `{!X509Laws} `{Externals} `{FilePath} {X : Type} (platform : Platform X).

(** ** The root *)

Lemma loaded_with_root c k m : loaded (with_root c k m) = Some (c, k).
Proof. done. Qed.

Lemma load_loaded m ck (w : World X) : loaded m = Some ck -> loadRootKeypairLocked (m, w) = (Ok ck, (m, w)).
Proof. intros Hl. unfold loadRootKeypairLocked, io_bind, get. cbn. by rewrite Hl. Qed.

Lemma ensure_loaded d now m ck (w : World X) : loaded m = Some ck -> ensureRootKeypairLocked d now (m, w) = (Ok ck, (m, w)).
Proof. intros Hl. unfold ensureRootKeypairLocked, io_try. by rewrite (load_loaded _ ck). Qed.

(** Reading a file of the pair. *)
Lemma readPEM_Ok path format (w w' : World X) d :
  readPEM path format w = (Ok d, w') -> files w !! path = Some d ∧ files w' = files w.
Proof.
  unfold readPEM, io_try, os_ReadFile, os_call. pose proof (next_fault_files w) as Hn.
  destruct (next_fault w) as [[f|] w1]; cbn in Hn |- *.
  - by destruct (os_IsNotExist _).
  - rewrite Hn. destruct (files w !! path) as [d'|] eqn:Ed; [by intros [= -> <-]|].
    by destruct (os_IsNotExist _).
Qed.

Lemma readPEM_files path format (w : World X) : files (readPEM path format w).2 = files w.
Proof.
  unfold readPEM, io_try, os_ReadFile, os_call. pose proof (next_fault_files w) as Hn.
  destruct (next_fault w) as [[f|] w1]; cbn in Hn |- *; [by destruct (os_IsNotExist _)|].
  destruct (files w1 !! path); [done|]. by destruct (os_IsNotExist _).
Qed.

Lemma readPEM_healthy path format (w : World X) d :
  faults w = [] -> files w !! path = Some d -> readPEM path format w = (Ok d, w).
Proof.
  intros Hf Hd. unfold readPEM, io_try, os_ReadFile. rewrite os_call_healthy by done. by rewrite Hd.
Qed.

(** The outcome of loading: what was held, what the files say, or an error that leaves
    the manager as it was. *)
Lemma load_spec m (w w1 : World X) r m1 :
  loadRootKeypairLocked (m, w) = (r, (m1, w1)) -> loaded m = None ->
  files w1 = files w ∧
  match r with
  | Ok ck => exists certPEM keyPEM, files w !! RootCertPath m = Some certPEM ∧ files w !! RootKeyPath m = Some keyPEM ∧
      parseKeypair certPEM keyPEM = Ok ck ∧ m1 = with_root ck.1 ck.2 m
  | Err _ => m1 = m
  end.
Proof.
  unfold loadRootKeypairLocked, io_bind at 1, get. cbn [fst snd]. intros Hr Hl. rewrite Hl in Hr.
  unfold io_bind at 1, lift at 1 in Hr. cbn [fst snd] in Hr.
  pose proof (readPEM_files (RootCertPath m) "read root certificate: %w" w) as F1.
  destruct (readPEM (RootCertPath m) _ w) as [[certPEM|e] w2] eqn:E1; [|by injection Hr as <- <- <-].
  apply readPEM_Ok in E1 as [E1 _]. cbn [snd] in F1. unfold io_bind at 1, lift at 1 in Hr. cbn [fst snd] in Hr.
  pose proof (readPEM_files (RootKeyPath m) "read root private key: %w" w2) as F2.
  destruct (readPEM (RootKeyPath m) _ w2) as [[keyPEM|e] w3] eqn:E2; cbn [snd] in F2; [|injection Hr as <- <- <-; by rewrite F2].
  apply readPEM_Ok in E2 as [E2 _]. unfold io_bind, io_of, put, io_ret in Hr.
  destruct (parseKeypair certPEM keyPEM) as [ck|e] eqn:Ep; injection Hr as <- <- <-; (split; [congruence|]); [|done].
  exists certPEM, keyPEM. by rewrite <-F1 at 2.
Qed.

Lemma load_files m (w : World X) certPEM keyPEM ck :
  faults w = [] -> loaded m = None -> files w !! RootCertPath m = Some certPEM -> files w !! RootKeyPath m = Some keyPEM ->
  parseKeypair certPEM keyPEM = Ok ck -> loadRootKeypairLocked (m, w) = (Ok ck, (with_root ck.1 ck.2 m, w)).
Proof.
  intros Hf Hl Hc Hk Hp. unfold loadRootKeypairLocked, io_bind, get, lift, io_of. cbn [fst snd]. rewrite Hl.
  rewrite (readPEM_healthy _ _ _ _ Hf Hc), (readPEM_healthy _ _ _ _ Hf Hk), Hp. done.
Qed.

(** Files written for a pair say that pair. *)
Lemma generateRootCA_Ok d now c k :
  generateRootCA d now = Ok (c, k) ->
  x509_ParseCertificate (Raw c) = Ok c ∧ PublicKey c = Public k ∧ x509_checkSignature (PublicKey c) (Raw c) = true ∧
  IsCA c = true ∧ BasicConstraintsValid c = true ∧ CommonName c = rootName.
Proof.
  unfold generateRootCA. intros Hg.
  apply rbind_Ok in Hg as (key & Hk & Hg). apply rbind_Ok in Hg as (serial & Hs & Hg). apply rbind_Ok in Hg as (der & Hd & Hg).
  apply rbind_Ok in Hg as (cert & Hc & Hg). injection Hg as <- <-. apply wrap_err_Ok in Hd, Hc.
  destruct (x509_created _ _ _ _ _ _ Hd) as (_ & Hsig & cert' & Hc' & (_ & Hcn & _ & _ & _ & Hbc & Hca & _ & Hpub & _)).
  assert (cert' = cert) as -> by congruence. rewrite (x509_raw _ _ Hc), Hpub. by split_and!.
Qed.

Lemma parse_encoded c k kd :
  x509_ParseCertificate (Raw c) = Ok c -> x509_MarshalECPrivateKey k = Ok kd ->
  parseKeypair (pem_Encode blockCertificate (Raw c)) (pem_Encode blockKey kd) = Ok (c, k).
Proof.
  intros Hc Hk. unfold parseKeypair. rewrite pem_certificate, pem_key. eval_tests. rewrite Hc. cbn.
  by rewrite (x509_key _ _ Hk).
Qed.

Lemma writePEM_Ok path t der (w w' : World X) :
  writePEMFile path t der w = (Ok tt, w') -> files w' = <[path := pem_Encode t der]> (files w).
Proof.
  unfold writePEMFile. intros Hw. apply io_bind_Ok in Hw as ([] & w1 & Hop & Hw). apply io_wrap_Ok, os_put_Ok in Hop as [Hop _].
  unfold io_try at 1 in Hw. destruct (io_wrap _ _ _ w1) as [r w2] eqn:E2.
  unfold io_try, io_of, os_Close in Hw. pose proof (os_call_ret (PathError "close" path) tt w2) as [Hc _].
  destruct (os_call _ _ w2) as [c w3]. cbn in Hc. injection Hw as -> <-. apply io_wrap_Ok, os_put_Ok in E2 as [E2 _].
  rewrite Hc, E2, Hop. apply insert_insert_eq.
Qed.

Lemma ensure_generates d now m (w w1 : World X) ck m1 :
  ensureRootKeypairLocked d now (m, w) = (Ok ck, (m1, w1)) -> loaded m = None ->
  m1 = with_root ck.1 ck.2 m ∧
  (RootCertPath m <> RootKeyPath m ->
   exists certPEM keyPEM, files w1 !! RootCertPath m = Some certPEM ∧ files w1 !! RootKeyPath m = Some keyPEM ∧
     parseKeypair certPEM keyPEM = Ok ck).
Proof.
  intros He Hl. unfold ensureRootKeypairLocked, io_try in He. destruct (loadRootKeypairLocked (m, w)) as [r [m2 w2]] eqn:Eload.
  destruct (load_spec _ _ _ _ _ Eload Hl) as [Hf Hr]. destruct r as [ck'|e].
  - injection He as <- <- <-. destruct Hr as (cp & kp & Hc & Hk & Hp & ->). split; [done|]. intros _. exists cp, kp. by rewrite Hf.
  - subst m2. destruct (errors_Is e ErrNoCA); cbn [negb] in He; [|done].
    unfold io_bind at 1, get in He. cbn [fst snd] in He. apply io_bind_Ok in He as (ck' & s1 & Hg & He). injection Hg as Hg <-.
    apply io_bind_Ok in He as ([] & s2 & Hmk & He). unfold lift in Hmk. destruct (io_wrap _ _ _ _) as [r3 w3] eqn:E3. injection Hmk as -> <-.
    apply io_bind_Ok in He as ([] & s4 & Hwc & He). unfold lift in Hwc. cbn [fst snd] in Hwc.
    destruct (writePEMFile (RootCertPath m) _ _ _) as [r4 w4] eqn:E4. injection Hwc as -> <-. apply writePEM_Ok in E4.
    apply io_bind_Ok in He as (kd & s5 & Hmar & He). injection Hmar as Hmar <-. apply wrap_err_Ok in Hmar.
    apply io_bind_Ok in He as ([] & s6 & Hwk & He). unfold lift in Hwk. cbn [fst snd] in Hwk.
    destruct (writePEMFile (RootKeyPath m) _ _ _) as [r6 w6] eqn:E6. injection Hwk as -> <-. apply writePEM_Ok in E6.
    injection He as <- <- <-. destruct ck' as [c k]. apply generateRootCA_Ok in Hg as (Hc & _). cbn [fst snd] in *.
    split; [done|]. intros Hne.
    exists (pem_Encode blockCertificate (Raw c)), (pem_Encode blockKey kd). rewrite E6, lookup_insert_eq, lookup_insert_ne by done.
    rewrite E4, lookup_insert_eq. by rewrite (parse_encoded c k kd Hc Hmar).
Qed.

(** A failed attempt leaves the manager without a root. *)
Lemma ensure_failed d now m (w w1 : World X) e m1 :
  loaded m = None -> ensureRootKeypairLocked d now (m, w) = (Err e, (m1, w1)) -> m1 = m.
Proof.
  intros Hl He. unfold ensureRootKeypairLocked, io_try in He. destruct (loadRootKeypairLocked (m, w)) as [r [m2 w2]] eqn:Eload.
  destruct (load_spec _ _ _ _ _ Eload Hl) as [_ Hr]. destruct r as [ck'|e']; [done|]. subst m2.
  destruct (errors_Is e' ErrNoCA); cbn [negb] in He; [|by injection He].
  unfold io_bind at 1, get in He. cbn [fst snd] in He.
  unfold io_bind at 1, io_of in He. destruct (generateRootCA d now) as [[c k]|]; [|by injection He].
  unfold io_bind at 1, lift in He. destruct (io_wrap _ _ _ _) as [[] w3]; [|by injection He].
  unfold io_bind at 1, lift in He. cbn [fst snd] in He. destruct (writePEMFile _ _ _ w3) as [[] w4]; [|by injection He].
  unfold io_bind at 1, io_of in He. destruct (wrap_err _ _ _); [|by injection He].
  unfold io_bind at 1, lift in He. cbn [fst snd] in He. destruct (writePEMFile _ _ _ w4) as [[] w5]; [done|by injection He].
Qed.

(** C23: the root is made once: a manager that has it keeps it, and a manager started
    later on the same directory finds the same certificate and key in the files. *)
Theorem root_persists d now cfg (w w1 : World X) ck m1 :
  ensureRootKeypairLocked d now (New cfg, w) = (Ok ck, (m1, w1)) ->
  (forall d' now' (w2 : World X), ensureRootKeypairLocked d' now' (m1, w2) = (Ok ck, (m1, w2))) ∧
  (RootCertPath (New cfg) <> RootKeyPath (New cfg) -> faults w1 = [] ->
   forall d' now', ensureRootKeypairLocked d' now' (New cfg, w1) = (Ok ck, (m1, w1))).
Proof.
  intros He. destruct (ensure_generates _ _ _ _ _ _ _ He eq_refl) as (-> & Hfiles). split.
  - intros d' now' w2. apply ensure_loaded. by destruct ck.
  - intros Hne Hf d' now'. destruct (Hfiles Hne) as (cp & kp & Hc & Hk & Hp).
    unfold ensureRootKeypairLocked, io_try. by rewrite (load_files (New cfg) _ _ _ _ Hf eq_refl Hc Hk Hp).
Qed.
(** ** The files that are written *)

Definition root_file_of (m : Manager) (q : gostring) : Prop := q = RootCertPath m ∨ q = RootKeyPath m.

Lemma writePEM_writes (P : gostring -> Prop) path t der : P path -> moves (writes_only (X := X) P) (writePEMFile path t der).
Proof.
  intros Hp. unfold writePEMFile. apply moves_bind; [apply _|by apply moves_wrap, os_put_writes|intros _].
  apply moves_try; [apply _|by apply moves_wrap, os_put_writes|intros r].
  apply moves_try; [apply _|apply os_call_moves; [apply _|apply next_fault_writes|done]|done].
Qed.

(** From a manager with the configuration of [m0], an operation keeps the configuration
    and writes the two files only. *)
Section keeps.
Context (m0 : Manager).

Definition keeps (s s' : Manager * World X) : Prop :=
  mcfg s.1 = mcfg m0 -> mcfg s'.1 = mcfg m0 ∧ writes_only (root_file_of m0) s.2 s'.2.

#[export] Instance keeps_preorder : PreOrder keeps.
Proof.
  split; [done|]. intros s1 s2 s3 K1 K2 Hc. destruct (K1 Hc) as [C1 W1]. destruct (K2 C1) as [C2 W2].
  split; [done|]. by etrans.
Qed.

Lemma lift_keeps {A} (k : IO X A) : moves (writes_only (root_file_of m0)) k -> moves keeps (lift k).
Proof. intros Hk [m w] Hc. specialize (Hk w). unfold lift. cbn in *. by destruct (k w). Qed.

Lemma get_keeps {A} (k : Manager -> M (X := X) A) :
  (forall m, mcfg m = mcfg m0 -> moves keeps (k m)) -> moves keeps (io_bind get k).
Proof. intros Hk s Hc. by apply Hk. Qed.

Lemma put_keeps m : mcfg m = mcfg m0 -> moves keeps (put (X := X) m).
Proof. intros Hm s Hc. done. Qed.

Lemma read_keeps path format : moves keeps (lift (X := X) (readPEM path format)).
Proof. apply lift_keeps. intros w q _. by rewrite readPEM_files. Qed.

Lemma paths_of m : mcfg m = mcfg m0 -> root_file_of m0 (RootCertPath m) ∧ root_file_of m0 (RootKeyPath m).
Proof. intros Hm. unfold root_file_of, RootCertPath, RootKeyPath. rewrite Hm. split; [by left|by right]. Qed.

Lemma load_keeps : moves keeps loadRootKeypairLocked.
Proof.
  apply get_keeps. intros m Hm. destruct (loaded m); [done|].
  apply moves_bind; [apply _|apply read_keeps|intros certPEM]. apply moves_bind; [apply _|apply read_keeps|intros keyPEM].
  apply moves_bind; [apply _|done|intros ck]. apply moves_bind; [apply _|by apply put_keeps|done].
Qed.

Lemma ensure_keeps d now : moves keeps (ensureRootKeypairLocked d now).
Proof.
  apply moves_try; [apply _|apply load_keeps|intros [ck|e]; [done|]]. destruct (errors_Is e ErrNoCA); [|done].
  apply get_keeps. intros m Hm. destruct (paths_of m Hm) as [Hc Hk].
  apply moves_bind; [apply _|done|intros ck].
  apply moves_bind; [apply _|apply lift_keeps, moves_wrap, os_call_moves; [apply _|apply next_fault_writes|done]|intros _].
  apply moves_bind; [apply _|by apply lift_keeps, writePEM_writes|intros _].
  apply moves_bind; [apply _|done|intros kd].
  apply moves_bind; [apply _|by apply lift_keeps, writePEM_writes|intros _].
  apply moves_bind; [apply _|by apply put_keeps|done].
Qed.

(** A platform that writes no files. *)
Context `{!QuietCerts platform}.

Lemma quiet_keeps {A} (k : IO X A) : moves same_files k -> moves keeps (lift k).
Proof. intros Hk. apply lift_keeps. intros w q _. by rewrite Hk. Qed.

Lemma IsInstalled_keeps : moves keeps (IsInstalled platform).
Proof.
  unfold IsInstalled. destruct (bool_decide _); cbn [negb]; [|done].
  apply moves_try; [apply _|apply moves_bind; [apply _|apply load_keeps|done]|].
  intros [cert|e]; [|by destruct (errors_Is e ErrNoCA)]. apply get_keeps. intros m _. apply quiet_keeps, certs_installed.
Qed.

(** A query writes nothing. *)
Lemma IsInstalled_files s : files (IsInstalled platform s).2.2 = files s.2.
Proof.
  unfold IsInstalled. destruct (bool_decide _); cbn [negb]; [|done]. destruct s as [m w].
  unfold io_try, loadRootCA, io_bind at 1, io_ret at 1.
  destruct (loadRootKeypairLocked (m, w)) as [r [m1 w1]] eqn:E.
  assert (files w1 = files w) as Hf.
  { destruct (loaded m) as [ck|] eqn:El; [|by apply (load_spec _ _ _ _ _ E El)].
    rewrite (load_loaded _ ck) in E by done. by injection E as _ _ <-. }
  destruct r as [ck|e]; [|by destruct (errors_Is e ErrNoCA)]. unfold io_bind, get, lift. cbn [fst snd].
  pose proof (certs_installed ck.1 (RootCertPath m1) (StoreScope (mcfg m1)) w1) as Hp.
  destruct (PIsInstalled _ _ _ _ w1) as [r w2]. cbn in *. by rewrite Hp.
Qed.

Lemma EnsureTrusted_keeps d now : moves keeps (EnsureTrusted platform d now).
Proof.
  unfold EnsureTrusted. destruct (bool_decide _); cbn [negb]; [|done].
  apply moves_bind; [apply _|apply moves_bind; [apply _|apply ensure_keeps|done]|intros cert].
  apply get_keeps. intros m _. apply moves_bind; [apply _|apply quiet_keeps, certs_installed|intros [|]; [done|]].
  apply moves_bind; [apply _|apply quiet_keeps, certs_install|done].
Qed.

Lemma Uninstall_keeps : moves keeps (Uninstall platform).
Proof.
  unfold Uninstall. destruct (bool_decide _); cbn [negb]; [|done].
  apply moves_bind; [apply _|apply moves_bind; [apply _|apply load_keeps|done]|intros cert].
  apply get_keeps. intros m _. apply moves_bind; [apply _|apply quiet_keeps, certs_installed|intros [|]; [|done]].
  apply quiet_keeps, certs_uninstall.
Qed.
End keeps.

(** ** Without failures *)

(** Nothing fails later either, and the settings stay as they are. *)
Definition calm (s s' : Manager * World X) : Prop :=
  faults s.2 = [] -> faults s'.2 = [] ∧ sys s'.2 = sys s.2.

#[export] Instance calm_preorder : PreOrder calm.
Proof.
  split; [done|]. intros s1 s2 s3 K1 K2 Hf. destruct (K1 Hf) as [F1 S1]. destruct (K2 F1) as [F2 S2]. split; congruence.
Qed.

Lemma lift_calm {A} (k : IO X A) : moves calm_world k -> moves calm (lift k).
Proof. intros Hk [m w] Hf. specialize (Hk w Hf). unfold lift. cbn in *. by destruct (k w). Qed.

Lemma readPEM_calm path format : moves (calm_world (X := X)) (readPEM path format).
Proof.
  apply moves_try; [apply _|apply os_call_calm; intros w Hf; by destruct (files w !! path)|].
  intros [|e]; [done|]. by destruct (os_IsNotExist e).
Qed.

Lemma writePEM_calm path t der : moves (calm_world (X := X)) (writePEMFile path t der).
Proof.
  apply moves_bind; [apply _|apply moves_wrap, os_put_calm|intros _].
  apply moves_try; [apply _|apply moves_wrap, os_put_calm|intros r].
  apply moves_try; [apply _|by apply os_call_calm|done].
Qed.

Lemma ensure_calm d now : moves calm (ensureRootKeypairLocked d now).
Proof.
  apply moves_try; [apply _| |].
  - apply moves_bind; [apply _|done|intros m]. destruct (loaded m); [done|].
    apply moves_bind; [apply _|apply lift_calm, readPEM_calm|intros certPEM].
    apply moves_bind; [apply _|apply lift_calm, readPEM_calm|intros keyPEM].
    apply moves_bind; [apply _|done|intros ck]. by apply moves_bind; [apply _|done|].
  - intros [ck|e]; [done|]. destruct (errors_Is e ErrNoCA); [|done].
    apply moves_bind; [apply _|done|intros m]. apply moves_bind; [apply _|done|intros ck].
    apply moves_bind; [apply _|by apply lift_calm, moves_wrap, os_call_calm|intros _].
    apply moves_bind; [apply _|apply lift_calm, writePEM_calm|intros _].
    apply moves_bind; [apply _|done|intros kd]. apply moves_bind; [apply _|apply lift_calm, writePEM_calm|intros _].
    by apply moves_bind; [apply _|done|].
Qed.

(** ** Certificates of sites *)

(** [t] is a certificate for [host] from the root [root] with the key [key], and has its
    own private key.  The key is the one of the root where crypto/x509 knows the root's
    algorithm; where it does not, it gives no public key to compare with. *)
Definition issued (root : Certificate) (key : Key) (host : gostring) (t : TLSCertificate) : Prop :=
  exists der, Chain t = [der; Raw root] ∧ Raw (Leaf t) = der ∧ x509_checkSignature (Public key) der = true ∧
    (PublicKey root <> [] -> PublicKey root = Public key) ∧
    PublicKey (Leaf t) = Public (PrivateKey t) ∧ DNSNames (Leaf t) = [host] ∧ CommonName (Leaf t) = host ∧
    IsCA (Leaf t) = false ∧ ExtKeyUsage (Leaf t) = ["ServerAuth"].

Lemma issue_Ok root key d now host t :
  issue root key d now host = Ok t ->
  issued root key host t ∧ (now - Hour - Second < NotBefore (Leaf t) <= now - Hour)%Z ∧
  (now + 90 * 24 * Hour - Second < NotAfter (Leaf t) <= now + 90 * 24 * Hour)%Z.
Proof.
  unfold issue. intros Hi. apply rbind_Ok in Hi as (leafKey & _ & Hi). apply rbind_Ok in Hi as (serial & _ & Hi).
  apply rbind_Ok in Hi as (der & Hd & Hi). apply rbind_Ok in Hi as (leaf & Hl & Hi). injection Hi as <-. apply wrap_err_Ok in Hd, Hl.
  destruct (x509_created _ _ _ _ _ _ Hd) as (Hpub & Hsig & cert & Hc & Hm).
  assert (cert = leaf) as -> by congruence.
  destruct Hm as (_ & Hcn & _ & _ & Hext & _ & Hca & Hdns & Hpk & Hb & Ha). cbn [NotBefore NotAfter siteTemplate] in Hb, Ha.
  split; [|cbn [Leaf]; lia]. exists der. cbn [Chain Leaf PrivateKey]. rewrite (x509_raw _ _ Hl). by split_and!.
Qed.

(** What holds of a manager: what it has in its cache comes from its root. *)
Definition manager_wf (m : Manager) : Prop :=
  forall h t, cache m !! h = Some t -> exists ck, loaded m = Some ck ∧ issued ck.1 ck.2 h t.

(** From one state of a manager to a later one. *)
Definition grows (s s' : Manager * World X) : Prop :=
  mcfg s'.1 = mcfg s.1 ∧ (forall ck, loaded s.1 = Some ck -> loaded s'.1 = Some ck) ∧
  (forall h t, cache s.1 !! h = Some t -> cache s'.1 !! h = Some t) ∧ (manager_wf s.1 -> manager_wf s'.1).

#[export] Instance grows_preorder : PreOrder grows.
Proof. split; [done|]. intros s1 s2 s3 (C1 & L1 & K1 & W1) (C2 & L2 & K2 & W2). split_and!; [congruence|auto..]. Qed.

Lemma grows_same (m : Manager) w w' : grows (m, w) (m, w').
Proof. done. Qed.

Lemma lift_grows {A} (k : IO X A) : moves grows (lift k).
Proof. intros [m w]. unfold lift. cbn. by destruct (k w). Qed.

Lemma get_grows : moves grows (get (X := X)).
Proof. done. Qed.

Lemma with_root_grows c k m (w w' : World X) : loaded m = None -> grows (m, w) (with_root c k m, w').
Proof.
  intros Hl. split_and!; cbn; [done| |done|].
  - intros ck. by rewrite Hl.
  - intros Hc h t Ht. apply Hc in Ht as (ck & Hk & _). by rewrite Hl in Hk.
Qed.

Lemma load_grows : moves grows (loadRootKeypairLocked (X := X)).
Proof.
  intros [m w]. destruct (loadRootKeypairLocked (m, w)) as [r [m1 w1]] eqn:E. cbn [snd].
  destruct (loaded m) as [ck|] eqn:El.
  - rewrite (load_loaded _ ck) in E by done. by injection E as <- <- <-.
  - destruct (load_spec _ _ _ _ _ E El) as [_ Hr]. destruct r as [[c k]|e]; [|by subst].
    destruct Hr as (? & ? & _ & _ & _ & ->). by apply with_root_grows.
Qed.

Lemma ensure_grows d now : moves grows (ensureRootKeypairLocked (X := X) d now).
Proof.
  intros [m w]. destruct (ensureRootKeypairLocked d now (m, w)) as [r [m1 w1]] eqn:E. cbn [snd].
  destruct (loaded m) as [ck|] eqn:El.
  - rewrite (ensure_loaded _ _ _ ck) in E by done. by injection E as <- <- <-.
  - destruct r as [[c k]|e].
    + destruct (ensure_generates _ _ _ _ _ _ _ E El) as (-> & _). by apply with_root_grows.
    + assert (m1 = m) as ->; [|done]. eapply ensure_failed; [done|exact E].
Qed.
Lemma with_cached_grows h t ck m (w w' : World X) :
  loaded m = Some ck -> cache m !! h = None -> (manager_wf m -> issued ck.1 ck.2 h t) -> grows (m, w) (with_cached h t m, w').
Proof.
  intros Hl Hn Hi. split_and!; cbn; [done|done| |].
  - intros h' t' Ht. rewrite lookup_insert_ne; [done|]. by intros ->; rewrite Hn in Ht.
  - intros Hw h' t'. cbn [fst cache with_cached]. destruct (decide (h = h')) as [<-|Hne].
    + rewrite lookup_insert_eq. intros [= <-]. exists ck. split; [done|by apply Hi].
    + rewrite lookup_insert_ne by done. apply Hw.
Qed.

Lemma ensure_Ok_loaded d now s ck s' : ensureRootKeypairLocked (X := X) d now s = (Ok ck, s') -> loaded s'.1 = Some ck.
Proof.
  destruct s as [m w], s' as [m1 w1]. intros He. destruct (loaded m) as [ck'|] eqn:El.
  - rewrite (ensure_loaded _ _ _ ck') in He by done. by injection He as <- <- <-.
  - destruct (ensure_generates _ _ _ _ _ _ _ He El) as (-> & _). by destruct ck.
Qed.

Lemma cache_ensure d now s : cache (ensureRootKeypairLocked (X := X) d now s).2.1 = cache s.1.
Proof.
  destruct s as [m w]. destruct (ensureRootKeypairLocked d now (m, w)) as [r [m1 w1]] eqn:E. cbn [fst snd].
  destruct (loaded m) as [ck|] eqn:El.
  - rewrite (ensure_loaded _ _ _ ck) in E by done. by injection E as <- <- <-.
  - destruct r as [ck|e]; [by destruct (ensure_generates _ _ _ _ _ _ _ E El) as (-> & _)|].
    by rewrite (ensure_failed _ _ _ _ _ _ _ El E).
Qed.

(** A certificate that was handed out, whatever its request was spelled like. *)
Definition serves (s : Manager * World X) (host : gostring) (t : TLSCertificate) : Prop :=
  exists h ck, NormalizeHost host = Ok h ∧ loaded s.1 = Some ck ∧ cache s.1 !! h = Some t ∧
    (manager_wf s.1 -> issued ck.1 ck.2 h t).

Lemma Certificate_spec d leaf now host s r s' :
  Manager_Certificate d leaf now host s = (r, s') ->
  grows s s' ∧ match r with Ok t => manager_wf s.1 -> serves s' host t | Err _ => True end.
Proof.
  unfold Manager_Certificate, io_bind at 1, io_of at 1. destruct (NormalizeHost host) as [h|e] eqn:En; [|by intros [= <- <-]].
  unfold io_bind at 1, get. destruct (cache s.1 !! h) as [t|] eqn:Ec.
  - intros [= <- <-]. split; [done|]. intros Hw. pose proof (Hw _ _ Ec) as (ck & Hl & Hi). by exists h, ck.
  - unfold io_bind at 1. pose proof (ensure_grows d now s) as Hg. pose proof (cache_ensure d now s) as Hcache.
    destruct (ensureRootKeypairLocked d now s) as [[ck|e] s1] eqn:E1; cbn [snd] in *; [|by intros [= <- <-]].
    apply ensure_Ok_loaded in E1. unfold io_bind at 1, io_of.
    destruct (issue ck.1 ck.2 leaf now h) as [t|e] eqn:Ei; [|by intros [= <- <-]].
    unfold io_bind, get, put, io_ret. intros [= <- <-]. destruct s1 as [m1 w1]. cbn [fst snd] in *.
    assert (Hi : manager_wf m1 -> issued ck.1 ck.2 h t) by (intros Hw; by apply issue_Ok in Ei as [Ei _]).
    split.
    + etrans; [exact Hg|]. apply with_cached_grows with (ck := ck); [done| |done]. by rewrite Hcache.
    + intros Hw. exists h, ck. cbn. rewrite lookup_insert_eq. split_and!; [done..|]. intros _. by apply Hi, Hg.
Qed.

(** ** Every reachable manager *)

Inductive operation :=
| OpEnsureRootCA (d : Draw) (now : Time)
| OpIsInstalled
| OpEnsureTrusted (d : Draw) (now : Time)
| OpUninstall
| OpCertificate (d leaf : Draw) (now : Time) (host : gostring).

Definition perform (op : operation) (s : Manager * World X) : Manager * World X :=
  match op with
  | OpEnsureRootCA d now => (EnsureRootCA d now s).2
  | OpIsInstalled => (IsInstalled platform s).2
  | OpEnsureTrusted d now => (EnsureTrusted platform d now s).2
  | OpUninstall => (Uninstall platform s).2
  | OpCertificate d leaf now host => (Manager_Certificate d leaf now host s).2
  end.

(** Between two operations the world may become any other. *)
Inductive managed (cfg : CertConfig) : Manager -> Prop :=
| managed_new : managed cfg (New cfg)
| managed_step m op w : managed cfg m -> managed cfg (perform op (m, w)).1.

Lemma perform_grows op s : grows s (perform op s).
Proof.
  destruct op as [d now| |d now| |d leaf now host]; cbn [perform].
  - revert s. apply moves_bind; [apply _|apply ensure_grows|done].
  - unfold IsInstalled. destruct (bool_decide _); cbn [negb]; [|done]. revert s.
    apply moves_try; [apply _|apply moves_bind; [apply _|apply load_grows|done]|].
    intros [cert|e]; [|by destruct (errors_Is e ErrNoCA)]. apply moves_bind; [apply _|done|intros m]. apply lift_grows.
  - unfold EnsureTrusted. destruct (bool_decide _); cbn [negb]; [|done]. revert s.
    apply moves_bind; [apply _|apply moves_bind; [apply _|apply ensure_grows|done]|intros cert].
    apply moves_bind; [apply _|done|intros m]. apply moves_bind; [apply _|apply lift_grows|intros [|]; [done|]].
    apply moves_bind; [apply _|apply lift_grows|done].
  - unfold Uninstall. destruct (bool_decide _); cbn [negb]; [|done]. revert s.
    apply moves_bind; [apply _|apply moves_bind; [apply _|apply load_grows|done]|intros cert].
    apply moves_bind; [apply _|done|intros m]. apply moves_bind; [apply _|apply lift_grows|intros [|]; [|done]]. apply lift_grows.
  - destruct (Manager_Certificate d leaf now host s) as [r s'] eqn:E. by apply Certificate_spec in E as [E _].
Qed.

Lemma managed_wf cfg m : managed cfg m -> manager_wf m.
Proof.
  induction 1 as [|m op w _ IH]; [intros h t Ht; cbn in Ht; by rewrite lookup_empty in Ht|].
  by apply (perform_grows op (m, w)).
Qed.

(** C13: every certificate a manager hands out, in any state it can reach and whatever
    calls fail, is for the normalized name, signed by the key the manager holds
    with its root, which belongs to the root wherever crypto/x509 knows its algorithm,
    no authority itself, and sent with the root as its chain and its own private key;
    later requests for the name get the same certificate, at any later time, also
    after its 90 days of validity. *)
Theorem certificate_sound cfg m d leaf now host (w w1 : World X) t m1 :
  managed cfg m -> Manager_Certificate d leaf now host (m, w) = (Ok t, (m1, w1)) ->
  exists h root key, NormalizeHost host = Ok h ∧ loaded m1 = Some (root, key) ∧ issued root key h t ∧
    (forall ck, loaded m = Some ck -> ck = (root, key)) ∧
    forall ops host' d' leaf' later, NormalizeHost host' = Ok h ->
      let s := foldl (fun s op => perform op s) (m1, w1) ops in
      Manager_Certificate d' leaf' later host' s = (Ok t, s).
Proof.
  intros Hm Hc. destruct (Certificate_spec _ _ _ _ _ _ _ Hc) as [Hg Hs].
  destruct (Hs (managed_wf _ _ Hm)) as (h & [root key] & Hn & Hl & Hcache & Hi). exists h, root, key.
  split_and!; [done|done|apply Hi, Hg, (managed_wf _ _ Hm)| |].
  - intros ck Hck. destruct Hg as (_ & Hg & _). apply Hg in Hck. cbn [fst] in *. congruence.
  - intros ops host' d' leaf' later Hn' s. assert (grows (m1, w1) s) as (_ & _ & Hgc & _).
    { subst s. clear -H0. generalize (m1, w1) as s0. induction ops as [|op ops IH]; intros s0; [done|]. cbn.
      etrans; [apply (perform_grows op)|apply IH]. }
    apply Hgc in Hcache. unfold Manager_Certificate, io_bind, io_of, get. by rewrite Hn', Hcache.
Qed.
End manager_properties.

(** * A concrete X.509

    Certificates are the list of their fields with the public key of the signer, written
    in binary; a key is its own public key behind a letter. *)
Section simple_x509.

Definition strings_of (l : list json) : list gostring := (fun j => match j with JStr s => s | _ => [] end) <$> l.

Definition fields_of (c : Certificate) (pub signer : gostring) : json :=
  JArr [JNum (SerialNumber c); JStr (CommonName c); JArr (JStr <$> Organization c); JNum (NotBefore c / Second);
        JNum (NotAfter c / Second); JArr (JStr <$> KeyUsage c); JArr (JStr <$> ExtKeyUsage c); JBool (BasicConstraintsValid c);
        JBool (IsCA c); JArr (JStr <$> DNSNames c); JStr pub; JStr signer].

(** The certificate an encoding stands for, and the public key of its signer. *)
Definition read_fields (der : gostring) : option (Certificate * gostring) :=
  match @json_Unmarshal simple_encoding der with
  | Ok (JArr [JNum serial; JStr cn; JArr org; JNum nb; JNum na; JArr ku; JArr eku; JBool bcv; JBool ca; JArr dns; JStr pub; JStr signer]) =>
      Some ({| Raw := der; SerialNumber := serial; CommonName := cn; Organization := strings_of org;
               NotBefore := (nb * Second)%Z; NotAfter := (na * Second)%Z; KeyUsage := strings_of ku; ExtKeyUsage := strings_of eku;
               BasicConstraintsValid := bcv; IsCA := ca; DNSNames := strings_of dns; PublicKey := pub |}, signer)
  | _ => None
  end.

Definition simple_public (key : gostring) : gostring := "P" ++ key.

Definition simple_x509 : X509 := {|
  Key := gostring;
  Public := simple_public;
  x509_CreateCertificate nonce template parent pub key :=
    if bool_decide (pub = []) then Err (External "x509")
    else if negb (bool_decide (PublicKey parent = [])) && negb (bool_decide (PublicKey parent = simple_public key))
    then Err (External "x509: provided PrivateKey doesn't match parent's PublicKey")
    else Ok (@json_Marshal simple_encoding (fields_of template pub (simple_public key)));
  x509_ParseCertificate der :=
    match read_fields der with
    | Some (c, _) => Ok c
    | None => Err (External "x509")
    end;
  x509_checkSignature pub der :=
    match read_fields der with Some (_, signer) => bool_decide (signer = pub) | None => false end;
  x509_MarshalECPrivateKey key := Ok key;
  x509_ParseECPrivateKey der := Ok der;
  sha1_Sum der := der;
  pem_Encode t der := (if bool_decide (t = blockCertificate) then "C" else "K") ++ der;
  pem_Decode s :=
    match s with
    | c :: der => Some (if bool_decide (c = "C"%char) then blockCertificate else blockKey, der)
    | [] => None
    end;
|}.

Lemma second_floor t : (t / Second * Second <= t < t / Second * Second + Second)%Z.
Proof. unfold Second. pose proof (Z.mod_pos_bound t 1000000000). pose proof (Z.div_mod t 1000000000). lia. Qed.

Lemma strings_of_strings l : strings_of (JStr <$> l) = l.
Proof. unfold strings_of. induction l as [|x l IH]; [done|]. cbn [fmap list_fmap]. by rewrite IH. Qed.

Lemma read_fields_of c pub signer :
  exists c', read_fields (@json_Marshal simple_encoding (fields_of c pub signer)) = Some (c', signer) ∧
    PublicKey c' = pub ∧ made_from c c' pub.
Proof.
  unfold read_fields. assert (@json_Unmarshal simple_encoding (@json_Marshal simple_encoding (fields_of c pub signer)) =
    Ok (fields_of c pub signer)) as ->.
  { cbn [json_Unmarshal json_Marshal simple_encoding]. rewrite pos_of_bits_of_pos. cbn [mbind option_bind].
    by rewrite decode_encode, json_of_to_tree. }
  unfold fields_of. eexists. split; [reflexivity|]. split; [done|]. unfold made_from.
  cbn [SerialNumber CommonName Organization NotBefore NotAfter KeyUsage ExtKeyUsage BasicConstraintsValid IsCA DNSNames PublicKey].
  rewrite !strings_of_strings. split_and!; try done; apply second_floor.
Qed.

#[export] Instance simple_x509_laws : @X509Laws simple_x509.
Proof.
  split.
  - intros nonce template parent pub key der. cbn [x509_CreateCertificate simple_x509]. case_bool_decide as Hpub; [done|].
    destruct (_ && _) eqn:Hg; [done|]. intros Hd.
    assert (der = @json_Marshal simple_encoding (fields_of template pub (simple_public key))) as -> by congruence.
    destruct (read_fields_of template pub (simple_public key)) as (c' & Hc & Hpk & Hm). split; [|split].
    + intros Hp. apply andb_false_iff in Hg as [Hg|Hg]; boolify; [done|exact Hg].
    + cbn [x509_checkSignature simple_x509]. rewrite Hc. by apply bool_decide_eq_true_2.
    + exists c'. split; [|done]. cbn [x509_ParseCertificate simple_x509]. by rewrite Hc.
  - intros der cert. cbn [x509_ParseCertificate simple_x509]. destruct (read_fields der) as [[c signer]|] eqn:Ef; [|done].
    intros [= <-]. unfold read_fields in Ef. by repeat case_match; simplify_eq.
  - by intros key der [= ->].
  - done.
  - done.
Qed.
End simple_x509.

(** * Witnesses *)

Section certstore_witnesses.
#[local] Existing Instance simple_externals.
#[local] Existing Instance simple_x509.

Definition cert_config : CertConfig := {| Dir := "/certs"; StoreScope := "user" |}.
Definition root_draw : Draw := {| dKey := Ok ("k0" : gostring); dSerial := Ok 7%Z; dNonce := [] |}.
Definition site_draw : Draw := {| dKey := Ok ("k1" : gostring); dSerial := Ok 8%Z; dNonce := [] |}.
Definition no_certificates : World unit := {| files := ∅; faults := []; sys := tt |}.
Definition cert_now : Time := (100000 * Second)%Z.

(** The value of a computation that succeeds. *)
Definition value {A} (d : A) (r : result A) : A := match r with Ok a => a | Err _ => d end.

Lemma value_Ok {A B} (d : A) (rs : result A * B) : is_ok rs.1 = true -> rs = (Ok (value d rs.1), rs.2).
Proof. by destruct rs as [[a|e] s]. Qed.

Definition no_key : @Key simple_x509 := ([] : gostring).
Definition no_pair : Certificate * @Key simple_x509 := (rootTemplate 0 0%Z, no_key).
Definition no_site : TLSCertificate := {| Chain := []; PrivateKey := no_key; Leaf := rootTemplate 0 0%Z |}.

Definition first_root : result (Certificate * Key) * (Manager * World unit) :=
  ensureRootKeypairLocked root_draw cert_now (New cert_config, no_certificates).
Definition root_pair : Certificate * @Key simple_x509 := value no_pair first_root.1.

Lemma first_root_Ok : first_root = (Ok root_pair, (first_root.2.1, first_root.2.2)).
Proof. rewrite <-surjective_pairing. apply value_Ok. vm_compute. reflexivity. Qed.

Lemma root_persists_witness :
  ensureRootKeypairLocked site_draw cert_now (New cert_config, first_root.2.2) = (Ok root_pair, (first_root.2.1, first_root.2.2)).
Proof.
  destruct (root_persists root_draw cert_now cert_config no_certificates first_root.2.2 root_pair first_root.2.1 first_root_Ok)
    as [_ Hp].
  apply Hp; [by_decide|vm_compute; reflexivity].
Defined.

Definition first_site : result TLSCertificate * (Manager * World unit) :=
  Manager_Certificate root_draw site_draw cert_now "Store.Example.com" (New cert_config, no_certificates).
Definition site_certificate : TLSCertificate := value no_site first_site.1.

Lemma first_site_Ok : first_site = (Ok site_certificate, (first_site.2.1, first_site.2.2)).
Proof. rewrite <-surjective_pairing. apply value_Ok. vm_compute. reflexivity. Qed.

Lemma site_names : NormalizeHost "Store.Example.com" = Ok "store.example.com" ∧ NormalizeHost "store.example.com:443" = Ok "store.example.com".
Proof. split; vm_compute; reflexivity. Qed.

Lemma first_site_root root key : loaded first_site.2.1 = Some (root, key) -> PublicKey root = Public key.
Proof.
  assert ((fun ck => bool_decide (PublicKey ck.1 = Public ck.2)) <$> loaded first_site.2.1 = Some true) as Hb by (vm_compute; reflexivity).
  intros Hl. rewrite Hl in Hb. cbn [fmap option_fmap option_map fst snd] in Hb. apply (inj Some) in Hb. by boolify.
Qed.

Lemma certificate_sound_witness :
  exists root key, issued root key "store.example.com" site_certificate ∧ PublicKey root = Public key ∧
    Manager_Certificate root_draw root_draw (cert_now + 365 * 24 * Hour)%Z "store.example.com:443" (first_site.2.1, first_site.2.2)
      = (Ok site_certificate, (first_site.2.1, first_site.2.2)).
Proof.
  destruct (certificate_sound (unsupportedPlatform "linux") cert_config (New cert_config) root_draw site_draw cert_now "Store.Example.com"
    no_certificates first_site.2.2 site_certificate first_site.2.1 (managed_new _ _) first_site_Ok)
    as (h & root & key & Hn & Hroot & Hi & _ & Hl).
  destruct site_names as [Hn1 Hn2]. assert (h = "store.example.com") as -> by congruence.
  exists root, key. split; [exact Hi|]. split; [by apply first_site_root|].
  exact (Hl [] "store.example.com:443" root_draw root_draw (cert_now + 365 * 24 * Hour)%Z Hn2).
Defined.
End certstore_witnesses.
