(* ===== verification/WindowsCerts.v ===== *)
(** The certificate stores of Windows (src/internal/certstore/platform_windows.go): the
    local root is looked up, added and deleted through the certificate API, and through
    a PowerShell script when the API refuses.

    The system has a Root store of the machine and one of the user; a query of the
    user's store shows the certificates of the machine as well.  The calls of the API
    and of the scripts have their documented effect on these stores, and each may fail. *)
From stdpp Require Import strings.
From Stdlib Require Import Ascii.
From S2P Require Import Prelude GoStrings GoNet External World FilePath Config Base64 CertStore.

(** The certificates of the two stores, by their encoding. *)
Record RootStores := { machineRoot : list gostring; userRoot : list gostring }.

Inductive location :=
| LocalMachine
| CurrentUser.

Definition cryptENotFound : error := ErrorVar "certstore.cryptENotFound".
Definition ERROR_ACCESS_DENIED : error := ErrorVar "windows.ERROR_ACCESS_DENIED".

Definition CERT_SYSTEM_STORE_CURRENT_USER : Z := 0x10000.
Definition CERT_SYSTEM_STORE_LOCAL_MACHINE : Z := 0x20000.
Definition CERT_STORE_OPEN_EXISTING_FLAG : Z := 0x4000.
Definition CERT_STORE_READONLY_FLAG : Z := 0x8000.

Section windows.
Context `{X509} `{Externals} `{Encoding} `{FilePath}.

(** ** Names of the stores *)

Definition machine_scope (storeScope : gostring) : bool :=
  bool_decide (keyword storeScope ∈ [[]; CertStoreMachine; "local_machine"; "local-machine"]).
Definition user_scope (storeScope : gostring) : bool :=
  bool_decide (keyword storeScope ∈ [CertStoreUser; "current_user"; "current-user"]).

Definition windowsStoreLocation (storeScope : gostring) : result Z :=
  if machine_scope storeScope then Ok CERT_SYSTEM_STORE_LOCAL_MACHINE
  else if user_scope storeScope then Ok CERT_SYSTEM_STORE_CURRENT_USER
  else Err (Errorf "unsupported Windows cert store scope %q" [storeScope]).

Definition windowsStoreLabel (storeScope : gostring) : gostring :=
  if machine_scope storeScope then "LocalMachine"
  else if user_scope storeScope then "CurrentUser"
  else storeScope.

Definition isMachineStore (storeScope : gostring) : bool := machine_scope storeScope.

Definition windowsRootStoreOpenFlags (storeScope : gostring) (writable : bool) : result Z :=
  do location <- windowsStoreLocation storeScope;
  let flags := Z.lor location CERT_STORE_OPEN_EXISTING_FLAG in
  Ok (if writable then location else Z.lor flags CERT_STORE_READONLY_FLAG).

(** ** The certificate API *)

Definition no_wrap (e : error) : error := e.

(** The store that the flags of CertOpenStore choose. *)
Definition store_of (flags : Z) : location :=
  if (Z.land flags 0xFF0000 =? CERT_SYSTEM_STORE_LOCAL_MACHINE)%Z then LocalMachine else CurrentUser.

Definition visible (at_ : location) (s : RootStores) : list gostring :=
  match at_ with
  | LocalMachine => machineRoot s
  | CurrentUser => userRoot s ++ machineRoot s
  end.

(** Certificates are looked up by the SHA-1 sum of their encoding. *)
Definition with_sum (sum der : gostring) : Prop := sha1_Sum der = sum.
#[export] Instance with_sum_dec sum der : Decision (with_sum sum der) := decide (sha1_Sum der = sum).

Definition add_to (at_ : location) (der : gostring) (s : RootStores) : RootStores :=
  match at_ with
  | LocalMachine => {| machineRoot := machineRoot s ++ [der]; userRoot := userRoot s |}
  | CurrentUser => {| machineRoot := machineRoot s; userRoot := userRoot s ++ [der] |}
  end.

(** Without the certificates of the given sum, in one of the stores. *)
Definition remove_from (at_ : location) (sum : gostring) (s : RootStores) : RootStores :=
  let keep := filter (fun der => sha1_Sum der <> sum) in
  match at_ with
  | LocalMachine => {| machineRoot := keep (machineRoot s); userRoot := userRoot s |}
  | CurrentUser => {| machineRoot := machineRoot s; userRoot := keep (userRoot s) |}
  end.

(** An open store: which one, and whether it was opened for reading only.  The Root stores
    always exist, so asking for an existing one changes nothing. *)
Record RootHandle := { hLocation : location; hReadOnly : bool }.

Definition CertOpenStore (flags : Z) : IO RootStores RootHandle :=
  os_call no_wrap (io_ret {| hLocation := store_of flags; hReadOnly := negb (Z.land flags CERT_STORE_READONLY_FLAG =? 0)%Z |}).

Definition CertFindCertificateInStore (handle : RootHandle) (sum : gostring) : IO RootStores gostring :=
  os_call no_wrap (fun w =>
    match list_find (with_sum sum) (visible (hLocation handle) (sys w)) with
    | Some (_, der) => (Ok der, w)
    | None => (Err cryptENotFound, w)
    end).

Definition CertCreateCertificateContext (der : gostring) : IO RootStores gostring := os_call no_wrap (io_ret der).

(** A certificate that is there already is replaced; a store opened for reading refuses. *)
Definition CertAddCertificateContextToStore (handle : RootHandle) (der : gostring) : IO RootStores unit :=
  os_call no_wrap (fun w =>
    if hReadOnly handle then (Err ERROR_ACCESS_DENIED, w)
    else (Ok tt, set_sys (add_to (hLocation handle) der (remove_from (hLocation handle) (sha1_Sum der) (sys w))) w)).

(** The certificate that was found goes from the store that holds it. *)
Definition holder (handle : location) (sum : gostring) (s : RootStores) : location :=
  match handle, list_find (with_sum sum) (userRoot s) with
  | CurrentUser, Some _ => CurrentUser
  | _, _ => LocalMachine
  end.

Definition CertDeleteCertificateFromStore (handle : RootHandle) (der : gostring) : IO RootStores unit :=
  os_call no_wrap (fun w =>
    if hReadOnly handle then (Err ERROR_ACCESS_DENIED, w)
    else (Ok tt, set_sys (remove_from (holder (hLocation handle) (sha1_Sum der) (sys w)) (sha1_Sum der) (sys w)) w)).

(** ** PowerShell *)

(** utf16.Encode of the runes of a script of ASCII characters, little endian. *)
Definition utf16le (script : gostring) : gostring := flat_map (fun c => [c; chr 0]) script.

Definition powerShellEncodedCommand (script : gostring) : gostring := StdEncoding (utf16le script).

(** [run] is what the script does; a failing command has printed the partial contents of
    its failure. *)
Definition runPowerShellEncoded (run : IO RootStores unit) : IO RootStores unit := fun w =>
  match next_fault w with
  | (Some f, w') =>
      let text := TrimSpace (default [] (fault_partial f)) in
      (Err (if bool_decide (text = []) then fault_err f else Wrapf "%w: %s" [text] (fault_err f)), w')
  | (None, w') => run w'
  end.

(** [Enum]::Parse of the location, which ignores case. *)
Definition ParseStoreLocation (name : gostring) : option location :=
  if bool_decide (ToLower name = "localmachine") then Some LocalMachine
  else if bool_decide (ToLower name = "currentuser") then Some CurrentUser
  else None.

Definition script_error (what : gostring) : error := External what.

(** The script of installRootWithDotNetX509Store: the certificate of the file is added
    unless the store shows one with its thumbprint. *)
Definition installScript (certPath locationName : gostring) : IO RootStores unit := fun w =>
  if is_blank certPath then (Err (script_error "SITEBOOST_CERT_PATH is empty"), w)
  else if is_blank locationName then (Err (script_error "SITEBOOST_CERT_STORE_LOCATION is empty"), w)
  else match ParseStoreLocation locationName with
       | None => (Err (script_error "location"), w)
       | Some at_ =>
           match files w !! certPath ≫= pem_Decode with
           | None => (Err (script_error "certificate"), w)
           | Some (_, der) =>
               match list_find (with_sum (sha1_Sum der)) (visible at_ (sys w)) with
               | Some _ => (Ok tt, w)
               | None => (Ok tt, set_sys (add_to at_ der (sys w)) w)
               end
           end
       end.

(** The script of uninstallRootWithDotNetX509Store. *)
Definition uninstallScript (thumbprint locationName : gostring) : IO RootStores unit := fun w =>
  if is_blank thumbprint then (Err (script_error "SITEBOOST_CERT_THUMBPRINT is empty"), w)
  else if is_blank locationName then (Err (script_error "SITEBOOST_CERT_STORE_LOCATION is empty"), w)
  else match ParseStoreLocation locationName with
       | None => (Err (script_error "location"), w)
       | Some at_ =>
           let keep := filter (fun der => upper_hex (sha1_Sum der) <> thumbprint) in
           (Ok tt, set_sys match at_ with
                           | LocalMachine => {| machineRoot := keep (machineRoot (sys w)); userRoot := userRoot (sys w) |}
                           | CurrentUser => {| machineRoot := keep (machineRoot (sys w)); userRoot := keep (userRoot (sys w)) |}
                           end w)
       end.

Definition installRootWithDotNetX509Store (certPath storeScope : gostring) : IO RootStores unit :=
  if is_blank certPath then io_err (Errorf "certificate path is empty" [])
  else
    io absCertPath <- io_of (wrap_err "resolve certificate path: %w" [] (filepath_Abs certPath));
    runPowerShellEncoded (installScript absCertPath (windowsStoreLabel storeScope)).

Definition uninstallRootWithDotNetX509Store (thumbprint storeScope : gostring) : IO RootStores unit :=
  if is_blank thumbprint then io_err (Errorf "certificate thumbprint is empty" [])
  else runPowerShellEncoded (uninstallScript thumbprint (windowsStoreLabel storeScope)).

(** ** The platform *)

(** The texts of the errors that are quoted in others. *)
Context (text : error -> gostring).

(** The shape the two functions with fallbacks share: the script for the store, then, for
    the store of the machine, the script for the store of the user. *)
Definition with_fallbacks (script : gostring -> IO RootStores unit) (storeScope : gostring) (advice : bool) (cause : error)
  : IO RootStores unit :=
  try fallback <- script storeScope;
  match fallback with
  | Ok _ => io_ret tt
  | Err fallbackErr =>
      if isMachineStore storeScope then
        try user <- script CertStoreUser;
        match user with
        | Ok _ => io_ret tt
        | Err userErr =>
            if advice
            then io_err (Wrapf "%w; .NET X509Store fallback failed: %v; CurrentUser Root fallback failed: %v; rerun as Administrator or set cert.store_scope: user"
                           [text fallbackErr; text userErr] cause)
            else io_err (Wrapf "%w; .NET X509Store fallback failed: %v; CurrentUser Root fallback failed: %v" [text fallbackErr; text userErr] cause)
        end
      else io_err (Wrapf "%w; .NET X509Store fallback failed: %v" [text fallbackErr] cause)
  end.

Definition installRootWithFallbacks (certPath storeScope : gostring) (cause : error) : IO RootStores unit :=
  with_fallbacks (installRootWithDotNetX509Store certPath) storeScope (errors_Is cause ERROR_ACCESS_DENIED) cause.

Definition uninstallRootWithFallbacks (thumbprint storeScope : gostring) (cause : error) : IO RootStores unit :=
  with_fallbacks (uninstallRootWithDotNetX509Store thumbprint) storeScope false cause.

Definition openRootStore (storeScope : gostring) (writable : bool) : IO RootStores RootHandle :=
  io flags <- io_of (windowsRootStoreOpenFlags storeScope writable);
  io_wrap "open %s Root certificate store: %w" [windowsStoreLabel storeScope] (CertOpenStore flags).

Definition certificateContext (cert : Certificate) : IO RootStores gostring :=
  if bool_decide (Raw cert = []) then io_err (Errorf "certificate DER is empty" [])
  else io_wrap "create certificate context: %w" [] (CertCreateCertificateContext (Raw cert)).

Definition findCertBySHA1 (store : RootHandle) (cert : Certificate) : IO RootStores gostring :=
  io_wrap "find root CA by thumbprint: %w" [] (CertFindCertificateInStore store (sha1_Sum (Raw cert))).

Definition windowsIsInstalled (cert : Certificate) (certPath storeScope : gostring) : IO RootStores bool :=
  io store <- openRootStore storeScope false;
  try found <- findCertBySHA1 store cert;
  match found with
  | Ok _ => io_ret true
  | Err e => if errors_Is e cryptENotFound then io_ret false else io_err e
  end.

Definition windowsInstall (cert : Certificate) (certPath storeScope : gostring) : IO RootStores unit :=
  try opened <- openRootStore storeScope true;
  match opened with
  | Err e => installRootWithFallbacks certPath storeScope e
  | Ok store =>
      io certCtx <- certificateContext cert;
      try added <- CertAddCertificateContextToStore store certCtx;
      match added with
      | Ok _ => io_ret tt
      | Err e =>
          installRootWithFallbacks certPath storeScope
            (Wrapf "install root CA in %s Root store with Windows certificate store API: %w" [windowsStoreLabel storeScope] e)
      end
  end.

Definition windowsUninstall (cert : Certificate) (storeScope : gostring) : IO RootStores unit :=
  try opened <- openRootStore storeScope true;
  match opened with
  | Err e =>
      try fallback <- uninstallRootWithDotNetX509Store (Thumbprint cert) storeScope;
      match fallback with
      | Ok _ => io_ret tt
      | Err fallbackErr => io_err (Wrapf "%w; .NET X509Store fallback failed: %v" [text fallbackErr] e)
      end
  | Ok store =>
      try found <- findCertBySHA1 store cert;
      match found with
      | Err e => if errors_Is e cryptENotFound then io_ret tt else io_err e
      | Ok certCtx =>
          try deleted <- CertDeleteCertificateFromStore store certCtx;
          match deleted with
          | Ok _ => io_ret tt
          | Err e =>
              uninstallRootWithFallbacks (Thumbprint cert) storeScope
                (Wrapf "uninstall root CA from %s Root store with Windows certificate store API: %w" [windowsStoreLabel storeScope] e)
          end
      end
  end.

Definition windowsPlatform : Platform RootStores := {|
  PName := "windows";
  PIsInstalled := windowsIsInstalled;
  PInstall := windowsInstall;
  PUninstall := windowsUninstall;
|}.
End windows.

(** * Properties *)

Section windows_properties.
Context `{X509} `{!X509Laws} `{Externals} `{Encoding} `{FilePath} (text : error -> gostring).

(** A scope that names one of the two stores. *)
Definition scope_known (storeScope : gostring) : Prop := machine_scope storeScope = true ∨ user_scope storeScope = true.

Definition location_of (storeScope : gostring) : location := if machine_scope storeScope then LocalMachine else CurrentUser.

Definition handle_of (storeScope : gostring) (writable : bool) : RootHandle :=
  {| hLocation := location_of storeScope; hReadOnly := negb writable |}.

Lemma openRootStore_eq storeScope writable :
  scope_known storeScope ->
  openRootStore storeScope writable =
    io_bind (io_ret (if writable then 0%Z else 1%Z)) (fun _ =>
      io_wrap "open %s Root certificate store: %w" [windowsStoreLabel storeScope] (os_call no_wrap (io_ret (handle_of storeScope writable)))).
Proof.
  intros Hs. unfold openRootStore, windowsRootStoreOpenFlags, windowsStoreLocation, handle_of, location_of, CertOpenStore.
  destruct (machine_scope storeScope) eqn:Em; [by destruct writable|].
  destruct Hs as [Hs|Hs]; [congruence|]. rewrite Hs. by destruct writable.
Qed.

Lemma openRootStore_healthy storeScope writable w :
  scope_known storeScope -> faults w = [] -> openRootStore storeScope writable w = (Ok (handle_of storeScope writable), w).
Proof. intros Hs Hf. rewrite openRootStore_eq by done. unfold io_bind, io_ret, io_wrap. by rewrite os_call_healthy. Qed.

(** A lookup that runs. *)
Definition found (at_ : location) (cert : Certificate) (s : RootStores) : result gostring :=
  match list_find (with_sum (sha1_Sum (Raw cert))) (visible at_ s) with
  | Some (_, der) => Ok der
  | None => Err (Wrapf "find root CA by thumbprint: %w" [] cryptENotFound)
  end.

Lemma find_healthy h cert w : faults w = [] -> findCertBySHA1 h cert w = (found (hLocation h) cert (sys w), w).
Proof.
  intros Hf. unfold findCertBySHA1, io_wrap, CertFindCertificateInStore, found. rewrite os_call_healthy by done.
  by destruct (list_find _ _) as [[i der]|].
Qed.

Lemma find_next h cert w rest :
  faults w = None :: rest -> findCertBySHA1 h cert w = (found (hLocation h) cert (sys w), with_faults rest w).
Proof.
  intros Hf. unfold findCertBySHA1, io_wrap, CertFindCertificateInStore, found. rewrite (os_call_next _ _ _ rest Hf). cbn [sys with_faults].
  by destruct (list_find _ _) as [[i der]|].
Qed.

(** A certificate with this sum is shown by the store of the scope. *)
Definition trusted (storeScope sum : gostring) (s : RootStores) : Prop :=
  exists der, der ∈ visible (location_of storeScope) s ∧ sha1_Sum der = sum.

Lemma windowsIsInstalled_healthy cert path storeScope w :
  scope_known storeScope -> faults w = [] ->
  exists b, windowsIsInstalled cert path storeScope w = (Ok b, w) ∧ (b = true <-> trusted storeScope (sha1_Sum (Raw cert)) (sys w)).
Proof.
  intros Hs Hf. unfold windowsIsInstalled, io_bind. rewrite openRootStore_healthy by done. unfold io_try. rewrite find_healthy by done. unfold found.
  destruct (list_find _ _) as [[i der]|] eqn:Ef.
  - exists true. split; [done|]. split; [intros _|done]. apply list_find_Some in Ef as (Hi & Hd & _).
    exists der. split; [by eapply list_elem_of_lookup_2|done].
  - exists false. split; [done|]. split; [done|]. intros (der & Hin & Hd). exfalso.
    apply list_find_None in Ef. rewrite Forall_forall in Ef. by apply (Ef der).
Qed.

Lemma windowsInstall_healthy cert path storeScope w w' :
  scope_known storeScope -> faults w = [] -> windowsInstall text cert path storeScope w = (Ok tt, w') ->
  let at_ := location_of storeScope in
  w' = set_sys (add_to at_ (Raw cert) (remove_from at_ (sha1_Sum (Raw cert)) (sys w))) w.
Proof.
  intros Hs Hf. unfold windowsInstall, io_try at 1. rewrite openRootStore_healthy by done.
  unfold io_bind, certificateContext. case_bool_decide as Hr; [done|]. unfold io_wrap, CertCreateCertificateContext.
  rewrite os_call_healthy by done. cbn. unfold io_try, CertAddCertificateContextToStore. rewrite os_call_healthy by done.
  by intros [= <-].
Qed.

Lemma remove_absent sum l : Forall (fun der => sha1_Sum der <> sum) l -> filter (fun der => sha1_Sum der <> sum) l = l.
Proof. induction 1 as [|x l Hx Hl IH]; [done|]. rewrite filter_cons, decide_True by done. by rewrite IH. Qed.

(** Adding a certificate the stores do not show, and removing it, is the identity. *)
Lemma add_remove storeScope der s :
  ~ trusted storeScope (sha1_Sum der) s ->
  let at_ := location_of storeScope in
  let s' := add_to at_ der (remove_from at_ (sha1_Sum der) s) in
  trusted storeScope (sha1_Sum der) s' ∧ remove_from (holder at_ (sha1_Sum der) s') (sha1_Sum der) s' = s.
Proof.
  unfold trusted. generalize (location_of storeScope) as at_. intros at_ Hn. cbn zeta.
  assert (Forall (fun d => sha1_Sum d <> sha1_Sum der) (visible at_ s)) as Hall.
  { apply Forall_forall. intros d Hd He. apply Hn. by exists d. }
  destruct s as [mr ur], at_; cbn in *.
  - rewrite remove_absent by done. split.
    + exists der. split; [set_solver|done].
    + f_equal. rewrite filter_app, remove_absent by done. cbn. rewrite decide_False by tauto. apply app_nil_r.
  - apply Forall_app in Hall as [Hu Hm]. rewrite remove_absent by done. split.
    + exists der. split; [set_solver|done].
    + unfold holder. cbn. destruct (list_find (with_sum (sha1_Sum der)) (ur ++ [der])) as [p|] eqn:Ef.
      * cbn. f_equal. rewrite filter_app, remove_absent by done. cbn. rewrite decide_False by tauto. apply app_nil_r.
      * exfalso. apply list_find_None in Ef. rewrite Forall_app in Ef. destruct Ef as [_ Ef]. inversion Ef as [|? ? Hx]. by apply Hx.
Qed.

Lemma windowsUninstall_healthy cert storeScope w :
  scope_known storeScope -> faults w = [] -> trusted storeScope (sha1_Sum (Raw cert)) (sys w) ->
  let at_ := location_of storeScope in
  windowsUninstall text cert storeScope w =
    (Ok tt, set_sys (remove_from (holder at_ (sha1_Sum (Raw cert)) (sys w)) (sha1_Sum (Raw cert)) (sys w)) w).
Proof.
  intros Hs Hf (der & Hin & Hd). unfold windowsUninstall, io_try at 1. rewrite openRootStore_healthy by done.
  unfold io_try at 1. rewrite find_healthy by done. unfold found.
  destruct (list_find _ _) as [[i d]|] eqn:Ef.
  - apply list_find_Some in Ef as (_ & He & _). unfold with_sum in He. unfold io_try, CertDeleteCertificateFromStore. rewrite os_call_healthy by done.
    by rewrite He.
  - exfalso. apply list_find_None in Ef. rewrite Forall_forall in Ef. by apply (Ef der).
Qed.

(** C22: where no call fails, trusting the root makes it trusted, says correctly whether
    anything changed, and untrusting it afterwards puts the stores of the system back
    exactly as they were. *)
Theorem trust_roundtrip d now cfg (w w1 : World RootStores) r m1 :
  faults w = [] -> scope_known (StoreScope (mcfg (New cfg))) ->
  EnsureTrusted (windowsPlatform text) d now (New cfg, w) = (Ok r, (m1, w1)) ->
  IsInstalled (windowsPlatform text) (m1, w1) = (Ok true, (m1, w1)) ∧
  TAlreadyTrusted r = negb (TInstalled r) ∧ TChanged r = TInstalled r ∧
  (TAlreadyTrusted r = true -> sys w1 = sys w) ∧
  (TInstalled r = true -> Uninstall (windowsPlatform text) (m1, w1) = (Ok tt, (m1, set_sys (sys w) w1))).
Proof.
  intros Hf Hs He. unfold EnsureTrusted in He. change (bool_decide (PName (windowsPlatform text) = "windows")) with true in He.
  cbn [negb] in He. apply io_bind_Ok in He as (cert & [m2 w2] & Hroot & He). apply io_bind_Ok in Hroot as (ck & s2 & Hen & Hroot).
  injection Hroot as <- ->. pose proof (ensure_Ok_loaded _ _ _ _ _ Hen) as Hl. cbn [fst] in Hl.
  destruct (ensure_calm d now (New cfg, w) Hf) as [Hf2 Hsys]. pose proof (ensure_grows d now (New cfg, w)) as (Hcfg & _).
  rewrite Hen in Hf2, Hsys, Hcfg. cbn [fst snd] in *. rewrite <-Hcfg in Hs.
  unfold io_bind at 1, get in He. cbn [fst snd] in He. apply io_bind_Ok in He as (installed & s3 & Hinst & He).
  unfold lift in Hinst. cbn [fst snd PIsInstalled windowsPlatform] in Hinst.
  destruct (windowsIsInstalled_healthy ck.1 (RootCertPath m2) (StoreScope (mcfg m2)) w2 Hs Hf2) as (b & Hb & Ht).
  rewrite Hb in Hinst. injection Hinst as <- <-.
  assert (Hagain : forall w', faults w' = [] -> trusted (StoreScope (mcfg m2)) (sha1_Sum (Raw ck.1)) (sys w') ->
    windowsIsInstalled ck.1 (RootCertPath m2) (StoreScope (mcfg m2)) w' = (Ok true, w')).
  { intros w' Hf' Ht'. destruct (windowsIsInstalled_healthy ck.1 (RootCertPath m2) (StoreScope (mcfg m2)) w' Hs Hf') as (b' & Hb' & Hiff).
    rewrite Hb'. by rewrite (proj2 Hiff Ht'). }
  assert (Hquery : forall w', faults w' = [] -> trusted (StoreScope (mcfg m2)) (sha1_Sum (Raw ck.1)) (sys w') ->
    IsInstalled (windowsPlatform text) (m2, w') = (Ok true, (m2, w'))).
  { intros w' Hf' Ht'. unfold IsInstalled. change (bool_decide (PName (windowsPlatform text) = "windows")) with true. cbn [negb].
    unfold io_try, loadRootCA, io_bind at 1. rewrite (load_loaded m2 ck w' Hl). unfold io_bind, get, lift, io_ret.
    cbn [fst snd PIsInstalled windowsPlatform]. by rewrite Hagain. }
  destruct b.
  - injection He as <- <- <-. cbn. split; [apply Hquery; [done|by apply Ht]|]. by split_and!.
  - apply io_bind_Ok in He as ([] & s4 & Hinst & He). unfold lift in Hinst. cbn [fst snd PInstall windowsPlatform] in Hinst.
    destruct (windowsInstall text _ _ _ w2) as [r3 w3] eqn:E3. injection Hinst as -> <-.
    apply windowsInstall_healthy in E3; [|done..]. injection He as <- <- <-. cbn [TAlreadyTrusted TInstalled TChanged negb].
    assert (Hn : ~ trusted (StoreScope (mcfg m2)) (sha1_Sum (Raw ck.1)) (sys w2)) by (intros Hn; by apply Ht in Hn).
    destruct (add_remove _ _ _ Hn) as [Htr Hback]. rewrite E3.
    split; [apply Hquery; [done|exact Htr]|]. split_and!; [done..|]. intros _.
    unfold Uninstall. change (bool_decide (PName (windowsPlatform text) = "windows")) with true. cbn [negb].
    unfold loadRootCA, io_bind at 1, io_bind at 1. rewrite (load_loaded m2 ck _ Hl). unfold io_bind, get, lift, io_ret.
    cbn [fst snd PIsInstalled PUninstall windowsPlatform]. rewrite Hagain by done. cbn [negb fst snd].
    rewrite windowsUninstall_healthy by done. cbn [sys set_sys] in *. rewrite Hback, <-Hsys. done.
Qed.

(** ** No files *)

Lemma script_files (k : IO RootStores unit) : moves same_files k -> moves same_files (runPowerShellEncoded k).
Proof.
  intros Hk w. unfold runPowerShellEncoded. pose proof (next_fault_files w) as Hn. destruct (next_fault w) as [[f|] w1]; cbn in *; [done|].
  etrans; [exact Hn|apply Hk].
Qed.

Lemma install_script_files path scope : moves same_files (installRootWithDotNetX509Store path scope).
Proof.
  unfold installRootWithDotNetX509Store. destruct (is_blank path); [done|]. apply moves_bind; [apply _|done|intros abs].
  apply script_files. intros w. unfold installScript. by repeat case_match.
Qed.

Lemma uninstall_script_files thumbprint scope : moves same_files (uninstallRootWithDotNetX509Store thumbprint scope).
Proof.
  unfold uninstallRootWithDotNetX509Store. destruct (is_blank thumbprint); [done|].
  apply script_files. intros w. unfold uninstallScript. by repeat case_match.
Qed.

Lemma fallbacks_files script scope advice cause :
  (forall sc, moves same_files (script sc)) -> moves same_files (with_fallbacks text script scope advice cause).
Proof.
  intros Hs. unfold with_fallbacks. apply moves_try; [apply _|apply Hs|intros [|e]; [done|]].
  destruct (isMachineStore scope); [|done]. apply moves_try; [apply _|apply Hs|intros [|e']; [done|by destruct advice]].
Qed.

Lemma api_files {A} (k : IO RootStores A) : moves same_files k -> moves same_files (os_call no_wrap k).
Proof. intros Hk. apply os_call_moves; [apply _|apply next_fault_files|done]. Qed.

Lemma open_files scope writable : moves same_files (openRootStore scope writable).
Proof. unfold openRootStore. apply moves_bind; [apply _|done|intros flags]. by apply moves_wrap, api_files. Qed.

Lemma find_files store cert : moves same_files (findCertBySHA1 store cert).
Proof. apply moves_wrap, api_files. intros w. by destruct (list_find _ _) as [[]|]. Qed.

(** The platform works on the stores and writes no file. *)
#[export] Instance windows_quiet : QuietCerts (windowsPlatform text).
Proof.
  split; cbn; [intros cert path scope..|intros cert scope].
  - apply moves_bind; [apply _|apply open_files|intros store]. apply moves_try; [apply _|apply find_files|].
    intros [|e]; [done|]. by destruct (errors_Is e cryptENotFound).
  - apply moves_try; [apply _|apply open_files|intros [store|e]; [|apply fallbacks_files, install_script_files]].
    apply moves_bind; [apply _| |intros der].
    { unfold certificateContext. case_bool_decide; [done|]. by apply moves_wrap, api_files. }
    apply moves_try; [apply _|apply api_files; intros w; by destruct (hReadOnly store)|intros [|e]; [done|]]. apply fallbacks_files, install_script_files.
  - apply moves_try; [apply _|apply open_files|intros [store|e]].
    + apply moves_try; [apply _|apply find_files|intros [der|e]; [|by destruct (errors_Is e cryptENotFound)]].
      apply moves_try; [apply _|apply api_files; intros w; by destruct (hReadOnly store)|intros [|e]; [done|]]. apply fallbacks_files, uninstall_script_files.
    + apply moves_try; [apply _|apply uninstall_script_files|by intros [|]].
Qed.

(** ** The store of the user *)

Lemma run_failed k f rest w :
  faults w = Some f :: rest -> exists e, runPowerShellEncoded k w = (Err e, with_faults rest w).
Proof. intros Hf. unfold runPowerShellEncoded, next_fault. rewrite Hf. by eexists. Qed.

(** The script adds the certificate of the file to the store of the user. *)
Lemma installScript_user abs der w :
  is_blank abs = false -> files w !! abs = Some (pem_Encode blockCertificate der) ->
  ~ trusted CertStoreUser (sha1_Sum der) (sys w) ->
  installScript abs (windowsStoreLabel CertStoreUser) w = (Ok tt, set_sys (add_to CurrentUser der (sys w)) w).
Proof.
  intros Ha Hf Hn. unfold installScript. rewrite Ha. change (windowsStoreLabel CertStoreUser) with ("CurrentUser" : gostring).
  change (is_blank "CurrentUser") with false. change (ParseStoreLocation "CurrentUser") with (Some CurrentUser). cbn iota.
  rewrite Hf. cbn [mbind option_bind]. rewrite pem_certificate.
  destruct (list_find (with_sum (sha1_Sum der)) (visible CurrentUser (sys w))) as [[i d]|] eqn:Ef; [|done].
  exfalso. apply list_find_Some in Ef as (Hi & Hd & _). apply Hn. exists d. split; [by eapply list_elem_of_lookup_2|done].
Qed.

Lemma not_trusted_found storeScope cert s :
  ~ trusted storeScope (sha1_Sum (Raw cert)) s ->
  found (location_of storeScope) cert s = Err (Wrapf "find root CA by thumbprint: %w" [] cryptENotFound).
Proof.
  intros Hn. unfold found. destruct (list_find _ _) as [[i d]|] eqn:Ef; [|done].
  exfalso. apply list_find_Some in Ef as (Hi & Hd & _). apply Hn. exists d. split; [by eapply list_elem_of_lookup_2|done].
Qed.

(** When the store of the machine cannot be opened and its script fails too, the
    root is installed for the user and reported as installed; from then on the program
    holds it for not installed, and uninstalling reports success and leaves it trusted. *)
Theorem user_fallback_outlives_uninstall d now m c k abs deny failure (w : World RootStores) :
  loaded m = Some (c, k) -> isMachineStore (StoreScope (mcfg m)) = true ->
  is_blank (RootCertPath m) = false -> filepath_Abs (RootCertPath m) = Ok abs -> is_blank abs = false ->
  files w !! abs = Some (pem_Encode blockCertificate (Raw c)) ->
  ~ trusted CertStoreUser (sha1_Sum (Raw c)) (sys w) ->
  faults w = [None; None; Some deny; Some failure] ->
  exists r w1, EnsureTrusted (windowsPlatform text) d now (m, w) = (Ok r, (m, w1)) ∧ TInstalled r = true ∧
    sys w1 = add_to CurrentUser (Raw c) (sys w) ∧
    IsInstalled (windowsPlatform text) (m, w1) = (Ok false, (m, w1)) ∧
    Uninstall (windowsPlatform text) (m, w1) = (Ok tt, (m, w1)).
Proof.
  intros Hl Hm Hp Habs Hab Hfile Hn Hf.
  assert (Hscope : scope_known (StoreScope (mcfg m))) by by left.
  assert (Hloc : location_of (StoreScope (mcfg m)) = LocalMachine) by (unfold location_of, isMachineStore in *; by rewrite Hm).
  assert (Hmachine : forall s, machineRoot s = machineRoot (sys w) -> ~ trusted (StoreScope (mcfg m)) (sha1_Sum (Raw c)) s).
  { intros s Hs (der & Hin & Hd). apply Hn. exists der. split; [|done]. rewrite Hloc in Hin. cbn in Hin. rewrite Hs in Hin.
    change (location_of CertStoreUser) with CurrentUser. cbn. set_solver. }
  pose (w4 := with_faults [] w). pose (w5 := set_sys (add_to CurrentUser (Raw c) (sys w)) w4).
  assert (Hquery : windowsIsInstalled c (RootCertPath m) (StoreScope (mcfg m)) w = (Ok false, with_faults [Some deny; Some failure] w)).
  { unfold windowsIsInstalled. rewrite openRootStore_eq by done. unfold io_bind, io_ret, io_wrap at 1.
    rewrite (os_call_next _ _ _ _ Hf). cbn. unfold io_try. erewrite find_next by done.
    cbn [hLocation handle_of]. rewrite not_trusted_found; [done|]. by apply Hmachine. }
  assert (Hinstall : windowsInstall text c (RootCertPath m) (StoreScope (mcfg m)) (with_faults [Some deny; Some failure] w) = (Ok tt, w5)).
  { unfold windowsInstall, io_try at 1. rewrite openRootStore_eq by done. unfold io_bind, io_ret, io_wrap at 1.
    erewrite os_call_fails by done. cbn [wrap_err]. unfold installRootWithFallbacks, with_fallbacks, io_try at 1.
    unfold installRootWithDotNetX509Store at 1. rewrite Hp, Habs. unfold io_bind, io_of at 1. cbn [wrap_err].
    edestruct (run_failed (installScript abs (windowsStoreLabel (StoreScope (mcfg m))))) as [e He]; [|rewrite He]; [done|].
    rewrite Hm. unfold io_try, installRootWithDotNetX509Store. rewrite Hp, Habs. unfold io_bind, io_of. cbn [wrap_err].
    unfold runPowerShellEncoded. rewrite next_fault_healthy by done. by rewrite (installScript_user abs (Raw c)). }
  assert (Hafter : windowsIsInstalled c (RootCertPath m) (StoreScope (mcfg m)) w5 = (Ok false, w5)).
  { destruct (windowsIsInstalled_healthy c (RootCertPath m) (StoreScope (mcfg m)) w5 Hscope eq_refl) as (b & Hb & Hiff).
    rewrite Hb. destruct b; [|done]. exfalso. apply (Hmachine (sys w5)); [done|by apply Hiff]. }
  assert (Hwin : bool_decide (PName (windowsPlatform text) = "windows") = true) by reflexivity.
  eexists _, w5. split; [|split; [|split; [|split]]].
  - unfold EnsureTrusted, EnsureRootCA. rewrite Hwin. cbn [negb]. unfold io_bind, io_ret. rewrite (ensure_loaded d now m (c, k) w Hl).
    unfold get, lift. cbn [fst snd PIsInstalled PInstall windowsPlatform]. rewrite Hquery. cbn [fst snd]. rewrite Hinstall. reflexivity.
  - reflexivity.
  - reflexivity.
  - unfold IsInstalled, loadRootCA. rewrite Hwin. cbn [negb]. unfold io_try, io_bind, io_ret. rewrite (load_loaded m (c, k) w5 Hl).
    unfold get, lift. cbn [fst snd PIsInstalled windowsPlatform]. by rewrite Hafter.
  - unfold Uninstall, loadRootCA. rewrite Hwin. cbn [negb]. unfold io_bind, io_ret. rewrite (load_loaded m (c, k) w5 Hl).
    unfold get, lift. cbn [fst snd PIsInstalled windowsPlatform]. by rewrite Hafter.
Qed.
End windows_properties.

(** * Witnesses *)

Section windows_cert_witnesses.
#[local] Existing Instance simple_externals.
#[local] Existing Instance simple_x509.
#[local] Existing Instance simple_encoding.

Definition quoted (e : error) : gostring := [].
Definition no_roots : RootStores := {| machineRoot := []; userRoot := [] |}.
Definition fresh_windows : World RootStores := {| files := ∅; faults := []; sys := no_roots |}.

Definition first_trust : result TrustResult * (Manager * World RootStores) :=
  EnsureTrusted (windowsPlatform quoted) root_draw cert_now (New cert_config, fresh_windows).
Definition no_trust : TrustResult :=
  {| TPlatform := []; TCertPath := []; TThumbprint := []; TStoreScope := []; TAlreadyTrusted := false; TInstalled := false;
     TChanged := false; TViaHelper := false |}.
Definition trust_result : TrustResult := value no_trust first_trust.1.

Lemma first_trust_Ok : first_trust = (Ok trust_result, (first_trust.2.1, first_trust.2.2)).
Proof. rewrite <-surjective_pairing. apply value_Ok. vm_compute. reflexivity. Qed.

Lemma first_trust_installed : TInstalled trust_result = true.
Proof. vm_compute. reflexivity. Qed.

Lemma user_known : scope_known (StoreScope (mcfg (New cert_config))).
Proof. right. vm_compute. reflexivity. Qed.

Lemma trust_roundtrip_witness :
  Uninstall (windowsPlatform quoted) (first_trust.2.1, first_trust.2.2) =
    (Ok tt, (first_trust.2.1, set_sys no_roots first_trust.2.2)).
Proof.
  destruct (trust_roundtrip quoted root_draw cert_now cert_config fresh_windows first_trust.2.2 trust_result first_trust.2.1
    eq_refl user_known first_trust_Ok) as (_ & _ & _ & _ & Hu).
  exact (Hu first_trust_installed).
Defined.

Definition machine_config : CertConfig := {| Dir := "/certs"; StoreScope := "machine" |}.
Definition machine_manager : Manager := with_root root_pair.1 root_pair.2 (New machine_config).
Definition failed_call : fault := {| fault_err := ERROR_ACCESS_DENIED; fault_partial := None |}.

(** The store of the machine cannot be opened, and its script fails. *)
Definition denied_windows : World RootStores :=
  {| files := <[RootCertPath machine_manager := pem_Encode blockCertificate (Raw root_pair.1)]> ∅;
     faults := [None; None; Some failed_call; Some failed_call]; sys := no_roots |}.

Lemma no_roots_untrusted scope sum : ~ trusted scope sum no_roots.
Proof. intros (der & Hin & _). destruct (location_of scope); by apply elem_of_nil in Hin. Qed.

Lemma machine_path : is_blank (RootCertPath machine_manager) = false ∧ filepath_Abs (RootCertPath machine_manager) = Ok (RootCertPath machine_manager).
Proof. split; vm_compute; reflexivity. Qed.

Lemma machine_scoped : isMachineStore (StoreScope (mcfg machine_manager)) = true.
Proof. vm_compute. reflexivity. Qed.

Lemma machine_loaded : loaded machine_manager = Some (root_pair.1, root_pair.2).
Proof. apply loaded_with_root. Qed.

Lemma user_fallback_outlives_uninstall_witness :
  exists w1, userRoot (sys w1) = [Raw root_pair.1] ∧
    Uninstall (windowsPlatform quoted) (machine_manager, w1) = (Ok tt, (machine_manager, w1)).
Proof.
  destruct (user_fallback_outlives_uninstall quoted root_draw cert_now machine_manager root_pair.1 root_pair.2
    (RootCertPath machine_manager) failed_call failed_call denied_windows
    machine_loaded machine_scoped (proj1 machine_path) (proj2 machine_path) (proj1 machine_path) (lookup_insert_eq _ _ _)
    (no_roots_untrusted _ _) eq_refl)
    as (r & w1 & _ & _ & Hs & _ & Hu).
  exists w1. split; [rewrite Hs; reflexivity|exact Hu].
Defined.
End windows_cert_witnesses.
