(* ===== verification/Privilege.v ===== *)
(** Privileged operations (src/internal/privilege/privilege.go and io.go): the checks
    on a request to the elevated helper and to the service, its execution, and the
    choice between acting directly and asking the helper.

    The certificate store, the transport of requests to the helper and the encoding of
    requests and responses are parameters. *)
From stdpp Require Import strings.
From Stdlib Require Import Ascii.
From S2P Require Import Prelude GoStrings GoNet External World FilePath Config.
From S2P Require Hosts SystemDns.
From S2P Require Import CertStore.

Definition helperVersion : Z := 1.

Definition CommandPrepareHostsStart : gostring := "prepare-hosts-start".
Definition CommandTrustRootCA : gostring := "trust-root-ca".
Definition CommandUntrustRootCA : gostring := "untrust-root-ca".
Definition CommandRestoreHosts : gostring := "restore-hosts".
Definition CommandPreflightSystemDNS : gostring := "preflight-system-dns".
Definition CommandApplySystemDNS : gostring := "apply-system-dns".
Definition CommandRestoreSystemDNS : gostring := "restore-system-dns".
Definition CommandAppHostHealth : gostring := "apphost-health".

Record HelperRequest := {
  Version : Z;
  Token : gostring;
  ParentPID : Z;
  Command : gostring;
  Cert : CertConfig;
  ReqHosts : Hosts.Config;
  SystemDNS : SystemDns.DNSSettings;
  RollbackPath : gostring;
  AutoInstall : bool;
}.

Record PrepareHostsResult := { PCert : TrustResult; PCertTrusted : bool; PEntries : nat }.

Record HelperResponse := {
  OK : bool;
  Error : gostring;
  Trust : option TrustResult;
  Prepare : option PrepareHostsResult;
  RespDNS : option SystemDns.Result;
}.

Definition succeeded : HelperResponse :=
  {| OK := true; Error := []; Trust := None; Prepare := None; RespDNS := None |}.
Definition refused (msg : gostring) : HelperResponse :=
  {| OK := false; Error := msg; Trust := None; Prepare := None; RespDNS := None |}.

Definition trust_via_helper (t : TrustResult) : TrustResult :=
  {| TPlatform := TPlatform t; TCertPath := TCertPath t; TThumbprint := TThumbprint t; TStoreScope := TStoreScope t;
     TAlreadyTrusted := TAlreadyTrusted t; TInstalled := TInstalled t; TChanged := TChanged t; TViaHelper := true |}.
Definition prepare_via_helper (p : PrepareHostsResult) : PrepareHostsResult :=
  {| PCert := trust_via_helper (PCert p); PCertTrusted := PCertTrusted p; PEntries := PEntries p |}.
Definition dns_via_helper (r : SystemDns.Result) : SystemDns.Result :=
  {| SystemDns.RInterfaces := SystemDns.RInterfaces r; SystemDns.RServerIPs := SystemDns.RServerIPs r;
     SystemDns.RViaHelper := true |}.

(** * Paths *)

Section paths.
Context `{Externals} `{Encoding} `{FilePath}.

Definition on_windows : bool := bool_decide (GOOS = "windows").

Definition samePath (a b : gostring) : bool :=
  let aa := filepath_Clean (match filepath_Abs a with Ok x => x | Err _ => a end) in
  let bb := filepath_Clean (match filepath_Abs b with Ok x => x | Err _ => b end) in
  if on_windows then EqualFold aa bb else bool_decide (aa = bb).

Definition isUnderOrEqual (path base : gostring) : bool :=
  match filepath_Abs path with
  | Err _ => false
  | Ok absPath =>
      match filepath_Abs base with
      | Err _ => false
      | Ok absBase =>
          let fold s := if on_windows then ToLower s else s in
          let absPath := fold (filepath_Clean absPath) in
          let absBase := fold (filepath_Clean absBase) in
          if bool_decide (absPath = absBase) then true
          else match filepath_Rel absBase absPath with
               | Err _ => false
               | Ok rel => negb (bool_decide (rel = "..")) && negb (HasPrefix rel (dotdot ++ [PathSeparator]))
               end
      end
  end.

Definition splitPath (path : gostring) : list gostring :=
  let vol := filepath_VolumeName path in
  let path := if bool_decide (vol = []) then path else TrimPrefix path vol in
  let path := Trim path [PathSeparator] in
  if bool_decide (path = []) then [] else Split path PathSeparator.

Definition project : gostring := "steam-accelerator-core".

(** The elements from the last one with the name of the project on. *)
Fixpoint from_project (parts : list gostring) : option (list gostring) :=
  match parts with
  | [] => None
  | p :: ps => match from_project ps with
               | Some found => Some found
               | None => if EqualFold p project then Some parts else None
               end
  end.

Definition projectPathSuffix (path : gostring) : list gostring :=
  let parts := splitPath (filepath_Clean path) in default parts (from_project parts).

Definition sameElement (a b : gostring) : bool := if on_windows then EqualFold a b else bool_decide (a = b).

Definition hasPathSuffix (path : gostring) (suffix : list gostring) : bool :=
  match suffix with
  | [] => false
  | _ =>
      let parts := splitPath (filepath_Clean path) in
      if bool_decide (length parts < length suffix) then false
      else forallb (fun ab => sameElement ab.1 ab.2) (zip (drop (length parts - length suffix) parts) suffix)
  end.

Definition isAllowedProjectPath (path defaultPath : gostring) : bool :=
  isUnderOrEqual path (filepath_Dir defaultPath) || hasPathSuffix path (projectPathSuffix defaultPath).
End paths.

(** * Requests *)

Section requests.
Context `{Externals} `{Encoding} `{FilePath}.
(** The default paths of internal/config on this system. *)
Variables DefaultHostsPath DefaultRollbackPath DefaultCertDir : gostring.

Definition validateRollbackPath (path : gostring) : result unit :=
  if is_blank path then Err (Errorf "rollback path is required" [])
  else if negb (isAllowedProjectPath path DefaultRollbackPath)
  then Err (Errorf "rollback path %q is outside the allowed project runtime directory" [path])
  else Ok tt.

Definition validateCertRequest (req : CertConfig) : result unit :=
  if is_blank (Dir req) then Err (Errorf "cert dir is required" [])
  else if negb (bool_decide (keyword (StoreScope req) ∈ [[]; CertStoreMachine; CertStoreUser]))
  then Err (Errorf "unsupported cert store scope %q" [StoreScope req])
  else if negb (isAllowedProjectPath (Dir req) DefaultCertDir)
  then Err (Errorf "cert dir %q is outside the allowed project config directory" [Dir req])
  else Ok tt.

Definition validateHostsConfigForHelper (cfg : Hosts.Config) : result unit :=
  if negb (samePath (Hosts.Path cfg) DefaultHostsPath)
  then Err (Errorf "elevated helper can only modify the default Windows hosts file" [])
  else
    do _ <- validateRollbackPath (Hosts.RollbackPath cfg);
    if bool_decide (Hosts.Entries cfg = []) then Err (Errorf "hosts entries are required" [])
    else if existsb (fun e => is_blank (Hosts.EntryIP e) || is_blank (Hosts.EntryHost e)) (Hosts.Entries cfg)
    then Err (Errorf "hosts entries cannot contain empty IP or host" [])
    else Ok tt.

Definition validateSystemDNSConfigForHelper (cfg : SystemDns.DNSSettings) : result unit :=
  do _ <- validateRollbackPath (SystemDns.SRollbackPath cfg);
  if bool_decide (SystemDns.SInterfaces cfg = []) then Err (Errorf "system DNS interfaces are required" [])
  else if existsb is_blank (SystemDns.SInterfaces cfg)
  then Err (Errorf "system DNS interfaces cannot contain empty values" [])
  else if bool_decide (SystemDns.SServerIPs cfg = []) then Err (Errorf "system DNS server IPs are required" [])
  else match List.find (fun s => negb (SystemDns.loopbackServer (TrimSpace s))) (SystemDns.SServerIPs cfg) with
       | Some server => Err (Errorf "system DNS server IP %q must be an IPv4 loopback address" [server])
       | None => Ok tt
       end.

Definition validatePrivilegedRequest (req : HelperRequest) : result unit :=
  let c := Command req in
  if bool_decide (c = CommandAppHostHealth) then Ok tt
  else if bool_decide (c = CommandPrepareHostsStart) then
    do _ <- validateCertRequest (Cert req); validateHostsConfigForHelper (ReqHosts req)
  else if bool_decide (c = CommandTrustRootCA) || bool_decide (c = CommandUntrustRootCA) then validateCertRequest (Cert req)
  else if bool_decide (c = CommandRestoreHosts) then validateRollbackPath (RollbackPath req)
  else if bool_decide (c = CommandPreflightSystemDNS) || bool_decide (c = CommandApplySystemDNS)
  then validateSystemDNSConfigForHelper (SystemDNS req)
  else if bool_decide (c = CommandRestoreSystemDNS) then validateRollbackPath (RollbackPath req)
  else Err (Errorf "unsupported helper command %q" [c]).

Definition validateHelperRequest (req : HelperRequest) (token : gostring) (parentPID : Z) : result unit :=
  if negb (Version req =? helperVersion)%Z then Err (Errorf "unsupported helper request version %d" [Itoa (Version req)])
  else if is_blank token || negb (bool_decide (Token req = token)) then Err (Errorf "invalid helper token" [])
  else if (parentPID <=? 0)%Z || negb (ParentPID req =? parentPID)%Z then Err (Errorf "invalid helper parent pid" [])
  else validatePrivilegedRequest req.

Definition validateAppHostRequest (req : HelperRequest) (clientPID : Z) : result unit :=
  if negb (Version req =? helperVersion)%Z then Err (Errorf "unsupported apphost request version %d" [Itoa (Version req)])
  else if (ParentPID req <=? 0)%Z then Err (Errorf "invalid apphost parent pid" [])
  else if is_blank (Token req) then Err (Errorf "invalid apphost token" [])
  else if (clientPID <=? 0)%Z then Err (Errorf "invalid apphost client pid" [])
  else if negb (ParentPID req =? clientPID)%Z
  then Err (Errorf "apphost client pid mismatch: request parent=%d pipe client=%d" [Itoa (ParentPID req); Itoa clientPID])
  else validatePrivilegedRequest req.
End requests.

(** * Execution *)

Section execution.
Context {X : Type} `{Externals} `{Encoding} `{FilePath}.
Variable store : CertStore X.
Variable hostsPlatform : Hosts.Platform X.
Variable dnsPlatform : SystemDns.Platform X.
Variable now : Time.
(** The state of the context, and what the operating system says of the process. *)
Variable ctxErr : option error.
Variable privileged : bool.
Variable helperStatus : gostring.

Definition prepareHostsStartDirect (certCfg : CertConfig) (hostsCfg : Hosts.Config) (autoInstall : bool)
  : IO X PrepareHostsResult :=
  io certInstalled <- io_wrap "check root CA install: %w" [] (SIsInstalled store certCfg);
  io trust <-
    (if (certInstalled : bool)
     then io_ret {| TPlatform := GOOS; TCertPath := SRootCertPath store certCfg; TThumbprint := []; TStoreScope := StoreScope certCfg;
                    TAlreadyTrusted := true; TInstalled := false; TChanged := false; TViaHelper := false |}
     else if negb autoInstall
     then io_err (Errorf "local root CA is not installed; run `steam-accelerator cert install` first or enable cert.auto_install" [])
     else io_wrap "install local root CA: %w" [] (SEnsureTrusted store certCfg));
  io _ <- io_wrap "preflight hosts mode: %w" [] (Hosts.PreflightWithPlatform ctxErr hostsCfg (Some hostsPlatform));
  io _ <- io_wrap "apply hosts: %w" [] (Hosts.ApplyWithPlatform ctxErr hostsCfg (Some hostsPlatform) now);
  io_ret {| PCert := trust; PCertTrusted := true; PEntries := length (Hosts.Entries hostsCfg) |}.

Definition executeHelperRequest (req : HelperRequest) : IO X HelperResponse :=
  let c := Command req in
  if on_windows && negb privileged
  then io_err (Errorf "elevated helper did not receive an administrator token: %s" [helperStatus])
  else if bool_decide (c = CommandAppHostHealth) then io_ret succeeded
  else if bool_decide (c = CommandPrepareHostsStart) then
    io result <- prepareHostsStartDirect (Cert req) (ReqHosts req) (AutoInstall req);
    io_ret {| OK := true; Error := []; Trust := None; Prepare := Some (prepare_via_helper result); RespDNS := None |}
  else if bool_decide (c = CommandTrustRootCA) then
    io trust <- SEnsureTrusted store (Cert req);
    io_ret {| OK := true; Error := []; Trust := Some (trust_via_helper trust); Prepare := None; RespDNS := None |}
  else if bool_decide (c = CommandUntrustRootCA) then
    io _ <- SUninstall store (Cert req); io_ret succeeded
  else if bool_decide (c = CommandRestoreHosts) then
    io _ <- Hosts.RestoreWithPlatform ctxErr (RollbackPath req) (Some hostsPlatform); io_ret succeeded
  else if bool_decide (c = CommandPreflightSystemDNS) then
    io result <- SystemDns.PreflightWithPlatform (SystemDNS req) (Some dnsPlatform) now;
    io_ret {| OK := true; Error := []; Trust := None; Prepare := None; RespDNS := Some (dns_via_helper result) |}
  else if bool_decide (c = CommandApplySystemDNS) then
    io result <- SystemDns.ApplyWithPlatform (SystemDNS req) (Some dnsPlatform) now;
    io_ret {| OK := true; Error := []; Trust := None; Prepare := None; RespDNS := Some (dns_via_helper result) |}
  else if bool_decide (c = CommandRestoreSystemDNS) then
    io result <- SystemDns.RestoreWithPlatform (RollbackPath req) (Some dnsPlatform);
    io_ret {| OK := true; Error := []; Trust := None; Prepare := None; RespDNS := Some (dns_via_helper result) |}
  else io_err (Errorf "unsupported helper command %q" [c]).

(** encoding/json on requests and responses, and [err.Error()]. *)
Variable decodeRequest : gostring -> result HelperRequest.
Variable encodeResponse : HelperResponse -> gostring.
Variable text : error -> gostring.
Variables DefaultHostsPath DefaultRollbackPath DefaultCertDir : gostring.

Definition readHelperRequest (path : gostring) : IO X HelperRequest :=
  io data <- io_wrap "read helper request: %w" [] (os_ReadFile path);
  io_wrap "parse helper request: %w" [] (io_of (decodeRequest data)).

Definition writeHelperResponse (path : gostring) (resp : HelperResponse) : IO X unit :=
  io _ <- io_wrap "create helper response directory: %w" [] (os_MkdirAll (filepath_Dir path));
  io_wrap "write helper response: %w" [] (os_WriteFile path (encodeResponse resp)).

(** RunHelper after its flags are parsed. *)
Definition RunHelper (requestPath responsePath token : gostring) (parentPID : Z) : IO X unit :=
  if is_blank requestPath || is_blank responsePath
  then io_err (Errorf "helper request and response paths are required" [])
  else
    try r <- readHelperRequest requestPath;
    match r with
    | Err e => try _ <- writeHelperResponse responsePath (refused (text e)); io_err e
    | Ok req =>
        match validateHelperRequest DefaultHostsPath DefaultRollbackPath DefaultCertDir req token parentPID with
        | Err e => try _ <- writeHelperResponse responsePath (refused (text e)); io_err e
        | Ok _ =>
            try x <- executeHelperRequest req;
            let resp := match x with Ok resp => resp | Err e => refused (helperStatus ++ ": " ++ text e) end in
            try wr <- writeHelperResponse responsePath resp;
            match x, wr with
            | Err e, _ => io_err e
            | Ok _, Err e => io_err e
            | Ok _, Ok _ => io_ret tt
            end
        end
    end.

(** * Acting directly or through the helper *)

(** A request to the elevated helper or the service; it fills in the version, the
    token and the process id. *)
Variable runPrivilegedRequest : HelperRequest -> IO X HelperResponse.

Definition ShouldUseHelper : bool := on_windows && negb privileged.

Definition noCert : CertConfig := {| Dir := []; StoreScope := [] |}.
Definition noHosts : Hosts.Config :=
  {| Hosts.Path := []; Hosts.MapIP := []; Hosts.RollbackPath := []; Hosts.Entries := [] |}.
Definition noDNS : SystemDns.DNSSettings :=
  {| SystemDns.SRollbackPath := []; SystemDns.SInterfaces := []; SystemDns.SServerIPs := [] |}.

Definition request (command : gostring) (cert : CertConfig) (hosts : Hosts.Config) (dns : SystemDns.DNSSettings)
    (rollback : gostring) (autoInstall : bool) : HelperRequest :=
  {| Version := 0; Token := []; ParentPID := 0; Command := command; Cert := cert; ReqHosts := hosts; SystemDNS := dns;
     RollbackPath := rollback; AutoInstall := autoInstall |}.

Definition shouldUseCertHelper (cfg : CertConfig) : bool :=
  if negb on_windows || privileged then false
  else EqualFold (TrimSpace (StoreScope cfg)) CertStoreMachine || is_blank (StoreScope cfg).

Definition shouldRetrySystemChangeWithHelper (e : error) : bool :=
  if negb on_windows then false
  else if os_IsPermission e then true
  else
    let msg := ToLower (text e) in
    Contains msg "access is denied" || Contains msg "permission denied" || Contains msg "administrator".

Definition shouldRetryCertWithHelper (e : error) (cfg : CertConfig) : bool :=
  if negb on_windows then false
  else if negb (EqualFold (TrimSpace (StoreScope cfg)) CertStoreMachine) && negb (is_blank (StoreScope cfg)) then false
  else shouldRetrySystemChangeWithHelper e.

Definition PrepareHostsStartElevated (certCfg : CertConfig) (hostsCfg : Hosts.Config) (autoInstall : bool) : IO X PrepareHostsResult :=
  io resp <- runPrivilegedRequest (request CommandPrepareHostsStart certCfg hostsCfg noDNS [] autoInstall);
  match Prepare resp with
  | None => io_err (Errorf "elevated helper did not return prepare result" [])
  | Some p => io_ret (prepare_via_helper p)
  end.

Definition PrepareHostsStart (certCfg : CertConfig) (hostsCfg : Hosts.Config) (autoInstall : bool) : IO X PrepareHostsResult :=
  if negb ShouldUseHelper then prepareHostsStartDirect certCfg hostsCfg autoInstall
  else PrepareHostsStartElevated certCfg hostsCfg autoInstall.

(** The shape the other operations share: directly, unless the helper is needed from
    the start or after a failure that asks for it. *)
Definition with_retry {A} (direct elevated : IO X A) (use : bool) (retry : error -> bool) : IO X A :=
  if use then elevated
  else
    try r <- direct;
    match r with
    | Ok a => io_ret a
    | Err e => if retry e then elevated else io_err e
    end.

Definition EnsureCertTrustedElevated (cfg : CertConfig) : IO X TrustResult :=
  io resp <- runPrivilegedRequest (request CommandTrustRootCA cfg noHosts noDNS [] false);
  match Trust resp with
  | None => io_err (Errorf "elevated helper did not return certificate trust result" [])
  | Some t => io_ret (trust_via_helper t)
  end.
Definition EnsureCertTrusted (cfg : CertConfig) : IO X TrustResult :=
  with_retry (SEnsureTrusted store cfg) (EnsureCertTrustedElevated cfg) (shouldUseCertHelper cfg)
    (fun e => shouldRetryCertWithHelper e cfg).
Definition InstallCert (cfg : CertConfig) : IO X unit := io _ <- EnsureCertTrusted cfg; io_ret tt.

Definition UninstallCertElevated (cfg : CertConfig) : IO X unit :=
  io _ <- runPrivilegedRequest (request CommandUntrustRootCA cfg noHosts noDNS [] false); io_ret tt.
Definition UninstallCert (cfg : CertConfig) : IO X unit :=
  with_retry (SUninstall store cfg) (UninstallCertElevated cfg) (shouldUseCertHelper cfg)
    (fun e => shouldRetryCertWithHelper e cfg).

Definition RestoreHostsElevated (rollbackPath : gostring) : IO X unit :=
  io _ <- runPrivilegedRequest (request CommandRestoreHosts noCert noHosts noDNS rollbackPath false); io_ret tt.
Definition RestoreHosts (rollbackPath : gostring) : IO X unit :=
  with_retry (Hosts.RestoreWithPlatform ctxErr rollbackPath (Some hostsPlatform)) (RestoreHostsElevated rollbackPath)
    ShouldUseHelper shouldRetrySystemChangeWithHelper.

Definition dns_response (resp : HelperResponse) : IO X SystemDns.Result :=
  match RespDNS resp with
  | None => io_err (Errorf "elevated helper did not return system DNS result" [])
  | Some r => io_ret (dns_via_helper r)
  end.

Definition PreflightSystemDNSElevated (cfg : SystemDns.DNSSettings) : IO X SystemDns.Result :=
  io resp <- runPrivilegedRequest (request CommandPreflightSystemDNS noCert noHosts cfg [] false); dns_response resp.
Definition PreflightSystemDNS (cfg : SystemDns.DNSSettings) : IO X SystemDns.Result :=
  with_retry (SystemDns.PreflightWithPlatform cfg (Some dnsPlatform) now) (PreflightSystemDNSElevated cfg)
    ShouldUseHelper shouldRetrySystemChangeWithHelper.

Definition ApplySystemDNSElevated (cfg : SystemDns.DNSSettings) : IO X SystemDns.Result :=
  io resp <- runPrivilegedRequest (request CommandApplySystemDNS noCert noHosts cfg [] false); dns_response resp.
Definition ApplySystemDNS (cfg : SystemDns.DNSSettings) : IO X SystemDns.Result :=
  with_retry (SystemDns.ApplyWithPlatform cfg (Some dnsPlatform) now) (ApplySystemDNSElevated cfg)
    ShouldUseHelper shouldRetrySystemChangeWithHelper.

Definition RestoreSystemDNSElevated (rollbackPath : gostring) : IO X unit :=
  io _ <- runPrivilegedRequest (request CommandRestoreSystemDNS noCert noHosts noDNS rollbackPath false); io_ret tt.
Definition RestoreSystemDNS (rollbackPath : gostring) : IO X unit :=
  with_retry (io _ <- SystemDns.RestoreWithPlatform rollbackPath (Some dnsPlatform); io_ret tt)
    (RestoreSystemDNSElevated rollbackPath) ShouldUseHelper shouldRetrySystemChangeWithHelper.
End execution.

(** * What an operation may change *)

(** Only files that satisfy [P] change, and no system setting. *)
Definition confined {X} (P : gostring -> Prop) (w w' : World X) : Prop :=
  sys w' = sys w ∧ forall q, ~ P q -> files w' !! q = files w !! q.

Definition nothing (q : gostring) : Prop := False.
Definition below (dir q : gostring) : Prop := HasPrefix q (dir ++ "/") = true.

(** What is asked of a certificate store: [owns] are the files it may write for a
    configuration. *)
Class ContainedStore {X} (s : CertStore X) (owns : CertConfig -> gostring -> Prop) : Prop := {
  store_installed c : moves same_files (SIsInstalled s c);
  store_trust c : moves (writes_only (owns c)) (SEnsureTrusted s c);
  store_uninstall c : moves (writes_only (owns c)) (SUninstall s c);
}.

(** The files of the certificate store, when its platform writes none. *)
Section certificate_files.
Context {X : Type} `{X509} `{Externals} `{FilePath} (platform : CertStore.Platform X) `{!QuietCerts platform}.

(** The two files of the root. *)
Definition root_file (c : CertConfig) : gostring -> Prop := root_file_of (New c).

Lemma fresh_writes {A} c (k : M (X := X) A) : moves (keeps (New c)) k -> moves (writes_only (root_file c)) (fresh c k).
Proof. intros Hk w. specialize (Hk (New c, w) eq_refl) as [_ Hk]. unfold fresh. by destruct (k (New c, w)) as [r [m w']]. Qed.

#[export] Instance certificates_contained d now : ContainedStore (CertStore.store platform d now) root_file.
Proof.
  split; cbn; intros c; [|apply fresh_writes, EnsureTrusted_keeps, _|apply fresh_writes, Uninstall_keeps, _].
  intros w. pose proof (IsInstalled_files platform (New c, w)) as Hf. unfold fresh. red.
  by destruct (IsInstalled platform (New c, w)) as [r [m w']].
Qed.
End certificate_files.

Section confinement.
Context {X : Type}.

#[export] Instance confined_preorder P : PreOrder (confined (X := X) P).
Proof.
  split; [done|]. intros x y z [Hs1 Hf1] [Hs2 Hf2]. split; [congruence|]. intros q Hq. by rewrite Hf2, Hf1.
Qed.

Lemma confined_mono (P Q : gostring -> Prop) (w w' : World X) : (forall q, P q -> Q q) -> confined P w w' -> confined Q w w'.
Proof. intros Hpq [Hs Hf]. split; [done|]. intros q Hq. apply Hf. naive_solver. Qed.

Lemma moves_mono {A} P Q (m : IO X A) : (forall q, P q -> Q q) -> moves (confined P) m -> moves (confined Q) m.
Proof. intros Hpq Hm w. by eapply confined_mono, Hm. Qed.

Lemma confined_writes {A} P Q (m : IO X A) : (forall q, P q -> Q q) -> moves (confined P) m -> moves (writes_only Q) m.
Proof. intros Hpq Hm w q Hq. apply Hm. naive_solver. Qed.

(** A step whose continuation knows something of its result. *)
Lemma moves_bind_post {A B} P (Q : A -> Prop) (m : IO X A) (k : A -> IO X B) :
  moves (confined P) m -> (forall w a w', m w = (Ok a, w') -> Q a) -> (forall a, Q a -> moves (confined P) (k a)) ->
  moves (confined P) (io_bind m k).
Proof.
  intros Hm Hq Hk w. unfold io_bind. specialize (Hm w). destruct (m w) as [[a|e] w1] eqn:E; cbn in *; [|done].
  etrans; [exact Hm|]. apply Hk. by eapply Hq.
Qed.

Lemma confined_next P (w : World X) : confined P w (next_fault w).2.
Proof. split; [apply next_fault_sys|]. intros q _. by rewrite next_fault_files. Qed.

Lemma confined_call {A} P onerr (k : IO X A) : moves (confined P) k -> moves (confined P) (os_call onerr k).
Proof. intros Hk. apply os_call_moves; [apply _|apply confined_next|done]. Qed.

Lemma confined_read P path : moves (confined (X := X) P) (os_ReadFile path).
Proof. apply confined_call. intros w. by destruct (files w !! path). Qed.

Lemma confined_put P op path data : P path -> moves (confined (X := X) P) (os_put op path data).
Proof.
  intros Hp w. unfold os_put. pose proof (confined_next P w) as Hn. destruct (next_fault w) as [[f|] w1]; cbn in *.
  - destruct (fault_partial f); [|done]. etrans; [exact Hn|]. split; [done|]. intros q Hq. cbn. rewrite lookup_insert_ne; [done|]. by intros ->.
  - etrans; [exact Hn|]. split; [done|]. intros q Hq. cbn. rewrite lookup_insert_ne; [done|]. by intros ->.
Qed.

Lemma confined_remove P path : P path -> moves (confined (X := X) P) (os_Remove path).
Proof.
  intros Hp. apply confined_call. intros w. destruct (files w !! path); [|done]. split; [done|]. intros q Hq. cbn.
  rewrite lookup_delete_ne; [done|]. by intros ->.
Qed.

Lemma temp_name_below dir fuel fs name : below dir name -> below dir (temp_name fuel fs name).
Proof.
  revert name. induction fuel as [|fuel IH]; intros name Hn; [done|]. cbn. destruct (fs !! name); [|done].
  apply IH. unfold below in *. apply HasPrefix_true in Hn as [r ->]. rewrite <-app_assoc. apply HasPrefix_app.
Qed.

Lemma temp_below dir pattern fuel fs : below dir (temp_name fuel fs (dir ++ "/" ++ pattern)).
Proof. apply temp_name_below. unfold below. rewrite app_assoc. apply HasPrefix_app. Qed.

Lemma createtemp_below dir pattern (w : World X) name w' : os_CreateTemp dir pattern w = (Ok name, w') -> below dir name.
Proof.
  unfold os_CreateTemp, os_call. destruct (next_fault w) as [[f|] w1]; [done|].
  pose proof (temp_below dir pattern (S (size (files w1))) (files w1)) as Hb. revert Hb. generalize (temp_name (S (size (files w1))) (files w1) (dir ++ "/" ++ pattern)). by intros n Hb [= -> _].
Qed.

Lemma confined_createtemp P dir pattern : (forall q, below dir q -> P q) -> moves (confined (X := X) P) (os_CreateTemp dir pattern).
Proof.
  intros Hp. apply confined_call. intros w. pose proof (Hp _ (temp_below dir pattern (S (size (files w))) (files w))) as Hb.
  revert Hb. cbn zeta. generalize (temp_name (S (size (files w))) (files w) (dir ++ "/" ++ pattern)). intros n Hn.
  split; [done|]. intros q Hq. cbn. rewrite lookup_insert_ne; [done|]. by intros <-.
Qed.
End confinement.

(** What the execution relies on: the hosts platform writes the file it is asked to
    write and otherwise only looks; the certificate store keeps to its directory;
    the DNS platform changes no file, and only its settings when applying or
    restoring. *)
Class ContainedHosts {X} (p : Hosts.Platform X) : Prop := {
  hosts_read path : moves (confined nothing) (Hosts.PReadFile p path);
  hosts_mode path : moves (confined nothing) (Hosts.PFileMode p path);
  hosts_check path : moves (confined nothing) (Hosts.PCheckWritable p path);
  hosts_write path data mode : moves (confined (eq path)) (Hosts.PWriteFile p path data mode);
}.
Class ContainedDNS {X} (p : SystemDns.Platform X) : Prop := {
  dns_quiet :: SystemDns.QuietPlatform p;
  dns_restore_files st : moves same_files (SystemDns.PRestore p st);
}.

Section hosts_confinement.
Context {X : Type} `{Encoding} (p : Hosts.Platform X) `{!ContainedHosts p}.

Lemma nothing_mono (P : gostring -> Prop) q : nothing q -> P q.
Proof. by intros []. Qed.

Lemma Hosts_WriteState_confined (P : gostring -> Prop) path st : P path -> moves (confined (X := X) P) (Hosts.WriteState path st).
Proof.
  intros Hp. unfold Hosts.WriteState. destruct (is_blank path); [done|].
  apply moves_bind; [apply _|apply moves_wrap, confined_call; done|intros _].
  apply moves_bind; [apply _|by apply moves_wrap|intros data]. by apply moves_wrap, confined_put.
Qed.

Lemma Hosts_RemoveState_confined (P : gostring -> Prop) path : P path -> moves (confined (X := X) P) (Hosts.RemoveState path).
Proof.
  intros Hp. unfold Hosts.RemoveState. apply moves_try; [apply _|by apply confined_remove|].
  intros [|e]; [done|by destruct (os_IsNotExist e)].
Qed.

Lemma checkRollbackWritable_confined path : moves (confined (X := X) (below (filepath_Dir path))) (Hosts.checkRollbackWritable path).
Proof.
  unfold Hosts.checkRollbackWritable. apply moves_bind; [apply _|apply moves_wrap, confined_call; done|intros _].
  apply moves_bind_post with (Q := below (filepath_Dir path)).
  - apply moves_wrap. by apply confined_createtemp.
  - intros w name w' Hn. apply io_wrap_Ok in Hn. by eapply createtemp_below.
  - intros name Hn. apply moves_try; [apply _|apply confined_call; done|intros closeErr].
    apply moves_try; [apply _|by apply confined_remove|intros removeErr]. by repeat case_match.
Qed.

Lemma hosts_guarded_confined P ctxErr cfg k :
  moves (confined P) (k p) -> moves (confined P) (Hosts.guarded ctxErr cfg (Some p) k).
Proof.
  intros Hk. unfold Hosts.guarded. case_match; [done|]. apply moves_bind; [apply _|done|intros _].
  apply moves_bind; [apply _|by destruct ctxErr|by intros _].
Qed.

Definition prepared (cfg : Hosts.Config) (q : gostring) : Prop :=
  q = Hosts.Path cfg ∨ q = Hosts.RollbackPath cfg ∨ below (filepath_Dir (Hosts.RollbackPath cfg)) q.

Lemma Preflight_confined ctxErr cfg : moves (confined (prepared cfg)) (Hosts.PreflightWithPlatform ctxErr cfg (Some p)).
Proof.
  unfold Hosts.PreflightWithPlatform. apply hosts_guarded_confined.
  apply moves_bind; [apply _| |intros _; apply moves_try; [apply _| |intros [|e]; [|done]]].
  - apply moves_wrap. eapply moves_mono, hosts_read. apply nothing_mono.
  - eapply moves_mono, hosts_check. apply nothing_mono.
  - eapply moves_mono, checkRollbackWritable_confined. unfold prepared. tauto.
Qed.

Lemma Apply_confined ctxErr cfg now : moves (confined (prepared cfg)) (Hosts.ApplyWithPlatform ctxErr cfg (Some p) now).
Proof.
  unfold Hosts.ApplyWithPlatform. apply hosts_guarded_confined.
  apply moves_bind; [apply _| |intros original; apply moves_try; [apply _| |intros m]].
  - apply moves_wrap. eapply moves_mono, hosts_read. apply nothing_mono.
  - eapply moves_mono, hosts_mode. apply nothing_mono.
  - apply moves_bind; [apply _| |intros _; apply moves_try; [apply _| |intros [|e]; [done|]]].
    + apply Hosts_WriteState_confined. by right; left.
    + eapply moves_mono, hosts_write. intros q <-. by left.
    + apply moves_try; [apply _|apply Hosts_RemoveState_confined; by right; left|done].
Qed.

(** Restoring writes the file that the rollback state names. *)
Definition restored (w : World X) (path q : gostring) : Prop :=
  q = path ∨ exists data st, files w !! path = Some data ∧ json_decode Hosts.json_state data = Ok st ∧ q = Hosts.StPath st.

Lemma ReadState_reads path (w : World X) st w1 :
  Hosts.ReadState path w = (Ok st, w1) -> exists data, files w !! path = Some data ∧ json_decode Hosts.json_state data = Ok st.
Proof.
  unfold Hosts.ReadState. intros Hr. apply io_bind_Ok in Hr as (data & w2 & Hd & Hr). apply io_wrap_Ok in Hr.
  exists data. unfold os_ReadFile, os_call in Hd. pose proof (next_fault_files w) as Hn.
  destruct (next_fault w) as [[f|] w3]; [done|]. cbn in Hn. rewrite Hn in Hd.
  destruct (files w !! path); [|done]. injection Hd as -> <-. split; [done|]. by injection Hr.
Qed.

Lemma Restore_confined ctxErr path w : confined (restored w path) w (Hosts.RestoreWithPlatform ctxErr path (Some p) w).2.
Proof.
  unfold Hosts.RestoreWithPlatform, io_try at 1.
  assert (confined (restored w path) w (Hosts.ReadState path w).2) as Hr.
  { unfold Hosts.ReadState. revert w. intros w. apply (moves_bind (confined (restored w path))); [apply confined_read|].
    intros data. by apply moves_wrap. }
  destruct (Hosts.ReadState path w) as [[st|e] w1] eqn:Er; cbn [snd] in Hr; [|by case_match].
  apply ReadState_reads in Er as (data & Hd & Hst).
  repeat (case_match; [done|]). etrans; [exact Hr|]. match goal with |- confined ?P _ (?m _).2 => assert (moves (confined P) m) as Hm end; [|apply Hm].
  apply moves_bind; [apply _|by destruct ctxErr|intros _].
  apply moves_bind; [apply _| |intros body; apply moves_try; [apply _| |intros m; apply moves_try; [apply _| |intros [|e]; [|done]]]].
  - apply moves_wrap. eapply moves_mono, hosts_read. apply nothing_mono.
  - eapply moves_mono, hosts_mode. apply nothing_mono.
  - eapply moves_mono, hosts_write. intros q <-. right. by exists data, st.
  - apply Hosts_RemoveState_confined. by left.
Qed.
End hosts_confinement.

Section dns_confinement.
Context {X : Type} `{Externals} `{Encoding} (p : SystemDns.Platform X) `{!ContainedDNS p}.

Lemma moves_touches {A} path (m : IO X A) : moves same_files m -> moves (touches path) m.
Proof. intros Hm w q _. by rewrite (Hm w). Qed.

Lemma dns_preflight_confined cfg now : moves (confined (X := X) nothing) (SystemDns.PreflightWithPlatform cfg (Some p) now).
Proof.
  assert (moves (confined nothing) (SystemDns.PSnapshot p (SystemDns.normalizeConfig cfg))) as Hs.
  { intros w. split; [apply SystemDns.quiet_snapshot_sys|]. intros q _. by rewrite (SystemDns.quiet_snapshot_files (p := p)). }
  unfold SystemDns.PreflightWithPlatform. apply moves_bind; [apply _|done|intros _]. by apply moves_bind; [apply _| |done].
Qed.

Lemma dns_apply_touches cfg now :
  moves (touches (X := X) (SystemDns.SRollbackPath (SystemDns.normalizeConfig cfg))) (SystemDns.ApplyWithPlatform cfg (Some p) now).
Proof.
  unfold SystemDns.ApplyWithPlatform. apply moves_bind; [apply _|done|intros _].
  apply moves_bind; [apply _|apply moves_touches, SystemDns.quiet_snapshot_files|intros snap].
  apply moves_bind; [apply _|apply Rollback.WriteState_touches|intros _].
  apply moves_bind; [apply _|apply moves_wrap, moves_touches, SystemDns.quiet_apply_files|done].
Qed.

Lemma dns_restore_touches path : moves (touches (X := X) path) (SystemDns.RestoreWithPlatform path (Some p)).
Proof.
  unfold SystemDns.RestoreWithPlatform. apply moves_try; [apply _|apply moves_touches, Rollback.ReadState_files|].
  intros [st|e]; [|by case_match]. repeat (case_match; [done|]).
  apply moves_bind; [apply _|apply moves_touches, dns_restore_files|intros _].
  apply moves_bind; [apply _| |done]. unfold Rollback.RemoveState.
  apply moves_try; [apply _| |intros [|e]; [done|by destruct (os_IsNotExist e)]].
  intros w q Hq. apply (confined_remove (eq path) path eq_refl w). by intros <-.
Qed.
End dns_confinement.

(** ** The helper *)

(** The files a request lets the helper write; [owns] are those of the certificate
    store. *)
Definition may_write {X} `{Externals} `{Encoding} (owns : CertConfig -> gostring -> Prop) (w : World X) (req : HelperRequest)
    (q : gostring) : Prop :=
  (Command req = CommandPrepareHostsStart ∧ (prepared (ReqHosts req) q ∨ owns (Cert req) q)) ∨
  (Command req = CommandTrustRootCA ∧ owns (Cert req) q) ∨
  (Command req = CommandUntrustRootCA ∧ owns (Cert req) q) ∨
  (Command req = CommandRestoreHosts ∧ restored w (RollbackPath req) q) ∨
  (Command req = CommandApplySystemDNS ∧ q = SystemDns.SRollbackPath (SystemDns.normalizeConfig (SystemDNS req))) ∨
  (Command req = CommandRestoreSystemDNS ∧ q = RollbackPath req).

(** The commands that may change more than files: the trust of certificates or the
    DNS settings. *)
Definition settings_command (req : HelperRequest) : Prop :=
  Command req ∈ [CommandPrepareHostsStart; CommandTrustRootCA; CommandUntrustRootCA; CommandApplySystemDNS; CommandRestoreSystemDNS].

Definition limited {X} (P : gostring -> Prop) (S : Prop) (w w' : World X) : Prop :=
  (forall q, ~ P q -> files w' !! q = files w !! q) ∧ (sys w' <> sys w -> S).

Lemma confined_limited {X} (P Q : gostring -> Prop) S (w w' : World X) :
  (forall q, P q -> Q q) -> confined P w w' -> limited Q S w w'.
Proof. intros Hpq [Hs Hf]. split; [intros q Hq; apply Hf; naive_solver|done]. Qed.

Lemma writes_limited {X} (P Q : gostring -> Prop) (S : Prop) (w w' : World X) :
  (forall q, P q -> Q q) -> S -> writes_only P w w' -> limited Q S w w'.
Proof. intros Hpq HS Hf. split; [intros q Hq; apply Hf; naive_solver|done]. Qed.

Lemma touches_limited {X} path (Q : gostring -> Prop) (S : Prop) (w w' : World X) :
  Q path -> S -> touches path w w' -> limited Q S w w'.
Proof. intros Hq HS Ht. split; [|done]. intros q Hn. apply Ht. by intros ->. Qed.

(** A computation that ends by returning what it was given. *)
Lemma bind_ret_snd {S A B} (m : ST S A) (f : A -> B) s : (io_bind m (fun a => io_ret (f a)) s).2 = (m s).2.
Proof. unfold io_bind. by destruct (m s) as [[]]. Qed.

Section helper.
Context {X : Type} `{Externals} `{Encoding} `{FilePath}.
Context (store : CertStore X) (hostsPlatform : Hosts.Platform X) (dnsPlatform : SystemDns.Platform X).
Context (owns : CertConfig -> gostring -> Prop) `{!ContainedStore store owns} `{!ContainedHosts hostsPlatform} `{!ContainedDNS dnsPlatform}.
Context (now : Time) (ctxErr : option error) (privileged : bool) (helperStatus : gostring).

Lemma prepare_writes cert cfg auto :
  moves (writes_only (fun q => prepared cfg q ∨ owns cert q))
    (prepareHostsStartDirect store hostsPlatform now ctxErr cert cfg auto).
Proof.
  unfold prepareHostsStartDirect. apply moves_bind; [apply _| |intros installed].
  { apply moves_wrap. intros w q _. by rewrite store_installed. }
  apply moves_bind; [apply _| |intros trust].
  { destruct installed; [done|]. destruct (negb auto); [done|]. apply moves_wrap. eapply writes_only_mono, store_trust. by right. }
  apply moves_bind; [apply _| |intros _].
  { apply moves_wrap. eapply confined_writes, Preflight_confined; [by left|done]. }
  apply moves_bind; [apply _| |done]. apply moves_wrap. eapply confined_writes, Apply_confined; [by left|done].
Qed.

Lemma settings_of req c : Command req = c ->
  c ∈ [CommandPrepareHostsStart; CommandTrustRootCA; CommandUntrustRootCA; CommandApplySystemDNS; CommandRestoreSystemDNS] ->
  settings_command req.
Proof. unfold settings_command. by intros ->. Qed.

Lemma execute_limited req w : limited (may_write owns w req) (settings_command req) w
    (executeHelperRequest store hostsPlatform dnsPlatform now ctxErr privileged helperStatus req w).2.
Proof.
  unfold executeHelperRequest. destruct (_ && _); [done|].
  destruct (bool_decide_reflect (Command req = CommandAppHostHealth)); [done|].
  destruct (bool_decide_reflect (Command req = CommandPrepareHostsStart)).
  { rewrite bind_ret_snd. eapply writes_limited, prepare_writes; [by left|]. eapply settings_of; [done|by_decide]. }
  destruct (bool_decide_reflect (Command req = CommandTrustRootCA)).
  { rewrite bind_ret_snd. eapply writes_limited, store_trust; [by right; left|]. eapply settings_of; [done|by_decide]. }
  destruct (bool_decide_reflect (Command req = CommandUntrustRootCA)).
  { rewrite bind_ret_snd. eapply writes_limited, store_uninstall; [by right; right; left|]. eapply settings_of; [done|by_decide]. }
  destruct (bool_decide_reflect (Command req = CommandRestoreHosts)).
  { rewrite bind_ret_snd. eapply confined_limited, Restore_confined; [|done]. by right; right; right; left. }
  destruct (bool_decide_reflect (Command req = CommandPreflightSystemDNS)).
  { rewrite bind_ret_snd. eapply confined_limited, dns_preflight_confined; [by intros q []|done]. }
  destruct (bool_decide_reflect (Command req = CommandApplySystemDNS)).
  { rewrite bind_ret_snd. eapply touches_limited, dns_apply_touches; [|eapply settings_of; [done|by_decide]|done]. by right; right; right; right; left. }
  destruct (bool_decide_reflect (Command req = CommandRestoreSystemDNS)); [|done].
  rewrite bind_ret_snd. eapply touches_limited, dns_restore_touches; [|eapply settings_of; [done|by_decide]|done]. by right; right; right; right; right.
Qed.
End helper.

(** ** Trust and DNS settings

    The settings of the system are the trust of certificates and the DNS settings, seen
    through two views of it: the operations of the certificate store leave the DNS
    settings alone and those of the DNS platform the trust. *)
Section parts.
Context {X : Type}.

(** Nothing is seen to change through [view]. *)
Definition unseen {V} (view : X -> V) (w w' : World X) : Prop := view (sys w') = view (sys w).

#[export] Instance unseen_preorder {V} (view : X -> V) : PreOrder (unseen view).
Proof. split; [done|]. unfold unseen. intros x y z. congruence. Qed.

Class SeparateSettings {C D} (trust : X -> C) (dns : X -> D) (store : CertStore X) (p : SystemDns.Platform X) : Prop := {
  installed_keeps_dns c : moves (unseen dns) (SIsInstalled store c);
  trusted_keeps_dns c : moves (unseen dns) (SEnsureTrusted store c);
  uninstalled_keeps_dns c : moves (unseen dns) (SUninstall store c);
  apply_keeps_trust c st : moves (unseen trust) (SystemDns.PApply p c st);
  restore_keeps_trust st : moves (unseen trust) (SystemDns.PRestore p st);
}.

Context `{Externals} `{Encoding} `{FilePath}.
Context {C D : Type} (trust : X -> C) (dns : X -> D) (store : CertStore X) (hostsPlatform : Hosts.Platform X) (dnsPlatform : SystemDns.Platform X).
Context (owns : CertConfig -> gostring -> Prop) `{!ContainedStore store owns} `{!ContainedHosts hostsPlatform} `{!ContainedDNS dnsPlatform}.
Context `{!SeparateSettings trust dns store dnsPlatform}.
Context (now : Time) (ctxErr : option error) (privileged : bool) (helperStatus : gostring).

Lemma confined_unseen {A V} (view : X -> V) P (m : IO X A) : moves (confined P) m -> moves (unseen view) m.
Proof. intros Hm w. unfold unseen. by rewrite (proj1 (Hm w)). Qed.
Lemma same_sys_unseen {A V} (view : X -> V) (m : IO X A) : moves same_sys m -> moves (unseen view) m.
Proof. intros Hm w. unfold unseen. by rewrite (Hm w). Qed.

Lemma prepare_keeps_dns cert cfg auto : moves (unseen dns) (prepareHostsStartDirect store hostsPlatform now ctxErr cert cfg auto).
Proof.
  unfold prepareHostsStartDirect. apply moves_bind; [apply _|apply moves_wrap, installed_keeps_dns|intros installed].
  apply moves_bind; [apply _| |intros t].
  { destruct installed; [done|]. destruct (negb auto); [done|]. apply moves_wrap, trusted_keeps_dns. }
  apply moves_bind; [apply _|eapply moves_wrap, confined_unseen, Preflight_confined; done|intros _].
  apply moves_bind; [apply _|eapply moves_wrap, confined_unseen, Apply_confined; done|done].
Qed.

Lemma dns_apply_keeps_trust cfg : moves (unseen trust) (SystemDns.ApplyWithPlatform cfg (Some dnsPlatform) now).
Proof.
  unfold SystemDns.ApplyWithPlatform. apply moves_bind; [apply _|done|intros _].
  apply moves_bind; [apply _|apply same_sys_unseen, SystemDns.quiet_snapshot_sys|intros snap].
  apply moves_bind; [apply _|apply same_sys_unseen, Rollback.WriteState_sys|intros _].
  apply moves_bind; [apply _|apply moves_wrap, apply_keeps_trust|done].
Qed.

Lemma dns_restore_keeps_trust path : moves (unseen trust) (SystemDns.RestoreWithPlatform path (Some dnsPlatform)).
Proof.
  unfold SystemDns.RestoreWithPlatform. apply moves_try; [apply _|apply same_sys_unseen, Rollback.ReadState_sys|].
  intros [st|e]; [|by case_match]. repeat (case_match; [done|]).
  apply moves_bind; [apply _|apply restore_keeps_trust|intros _].
  apply moves_bind; [apply _|apply same_sys_unseen, Rollback.RemoveState_sys|done].
Qed.

(** The commands that may change the trust of certificates, and those that may change
    the DNS settings. *)
Definition trust_command (req : HelperRequest) : Prop := Command req ∈ [CommandPrepareHostsStart; CommandTrustRootCA; CommandUntrustRootCA].
Definition dns_command (req : HelperRequest) : Prop := Command req ∈ [CommandApplySystemDNS; CommandRestoreSystemDNS].

Definition separate (req : HelperRequest) (w w' : World X) : Prop :=
  (trust (sys w') <> trust (sys w) -> trust_command req) ∧ (dns (sys w') <> dns (sys w) -> dns_command req).

Lemma separate_quiet req (w w' : World X) : sys w' = sys w -> separate req w w'.
Proof. unfold separate. intros ->. by split. Qed.

Lemma execute_separate req w : separate req w
    (executeHelperRequest store hostsPlatform dnsPlatform now ctxErr privileged helperStatus req w).2.
Proof.
  unfold executeHelperRequest. destruct (_ && _); [by apply separate_quiet|].
  destruct (bool_decide_reflect (Command req = CommandAppHostHealth)); [by apply separate_quiet|].
  destruct (bool_decide_reflect (Command req = CommandPrepareHostsStart)) as [E|_].
  { rewrite bind_ret_snd. split; [intros _; unfold trust_command; rewrite E; by_decide|intros Hn; by destruct Hn; apply prepare_keeps_dns]. }
  destruct (bool_decide_reflect (Command req = CommandTrustRootCA)) as [E|_].
  { rewrite bind_ret_snd. split; [intros _; unfold trust_command; rewrite E; by_decide|intros Hn; by destruct Hn; apply trusted_keeps_dns]. }
  destruct (bool_decide_reflect (Command req = CommandUntrustRootCA)) as [E|_].
  { rewrite bind_ret_snd. split; [intros _; unfold trust_command; rewrite E; by_decide|intros Hn; by destruct Hn; apply uninstalled_keeps_dns]. }
  destruct (bool_decide_reflect (Command req = CommandRestoreHosts)).
  { rewrite bind_ret_snd. apply separate_quiet, (Restore_confined hostsPlatform ctxErr (RollbackPath req) w). }
  destruct (bool_decide_reflect (Command req = CommandPreflightSystemDNS)).
  { rewrite bind_ret_snd. apply separate_quiet, (dns_preflight_confined dnsPlatform (SystemDNS req) now w). }
  destruct (bool_decide_reflect (Command req = CommandApplySystemDNS)) as [E|_].
  { rewrite bind_ret_snd. split; [intros Hn; by destruct Hn; apply dns_apply_keeps_trust|intros _; unfold dns_command; rewrite E; by_decide]. }
  destruct (bool_decide_reflect (Command req = CommandRestoreSystemDNS)) as [E|_]; [|by apply separate_quiet].
  rewrite bind_ret_snd. split; [intros Hn; by destruct Hn; apply dns_restore_keeps_trust|intros _; unfold dns_command; rewrite E; by_decide].
Qed.
End parts.

(** * Properties *)

Section authorisation.
Context `{Externals} `{Encoding} `{FilePath} (DefaultHostsPath DefaultRollbackPath DefaultCertDir : gostring).

Definition rollback_allowed (path : gostring) : Prop :=
  is_blank path = false ∧ isAllowedProjectPath path DefaultRollbackPath = true.
Definition cert_allowed (c : CertConfig) : Prop :=
  is_blank (Dir c) = false ∧ keyword (StoreScope c) ∈ ([[]; CertStoreMachine; CertStoreUser] : list gostring) ∧
  isAllowedProjectPath (Dir c) DefaultCertDir = true.
Definition hosts_allowed (c : Hosts.Config) : Prop :=
  samePath (Hosts.Path c) DefaultHostsPath = true ∧ rollback_allowed (Hosts.RollbackPath c) ∧ Hosts.Entries c <> [] ∧
  Forall (fun e => is_blank (Hosts.EntryIP e) = false ∧ is_blank (Hosts.EntryHost e) = false) (Hosts.Entries c).
Definition dns_allowed (c : SystemDns.DNSSettings) : Prop :=
  rollback_allowed (SystemDns.SRollbackPath c) ∧ SystemDns.SInterfaces c <> [] ∧
  Forall (fun i => is_blank i = false) (SystemDns.SInterfaces c) ∧ SystemDns.SServerIPs c <> [] ∧
  Forall (fun s => SystemDns.loopbackServer (TrimSpace s) = true) (SystemDns.SServerIPs c).

(** What a request may ask for. *)
Definition authorised (req : HelperRequest) : Prop :=
  Command req = CommandAppHostHealth ∨
  (Command req = CommandPrepareHostsStart ∧ cert_allowed (Cert req) ∧ hosts_allowed (ReqHosts req)) ∨
  ((Command req = CommandTrustRootCA ∨ Command req = CommandUntrustRootCA) ∧ cert_allowed (Cert req)) ∨
  ((Command req = CommandRestoreHosts ∨ Command req = CommandRestoreSystemDNS) ∧ rollback_allowed (RollbackPath req)) ∨
  ((Command req = CommandPreflightSystemDNS ∨ Command req = CommandApplySystemDNS) ∧ dns_allowed (SystemDNS req)).

Lemma validateRollbackPath_ok path : validateRollbackPath DefaultRollbackPath path = Ok tt <-> rollback_allowed path.
Proof.
  unfold validateRollbackPath, rollback_allowed. destruct (is_blank path); [by split; [|intros []]|].
  by destruct (isAllowedProjectPath _ _); split; try done; intros [].
Qed.

Lemma validateCertRequest_ok c : validateCertRequest DefaultCertDir c = Ok tt <-> cert_allowed c.
Proof.
  unfold validateCertRequest, cert_allowed. destruct (is_blank (Dir c)); [by split; [|intros []]|].
  case_bool_decide as Hk; cbn [negb]; [|split; [done|tauto]].
  destruct (isAllowedProjectPath _ _); cbn [negb]; [split; [intros _; by split_and!|done]|].
  split; [done|by intros (_ & _ & ?)].
Qed.

Lemma existsb_Forall_not {A} (f : A -> bool) l : existsb f l = false <-> Forall (fun x => f x = false) l.
Proof.
  induction l as [|x l IH]; cbn; [by split|]. rewrite orb_false_iff, IH, Forall_cons. done.
Qed.

Lemma validateHosts_ok c : validateHostsConfigForHelper DefaultHostsPath DefaultRollbackPath c = Ok tt <-> hosts_allowed c.
Proof.
  unfold validateHostsConfigForHelper, hosts_allowed. destruct (samePath _ _); cbn [negb]; [|by split; [|intros []]].
  rewrite <-validateRollbackPath_ok. destruct (validateRollbackPath _ _) as [[]|]; cbn [rbind]; [|by split; [|intros (_ & ? & _)]].
  case_bool_decide; [split; [done|tauto]|]. destruct (existsb _ _) eqn:E.
  - split; [done|]. intros (_ & _ & _ & Hf). apply not_false_iff_true in E. destruct E. apply existsb_Forall_not.
    eapply Forall_impl; [exact Hf|]. cbn. by intros e [-> ->].
  - split; [|done]. intros _. split_and!; [done..|]. apply existsb_Forall_not in E. eapply Forall_impl; [exact E|].
    cbn. intros e. by rewrite orb_false_iff.
Qed.

Lemma validateDNS_ok c : validateSystemDNSConfigForHelper DefaultRollbackPath c = Ok tt <-> dns_allowed c.
Proof.
  unfold validateSystemDNSConfigForHelper, dns_allowed. rewrite <-validateRollbackPath_ok.
  destruct (validateRollbackPath _ _) as [[]|]; cbn [rbind]; [|by split; [|intros []]].
  case_bool_decide; [split; [done|tauto]|]. rewrite <-existsb_Forall_not. destruct (existsb _ _); [split; [done|]; by intros (_ & _ & ? & _)|].
  case_bool_decide; [split; [done|tauto]|]. destruct (List.find _ _) as [s|] eqn:E.
  - split; [done|]. intros (_ & _ & _ & _ & Hf). apply List.find_some in E as [Hin Hs]. rewrite Forall_forall in Hf.
    apply list_elem_of_In, Hf in Hin. by rewrite Hin in Hs.
  - split; [|done]. intros _. split_and!; [done..|]. apply Forall_forall. intros s Hs%list_elem_of_In.
    eapply List.find_none in E; [|exact Hs]. by apply negb_false_iff.
Qed.

Lemma validatePrivileged_ok req :
  validatePrivilegedRequest DefaultHostsPath DefaultRollbackPath DefaultCertDir req = Ok tt <-> authorised req.
Proof.
  unfold validatePrivilegedRequest, authorised. rewrite <-validateCertRequest_ok, <-validateHosts_ok, <-validateRollbackPath_ok, <-validateDNS_ok.
  generalize (validateCertRequest DefaultCertDir (Cert req)) (validateHostsConfigForHelper DefaultHostsPath DefaultRollbackPath (ReqHosts req))
    (validateRollbackPath DefaultRollbackPath (RollbackPath req)) (validateSystemDNSConfigForHelper DefaultRollbackPath (SystemDNS req)).
  set (c := Command req). clearbody c. intros rc rh rr rd.
  repeat match goal with |- context [bool_decide (c = ?k)] => destruct (bool_decide_reflect (c = k)); [subst c; cbn [orb]|] end; cbn [orb].
  all: split; [intros Hv|intros Hv; repeat match goal with H : _ ∨ _ |- _ => destruct H | H : _ ∧ _ |- _ => destruct H end; try done].
  all: try tauto.
  - destruct rc as [[]|]; [|done]. tauto.
  - by subst.
  - done.
Qed.
End authorisation.

(** The service checks the same requests, against the process at the other end of
    its pipe. *)
Lemma validateAppHostRequest_ok `{Externals} `{Encoding} `{FilePath} DefaultHostsPath DefaultRollbackPath DefaultCertDir req clientPID :
  validateAppHostRequest DefaultHostsPath DefaultRollbackPath DefaultCertDir req clientPID = Ok tt <->
  Version req = helperVersion ∧ is_blank (Token req) = false ∧ (0 < clientPID)%Z ∧ ParentPID req = clientPID ∧
  authorised DefaultHostsPath DefaultRollbackPath DefaultCertDir req.
Proof.
  rewrite <-validatePrivileged_ok. unfold validateAppHostRequest.
  destruct (Z.eqb_spec (Version req) helperVersion); cbn [negb]; [|split; [done|tauto]].
  destruct (Z.leb_spec (ParentPID req) 0); [split; [done|lia]|].
  destruct (is_blank (Token req)); [split; [done|by intros (_ & ? & _)]|].
  destruct (Z.leb_spec clientPID 0); [split; [done|lia]|].
  destruct (Z.eqb_spec (ParentPID req) clientPID); cbn [negb]; [|split; [done|tauto]]. intuition lia.
Qed.

(** What the token and the process id say: the request was issued by the process
    that started the helper. *)
Definition issued (req : HelperRequest) (token : gostring) (parentPID : Z) : Prop :=
  Version req = helperVersion ∧ is_blank token = false ∧ Token req = token ∧ (0 < parentPID)%Z ∧ ParentPID req = parentPID.

Lemma validateHelperRequest_ok `{Externals} `{Encoding} `{FilePath} DefaultHostsPath DefaultRollbackPath DefaultCertDir req token parentPID :
  validateHelperRequest DefaultHostsPath DefaultRollbackPath DefaultCertDir req token parentPID = Ok tt <->
  issued req token parentPID ∧ authorised DefaultHostsPath DefaultRollbackPath DefaultCertDir req.
Proof.
  rewrite <-validatePrivileged_ok. unfold validateHelperRequest, issued.
  destruct (Z.eqb_spec (Version req) helperVersion); cbn [negb]; [|split; [done|tauto]].
  destruct (is_blank token); cbn [orb]; [split; [done|by intros [(_ & ? & _) _]]|].
  case_bool_decide; cbn [negb]; [|split; [done|tauto]].
  destruct (Z.leb_spec parentPID 0); cbn [orb]; [split; [done|lia]|].
  destruct (Z.eqb_spec (ParentPID req) parentPID); cbn [negb]; [|split; [done|tauto]]. tauto.
Qed.

Section helper_properties.
Context {X : Type} `{Externals} `{Encoding} `{FilePath}.
Context (store : CertStore X) (hostsPlatform : Hosts.Platform X) (dnsPlatform : SystemDns.Platform X).
Context (owns : CertConfig -> gostring -> Prop) `{!ContainedStore store owns} `{!ContainedHosts hostsPlatform} `{!ContainedDNS dnsPlatform}.
Context (now : Time) (ctxErr : option error) (privileged : bool) (helperStatus : gostring).
Context (decodeRequest : gostring -> result HelperRequest) (encodeResponse : HelperResponse -> gostring).
Context (text : error -> gostring) (DefaultHostsPath DefaultRollbackPath DefaultCertDir : gostring).

Lemma readHelperRequest_spec path (w : World X) :
  files (readHelperRequest decodeRequest path w).2 = files w ∧ sys (readHelperRequest decodeRequest path w).2 = sys w ∧
  forall req, (readHelperRequest decodeRequest path w).1 = Ok req ->
    exists data, files w !! path = Some data ∧ decodeRequest data = Ok req.
Proof.
  unfold readHelperRequest, io_bind, io_wrap, os_ReadFile, os_call. pose proof (next_fault_files w) as Hf. pose proof (next_fault_sys w) as Hs.
  destruct (next_fault w) as [[f|] w1]; cbn in *; [done|]. rewrite Hf.
  destruct (files w !! path) as [d|]; cbn; [|by rewrite Hf]. split_and!; [done..|]. unfold io_of. cbn.
  destruct (decodeRequest d) as [r|] eqn:E; [|done]. intros req [= ->]. by exists d.
Qed.

Lemma writeHelperResponse_confined path resp : moves (confined (X := X) (eq path)) (writeHelperResponse encodeResponse path resp).
Proof.
  unfold writeHelperResponse. apply moves_bind; [apply _|apply moves_wrap, confined_call; done|intros _].
  by apply moves_wrap, confined_put.
Qed.

End helper_properties.

(** ** Containment of paths on Unix *)

Definition unix_encoding `{E : Encoding} (cwd : gostring) : Encoding := {|
  json_Marshal := json_Marshal;
  json_Unmarshal := json_Unmarshal;
  time_Format := time_Format;
  time_Parse := time_Parse;
  filepath_Dir := unix_Dir;
  filepath_Abs path := Ok (unix_Abs cwd path);
  os_TempDir := os_TempDir;
|}.

(** On Unix the containment check is exact: a path passes exactly when the
    elements of its absolute form, with every dot and double dot resolved, begin with
    those of the directory; no spelling of a path outside gets through. *)
Theorem isUnderOrEqual_exact `{Externals} `{Encoding} cwd path base :
  rooted cwd = true ->
  exists es bs, unix_Abs cwd path = render true es ∧ unix_Abs cwd base = render true bs ∧
    Forall normal es ∧ Forall normal bs ∧
    (@isUnderOrEqual _ (unix_encoding cwd) unix path base = true <-> bs `prefix_of` es).
Proof.
  intros Hc. destruct (unix_Abs_normal cwd path Hc) as (es & He & Hn). destruct (unix_Abs_normal cwd base Hc) as (bs & Hb & Hm).
  exists es, bs. split_and!; [done..|]. unfold isUnderOrEqual. cbn [filepath_Abs unix_encoding].
  change (@on_windows unix) with false. cbn [filepath_Clean unix filepath_Rel PathSeparator].
  rewrite He, Hb, !unix_Clean_render by done. case_bool_decide as E.
  - split; [|done]. intros _. apply (f_equal parts) in E. rewrite !parts_render in E by done. by subst.
  - destruct (unix_Rel_inside bs es Hm Hn) as (rel & -> & Hi). exact Hi.
Qed.

Lemma Join_head es c s : Forall normal es -> Join es [slash] = c :: s -> c <> slash.
Proof.
  intros Hn. destruct Hn as [|e es (He & _ & _ & Hs) Hn]; [done|]. destruct e as [|x e]; [done|].
  destruct es; cbn; intros [= <- _]; set_solver.
Qed.

Lemma Join_last es c : Forall normal es -> last (Join es [slash]) = Some c -> c <> slash.
Proof.
  intros Hn. destruct (decide (es = [])) as [->|Hne]; [done|]. destruct (exists_last Hne) as (es' & e & ->).
  apply Forall_app in Hn as [_ Hn]. inversion Hn as [|? ? (He & _ & _ & Hs) _]; subst.
  assert (exists pre, Join (es' ++ [e]) [slash] = pre ++ e) as [pre ->].
  { destruct (decide (es' = [])) as [->|Hne']; [by exists []|]. rewrite Join_app by done. exists (Join es' [slash] ++ [slash]).
    by rewrite <-app_assoc. }
  destruct (exists_last He) as (e' & x & ->). rewrite app_assoc, last_snoc. intros [= <-]. set_solver.
Qed.

Lemma splitPath_render es : Forall normal es -> @splitPath unix (render true es) = es.
Proof.
  intros Hn. unfold splitPath. cbn zeta. change (@filepath_VolumeName unix (render true es)) with (@nil byte).
  change (@PathSeparator unix) with slash. rewrite (bool_decide_eq_true_2 ([] = [])) by done.
  assert (Trim (render true es) [slash] = Join es [slash]) as ->.
  { unfold Trim, TrimLeft. cbn [render drop_while]. change (in_cutset [slash] slash) with true. cbn beta iota.
    assert (forall c, c <> slash -> in_cutset [slash] c = false) as Hc.
    { intros c Hc. apply bool_decide_eq_false_2. by intros ?%list_elem_of_singleton. }
    rewrite drop_while_id.
    - apply TrimRight_last. destruct (last (Join es [slash])) as [c|] eqn:El; [|done]. by eapply Hc, Join_last.
    - destruct (Join es [slash]) as [|c s] eqn:Ej; [done|]. by eapply Hc, Join_head. }
  destruct (decide (es = [])) as [->|Hne]; [done|]. rewrite bool_decide_eq_false_2; [by apply Split_elements|].
  intros Hj. destruct Hn as [|e es' (He & _) _]; [done|]. destruct e; [done|]. by destruct es'.
Qed.

Lemma zip_same {A} (f : A -> A -> bool) l : (forall x, f x x = true) -> forallb (fun ab => f ab.1 ab.2) (zip l l) = true.
Proof. intros Hf. induction l as [|x l IH]; cbn; [done|]. by rewrite Hf. Qed.

(** Below any directory at all a path with the last elements of the default one
    is allowed (on Unix): the checks of the rollback and certificate paths do not
    confine the helper to the directories of the user who started it. *)
Theorem suffix_allowed_anywhere `{Externals} `{Encoding} default dir :
  Forall normal dir -> Forall normal (@projectPathSuffix _ unix default) -> @projectPathSuffix _ unix default <> [] ->
  @isAllowedProjectPath _ _ unix (render true (dir ++ @projectPathSuffix _ unix default)) default = true.
Proof.
  set (suffix := @projectPathSuffix _ unix default). intros Hd Hs Hne.
  unfold isAllowedProjectPath. apply orb_true_iff. right. fold suffix. unfold hasPathSuffix.
  assert (Forall normal (dir ++ suffix)) as Hn by by apply Forall_app.
  change (@filepath_Clean unix) with unix_Clean. rewrite unix_Clean_render, splitPath_render by done.
  destruct suffix as [|x xs] eqn:Ex; [done|]. rewrite <-Ex in *.
  rewrite bool_decide_eq_false_2 by (rewrite length_app; lia).
  rewrite length_app, Nat.add_sub, drop_app_length. apply zip_same. intros y. unfold sameElement.
  change (@on_windows unix) with false. by apply bool_decide_eq_true_2.
Qed.

(** ** Restoring *)

Section restoring.
Context {X : Type} `{Externals} `{Encoding} `{FilePath}.
Context (store : CertStore X) (hostsPlatform : Hosts.Platform X) (dnsPlatform : SystemDns.Platform X).
Context (now : Time) (privileged : bool) (helperStatus : gostring).

Definition for_windows (st : Hosts.State) : Prop := Hosts.StOS st = [] ∨ Hosts.StOS st = "windows".

(** Restoring hosts through the helper follows the rollback file wherever it
    points: the file it names is rewritten with the helper's rights, whatever file it
    is, although a request to change the hosts file is refused for any path but the
    default one.  The rollback file belongs to the unprivileged user. *)
Theorem restore_follows_state_file req w data st body DefaultHostsPath DefaultRollbackPath DefaultCertDir :
  Hosts.HealthyPlatform hostsPlatform -> faults w = [] -> on_windows && negb privileged = false ->
  Command req = CommandRestoreHosts -> files w !! RollbackPath req = Some data ->
  json_decode Hosts.json_state data = Ok st -> Hosts.ours st = true -> for_windows st ->
  files w !! Hosts.StPath st = Some body -> Hosts.StPath st <> RollbackPath req ->
  executeHelperRequest store hostsPlatform dnsPlatform now None privileged helperStatus req w =
    (Ok succeeded, set_files (delete (RollbackPath req) (<[Hosts.StPath st := Hosts.removeManagedBlock body]> (files w))) w) ∧
  (forall other, Command other = CommandPrepareHostsStart -> Hosts.Path (ReqHosts other) = Hosts.StPath st ->
     validatePrivilegedRequest DefaultHostsPath DefaultRollbackPath DefaultCertDir other = Ok tt ->
     samePath (Hosts.StPath st) DefaultHostsPath = true).
Proof.
  intros Hp Hf Hw Hc Hd Hst Hours Hos Hb Hne. split.
  2: { intros other Ho Hpath [Hv|[(_ & _ & Hv & _)|Hv]]%validatePrivileged_ok.
       - rewrite Ho in Hv. done.
       - by rewrite <-Hpath.
       - rewrite Ho in Hv. destruct Hv as [[[Hv|Hv] _]|[[[Hv|Hv] _]|[[Hv|Hv] _]]]; discriminate Hv. }
  unfold executeHelperRequest. rewrite Hw, Hc.
  change (bool_decide (CommandRestoreHosts = CommandAppHostHealth)) with false.
  change (bool_decide (CommandRestoreHosts = CommandPrepareHostsStart)) with false.
  change (bool_decide (CommandRestoreHosts = CommandTrustRootCA)) with false.
  change (bool_decide (CommandRestoreHosts = CommandUntrustRootCA)) with false.
  change (bool_decide (CommandRestoreHosts = CommandRestoreHosts)) with true. cbn beta iota.
  unfold io_bind at 1, Hosts.RestoreWithPlatform, io_try at 1.
  assert (Hosts.ReadState (RollbackPath req) w = (Ok st, w)) as ->.
  { unfold Hosts.ReadState, io_bind, os_ReadFile, os_call, io_wrap, io_of. by rewrite next_fault_healthy, Hd, Hst. }
  rewrite Hours, Hosts.healthy_name. cbn [negb].
  assert (negb (bool_decide (Hosts.StOS st = [])) && negb (bool_decide (Hosts.StOS st = "windows")) = false) as ->.
  { destruct Hos as [->| ->]; [done|]. by rewrite andb_false_r. }
  change (bool_decide ("windows"%go = "windows"%go)) with true. cbn [negb]. unfold io_bind at 1 2, io_wrap. cbn [ctx_Err io_ret].
  rewrite (Hosts.healthy_read _ _ _ Hf Hb). cbn [wrap_err]. unfold io_try at 1.
  pose proof (Hosts.healthy_mode _ _ _ Hf Hb) as Hm. destruct (Hosts.PFileMode _ _ w) as [mode w2]. cbn [snd] in Hm. subst w2.
  unfold io_try. rewrite (Hosts.healthy_write _ _ _ _ _ Hf Hb). unfold Hosts.RemoveState, io_try, os_Remove, os_call.
  rewrite next_fault_healthy by done. cbn. rewrite lookup_insert_ne, Hd by done. done.
Qed.
End restoring.

(** ** Acting directly

    Off Windows, and in a process with the rights, an operation is the direct one
    unless it fails with an error that asks for the helper. *)
Section elevation.
Context {X : Type} `{Externals} `{FilePath} (text : error -> gostring).

Lemma with_retry_direct {A} (direct elevated : IO X A) retry w :
  (forall e, (direct w).1 = Err e -> retry e = false) -> with_retry direct elevated false retry w = direct w.
Proof.
  intros Hr. unfold with_retry, io_try. destruct (direct w) as [[a|e] w1]; [done|]. by rewrite (Hr e).
Qed.

Lemma no_retry_elsewhere e cfg :
  on_windows = false ->
  shouldRetrySystemChangeWithHelper text e = false ∧ shouldRetryCertWithHelper text e cfg = false ∧
  (forall p, ShouldUseHelper p = false ∧ shouldUseCertHelper p cfg = false).
Proof.
  intros Hw. unfold shouldRetrySystemChangeWithHelper, shouldRetryCertWithHelper, ShouldUseHelper, shouldUseCertHelper.
  by rewrite Hw.
Qed.
End elevation.

(** ** Witnesses *)

#[export] Instance other_contained {X : Type} goos : ContainedHosts (Hosts.otherPlatform (X := X) goos).
Proof.
  split; cbn.
  - intros path. apply confined_read.
  - intros path. apply confined_call. intros w. by destruct (files w !! path).
  - intros path. apply moves_bind; [apply _| |intros _; by apply confined_call].
    apply confined_call. intros w. by destruct (files w !! path).
  - intros path data mode. by apply confined_put.
Qed.

#[export] Instance unsupported_contained {X : Type} name : ContainedDNS (SystemDns.unsupportedPlatform (X := X) name).
Proof. by repeat split. Qed.

(** A store that keeps one certificate file. *)
Definition ca_file (c : CertConfig) : gostring := Dir c ++ "/ca.pem".
Definition file_store : CertStore unit := {|
  SIsInstalled c := fun w => (Ok (bool_decide (is_Some (files w !! ca_file c))), w);
  SEnsureTrusted c :=
    io _ <- os_WriteFile (ca_file c) "certificate";
    io_ret {| TPlatform := "linux"; TCertPath := ca_file c; TThumbprint := []; TStoreScope := StoreScope c; TAlreadyTrusted := false;
              TInstalled := true; TChanged := true; TViaHelper := false |};
  SUninstall c := os_Remove (ca_file c);
  SRootCertPath := ca_file;
|}.

Lemma ca_file_below c : below (Dir c) (ca_file c).
Proof. unfold below, ca_file. change "/ca.pem"%go with ("/"%go ++ "ca.pem"%go). rewrite app_assoc. apply HasPrefix_app. Qed.

#[export] Instance file_store_contained : ContainedStore file_store (fun c => below (Dir c)).
Proof.
  split; cbn; [done|..]; intros c.
  - eapply confined_writes with (P := below (Dir c)); [done|]. apply moves_bind; [apply _| |done]. apply confined_put, ca_file_below.
  - eapply confined_writes with (P := below (Dir c)); [done|]. apply confined_remove, ca_file_below.
Qed.

Section privilege_witnesses.
#[local] Existing Instance simple_externals.
#[local] Instance sample_encoding : Encoding := @unix_encoding simple_encoding "/".

Definition default_rollback : gostring := "/run/user/steam-accelerator-core/rollback.json".
Definition default_certs : gostring := "/home/user/.config/steam-accelerator-core/certs".

Definition sample_request (command : gostring) (rollback : gostring) : HelperRequest :=
  {| Version := 1; Token := "t0"; ParentPID := 7; Command := command; Cert := {| Dir := default_certs; StoreScope := "user" |};
     ReqHosts := noHosts; SystemDNS := noDNS; RollbackPath := rollback; AutoInstall := false |}.

Definition trust_request (data : gostring) : result HelperRequest := Ok (sample_request CommandTrustRootCA []).
Definition no_response (r : HelperResponse) : gostring := if OK r then "ok" else "failed".
Definition silent (e : error) : gostring := [].

Definition sample_world : World unit :=
  {| files := <[("/tmp/request" : gostring) := ("{}" : gostring)]> ∅; faults := []; sys := tt |}.

(** A system whose settings are whether the certificate is trusted and whether the DNS
    settings point at the program. *)
Definition trusting_store : CertStore (bool * bool) := {|
  SIsInstalled c := fun w => (Ok (sys w).1, w);
  SEnsureTrusted c :=
    io _ <- os_WriteFile (ca_file c) "certificate";
    io _ <- (fun w => (Ok tt, set_sys (true, (sys w).2) w));
    io_ret {| TPlatform := "linux"; TCertPath := ca_file c; TThumbprint := []; TStoreScope := StoreScope c; TAlreadyTrusted := false;
              TInstalled := true; TChanged := true; TViaHelper := false |};
  SUninstall c := io _ <- os_Remove (ca_file c); fun w => (Ok tt, set_sys (false, (sys w).2) w);
  SRootCertPath := ca_file;
|}.

Definition switching_dns : SystemDns.Platform (bool * bool) := {|
  SystemDns.PName := "linux";
  SystemDns.PSnapshot _ := io_err (Errorf "no adapters" []);
  SystemDns.PApply _ _ := fun w => (Ok tt, set_sys ((sys w).1, true) w);
  SystemDns.PRestore _ := fun w => (Ok tt, set_sys ((sys w).1, false) w);
|}.

#[local] Instance trusting_store_contained : ContainedStore trusting_store (fun c => below (Dir c)).
Proof.
  split; cbn; [done|..]; intros c.
  - apply moves_bind; [apply _|eapply confined_writes with (P := below (Dir c)); [done|apply confined_put, ca_file_below]|intros _].
    apply moves_bind; [apply _|by intros w q Hq|done].
  - apply moves_bind; [apply _|eapply confined_writes with (P := below (Dir c)); [done|apply confined_remove, ca_file_below]|intros _].
    by intros w q Hq.
Qed.

#[local] Instance switching_dns_contained : ContainedDNS switching_dns.
Proof. by repeat split. Qed.

#[local] Instance trust_and_dns : SeparateSettings fst snd trusting_store switching_dns.
Proof.
  split; cbn; try done; intros c.
  - apply moves_bind; [apply _|eapply confined_unseen, (confined_put (below (Dir c))), ca_file_below|intros _].
    by apply moves_bind; [apply _| |].
  - apply moves_bind; [apply _|eapply confined_unseen, (confined_remove (below (Dir c))), ca_file_below|by intros _].
Qed.

Definition trusting_world : World (bool * bool) :=
  {| files := <[("/tmp/request" : gostring) := ("{}" : gostring)]> ∅; faults := []; sys := (false, false) |}.

Definition helper_run : result unit * World (bool * bool) :=
  RunHelper trusting_store (Hosts.otherPlatform "linux") switching_dns 0%Z None true []
    trust_request no_response silent "/etc/hosts" default_rollback default_certs "/tmp/request" "/tmp/response" "t0" 7 trusting_world.

Lemma helper_run_trusts :
  helper_run.1 = Ok tt ∧ files helper_run.2 !! (default_certs ++ "/ca.pem") = Some ("certificate" : gostring) ∧ sys helper_run.2 = (true, false).
Proof. split_and!; vm_compute; reflexivity. Qed.


Lemma isUnderOrEqual_exact_witness :
  isUnderOrEqual "/run/user/../user/x" "/run/user" = true ∧ isUnderOrEqual "/run/user/../root" "/run/user" = false ∧
  exists es bs, unix_Abs "/" "/run/user/../root" = render true es ∧ unix_Abs "/" "/run/user" = render true bs ∧ ~ bs `prefix_of` es.
Proof.
  split; [vm_compute; reflexivity|]. split; [vm_compute; reflexivity|].
  destruct (@isUnderOrEqual_exact simple_externals simple_encoding "/" "/run/user/../root" "/run/user" eq_refl)
    as (es & bs & He & Hb & _ & _ & Hi).
  exists es, bs. split; [exact He|]. split; [exact Hb|]. intros Hp. apply Hi in Hp. vm_compute in Hp. discriminate Hp.
Defined.

Lemma suffix_allowed_anywhere_witness :
  isAllowedProjectPath "/home/mallory/steam-accelerator-core/rollback.json" default_rollback = true.
Proof.
  apply (suffix_allowed_anywhere default_rollback ["home"; "mallory"]); unfold normal; by_decide.
Defined.

(** A rollback file that names a system file. *)
Definition foreign_state : Hosts.State :=
  {| Hosts.StKind := Hosts.stateKind; Hosts.StVersion := 1; Hosts.StOS := []; Hosts.StMode := []; Hosts.StPath := "/etc/shadow";
     Hosts.StMapIP := []; Hosts.StEntries := []; Hosts.StCreatedAt := 0%Z |}.
Definition foreign_rollback : gostring := "/home/mallory/steam-accelerator-core/rollback.json".
Definition foreign_data : gostring := json_Marshal (Hosts.state_json foreign_state).
Definition foreign_world : World unit :=
  {| files := <[("/etc/shadow" : gostring) := ("root" : gostring)]> (<[foreign_rollback := foreign_data]> ∅);
     faults := []; sys := tt |}.

#[local] Instance other_healthy : Hosts.HealthyPlatform (Hosts.otherPlatform (X := unit) "windows").
Proof.
  split; cbn; [done|..]; unfold os_ReadFile, Hosts.osFileMode, os_WriteFile, os_put, os_call.
  - intros path d w Hf Hd. by rewrite next_fault_healthy, Hd.
  - intros path d w Hf Hd. by rewrite next_fault_healthy, Hd.
  - intros path d0 d m w Hf Hd. by rewrite next_fault_healthy.
Qed.

Lemma foreign_decodes : json_decode Hosts.json_state foreign_data = Ok foreign_state.
Proof. vm_compute. reflexivity. Qed.

Lemma restore_follows_state_file_witness :
  validatePrivilegedRequest "/etc/hosts" default_rollback default_certs (sample_request CommandRestoreHosts foreign_rollback) = Ok tt ∧
  files (executeHelperRequest file_store (Hosts.otherPlatform "windows") (SystemDns.unsupportedPlatform "linux") 0%Z None true []
    (sample_request CommandRestoreHosts foreign_rollback) foreign_world).2 !! ("/etc/shadow" : gostring) = Some (Hosts.removeManagedBlock "root").
Proof.
  split; [vm_compute; reflexivity|]. assert (@on_windows unix && negb true = false) as Hw by reflexivity.
  destruct (@restore_follows_state_file unit simple_externals sample_encoding unix file_store (Hosts.otherPlatform "windows") (SystemDns.unsupportedPlatform "linux") 0%Z true []
    (sample_request CommandRestoreHosts foreign_rollback) foreign_world foreign_data foreign_state "root"
    "/etc/hosts" default_rollback default_certs other_healthy eq_refl Hw eq_refl ltac:(vm_compute; reflexivity) foreign_decodes eq_refl
    ltac:(by left) ltac:(vm_compute; reflexivity) ltac:(discriminate)) as [He _].
  rewrite He. vm_compute. reflexivity.
Defined.
End privilege_witnesses.
