(* ===== verification/Http.v ===== *)
(** HTTP headers and responses as the servers use them: [net/http]'s Header (a map
    from canonical keys to lists of values), the response writer, and a body that
    is still to be read. *)
From stdpp Require Import strings.
From Stdlib Require Import Ascii.
From S2P Require Import Prelude GoStrings GoNet External Config.

(** * Headers *)

Definition Header : Type := gmap gostring (list gostring).

Definition Header_Values (h : Header) (key : gostring) : list gostring := default [] (h !! CanonicalMIMEHeaderKey key).
Definition Header_Get (h : Header) (key : gostring) : gostring := default [] (head (Header_Values h key)).
Definition Header_Set (h : Header) (key value : gostring) : Header := <[CanonicalMIMEHeaderKey key := [value]]> h.
Definition Header_Add (h : Header) (key value : gostring) : Header :=
  <[CanonicalMIMEHeaderKey key := Header_Values h key ++ [value]]> h.
Definition Header_Del (h : Header) (key : gostring) : Header := delete (CanonicalMIMEHeaderKey key) h.

(** A header without the given canonical keys. *)
Definition without (keys : list gostring) (h : Header) : Header := filter (fun kv => kv.1 ∉ keys) h.

(** * Response writers *)

Record ResponseWriter := {
  wHeader : Header;
  wStatus : option Z;
  wBody : gostring;
}.

(** http.Error *)
Definition httpError (w : ResponseWriter) (msg : gostring) (status : Z) : ResponseWriter :=
  {| wHeader := Header_Set (Header_Set (Header_Del (wHeader w) "Content-Length") "Content-Type" "text/plain; charset=utf-8")
                  "X-Content-Type-Options" "nosniff";
     wStatus := Some status; wBody := wBody w ++ msg ++ nl |}.

Definition StatusOK : Z := 200.
Definition StatusBadRequest : Z := 400.
Definition StatusForbidden : Z := 403.
Definition StatusInternalServerError : Z := 500.
Definition StatusBadGateway : Z := 502.

(** * Bodies

    What is still to be read of a body: the bytes, and the error that follows
    them, [None] for the end of the stream. *)
Record Body := {
  bData : gostring;
  bFail : option error;
  bClosed : bool;
}.

Definition fresh_body (data : gostring) : Body := {| bData := data; bFail := None; bClosed := false |}.

(** io.ReadAll(io.LimitReader(body, n)): the bytes read or the error met before the
    limit, and what is left of the body. *)
Definition ReadAllLimit (b : Body) (n : Z) : result gostring * Body :=
  let m := Z.to_nat n in
  let rest := {| bData := drop m (bData b); bFail := bFail b; bClosed := bClosed b |} in
  match bFail b with
  | Some e => if bool_decide (length (bData b) < m) then (Err e, rest) else (Ok (take m (bData b)), rest)
  | None => (Ok (take m (bData b)), rest)
  end.

(** * Lemmas *)

Lemma upper_byte_idemp c : upper_byte (upper_byte c) = upper_byte c.
Proof. by destruct c as [[] [] [] [] [] [] [] []]. Qed.

Lemma case_byte_dash c : (upper_byte c = chr 45 <-> c = chr 45) ∧ (lower_byte c = chr 45 <-> c = chr 45).
Proof. split; destruct c as [[] [] [] [] [] [] [] []]; split; intros Hc; (reflexivity || discriminate Hc). Qed.

Lemma case_byte_valid c :
  validHeaderFieldByte c = true -> validHeaderFieldByte (upper_byte c) = true ∧ validHeaderFieldByte (lower_byte c) = true.
Proof. destruct c as [[] [] [] [] [] [] [] []]; intros Hc; (split; reflexivity) || discriminate Hc. Qed.

Lemma canonicalBytes_idemp u s : canonicalBytes u (canonicalBytes u s) = canonicalBytes u s.
Proof.
  revert u. induction s as [|c s IH]; intros u; [done|]. cbn [canonicalBytes].
  destruct (case_byte_dash c) as [Hu Hl].
  assert (Hd : bool_decide ((if u then upper_byte c else lower_byte c) = chr 45) = bool_decide (c = chr 45)).
  { apply bool_decide_ext. by destruct u. }
  rewrite Hd, IH. f_equal. destruct u; [apply upper_byte_idemp|apply lower_byte_idemp].
Qed.

Lemma canonicalBytes_valid u s :
  forallb validHeaderFieldByte s = true -> forallb validHeaderFieldByte (canonicalBytes u s) = true.
Proof.
  revert u. induction s as [|c s IH]; intros u; [done|]. cbn [canonicalBytes forallb].
  rewrite !andb_true_iff. intros [Hc Hs]. split; [|by apply IH]. destruct u; by apply case_byte_valid.
Qed.

Lemma CanonicalMIMEHeaderKey_idemp s : CanonicalMIMEHeaderKey (CanonicalMIMEHeaderKey s) = CanonicalMIMEHeaderKey s.
Proof.
  unfold CanonicalMIMEHeaderKey. destruct (forallb validHeaderFieldByte s) eqn:Hv; [|by rewrite Hv].
  rewrite canonicalBytes_valid by done. apply canonicalBytes_idemp.
Qed.

Lemma Header_Del_lookup h k k' : Header_Del h k !! k' = if bool_decide (k' = CanonicalMIMEHeaderKey k) then None else h !! k'.
Proof. unfold Header_Del. case_bool_decide; subst; [apply lookup_delete_eq|by apply lookup_delete_ne]. Qed.

Lemma Header_Set_lookup h k v k' :
  Header_Set h k v !! k' = if bool_decide (k' = CanonicalMIMEHeaderKey k) then Some [v] else h !! k'.
Proof. unfold Header_Set. case_bool_decide; subst; [apply lookup_insert_eq|by apply lookup_insert_ne]. Qed.

Lemma Header_Add_lookup h k v k' :
  Header_Add h k v !! k' = if bool_decide (k' = CanonicalMIMEHeaderKey k) then Some (Header_Values h k ++ [v]) else h !! k'.
Proof. unfold Header_Add. case_bool_decide; subst; [apply lookup_insert_eq|by apply lookup_insert_ne]. Qed.

Lemma Header_Get_Set h k v : Header_Get (Header_Set h k v) k = v.
Proof. unfold Header_Get, Header_Values. by rewrite Header_Set_lookup, bool_decide_eq_true_2. Qed.

Lemma without_lookup keys h k : without keys h !! k = if bool_decide (k ∈ keys) then None else h !! k.
Proof.
  unfold without. case_bool_decide as Hk.
  - apply map_lookup_filter_None. right. intros x _. cbn. tauto.
  - destruct (h !! k) as [x|] eqn:Ex; [by apply map_lookup_filter_Some|apply map_lookup_filter_None; by left].
Qed.

(** Deleting a list of keys one after the other. *)
Lemma foldl_Header_Del ks h k :
  foldl Header_Del h ks !! k = if bool_decide (k ∈ CanonicalMIMEHeaderKey <$> ks) then None else h !! k.
Proof.
  revert h. induction ks as [|x ks IH]; intros h; [done|]. cbn [foldl]. rewrite IH, Header_Del_lookup.
  cbn [fmap list_fmap]. repeat case_bool_decide; set_solver.
Qed.

Lemma ReadAllLimit_rest b n r rest :
  ReadAllLimit b n = (Ok r, rest) -> r ++ bData rest = bData b ∧ bFail rest = bFail b ∧ bClosed rest = bClosed b.
Proof.
  unfold ReadAllLimit. destruct (bFail b) as [e|] eqn:Ef; [case_bool_decide; [done|]|]; intros [= <- <-]; cbn;
    by rewrite take_drop.
Qed.
