(* ===== verification/HttpConnect.v ===== *)
(** The dialer that reaches a host through an HTTP proxy
    (src/internal/upstream/upstream.go, HTTPDialer): the CONNECT request, the response of
    the proxy and what it leaves of the connection; and the HEAD request of a probe
    (probe.go), which reads its response in the same way.

    net/http's writing of the request and reading of the response are written out for
    what the dialer uses of them.  A connection is the sequence of what its reads return:
    the response is read through a buffer, so a read can return more than the response. *)
From stdpp Require Import strings.
From Stdlib Require Import Ascii.
From S2P Require Import Prelude GoStrings GoNet External World Config Base64 Http.
From S2P Require Profile Upstream Socks5.

(** * The connection *)

(** [reads] are the bytes that the reads return one after the other, then [readEnd];
    [writeFault] lets a number of bytes through and then fails. *)
Record Conn := {
  reads : list gostring;
  readEnd : error;
  sent : gostring;
  writeFault : option (nat * error);
  closed : bool;
}.

Definition ConnWrite (data : gostring) (c : Conn) : result unit * Conn :=
  match writeFault c with
  | Some (n, e) => (Err e, {| reads := reads c; readEnd := readEnd c; sent := sent c ++ take n data; writeFault := None; closed := closed c |})
  | None => (Ok tt, {| reads := reads c; readEnd := readEnd c; sent := sent c ++ data; writeFault := None; closed := closed c |})
  end.
Definition set_reads (rs : list gostring) (c : Conn) : Conn :=
  {| reads := rs; readEnd := readEnd c; sent := sent c; writeFault := writeFault c; closed := closed c |}.
Definition CloseConn (c : Conn) : Conn :=
  {| reads := reads c; readEnd := readEnd c; sent := sent c; writeFault := writeFault c; closed := true |}.

(** * net/http *)

Definition ErrUnexpectedEOF : error := ErrorVar "io.ErrUnexpectedEOF".
Definition EOF : error := ErrorVar "io.EOF".

Definition badStringError (what val : gostring) : error := Errorf "%s %q" [what; val].

(** ** The header of a response *)

Definition strip_cr (line : gostring) : gostring := TrimSuffix line [chr 13].

(** The lines up to the first blank one that is not the first, and what follows it;
    [None] when the bytes end before. *)
Fixpoint header_lines (first : bool) (cur s : gostring) : option (list gostring * gostring) :=
  match s with
  | [] => None
  | c :: s' =>
      if bool_decide (c = chr 10) then
        let line := strip_cr cur in
        if negb first && bool_decide (line = []) then Some ([], s')
        else (fun lr => (line :: lr.1, lr.2)) <$> header_lines false [] s'
      else header_lines first (cur ++ [c]) s'
  end.

(** Reading through the buffer: the header, what the buffer holds beyond it, and the
    reads that are left. *)
Fixpoint read_header (buffered : gostring) (rs : list gostring) : option (list gostring * gostring) * list gostring :=
  match header_lines true [] buffered with
  | Some lr => (Some lr, rs)
  | None => match rs with
            | [] => (None, [])
            | r :: rs' => read_header (buffered ++ r) rs'
            end
  end.

Definition blank : gostring := [chr 32; chr 9].

(** A line that begins with white space continues the one before. *)
Definition continues (line : gostring) : bool := existsb (fun c => bool_decide (head line = Some c)) blank.
Fixpoint join_continued (lines : list gostring) : list gostring :=
  match lines with
  | [] => []
  | line :: lines' =>
      match join_continued lines' with
      | next :: rest => if continues next then (Trim line blank ++ " " ++ Trim next blank) :: rest else line :: next :: rest
      | [] => [line]
      end
  end.

Definition validHeaderValueByte (c : byte) : bool :=
  ((32 <=? code c)%N || bool_decide (c = chr 9)) && negb (bool_decide (c = chr 127)).

Definition add_line (h : result Header) (line : gostring) : result Header :=
  do h <- h;
  let line := Trim line blank in
  let '(k, v, found) := Cut line ":" in
  let key_ok := negb (bool_decide (k = [])) && forallb (fun c => validHeaderFieldByte c || bool_decide (c = chr 32)) k in
  if negb (found : bool) || negb key_ok || negb (forallb validHeaderValueByte v)
  then Err (Errorf "malformed MIME header line: %s" [line])
  else Ok (Header_Add h k (TrimLeft v blank)).

Definition ReadMIMEHeader (lines : list gostring) : result Header :=
  match lines with
  | line :: _ => if continues line then Err (Errorf "malformed MIME header initial line: %s" [line])
                 else if existsb (fun line => negb (continues line) && negb (bool_decide (":"%char ∈ line))) lines
                 then Err (Errorf "malformed MIME header: missing colon" [])
                 else foldl add_line (Ok ∅) (join_continued lines)
  | [] => Ok ∅
  end.

(** "HTTP/d.d", and whether it is at least 1.1. *)
Definition ParseHTTPVersion (s : gostring) : option bool :=
  match CutPrefix s "HTTP/" with
  | Some [major; dot; minor] =>
      if is_digit major && bool_decide (dot = "."%char) && is_digit minor
      then Some ((49 <? code major)%N || ((code major =? 49)%N && (49 <=? code minor)%N))
      else None
  | _ => None
  end.

(** ** The body *)

Inductive framing :=
| UntilClose
| NoBody
| Length (n : nat)
| Chunked.

Definition TrimString (s : gostring) : gostring := Trim s [chr 32; chr 9; chr 10; chr 13].

Definition contentLength (h : Header) : result (option Z) :=
  match default [] (h !! ("Content-Length" : gostring)) with
  | [] => Ok None
  | first :: others =>
      if negb (forallb (fun o => bool_decide (TrimString o = TrimString first)) others)
      then Err (Errorf "http: message cannot contain multiple Content-Length headers; got %q" (first :: others))
      else
        let cl := TrimString first in
        if bool_decide (cl = []) then Err (badStringError "invalid empty Content-Length" first)
        else if forallb is_digit cl && (dec_value cl <? 2 ^ 63)%N then Ok (Some (Z.of_N (dec_value cl)))
        else Err (badStringError "bad Content-Length" first)
  end.

Definition isChunked (h : Header) (atLeast11 : bool) : result bool :=
  match h !! ("Transfer-Encoding" : gostring) with
  | None => Ok false
  | Some raw =>
      if negb atLeast11 then Ok false
      else match raw with
           | [enc] => if bool_decide (lower_byte <$> enc = "chunked"%go) then Ok true else Err (Errorf "unsupported transfer encoding: %q" [enc])
           | _ => Err (Errorf "too many transfer encodings: %q" raw)
           end
  end.

(** The framing of a response to CONNECT. *)
Definition framing_of (h : Header) (atLeast11 : bool) (status : Z) : result framing :=
  do chunked <- isChunked h atLeast11;
  if ((100 <=? status) && (status <? 200) || (status =? 204) || (status =? 304))%Z then Ok NoBody
  else if chunked : bool then Ok Chunked
  else
    do cl <- contentLength h;
    Ok match cl with
       | None => UntilClose
       | Some 0%Z => NoBody
       | Some n => Length (Z.to_nat n)
       end.

Record Response := { StatusCode : Z; Status : gostring; RespFraming : framing }.

Definition parse_response (lines : list gostring) : result Response :=
  match lines with
  | [] => Err ErrUnexpectedEOF
  | line :: fields =>
      let '(proto, status, ok) := Cut line " " in
      if negb (ok : bool) then Err (badStringError "malformed HTTP response" line)
      else
        let status := TrimLeft status " " in
        let statusCode := (Cut status " ").1.1 in
        if negb (bool_decide (length statusCode = 3)) then Err (badStringError "malformed HTTP status code" statusCode)
        else match Socks5.Atoi statusCode with
             | None => Err (badStringError "malformed HTTP status code" statusCode)
             | Some code =>
                 if (code <? 0)%Z then Err (badStringError "malformed HTTP status code" statusCode)
                 else match ParseHTTPVersion proto with
                      | None => Err (badStringError "malformed HTTP version" proto)
                      | Some atLeast11 =>
                          do h <- ReadMIMEHeader fields;
                          do f <- framing_of h atLeast11 code;
                          Ok {| StatusCode := code; Status := status; RespFraming := f |}
                      end
             end
  end.

(** http.ReadResponse: the response, what the buffer holds beyond the header, and the
    reads that are left. *)
Definition ReadResponse (c : Conn) : result Response * gostring * list gostring :=
  match read_header [] (reads c) with
  | (None, rs) => (Err (if bool_decide (readEnd c = EOF) then ErrUnexpectedEOF else readEnd c), [], rs)
  | (Some (lines, rest), rs) => (parse_response lines, rest, rs)
  end.

Section dialer.
Context `{Externals}.
(** The host a request is written with (net/http: punycode, validity, no zone), and when
    a chunked body is complete. *)
Variable requestHost : gostring -> result gostring.
Variable chunksComplete : gostring -> bool.

(** Closing the body discards what is left of it. *)
Fixpoint drain (complete : gostring -> bool) (buffered : gostring) (rs : list gostring) : list gostring :=
  if complete buffered then rs
  else match rs with
       | [] => []
       | r :: rs' => drain complete (buffered ++ r) rs'
       end.

Definition CloseBody (f : framing) (buffered : gostring) (rs : list gostring) : list gostring :=
  match f with
  | UntilClose | NoBody => rs
  | Length n => drain (fun b => (n <=? length b)%nat) buffered rs
  | Chunked => drain chunksComplete buffered rs
  end.

(** ** The request *)

Definition header_line (key value : gostring) : gostring := key ++ ": " ++ value ++ crlf.

(** What http.Request.Write writes for the request of the dialer. *)
Definition connectRequest (username password host : gostring) : gostring :=
  "CONNECT " ++ host ++ " HTTP/1.1" ++ crlf ++ header_line "Host" host ++ header_line "User-Agent" "Go-http-client/1.1" ++
  (if negb (bool_decide (username = [])) || negb (bool_decide (password = []))
   then header_line "Proxy-Authorization" ("Basic " ++ StdEncoding (username ++ ":" ++ password)) else []) ++
  crlf.

Definition writeRequest (username password address : gostring) (c : Conn) : result unit * Conn :=
  match requestHost address with
  | Err e => (Err e, c)
  | Ok host => ConnWrite (connectRequest username password host) c
  end.

(** ** Dialing *)

(** [setDeadline] is what the connection answers. *)
Definition setHandshakeDeadline (now timeout : Z) (ctxDeadline : option Z) (setDeadline : Z -> result unit) : result unit :=
  let deadline := (now + timeout)%Z in
  let deadline := match ctxDeadline with Some d => if (d <? deadline)%Z then d else deadline | None => deadline end in
  wrap_err "set upstream deadline: %w" [] (setDeadline deadline).

(** HTTPDialer.DialContext: the connection comes with the result so that its state can be
    seen on every path. *)
Definition HTTPDialContext (d : Upstream.ProxyDialer) (network address : gostring) (dialed : result Conn)
    (now : Z) (ctxDeadline : option Z) (setDeadline : Z -> result unit) : result unit * option Conn :=
  if negb (bool_decide (network ∈ (["tcp"; "tcp4"; "tcp6"] : list gostring)))
  then (Err (Errorf "HTTP upstream only supports TCP networks" []), None)
  else match dialed with
       | Err e => (Err (Wrapf "dial HTTP upstream: %w" [] e), None)
       | Ok conn =>
           match setHandshakeDeadline now (Upstream.ptimeout d) ctxDeadline setDeadline with
           | Err e => (Err e, Some (CloseConn conn))
           | Ok _ =>
               match writeRequest (Upstream.username d) (Upstream.password d) address conn with
               | (Err e, conn) => (Err (Wrapf "write HTTP CONNECT: %w" [] e), Some (CloseConn conn))
               | (Ok _, conn) =>
                   match ReadResponse conn with
                   | (Err e, _, rs) => (Err (Wrapf "read HTTP CONNECT response: %w" [] e), Some (CloseConn (set_reads rs conn)))
                   | (Ok resp, rest, rs) =>
                       if negb (StatusCode resp =? 200)%Z
                       then (Err (Errorf "HTTP upstream CONNECT failed: %s" [Status resp]),
                             Some (CloseConn (set_reads rs conn)))
                       else (Ok tt, Some (set_reads (CloseBody (RespFraming resp) rest rs) conn))
                   end
               end
           end
       end.

(** ** Probing *)

(** The path as net/url writes it into a request. *)
Variable requestPath : gostring -> gostring.

Definition headRequest (host path : gostring) : gostring :=
  "HEAD " ++ path ++ " HTTP/1.1" ++ crlf ++ header_line "Host" host ++ header_line "User-Agent" "steam-accelerator-core-probe" ++ crlf.

(** The answer to a HEAD request has no body, so closing it reads nothing. *)
Definition probeHTTPHead (ctxDeadline : option Z) (setDeadline : Z -> result unit) (target : Profile.ProbeTarget) (conn : Conn)
  : result gostring * Conn :=
  match match ctxDeadline with Some d => setDeadline d | None => Ok tt end with
  | Err e => (Err e, conn)
  | Ok _ =>
      match requestHost (Profile.TargetHost target) with
      | Err e => (Err e, conn)
      | Ok host =>
          match ConnWrite (headRequest host (requestPath (Profile.TargetPath target))) conn with
          | (Err e, conn) => (Err e, conn)
          | (Ok _, conn) =>
              match ReadResponse conn with
              | (Err e, _, rs) => (Err e, set_reads rs conn)
              | (Ok resp, _, rs) => (Ok (Status resp), set_reads rs conn)
              end
          end
      end
  end.
End dialer.

(** * Properties *)

(** ** The header in the stream *)

Lemma header_lines_app first cur s t lines rest :
  header_lines first cur s = Some (lines, rest) -> header_lines first cur (s ++ t) = Some (lines, rest ++ t).
Proof.
  revert first cur lines rest. induction s as [|c s IH]; intros first cur lines rest; [done|]. cbn [header_lines app].
  case_bool_decide; [|apply IH]. destruct (negb first && _); [by intros [= <- <-]|].
  destruct (header_lines false [] s) as [[ls r]|] eqn:E; [|done]. cbn. intros [= <- <-]. by rewrite (IH _ _ _ _ E).
Qed.

(** A part of a header is no header. *)
Lemma header_lines_part wire lines p q :
  header_lines true [] wire = Some (lines, []) -> wire = p ++ q -> q <> [] -> header_lines true [] p = None.
Proof.
  intros Hw -> Hq. destruct (header_lines true [] p) as [[ls rest]|] eqn:E; [|done].
  rewrite (header_lines_app _ _ _ q _ _ E) in Hw. injection Hw as _ Hr. by apply app_eq_nil in Hr as [_ ?].
Qed.

(** Exactly the reads that the header needs are made, and the buffer keeps what the last
    of them returned beyond it. *)
Lemma read_header_exact wire lines init final later early :
  header_lines true [] wire = Some (lines, []) -> concat init ++ final = wire ++ early -> (length (concat init) < length wire)%nat ->
  read_header [] (init ++ final :: later) = (Some (lines, early), later).
Proof.
  intros Hw. change (concat init) with ([] ++ concat init). generalize (@nil byte). induction init as [|r init IH]; intros buffered Heq Hlt.
  - cbn [concat app] in *. rewrite app_nil_r in *. cbn [read_header].
    assert (Hp : exists q, wire = buffered ++ q ∧ q <> []).
    { destruct (app_eq_inv _ _ _ _ Heq) as [(k & -> & _)|(k & -> & _)]; [rewrite length_app in Hlt; lia|].
      exists k. split; [done|]. intros ->. rewrite app_nil_r in Hlt. lia. }
    destruct Hp as (q & Hq & Hne). rewrite (header_lines_part wire lines buffered q) by done.
    rewrite Heq. destruct later as [|r later]; cbn [read_header]; by rewrite (header_lines_app _ _ _ early _ _ Hw).
  - cbn [concat app] in *. rewrite app_assoc in Heq, Hlt.
    assert (Hp : exists q, wire = buffered ++ q ∧ q <> []).
    { rewrite !length_app in Hlt. rewrite <-!app_assoc in Heq.
      destruct (app_eq_inv _ _ _ _ Heq) as [(k & -> & _)|(k & -> & _)]; [rewrite length_app in Hlt; lia|].
      exists k. split; [done|]. intros ->. rewrite app_nil_r in Hlt. lia. }
    destruct Hp as (q & Hq & Hne). cbn [read_header]. rewrite (header_lines_part wire lines buffered q) by done. by apply IH.
Qed.

Lemma header_lines_cur first cur p s : chr 10 ∉ p -> header_lines first cur (p ++ s) = header_lines first (cur ++ p) s.
Proof.
  revert cur. induction p as [|c p IH]; intros cur; [by rewrite app_nil_r|]. intros [Hc Hp]%not_elem_of_cons.
  cbn [header_lines app]. rewrite bool_decide_eq_false_2 by congruence. rewrite IH by done. by rewrite <-app_assoc.
Qed.

Lemma header_lines_line first line s :
  chr 10 ∉ line ->
  header_lines first [] (line ++ crlf ++ s) =
    if negb first && bool_decide (line = []) then Some ([], s)
    else (fun lr => (line :: lr.1, lr.2)) <$> header_lines false [] s.
Proof.
  intros Hl. change (crlf ++ s) with ([chr 13] ++ chr 10 :: s). rewrite app_assoc, header_lines_cur.
  2: { rewrite not_elem_of_app. split; [done|]. by_decide. }
  cbn [header_lines app]. rewrite bool_decide_eq_true_2 by done. unfold strip_cr. by rewrite TrimSuffix_app.
Qed.

(** ** A well-formed response *)

Definition field_ok (kv : gostring * gostring) : Prop :=
  kv.1 <> [] ∧ forallb validHeaderFieldByte kv.1 = true ∧ kv.2 <> [] ∧ forallb validHeaderValueByte kv.2 = true ∧
  (forall c, head kv.2 = Some c ∨ last kv.2 = Some c -> c ∉ blank).
Definition field_line (kv : gostring * gostring) : gostring := kv.1 ++ ": " ++ kv.2.

(** A response without fields that say how long its body is. *)
Definition plain_field (kv : gostring * gostring) : Prop :=
  field_ok kv ∧ CanonicalMIMEHeaderKey kv.1 <> "Content-Length" ∧ CanonicalMIMEHeaderKey kv.1 <> "Transfer-Encoding".

(** What the fields of a response say of the length of its body. *)
Inductive declares : list (gostring * gostring) -> framing -> Prop :=
| declares_nothing fields : Forall plain_field fields -> declares fields UntilClose
| declares_length a b key v :
    Forall plain_field a -> Forall plain_field b -> field_ok (key, v) -> CanonicalMIMEHeaderKey key = "Content-Length" ->
    forallb is_digit v = true -> (dec_value v < 2 ^ 63)%N ->
    declares (a ++ (key, v) :: b) (if (dec_value v =? 0)%N then NoBody else Length (N.to_nat (dec_value v)))
| declares_chunks a b key v :
    Forall plain_field a -> Forall plain_field b -> field_ok (key, v) -> CanonicalMIMEHeaderKey key = "Transfer-Encoding" ->
    lower_byte <$> v = "chunked"%go -> declares (a ++ (key, v) :: b) Chunked.

Lemma declares_ok fields f : declares fields f -> Forall field_ok fields.
Proof.
  assert (Hp : forall l, Forall plain_field l -> Forall field_ok l) by (intros l Hl; eapply Forall_impl; [exact Hl|]; by intros ? []).
  destruct 1; [by apply Hp|..]; apply Forall_app; (split; [by apply Hp|]); apply Forall_cons; (split; [done|by apply Hp]).
Qed.

Definition status_line (code reason : gostring) : gostring := "HTTP/1.1 " ++ code ++ " " ++ reason.
Definition wire_response (code reason : gostring) (fields : list (gostring * gostring)) : gostring :=
  status_line code reason ++ crlf ++ flat_map (fun kv => field_line kv ++ crlf) fields ++ crlf.

Lemma value_no_lf v : forallb validHeaderValueByte v = true -> chr 10 ∉ v.
Proof. intros Hv Hin. rewrite forallb_forall in Hv. by apply list_elem_of_In, Hv in Hin. Qed.

Lemma field_bytes k : forallb validHeaderFieldByte k = true -> chr 10 ∉ k ∧ ":"%char ∉ k ∧ Forall (fun c => c ∉ blank) k.
Proof.
  intros Hk. rewrite forallb_forall in Hk. split_and!; [by intros Hin%list_elem_of_In%Hk..|].
  apply Forall_forall. intros c Hc Hb. apply list_elem_of_In, Hk in Hc. unfold blank in Hb. rewrite !elem_of_cons in Hb.
  destruct Hb as [->|[->|Hb]]; [done..|by apply not_elem_of_nil in Hb].
Qed.

Lemma wire_lines code reason fields :
  chr 10 ∉ status_line code reason -> Forall field_ok fields ->
  header_lines true [] (wire_response code reason fields) = Some (status_line code reason :: (field_line <$> fields), []).
Proof.
  intros Hs Hf. unfold wire_response. rewrite header_lines_line by done. cbn [negb andb].
  enough (header_lines false [] (flat_map (fun kv => field_line kv ++ crlf) fields ++ crlf) = Some (field_line <$> fields, [])) as -> by done.
  induction Hf as [|[k v] fields (Hk & Hkv & Hv & Hvv & _) Hf IH]; [reflexivity|]. cbn [flat_map fmap list_fmap fst snd] in *.
  rewrite <-!app_assoc, header_lines_line.
  2: { unfold field_line. cbn [fst snd]. rewrite !not_elem_of_app. split_and!; [by apply field_bytes|by_decide|by apply value_no_lf]. }
  rewrite bool_decide_eq_false_2 by (unfold field_line; by destruct k). cbn [negb andb]. by rewrite IH.
Qed.

Lemma field_line_trim kv : field_ok kv -> Trim (field_line kv) blank = field_line kv ∧ continues (field_line kv) = false.
Proof.
  destruct kv as [k v]. intros (Hk & Hkv & Hv & _ & Hends). cbn [fst snd] in *. unfold field_line. cbn [fst snd].
  destruct (field_bytes k Hkv) as (_ & _ & Hb). destruct k as [|c k]; [done|]. apply Forall_cons in Hb as [Hc _].
  assert (Hin : in_cutset blank c = false) by (unfold in_cutset; by apply bool_decide_eq_false_2).
  split.
  - unfold Trim, TrimLeft. rewrite drop_while_id by done. apply TrimRight_last.
    destruct v as [|d v _] using rev_ind; [done|]. rewrite !app_assoc, last_snoc. unfold in_cutset.
    apply bool_decide_eq_false_2, Hends. right. apply last_snoc.
  - unfold continues, blank in *. cbn. rewrite !bool_decide_eq_false_2; [done| |]; intros [= ->]; apply Hc; by_decide.
Qed.

Lemma add_field h kv : field_ok kv -> add_line (Ok h) (field_line kv) = Ok (Header_Add h kv.1 kv.2).
Proof.
  intros Hok. unfold add_line. cbn [rbind]. rewrite (proj1 (field_line_trim kv Hok)).
  destruct kv as [k v], Hok as (Hk & Hkv & Hv & Hvv & Hends). cbn [fst snd] in *. unfold field_line. cbn [fst snd].
  change (": " ++ v) with (":"%char :: chr 32 :: v). rewrite Cut_byte by by apply field_bytes.
  rewrite bool_decide_eq_false_2 by done. cbn [negb andb orb].
  rewrite (proj2 (forallb_forall _ k)).
  2: { intros c Hc. rewrite forallb_forall in Hkv. by rewrite Hkv. }
  cbn [negb orb forallb]. rewrite Hvv. cbn [negb orb andb]. change (validHeaderValueByte (chr 32)) with true. cbn [andb negb].
  unfold TrimLeft. cbn [drop_while]. change (in_cutset blank (chr 32)) with true. cbn iota.
  rewrite drop_while_id; [done|]. destruct v as [|c v]; [done|]. apply bool_decide_eq_false_2, Hends. by left.
Qed.

Lemma fields_joined fields : Forall field_ok fields -> join_continued (field_line <$> fields) = field_line <$> fields.
Proof.
  induction 1 as [|x fields Hx Hf IH]; [done|]. rewrite fmap_cons. cbn [join_continued]. rewrite IH.
  destruct Hf as [|y fields Hy Hf]; [done|]. rewrite fmap_cons. by rewrite (proj2 (field_line_trim y Hy)).
Qed.

Lemma fields_colons fields :
  Forall field_ok fields ->
  existsb (fun line => negb (continues line) && negb (bool_decide (":"%char ∈ line))) (field_line <$> fields) = false.
Proof.
  induction 1 as [|x fields Hx Hf IH]; [done|]. rewrite fmap_cons. cbn [existsb]. rewrite IH.
  rewrite (bool_decide_eq_true_2 (":"%char ∈ field_line x)) by (unfold field_line; rewrite !elem_of_app; right; left; by_decide).
  by rewrite andb_false_r.
Qed.

Lemma fields_added fields h :
  Forall field_ok fields ->
  foldl add_line (Ok h) (field_line <$> fields) = Ok (foldl (fun h kv => Header_Add h kv.1 kv.2) h fields).
Proof. intros Hf. revert h. induction Hf as [|x fields Hx Hf IH]; intros h; [done|]. rewrite fmap_cons. cbn [foldl]. by rewrite add_field. Qed.

Lemma fields_header fields :
  Forall field_ok fields ->
  ReadMIMEHeader (field_line <$> fields) = Ok (foldl (fun h kv => Header_Add h kv.1 kv.2) ∅ fields).
Proof.
  intros Hf. pose proof (fields_joined fields Hf) as Hj. pose proof (fields_colons fields Hf) as Hc. pose proof (fields_added fields ∅ Hf) as Ha.
  destruct fields as [|kv fields]; [done|]. rewrite fmap_cons in *. unfold ReadMIMEHeader.
  by rewrite (proj2 (field_line_trim kv (Forall_inv Hf))), Hc, Hj.
Qed.

Lemma other_fields fields key (h : Header) :
  Forall (fun kv => CanonicalMIMEHeaderKey kv.1 <> key) fields ->
  foldl (fun h kv => Header_Add h kv.1 kv.2) h fields !! key = h !! key.
Proof.
  intros Hf. revert h. induction Hf as [|x fields Hx Hf IH]; intros h; [done|]. cbn [foldl].
  by rewrite IH, Header_Add_lookup, bool_decide_eq_false_2.
Qed.

Lemma plain_fields fields key :
  Forall plain_field fields -> key = "Content-Length"%go ∨ key = "Transfer-Encoding"%go ->
  Forall (fun kv => CanonicalMIMEHeaderKey kv.1 <> key) fields.
Proof. intros Hf Hk. eapply Forall_impl; [exact Hf|]. intros kv (_ & H1 & H2). by destruct Hk as [->| ->]. Qed.

(** The fields collected into a header. *)
Definition header_of (fields : list (gostring * gostring)) : Header := foldl (fun h kv => Header_Add h kv.1 kv.2) ∅ fields.

Lemma plain_header fields key :
  Forall plain_field fields -> key = "Content-Length"%go ∨ key = "Transfer-Encoding"%go -> header_of fields !! key = None.
Proof. intros Hf Hk. unfold header_of. by rewrite other_fields by by apply plain_fields. Qed.

(** The header with one field that matters. *)
Lemma single_header a b key v k :
  Forall plain_field a -> Forall plain_field b -> k = "Content-Length"%go ∨ k = "Transfer-Encoding"%go ->
  header_of (a ++ (key, v) :: b) !! k = if bool_decide (k = CanonicalMIMEHeaderKey key) then Some [v] else None.
Proof.
  intros Ha Hb Hk. unfold header_of. rewrite foldl_app. cbn [foldl fst snd]. rewrite other_fields by by apply plain_fields.
  rewrite Header_Add_lookup. case_bool_decide as Hd.
  - unfold Header_Values. rewrite <-Hd. fold (header_of a). by rewrite plain_header.
  - fold (header_of a). by rewrite plain_header.
Qed.

Lemma digits_trimmed v : v <> [] -> forallb is_digit v = true -> TrimString v = v.
Proof.
  intros Hne Hd. rewrite forallb_forall in Hd.
  assert (Hc : forall c, c ∈ v -> in_cutset [chr 32; chr 9; chr 10; chr 13] c = false).
  { intros c Hc%list_elem_of_In%Hd. unfold in_cutset. apply bool_decide_eq_false_2. rewrite !elem_of_cons.
    intros [->|[->|[->|[->|Hx]]]]; [done..|by apply not_elem_of_nil in Hx]. }
  unfold TrimString, Trim, TrimLeft. rewrite drop_while_id.
  - apply TrimRight_last. destruct (last v) as [c|] eqn:El; [|done]. by apply Hc, last_Some_elem_of.
  - destruct v as [|c v]; [done|]. apply Hc. left.
Qed.

Lemma framing_declared fields f n :
  declares fields f -> (200 <= n)%Z -> n <> 204%Z -> n <> 304%Z -> framing_of (header_of fields) true n = Ok f.
Proof.
  intros Hf Hle H1 H2. unfold framing_of, isChunked.
  assert (((100 <=? n) && (n <? 200) || (n =? 204) || (n =? 304))%Z = false) as -> by lia.
  destruct Hf as [fields Hf|a b key v Ha Hb Hok Hk Hd Hlt|a b key v Ha Hb Hok Hk Hv].
  - rewrite plain_header by auto. cbn [rbind]. unfold contentLength. by rewrite plain_header by auto.
  - rewrite single_header, Hk by auto. rewrite bool_decide_eq_false_2 by by_decide. cbn [rbind].
    unfold contentLength. rewrite single_header, Hk by auto. rewrite bool_decide_eq_true_2 by done. change (default [] (Some [v])) with [v]. cbn [forallb negb]. cbv zeta.
    assert (Hne : v <> []) by apply Hok. rewrite digits_trimmed, bool_decide_eq_false_2 by done.
    rewrite Hd, (proj2 (N.ltb_lt _ _) Hlt). cbn [andb rbind]. f_equal.
    destruct (dec_value v) as [|q] eqn:Eq; [done|]. cbn. done.
  - rewrite single_header, Hk by auto. rewrite bool_decide_eq_true_2 by done. cbn [negb].
    by rewrite (bool_decide_eq_true_2 (lower_byte <$> v = "chunked"%go)).
Qed.

(** A well-formed response with a status of three digits is read as it is. *)
Lemma parse_wire code reason fields f n :
  declares fields f -> length code = 3 -> chr 32 ∉ code -> Socks5.Atoi code = Some n -> (200 <= n)%Z -> n <> 204%Z -> n <> 304%Z ->
  parse_response (status_line code reason :: (field_line <$> fields)) =
    Ok {| StatusCode := n; Status := code ++ " " ++ reason; RespFraming := f |}.
Proof.
  intros Hf Hl Hs Hn Hle H1 H2. unfold parse_response, status_line.
  change ("HTTP/1.1 " ++ code ++ " " ++ reason) with ("HTTP/1.1"%go ++ chr 32 :: code ++ " " ++ reason).
  change " "%go with [chr 32]. rewrite Cut_byte by by_decide. cbn [negb].
  assert (Ht : TrimLeft (code ++ [chr 32] ++ reason) [chr 32] = code ++ [chr 32] ++ reason).
  { unfold TrimLeft. apply drop_while_id. destruct code as [|c code]; [done|]. apply not_elem_of_cons in Hs as [Hc _].
    apply bool_decide_eq_false_2. intros Hin. apply list_elem_of_singleton in Hin. congruence. }
  rewrite Ht. change (code ++ [chr 32] ++ reason) with (code ++ chr 32 :: reason). rewrite Cut_byte by done. cbn [fst].
  rewrite bool_decide_eq_true_2 by done. cbn [negb]. rewrite Hn, (proj2 (Z.ltb_ge _ _)) by lia.
  change (ParseHTTPVersion "HTTP/1.1") with (Some true). cbn iota.
  rewrite fields_header by by eapply declares_ok. cbn [rbind]. fold (header_of fields).
  by rewrite (framing_declared fields f n).
Qed.

Lemma code_bytes code : forallb is_digit code = true -> chr 32 ∉ code ∧ chr 10 ∉ code.
Proof. intros Hd. rewrite forallb_forall in Hd. by split; intros Hin%list_elem_of_In%Hd. Qed.

(** However it is cut into reads, a response is read whole, and the reads after it are
    left; what the last read holds beyond it is in the buffer. *)
Lemma ReadResponse_wire c code reason fields f init final later early n :
  chr 10 ∉ reason -> declares fields f -> length code = 3 ∧ forallb is_digit code = true ->
  Socks5.Atoi code = Some n -> (200 <= n)%Z -> n <> 204%Z -> n <> 304%Z ->
  reads c = init ++ final :: later -> concat init ++ final = wire_response code reason fields ++ early ->
  (length (concat init) < length (wire_response code reason fields))%nat ->
  ReadResponse c = (Ok {| StatusCode := n; Status := code ++ " " ++ reason; RespFraming := f |}, early, later).
Proof.
  intros Hr Hf [Hl Hd] Hn Hle H1 H2 Hreads Hb Hlt. pose proof (code_bytes code Hd) as [Hsp Hnl]. unfold ReadResponse.
  assert (Hline : chr 10 ∉ status_line code reason) by (unfold status_line; rewrite !not_elem_of_app; split_and!; [by_decide|done|by_decide|done]).
  rewrite Hreads, (read_header_exact (wire_response code reason fields) (status_line code reason :: (field_line <$> fields)) init final later early);
    [|apply wire_lines; [done|by eapply declares_ok]|done|done].
  by rewrite (parse_wire code reason fields f n).
Qed.

(** Discarding a body makes exactly the reads that it needs. *)
Lemma drain_spec complete buffered rs :
  exists gone, rs = gone ++ drain complete buffered rs ∧
    (forall g r g', gone = g ++ r :: g' -> complete (buffered ++ concat g) = false) ∧
    (complete (buffered ++ concat gone) = true ∨ drain complete buffered rs = []).
Proof.
  revert buffered. induction rs as [|r rs IH]; intros buffered; cbn [drain].
  - exists []. cbn [concat]. rewrite app_nil_r. destruct (complete buffered) eqn:E; (split; [done|]); (split; [by intros []|auto]).
  - destruct (complete buffered) eqn:E.
    + exists []. cbn [concat]. rewrite app_nil_r. split; [done|]. split; [by intros []|by left].
    + destruct (IH (buffered ++ r)) as (gone & Hr & Hmin & Hdone). exists (r :: gone). cbn [concat app]. rewrite <-Hr.
      split; [done|]. split; [|by rewrite app_assoc].
      intros [|x g] r' g'; cbn [app concat]; intros [= <- Hg]; [by rewrite app_nil_r|]. rewrite app_assoc. by eapply Hmin.
Qed.

(** ** Dialing *)

(** The handshake has until its timeout, and no longer than its context. *)
Lemma setHandshakeDeadline_spec now timeout ctxDeadline setDeadline :
  exists deadline, setHandshakeDeadline now timeout ctxDeadline setDeadline = wrap_err "set upstream deadline: %w" [] (setDeadline deadline) ∧
    (deadline <= now + timeout)%Z ∧ (forall d, ctxDeadline = Some d -> (deadline <= d)%Z) ∧
    (deadline = (now + timeout)%Z ∨ ctxDeadline = Some deadline).
Proof.
  unfold setHandshakeDeadline. destruct ctxDeadline as [d|]; [destruct (Z.ltb_spec d (now + timeout))|];
    (eexists; split_and!; [done|lia|intros ? [= <-]; lia|by (left + right)] || (eexists; split_and!; [done|lia|done|by left])).
Qed.

Section connect.
Context (requestHost : gostring -> result gostring) (chunksComplete : gostring -> bool).
Context (d : Upstream.ProxyDialer) (network address : gostring) (now : Z) (ctxDeadline : option Z) (setDeadline : Z -> result unit).

#[local] Abbreviation dial dialed := (HTTPDialContext requestHost chunksComplete d network address dialed now ctxDeadline setDeadline).

(** A dial leaves the connection open exactly when it returns it, and returns it only
    after the whole request was sent and a response with status 200 was read. *)
Theorem connect_closes dialed r conn :
  (forall c, dialed = Ok c -> closed c = false) -> dial dialed = (r, conn) ->
  match conn with
  | Some c => closed c = negb (is_ok r)
  | None => is_ok r = false
  end ∧
  (is_ok r = true -> exists c c' host resp rest rs, dialed = Ok c ∧ conn = Some c' ∧ requestHost address = Ok host ∧
     sent c' = sent c ++ connectRequest (Upstream.username d) (Upstream.password d) host ∧
     ReadResponse c = (Ok resp, rest, rs) ∧ StatusCode resp = 200%Z).
Proof.
  intros Hd. unfold HTTPDialContext. case_match; [by intros [= <- <-]|].
  destruct dialed as [c|]; [|by intros [= <- <-]]. specialize (Hd c eq_refl).
  destruct (setHandshakeDeadline _ _ _ _) as [[]|e]; [|by intros [= <- <-]].
  unfold writeRequest. destruct (requestHost address) as [host|e] eqn:Eh; [|by intros [= <- <-]].
  unfold ConnWrite. destruct (writeFault c) as [[n e]|]; [by intros [= <- <-]|].
  unfold ReadResponse. cbn [reads readEnd].
  destruct (read_header [] (reads c)) as [[[lines rest]|] rs] eqn:Er; [|by intros [= <- <-]].
  destruct (parse_response lines) as [resp|e] eqn:Ep; [|by intros [= <- <-]].
  destruct (Z.eqb_spec (StatusCode resp) 200) as [Hs|]; cbn [negb]; intros [= <- <-]; [|done].
  split; [done|]. intros _. eexists c, _, host, resp, rest, rs. split_and!; [done..| |done]. by rewrite Er, Ep.
Qed.

Section response.
Context (c : Conn) (host reason : gostring) (fields : list (gostring * gostring)) (f : framing) (init later : list gostring) (final early code : gostring).

(** The proxy can be reached and answers with a well-formed response; the reads that
    return it end with [final], which may hold more. *)
Context (Hnet : network ∈ (["tcp"; "tcp4"; "tcp6"] : list gostring)) (Hdeadline : forall t, setDeadline t = Ok tt).
Context (Hhost : requestHost address = Ok host) (Hwrite : writeFault c = None).
Context (Hreason : chr 10 ∉ reason) (Hfields : declares fields f).
Context (Hcode : length code = 3 ∧ forallb is_digit code = true).
Context (Hreads : reads c = init ++ final :: later).
Context (Hbytes : concat init ++ final = wire_response code reason fields ++ early).
Context (Hneeded : (length (concat init) < length (wire_response code reason fields))%nat).

Lemma dial_reads n :
  Socks5.Atoi code = Some n -> (200 <= n)%Z -> n <> 204%Z -> n <> 304%Z ->
  exists c', dial (Ok c) = (if (n =? 200)%Z then Ok tt else Err (Errorf "HTTP upstream CONNECT failed: %s" [code ++ " " ++ reason]), Some c') ∧
    (n = 200%Z -> reads c' = CloseBody chunksComplete f early later) ∧ sent c' = sent c ++ connectRequest (Upstream.username d) (Upstream.password d) host ∧
    closed c' = (closed c || negb (n =? 200)%Z).
Proof.
  intros Hn Hle H1 H2. unfold HTTPDialContext. rewrite bool_decide_eq_true_2 by done. cbn [negb].
  destruct (setHandshakeDeadline_spec now (Upstream.ptimeout d) ctxDeadline setDeadline) as (t & -> & _).
  rewrite Hdeadline. cbn [wrap_err]. unfold writeRequest. rewrite Hhost. unfold ConnWrite. rewrite Hwrite.
  rewrite (ReadResponse_wire _ code reason fields f init final later early n) by done. cbn [StatusCode Status RespFraming].
  destruct (Z.eqb_spec n 200); cbn [negb]; eexists; split_and!; try done; cbn; by rewrite ?orb_false_r, ?orb_true_r.
Qed.
End response.

(** The CONNECT request as it goes over the wire. *)
Definition tunnel_request (host authorization : gostring) : gostring :=
  "CONNECT " ++ host ++ " HTTP/1.1" ++ crlf ++ "Host: " ++ host ++ crlf ++ "User-Agent: Go-http-client/1.1" ++ crlf ++
  authorization ++ crlf.

Lemma connectRequest_text username password host :
  connectRequest username password host = tunnel_request host
    (if negb (bool_decide (username = [])) || negb (bool_decide (password = []))
     then "Proxy-Authorization: Basic " ++ StdEncoding (username ++ ":" ++ password) ++ crlf else []).
Proof.
  unfold connectRequest, tunnel_request. do 4 f_equal.
  assert (Hh : forall v, header_line "Host" v = "Host: " ++ v ++ crlf) by reflexivity.
  assert (Ha : forall v, header_line "Proxy-Authorization" ("Basic " ++ v) = "Proxy-Authorization: Basic " ++ v ++ crlf) by reflexivity.
  rewrite Hh, Ha, <-!app_assoc. reflexivity.
Qed.

(** The reads of a body that are made before it is complete. *)
Definition swallows (f : framing) (early : gostring) (gone left : list gostring) : Prop :=
  let needs (complete : gostring -> bool) :=
    (forall g r g', gone = g ++ r :: g' -> complete (early ++ concat g) = false) ∧
    (complete (early ++ concat gone) = true ∨ left = []) in
  match f with
  | UntilClose | NoBody => gone = []
  | Length n => needs (fun b => (n <=? length b)%nat)
  | Chunked => needs chunksComplete
  end.

Lemma CloseBody_swallows f early later :
  exists gone, later = gone ++ CloseBody chunksComplete f early later ∧ swallows f early gone (CloseBody chunksComplete f early later).
Proof. destruct f; cbn [CloseBody swallows]; [by exists []|by exists []|apply drain_spec|apply drain_spec]. Qed.


(** A proxy that refuses is reported with its status, and the connection is closed. *)
Theorem connect_refused c host code reason fields f init later final early n :
  network ∈ (["tcp"; "tcp4"; "tcp6"] : list gostring) -> (forall t, setDeadline t = Ok tt) ->
  requestHost address = Ok host -> writeFault c = None -> chr 10 ∉ reason -> declares fields f ->
  length code = 3 ∧ forallb is_digit code = true -> Socks5.Atoi code = Some n -> (200 < n)%Z -> n <> 204%Z -> n <> 304%Z ->
  reads c = init ++ final :: later -> concat init ++ final = wire_response code reason fields ++ early ->
  (length (concat init) < length (wire_response code reason fields))%nat ->
  exists c', dial (Ok c) = (Err (Errorf "HTTP upstream CONNECT failed: %s" [code ++ " " ++ reason]), Some c') ∧ closed c' = true.
Proof.
  intros Hnet Hdl Hh Hw Hr Hf Hc Ha Hlt H1 H2 Hreads Hb Hn.
  destruct (dial_reads c host reason fields f init later final early code Hnet Hdl Hh Hw Hr Hf Hc Hreads Hb Hn n Ha) as (c' & Hd & _ & _ & Hcl); [lia|done|done|].
  exists c'. rewrite Hd, Hcl. assert ((n =? 200)%Z = false) as -> by lia. by rewrite orb_true_r.
Qed.

(** A probe reports the status of a host whatever it is, however the answer is cut. *)
Theorem probe_reports_status (requestPath : gostring -> gostring) target c host code reason fields f init later final early n :
  (forall t, setDeadline t = Ok tt) -> requestHost (Profile.TargetHost target) = Ok host -> writeFault c = None ->
  chr 10 ∉ reason -> declares fields f ->
  length code = 3 ∧ forallb is_digit code = true -> Socks5.Atoi code = Some n -> (200 <= n)%Z -> n <> 204%Z -> n <> 304%Z ->
  reads c = init ++ final :: later -> concat init ++ final = wire_response code reason fields ++ early ->
  (length (concat init) < length (wire_response code reason fields))%nat ->
  exists c', probeHTTPHead requestHost requestPath ctxDeadline setDeadline target c = (Ok (code ++ " " ++ reason), c') ∧
    sent c' = sent c ++ headRequest host (requestPath (Profile.TargetPath target)).
Proof.
  intros Hdl Hh Hw Hr Hf Hc Ha Hle H1 H2 Hreads Hb Hn.
  unfold probeHTTPHead. assert ((match ctxDeadline with Some d => setDeadline d | None => Ok tt end) = Ok tt) as -> by (by destruct ctxDeadline).
  rewrite Hh. unfold ConnWrite. rewrite Hw. rewrite (ReadResponse_wire _ code reason fields f init final later early n) by done. by eexists.
Qed.
End connect.

(** * Witnesses *)

Definition proxy_dialer : Upstream.ProxyDialer :=
  {| Upstream.proxyAddr := "127.0.0.1:3128"; Upstream.username := "u"; Upstream.password := "p"; Upstream.ptimeout := 30%Z |}.
(** The answer comes in two reads, the second with a first byte of the peer. *)
Definition first_read : gostring := "HTTP/1.1 20".
Definition second_read : gostring := "0 Connection established" ++ crlf ++ "Via: proxy" ++ crlf ++ crlf ++ "!".
Definition granting_proxy : Conn :=
  {| reads := [first_read; second_read; "later"]%go; readEnd := EOF; sent := []; writeFault := None; closed := false |}.
Definition via_field : list (gostring * gostring) := [("Via", "proxy")]%go.

Lemma via_plain : Forall plain_field via_field.
Proof.
  apply Forall_cons. split; [|by apply Forall_nil]. split; [|by split].
  split_and!; [done|reflexivity|done|reflexivity|]. intros c [[= <-]|[= <-]]; by_decide.
Qed.

Lemma via_declares : declares via_field UntilClose.
Proof. apply declares_nothing, via_plain. Qed.

(** A proxy that declares a body of five bytes: the first two reads of the tunnel go into it. *)
Definition length_field : list (gostring * gostring) := [("content-length", "5")]%go.
Definition length_read : gostring := "HTTP/1.1 200 OK" ++ crlf ++ "content-length: 5" ++ crlf ++ crlf ++ "!".
Definition lengthy_proxy : Conn :=
  {| reads := [length_read; "ab"; "cd"; "later"]%go; readEnd := EOF; sent := []; writeFault := None; closed := false |}.
Definition anonymous_dialer : Upstream.ProxyDialer :=
  {| Upstream.proxyAddr := "127.0.0.1:3128"; Upstream.username := []; Upstream.password := []; Upstream.ptimeout := 30%Z |}.

Lemma length_declares : declares length_field (Length 5).
Proof.
  apply (declares_length [] [] "content-length" "5"); [by apply Forall_nil..| |reflexivity|reflexivity|reflexivity].
  split_and!; [done|reflexivity|done|reflexivity|]. intros c [[= <-]|[= <-]]; by_decide.
Qed.

Lemma swallowed_two gone left :
  ["ab"; "cd"; "later"]%go = gone ++ left -> swallows (fun _ => true) (Length 5) "!" gone left -> left = ["later"]%go.
Proof.
  intros Hg [Hmin Hdone]. destruct gone as [|g1 [|g2 [|g3 gone]]]; cbn in Hg; [subst left|injection Hg as <- <-|injection Hg as <- <- <-; done|].
  - destruct Hdone as [Hd|Hd]; [vm_compute in Hd; discriminate Hd|discriminate Hd].
  - destruct Hdone as [Hd|Hd]; [vm_compute in Hd; discriminate Hd|discriminate Hd].
  - injection Hg as <- <- <- Hg. specialize (Hmin ["ab"; "cd"]%go _ _ eq_refl). vm_compute in Hmin. discriminate Hmin.
Qed.

