(* ===== verification/Runtime.v ===== *)
(** Runtime control (src/internal/runtime/control.go): the state file of a running
    session and the control server through which other invocations of the program ask
    for its status and stop it.

    A request is answered with what is written to it and the calls it makes; what the
    multiplexer of net/http answers for other paths is a parameter. *)
From stdpp Require Import strings.
From Stdlib Require Import Ascii.
From S2P Require Import Prelude GoStrings GoNet External World Rollback Http Base64.

(** * The state file *)

Record State := {
  PID : Z;
  Mode : gostring;
  ProxyAddr : gostring;
  PACURL : gostring;
  HostsHTTP : gostring;
  HostsHTTPS : gostring;
  ControlURL : gostring;
  Token : gostring;
  StartedAt : Time;
}.

Section state_file.
Context `{Encoding}.

Definition state_json (s : State) : json :=
  JObj ([("pid", JNum (PID s)); ("mode", JStr (Mode s))] ++
        omitempty "proxy_addr" (bool_decide (ProxyAddr s = [])) (JStr (ProxyAddr s)) ++
        omitempty "pac_url" (bool_decide (PACURL s = [])) (JStr (PACURL s)) ++
        omitempty "hosts_http" (bool_decide (HostsHTTP s = [])) (JStr (HostsHTTP s)) ++
        omitempty "hosts_https" (bool_decide (HostsHTTPS s = [])) (JStr (HostsHTTPS s)) ++
        [("control_url", JStr (ControlURL s)); ("token", JStr (Token s)); ("started_at", JStr (time_Format (StartedAt s)))]).

Definition json_state (j : json) : result State :=
  do fs <- as_object j;
  do pid <- get_int fs "pid";
  do mode <- get_string fs "mode";
  do proxy <- get_string fs "proxy_addr";
  do pac <- get_string fs "pac_url";
  do http <- get_string fs "hosts_http";
  do https <- get_string fs "hosts_https";
  do url <- get_string fs "control_url";
  do token <- get_string fs "token";
  do started <- get_time fs "started_at";
  Ok {| PID := pid; Mode := mode; ProxyAddr := proxy; PACURL := pac; HostsHTTP := http; HostsHTTPS := https;
        ControlURL := url; Token := token; StartedAt := started |}.

Definition state_texts : Texts :=
  {| pathRequired := "state path is required"; createFormat := "create state directory: %w";
     encodeFormat := "encode state: %w"; writeFormat := "write state: %w"; parseFormat := "parse state: %w" |}.

Definition codec : Codec State :=
  {| texts := state_texts; toJSON := state_json; fromJSON := json_state; createdAt := StartedAt |}.

Definition WriteState {X : Type} : gostring -> State -> IO X unit := Rollback.WriteState codec.
Definition ReadState {X : Type} : gostring -> IO X State := Rollback.ReadState codec.
Definition RemoveState {X : Type} : gostring -> IO X unit := Rollback.RemoveState.
End state_file.

(** * The token

    [random] is what crypto/rand put into the 32 bytes of the buffer. *)
Definition GenerateToken (random : result gostring) : result gostring :=
  do buf <- random; Ok (RawURLEncoding buf).

(** * The control server *)

Record ControlServer := {
  addr : gostring;
  token : gostring;
  server : bool;
  listener : option gostring;
  url : gostring;
  done : bool;
}.

Definition NewControlServer (addr token : gostring) (statusFn stopFn : bool) : result ControlServer :=
  if is_blank token then Err (Errorf "control token is required" [])
  else if negb statusFn then Err (Errorf "status function is required" [])
  else if negb stopFn then Err (Errorf "stop function is required" [])
  else Ok {| addr := addr; token := token; server := false; listener := None; url := []; done := false |}.

Section control_server.
Context `{Externals}.

Definition isLoopbackAddr (addr : gostring) : bool :=
  match SplitHostPort addr with
  | Err _ => false
  | Ok (host, _) =>
      EqualFold host "localhost" ||
      (let ip := ParseIP host in negb (bool_decide (ip = [])) && IsLoopback ip)
  end.

Inductive call :=
| Listen (address : gostring)
| CloseListener (address : gostring)
| Shutdown
| ForceClose.

#[export] Instance call_eq_dec : EqDecision call.
Proof. solve_decision. Defined.

(** [listen] gives the address a listener got. *)
Definition Start (s : ControlServer) (listen : gostring -> result gostring) : result unit * ControlServer * list call :=
  if server s then (Err (Errorf "control server already started" []), s, [])
  else match listen (addr s) with
       | Err e => (Err (Wrapf "listen control %s: %w" [addr s] e), s, [])
       | Ok a =>
           if negb (isLoopbackAddr a)
           then (Err (Errorf "control listener must be loopback" []), s, [Listen a; CloseListener a])
           else (Ok tt,
                 {| addr := addr s; token := token s; server := true; listener := Some a; url := "http://" ++ a; done := true |},
                 [Listen a])
       end.

Definition URL (s : ControlServer) : gostring := url s.

(** What Stop receives first: the end of Serve or of its context. *)
Inductive waited :=
| Served (serveErr : option error)
| CtxDone (ctxErr : error).

Definition Stop (s : ControlServer) (shutdown : option error) (wait : waited) : option error * ControlServer * list call :=
  let s' := {| addr := addr s; token := token s; server := false; listener := None; url := url s; done := done s |} in
  if negb (server s) then (None, s', [])
  else
    let err :=
      if done s then
        match shutdown, wait with
        | Some e, _ => Some e
        | None, Served serveErr => serveErr
        | None, CtxDone e => Some e
        end
      else shutdown in
    (err, s', Shutdown :: match shutdown with Some _ => [ForceClose] | None => [] end).
End control_server.

(** ** Requests *)

Record Request := { Method : gostring; Path : gostring; ReqHeader : Header }.

Definition StatusAccepted : Z := 202.
Definition StatusUnauthorized : Z := 401.
Definition StatusMethodNotAllowed : Z := 405.

Inductive effect :=
| CallStatus
| CallStop.

#[export] Instance effect_eq_dec : EqDecision effect.
Proof. solve_decision. Defined.

Section handlers.
Context `{Encoding} (statusFn : json) (mux : ResponseWriter -> Request -> ResponseWriter).

Definition Handler : Type := ResponseWriter -> Request -> ResponseWriter * list effect.

Definition withAuth (s : ControlServer) (next : Handler) : Handler := fun w req =>
  if negb (bool_decide (Header_Get (ReqHeader req) "Authorization" = "Bearer " ++ token s))
  then (httpError w "unauthorized" StatusUnauthorized, [])
  else next w req.

Definition WriteHeader (w : ResponseWriter) (code : Z) : ResponseWriter :=
  {| wHeader := wHeader w; wStatus := Some (default code (wStatus w)); wBody := wBody w |}.

(** Writing without a status sends 200 first. *)
Definition Write (w : ResponseWriter) (data : gostring) : ResponseWriter :=
  {| wHeader := wHeader w; wStatus := Some (default StatusOK (wStatus w)); wBody := wBody w ++ data |}.

Definition handleStatus : Handler := fun w req =>
  if negb (bool_decide (Method req = "GET")) then (httpError w "method not allowed" StatusMethodNotAllowed, [])
  else
    let w := {| wHeader := Header_Set (wHeader w) "Content-Type" "application/json"; wStatus := wStatus w; wBody := wBody w |} in
    (Write w (json_Marshal statusFn ++ nl), [CallStatus]).

Definition handleStop : Handler := fun w req =>
  if negb (bool_decide (Method req = "POST")) then (httpError w "method not allowed" StatusMethodNotAllowed, [])
  else (Write (WriteHeader w StatusAccepted) ("stopping" ++ nl), [CallStop]).

(** The handler Start gives to the server. *)
Definition ServeHTTP (s : ControlServer) : Handler := fun w req =>
  if bool_decide (Path req = "/status") then withAuth s handleStatus w req
  else if bool_decide (Path req = "/stop") then withAuth s handleStop w req
  else (mux w req, []).
End handlers.

(** * Properties *)

Definition authorized (s : ControlServer) (req : Request) : Prop :=
  Header_Get (ReqHeader req) "Authorization" = "Bearer " ++ token s.

(** C20: what the control server does with every request.  On /stop and /status a client
    without the token gets 401 and nothing happens; with the token, a POST of /stop is
    answered 202 and stops the session, a GET of /status is answered 200 with the status
    as JSON, and any other method gets 405 and has no effect.  Every other path is left
    to the mux, and has no effect on the session either. *)
Theorem control_requires_token `{Encoding} statusFn mux s h req :
  let w := {| wHeader := h; wStatus := None; wBody := [] |} in
  let '(w', effects) := ServeHTTP statusFn mux s w req in
  let answers status body := wStatus w' = Some status ∧ wBody w' = body in
  let stop := Path req = "/stop" in
  let status := Path req = "/status" in
  (stop ∨ status -> ~ authorized s req -> answers 401%Z ("unauthorized" ++ nl) ∧ effects = []) ∧
  (authorized s req -> stop -> Method req = "POST" -> answers 202%Z ("stopping" ++ nl) ∧ effects = [CallStop]) ∧
  (authorized s req -> status -> Method req = "GET" ->
     answers 200%Z (json_Marshal statusFn ++ nl) ∧ Header_Get (wHeader w') "Content-Type" = "application/json" ∧
     effects = [CallStatus]) ∧
  (authorized s req -> stop ∧ Method req <> "POST" ∨ status ∧ Method req <> "GET" ->
     answers 405%Z ("method not allowed" ++ nl) ∧ effects = []) ∧
  (~ stop -> ~ status -> w' = mux w req ∧ effects = []).
Proof.
  unfold ServeHTTP, withAuth, handleStatus, handleStop, authorized.
  repeat case_bool_decide; cbn [negb wStatus wBody wHeader httpError Write WriteHeader]; rewrite ?app_nil_l;
    split_and!; intuition (congruence || discriminate || apply Header_Get_Set).
Qed.

(** The answers to an authorized client of a fresh response. *)
Lemma authorized_stop `{Encoding} statusFn mux s w req :
  authorized s req -> Path req = "/stop" -> Method req = "POST" -> wStatus w = None ->
  wStatus (ServeHTTP statusFn mux s w req).1 = Some StatusAccepted.
Proof.
  intros Ha Hp Hm Hw. unfold ServeHTTP, withAuth, handleStop. rewrite Hp, Ha, Hm.
  eval_tests. rewrite bool_decide_eq_true_2 by done. cbn. by rewrite Hw.
Qed.

Lemma authorized_status `{Encoding} statusFn mux s w req :
  authorized s req -> Path req = "/status" -> Method req = "GET" -> wStatus w = None ->
  wStatus (ServeHTTP statusFn mux s w req).1 = Some StatusOK ∧
  wBody (ServeHTTP statusFn mux s w req).1 = wBody w ++ json_Marshal statusFn ++ nl.
Proof.
  intros Ha Hp Hm Hw. unfold ServeHTTP, withAuth, handleStatus. rewrite Hp, Ha, Hm.
  eval_tests. rewrite bool_decide_eq_true_2 by done. cbn. by rewrite Hw.
Qed.

(** ** The token *)

Lemma url_alphabet : alphabetical encodeURL.
Proof. by_decide. Qed.

Lemma url_graphic s : Forall (fun c => c ∈ encodeURL) s -> forallb graphic s = true.
Proof.
  intros Hs. apply Is_true_true, forallb_True, Forall_forall. intros c Hc. rewrite Forall_forall in Hs. apply Hs in Hc.
  assert (Forall (fun c => graphic c = true) encodeURL) as Ha by by_decide. rewrite Forall_forall in Ha. by apply Is_true_true, Ha.
Qed.

(** The token of a session holds the 32 random bytes: it has 43 characters, all
    of them fit for an HTTP header and a URL, different random bytes give different
    tokens, and the control server accepts it. *)
Theorem GenerateToken_spec random a buf buf' t :
  random = Ok buf -> length buf = 32 -> GenerateToken random = Ok t ->
  length t = 43 ∧ Forall (fun c => c ∈ encodeURL) t ∧ decode encodeURL t = buf ∧
  (GenerateToken (Ok buf') = Ok t -> buf' = buf) ∧
  is_ok (NewControlServer a t true true) = true.
Proof.
  intros -> Hl Ht. injection Ht as <-. unfold RawURLEncoding.
  assert (Hlen : length (EncodeToString encodeURL None buf) = 43) by (rewrite encode_length, Hl; reflexivity).
  split_and!; [done| |by apply decode_encode, url_alphabet| |].
  - apply encode_digits, url_alphabet.
  - intros [= He]. by eapply encode_inj, He; apply url_alphabet.
  - unfold NewControlServer, is_blank. rewrite TrimSpace_graphic; [|by apply url_graphic, encode_digits, url_alphabet].
    by destruct (EncodeToString encodeURL None buf).
Qed.

(** ** The state file *)

Section state_properties.
Context `{EncodingLaws}.

Lemma get_omitempty fs key s : field fs key = (if bool_decide (s = []) then JNull else JStr s) -> get_string fs key = Ok s.
Proof. case_bool_decide; [subst; apply get_string_absent|apply get_string_field]. Qed.

Lemma state_storable s :
  json_utf8 (state_json s) = true -> time_encodable (StartedAt s) = true -> storable codec s.
Proof.
  intros Hu Ht. split; [done|]. cbn [toJSON fromJSON codec]. unfold json_decode. rewrite json_roundtrip by done.
  destruct s as [pid mode pa pu hh hs cu tk st]. cbn [rbind]. unfold state_json, json_state.
  cbn [PID Mode ProxyAddr PACURL HostsHTTP HostsHTTPS ControlURL Token StartedAt] in *. set (fs := _ ++ _).
  cbn [as_object rbind].
  assert (get_int fs "pid" = Ok pid) as -> by (unfold get_int, fs; destruct pa, pu, hh, hs; reflexivity).
  rewrite (get_string_field fs "mode" mode) by (unfold fs; destruct pa, pu, hh, hs; reflexivity).
  rewrite (get_omitempty fs "proxy_addr" pa) by (unfold fs; destruct pa, pu, hh, hs; reflexivity).
  rewrite (get_omitempty fs "pac_url" pu) by (unfold fs; destruct pa, pu, hh, hs; reflexivity).
  rewrite (get_omitempty fs "hosts_http" hh) by (unfold fs; destruct pa, pu, hh, hs; reflexivity).
  rewrite (get_omitempty fs "hosts_https" hs) by (unfold fs; destruct pa, pu, hh, hs; reflexivity).
  rewrite (get_string_field fs "control_url" cu) by (unfold fs; destruct pa, pu, hh, hs; reflexivity).
  rewrite (get_string_field fs "token" tk) by (unfold fs; destruct pa, pu, hh, hs; reflexivity).
  assert (get_time fs "started_at" = time_Parse (time_Format st)) as ->
    by (unfold get_time, fs; destruct pa, pu, hh, hs; reflexivity).
  by rewrite time_roundtrip.
Qed.

(** A state file that was written is read back as it was, whatever calls fail on
    the way, and writing it changes no other file. *)
Theorem state_roundtrip {X : Type} path s (w w1 : World X) :
  json_utf8 (state_json s) = true -> time_encodable (StartedAt s) = true -> WriteState path s w = (Ok tt, w1) ->
  (forall s' w2, ReadState path w1 = (Ok s', w2) -> s' = s) ∧
  (faults w1 = [] -> ReadState path w1 = (Ok s, w1)) ∧
  (forall q, q <> path -> files w1 !! q = files w !! q) ∧ sys w1 = sys w.
Proof.
  intros Hu Ht Hw. pose proof (state_storable s Hu Ht) as Hs. pose proof (WriteState_stored _ _ _ _ _ Hw) as Hf.
  split_and!.
  - intros s' w2 Hr. eapply ReadState_stored in Hr; [|exact Hf]. apply proj2 in Hs. congruence.
  - intros Hn. by apply ReadState_healthy.
  - pose proof (WriteState_touches codec path s w) as Ht'. unfold WriteState in Hw. by rewrite Hw in Ht'.
  - pose proof (WriteState_sys codec path s w) as Hs'. unfold WriteState in Hw. by rewrite Hw in Hs'.
Qed.
End state_properties.

(** ** The life of the server *)

Section lifecycle.
Context `{Externals}.

(** What the server is asked to do. *)
Inductive request :=
| DoStart (listen : gostring -> result gostring)
| DoStop (shutdown : option error) (wait : waited).

Definition perform (s : ControlServer) (r : request) : ControlServer * list call :=
  match r with
  | DoStart listen => let '(_, s', calls) := Start s listen in (s', calls)
  | DoStop shutdown wait => let '(_, s', calls) := Stop s shutdown wait in (s', calls)
  end.

(** The state after a sequence of requests, with the calls in order. *)
Fixpoint performs (s : ControlServer) (rs : list request) : ControlServer * list call :=
  match rs with
  | [] => (s, [])
  | r :: rs' =>
      let '(s1, calls) := perform s r in
      let '(s2, calls') := performs s1 rs' in (s2, calls ++ calls')
  end.

(** The addresses listened on after a sequence of calls; a shutdown ends them all. *)
Definition open_after (open : list gostring) (c : call) : list gostring :=
  match c with
  | Listen a => open ++ [a]
  | CloseListener a => filter (fun b => b <> a) open
  | Shutdown | ForceClose => []
  end.

Definition control_wf (s : ControlServer) : Prop :=
  match listener s with
  | Some a => server s = true ∧ isLoopbackAddr a = true ∧ url s = "http://" ++ a
  | None => server s = false
  end.

Definition listening (s : ControlServer) : list gostring := option_list (listener s).

Lemma perform_wf s r s' calls :
  control_wf s -> perform s r = (s', calls) ->
  control_wf s' ∧ token s' = token s ∧ foldl open_after (listening s) calls = listening s'.
Proof.
  unfold control_wf, listening. destruct r as [listen|shutdown wait]; cbn [perform].
  - unfold Start. destruct (listener s) as [b|] eqn:El.
    + intros (Hs & Hb & Hu). rewrite Hs. intros [= <- <-]. by rewrite El.
    + intros Hs. rewrite Hs. destruct (listen (addr s)) as [a|e]; [|intros [= <- <-]; by rewrite El].
      destruct (isLoopbackAddr a) eqn:Ea; cbn [negb]; intros [= <- <-]; cbn; [done|].
      rewrite El. split_and!; [done..|]. by case_decide.
  - unfold Stop. destruct (listener s) as [b|] eqn:El.
    + intros (Hs & Hb & Hu). rewrite Hs. cbn [negb]. intros [= <- <-]. cbn. by destruct shutdown.
    + intros Hs. rewrite Hs. cbn [negb]. by intros [= <- <-].
Qed.

(** Whatever is asked of a control server and whatever calls fail, it listens on
    loopback addresses only, at most one at a time, on the one its URL names, and every
    listener it opened beyond that is closed. *)
Theorem control_lifecycle a t s rs s' calls :
  NewControlServer a t true true = Ok s -> performs s rs = (s', calls) ->
  foldl open_after [] calls = listening s' ∧ token s' = t ∧
  (server s' = true <-> exists b, listening s' = [b]) ∧
  (forall b, b ∈ listening s' -> isLoopbackAddr b = true ∧ URL s' = "http://" ++ b).
Proof.
  intros Hn. assert (control_wf s ∧ token s = t ∧ listening s = []) as (Hw & Ht & Hl).
  { unfold NewControlServer in Hn. destruct (is_blank t); [done|]. by injection Hn as <-. }
  rewrite <-Hl at 1. clear Hn Hl. revert s calls Hw Ht. induction rs as [|r rs IH]; intros s calls Hw Ht Hp; cbn in Hp.
  - injection Hp as <- <-. cbn. split; [done|]. split; [done|]. unfold control_wf, listening, URL in *.
    destruct (listener s) as [b|]; cbn.
    + destruct Hw as (-> & ? & ?). split; [split; [intros _; by eexists|done]|]. by intros b' ->%list_elem_of_singleton.
    + rewrite Hw. split; [split; [done|by intros [b [=]]]|]. by intros b ?%elem_of_nil.
  - destruct (perform s r) as [s1 c1] eqn:E1. destruct (performs s1 rs) as [s2 c2] eqn:E2. injection Hp as <- <-.
    destruct (perform_wf _ _ _ _ Hw E1) as (Hw1 & Ht1 & Ho). rewrite foldl_app, Ho.
    apply IH; [done| |done]. congruence.
Qed.
End lifecycle.

(** * Witnesses *)

Section runtime_witnesses.
#[local] Existing Instance simple_externals.

Definition sample_bytes : gostring := replicate 32 (chr 7).

Lemma GenerateToken_spec_witness :
  exists t, GenerateToken (Ok sample_bytes) = Ok t ∧ length t = 43 ∧ decode encodeURL t = sample_bytes.
Proof.
  exists (RawURLEncoding sample_bytes). split; [reflexivity|].
  destruct (GenerateToken_spec (Ok sample_bytes) "127.0.0.1:0" sample_bytes [] (RawURLEncoding sample_bytes)
    eq_refl eq_refl eq_refl) as (Hl & _ & Hd & _). by split.
Defined.

Definition sample_state : State :=
  {| PID := 123%Z; Mode := "pac"; ProxyAddr := "127.0.0.1:26501"; PACURL := []; HostsHTTP := []; HostsHTTPS := [];
     ControlURL := "http://127.0.0.1:1"; Token := "token"; StartedAt := 5%Z |}.

Definition no_files : World unit := {| files := ∅; faults := []; sys := tt |}.

Lemma state_roundtrip_witness :
  exists w1, @WriteState simple_encoding unit "/run/state.json" sample_state no_files = (Ok tt, w1) ∧
    @ReadState simple_encoding unit "/run/state.json" w1 = (Ok sample_state, w1).
Proof.
  eexists. split; [reflexivity|].
  edestruct (@state_roundtrip simple_encoding simple_encoding_laws unit "/run/state.json" sample_state no_files)
    as (_ & Hr & _); [vm_compute; reflexivity|reflexivity|reflexivity|]. by apply Hr.
Defined.

Definition sample_server : ControlServer :=
  {| addr := "127.0.0.1:0"; token := "token"; server := false; listener := None; url := []; done := false |}.

(** The first listener is not a loopback address. *)
Definition sample_requests : list request :=
  [DoStart (fun _ => Ok ("10.0.0.1:9000" : gostring)); DoStart (fun _ => Ok ("127.0.0.1:9000" : gostring));
   DoStart (fun _ => Ok ("127.0.0.1:9001" : gostring))].

Lemma control_lifecycle_witness :
  listening (performs sample_server sample_requests).1 = [("127.0.0.1:9000" : gostring)] ∧
  isLoopbackAddr "127.0.0.1:9000" = true.
Proof.
  assert (listening (performs sample_server sample_requests).1 = [("127.0.0.1:9000" : gostring)]) as Hl
    by (vm_compute; reflexivity).
  split; [exact Hl|].
  destruct (control_lifecycle "127.0.0.1:0" "token" sample_server sample_requests
    (performs sample_server sample_requests).1 (performs sample_server sample_requests).2 eq_refl
    (surjective_pairing _)) as (_ & _ & _ & Hb).
  apply Hb. rewrite Hl. by left.
Defined.
End runtime_witnesses.
