(* ===== verification/PageEnhance.v ===== *)
(** Page enhancement (src/internal/pageenhance/pageenhance.go): the responses of
    matched pages get headers set or removed, text injected before the end of the
    head and of the body, and text replaced; assets are served from files.

    A response is modelled with its header, its body still to be read and its
    declared length.  The pipeline counts what it did; a Go panic (a slice bound
    out of range) is [None]. *)
From stdpp Require Import strings.
From Stdlib Require Import Ascii.
From S2P Require Import Prelude GoStrings GoNet External Config Rules Http.

Definition OnErrorPassThrough : gostring := "pass_through".
Definition OnErrorFailClosed : gostring := "fail_closed".
Definition DefaultMaxBodySize : Z := (1024 * 1024)%Z.

Record Asset := { AssetPath : gostring; AssetFile : gostring; AssetContentType : gostring }.

Record Match := {
  mProviders : list gostring;
  mHosts : list gostring;
  mPathPrefixes : list gostring;
  mContentTypes : list gostring;
  mStatusCodes : list Z;
}.

Record Replacement := { Old : gostring; New_ : gostring; Count : Z }.

Record Transform := {
  Name : gostring;
  tMatch : Match;
  HeaderSet : gmap gostring gostring;
  HeaderRemove : list gostring;
  InjectHead : gostring;
  InjectBody : gostring;
  Replace_ : list Replacement;
}.

Record ResponseMeta := {
  mtProvider : gostring;
  mtHost : gostring;
  mtPath : gostring;
  mtContentType : gostring;
  mtStatusCode : Z;
}.

Record Event := {
  evAction : gostring;
  evTransform : gostring;
  evReason : gostring;
  evProvider : gostring;
  evHost : gostring;
  evPath : gostring;
  evStatus : Z;
}.

(** The part of http.Response the pipeline uses; [rRequestPath] is the path of
    the request's URL when there is one. *)
Record Response := {
  rHeader : Header;
  rBody : option Body;
  rContentLength : Z;
  rStatusCode : Z;
  rRequestPath : option gostring;
}.

Record TransformResult := {
  ResultBody : gostring;
  Applied : bool;
  BodyModified : bool;
  SkipReason : gostring;
}.

Record Transformer := {
  TransformerName : gostring;
  TransformerMatch : ResponseMeta -> bool;
  NeedsBody : bool;
  TransformerRun : Response -> gostring -> ResponseMeta -> Response * result TransformResult;
}.

Record PConfig := {
  pEnabled : bool;
  pOnError : gostring;
  pMaxBodySize : Z;
  pAssets : list Asset;
  pTransforms : list Transform;
  pCustomTransformers : list Transformer;
}.

(** The counters are 64-bit. *)
Record Pipeline := { pcfg : PConfig; applied : Z; skipped : Z; errors : Z }.

Definition uint64 (z : Z) : Z := (z mod 2 ^ 64)%Z.
Definition int64 (z : Z) : Z := ((z + 2 ^ 63) mod 2 ^ 64 - 2 ^ 63)%Z.

Definition addApplied (p : Pipeline) : Pipeline :=
  {| pcfg := pcfg p; applied := uint64 (applied p + 1); skipped := skipped p; errors := errors p |}.
Definition addSkipped (p : Pipeline) : Pipeline :=
  {| pcfg := pcfg p; applied := applied p; skipped := uint64 (skipped p + 1); errors := errors p |}.
Definition addError (p : Pipeline) : Pipeline :=
  {| pcfg := pcfg p; applied := applied p; skipped := skipped p; errors := uint64 (errors p + 1) |}.

(** * Configuration *)

Definition replacementOf (r : PageEnhanceReplaceConfig) : Replacement :=
  {| Old := RpOld r; New_ := RpNew r; Count := RpCount r |}.

Definition assetOf (a : PageEnhanceAssetConfig) : Asset :=
  {| AssetPath := APath a; AssetFile := AFile a; AssetContentType := AContentType a |}.

Definition transformOf (t : PageEnhanceTransformConfig) : Transform :=
  {| Name := TName t;
     tMatch := {| mProviders := MProviders (TMatch t); mHosts := MHosts (TMatch t);
                  mPathPrefixes := MPathPrefixes (TMatch t); mContentTypes := MContentTypes (TMatch t);
                  mStatusCodes := MStatusCodes (TMatch t) |};
     HeaderSet := HSet (THeaders t); HeaderRemove := HRemove (THeaders t);
     InjectHead := TInjectHead t; InjectBody := TInjectBody t; Replace_ := replacementOf <$> TReplace t |}.

Definition ConfigFromApp (cfg : Config.Config) : PConfig :=
  let pe := PageEnhance cfg in
  {| pEnabled := PEEnabled pe; pOnError := OnError pe; pMaxBodySize := MaxBodySize pe;
     pAssets := assetOf <$> Assets pe; pTransforms := transformOf <$> Transforms pe; pCustomTransformers := [] |}.

Definition New (cfg : PConfig) : Pipeline :=
  {| pcfg := {| pEnabled := pEnabled cfg;
                pOnError := if is_blank (pOnError cfg) then OnErrorPassThrough else pOnError cfg;
                pMaxBodySize := if (pMaxBodySize cfg <=? 0)%Z then DefaultMaxBodySize else pMaxBodySize cfg;
                pAssets := pAssets cfg; pTransforms := pTransforms cfg;
                pCustomTransformers := pCustomTransformers cfg |};
     applied := 0; skipped := 0; errors := 0 |}.

(** * Matching *)

Section pipeline.
Context `{Externals}.

(** [err.Error()]. *)
Variable error_text : error -> gostring.

Definition hostPatternMatches (host pattern : gostring) : bool :=
  let pattern := keyword pattern in
  if HasPrefix pattern "*." then
    let suffix := TrimPrefix pattern "*." in
    bool_decide (host = suffix) || HasSuffix host ("." ++ suffix)
  else bool_decide (host = pattern).

Definition matchesHostList (patterns : list gostring) (host : gostring) : bool :=
  existsb (hostPatternMatches (keyword host)) patterns.

Definition matchesPrefixList (prefixes : list gostring) (path : gostring) : bool :=
  existsb (fun prefix => HasPrefix path prefix) prefixes.

Definition matchesStringList (values : list gostring) (value : gostring) : bool :=
  existsb (fun candidate => bool_decide (keyword candidate = keyword value)) values.

Definition matchesStatusCode (values : list Z) (value : Z) : bool :=
  existsb (fun candidate => bool_decide (candidate = value)) values.

(** An empty list of a criterion admits everything. *)
Definition criterion {A} (l : list A) (ok : bool) : bool := bool_decide (l = []) || ok.

Definition matches (m : Match) (meta : ResponseMeta) : bool :=
  if negb (bool_decide (mProviders m = [])) && negb (matchesStringList (mProviders m) (mtProvider meta)) then false
  else if negb (bool_decide (mHosts m = [])) && negb (matchesHostList (mHosts m) (mtHost meta)) then false
  else if negb (bool_decide (mPathPrefixes m = [])) && negb (matchesPrefixList (mPathPrefixes m) (mtPath meta)) then false
  else if negb (bool_decide (mContentTypes m = [])) && negb (matchesStringList (mContentTypes m) (mtContentType meta)) then false
  else if negb (bool_decide (mStatusCodes m = [])) && negb (matchesStatusCode (mStatusCodes m) (mtStatusCode meta)) then false
  else true.

Definition hasBodyOps (t : Transform) : bool :=
  negb (bool_decide (InjectHead t = [])) || negb (bool_decide (InjectBody t = [])) || negb (bool_decide (Replace_ t = [])).

Definition label (t : Transform) : gostring := if is_blank (Name t) then "unnamed" else Name t.

Definition transformerName (t : Transformer) : gostring :=
  let name := TrimSpace (TransformerName t) in if bool_decide (name = []) then "unnamed" else name.

Definition transformsNeedBody (ts : list Transform) : bool := existsb hasBodyOps ts.
Definition transformersNeedBody (ts : list Transformer) : bool := existsb NeedsBody ts.

Definition Enabled (p : Pipeline) : bool := pEnabled (pcfg p).

Definition NeedsIdentityEncoding (p : Pipeline) : bool :=
  Enabled p && (transformsNeedBody (pTransforms (pcfg p)) || transformersNeedBody (pCustomTransformers (pcfg p))).

Definition matchingTransforms (p : Pipeline) (meta : ResponseMeta) : list Transform :=
  filter (fun t => matches (tMatch t) meta = true) (pTransforms (pcfg p)).

Definition matchingCustomTransformers (p : Pipeline) (meta : ResponseMeta) : list Transformer :=
  filter (fun t => TransformerMatch t meta = true) (pCustomTransformers (pcfg p)).

Definition responseContentType (value : gostring) : gostring :=
  let value := TrimSpace (ToLower value) in
  match Index value ";" with
  | Some idx => TrimSpace (take idx value)
  | None => value
  end.

Definition completeResponseMeta (resp : Response) (meta : ResponseMeta) : ResponseMeta :=
  {| mtProvider := mtProvider meta; mtHost := mtHost meta;
     mtPath := match rRequestPath resp with
               | Some path => if bool_decide (mtPath meta = []) then path else mtPath meta
               | None => mtPath meta
               end;
     mtContentType := if bool_decide (mtContentType meta = [])
                      then responseContentType (Header_Get (rHeader resp) "Content-Type") else mtContentType meta;
     mtStatusCode := if (mtStatusCode meta =? 0)%Z then rStatusCode resp else mtStatusCode meta |}.

Definition eventFromMeta (action transform reason : gostring) (meta : ResponseMeta) : Event :=
  {| evAction := action; evTransform := transform; evReason := reason; evProvider := mtProvider meta;
     evHost := mtHost meta; evPath := mtPath meta; evStatus := mtStatusCode meta |}.

(** * Changing a response *)

(** [header[key]] looks the key up as it is written; Del and Set canonicalize it. *)
Definition removeHeader (s : Header * bool) (key : gostring) : Header * bool :=
  (Header_Del s.1 key, bool_decide (is_Some (s.1 !! key)) || s.2).

Definition setHeader (s : Header * bool) (kv : gostring * gostring) : Header * bool :=
  (Header_Set s.1 kv.1 kv.2, true).

Definition applyHeaders (header : Header) (t : Transform) : Header * bool :=
  foldl setHeader (foldl removeHeader (header, false) (HeaderRemove t)) (map_to_list (HeaderSet t)).

(** [out[:idx]] and [out[idx:]] of the body at an index found in the lower-cased
    body: [None] when the index is past the end. *)
Definition insertBeforeFold (body marker insert : gostring) : option (gostring * bool) :=
  match Index (ToLower body) (ToLower marker) with
  | None => Some (body, false)
  | Some idx => if bool_decide (idx <= length body) then Some (take idx body ++ insert ++ drop idx body, true) else None
  end.

(** The state of applyBodyTransform: the body, whether something was applied and
    the reasons for skipping. *)
Definition injectStep (marker insert reason : gostring) (s : gostring * bool * list gostring)
  : option (gostring * bool * list gostring) :=
  let '(next, ap, sk) := s in
  if bool_decide (insert = []) then Some s
  else match insertBeforeFold next marker insert with
       | None => None
       | Some (updated, true) => Some (updated, true, sk)
       | Some (_, false) => Some (next, ap, sk ++ [reason])
       end.

Definition replaceStep (s : gostring * bool * list gostring) (r : Replacement) : result (gostring * bool * list gostring) :=
  let '(next, ap, sk) := s in
  if bool_decide (Old r = []) then Err (Errorf "replace old value is required" [])
  else
    let replaced := Replace next (Old r) (New_ r) (if (Count r <=? 0)%Z then None else Some (Z.to_nat (Count r))) in
    if bool_decide (next = replaced) then Ok (next, ap, sk ++ ["replace_not_found"]) else Ok (replaced, true, sk).

Definition applyBodyTransform (body : gostring) (t : Transform) : option (result (gostring * bool * gostring)) :=
  match injectStep "</head>" (InjectHead t) "missing_head_end" (body, false, []) with
  | None => None
  | Some s1 =>
      match injectStep "</body>" (InjectBody t) "missing_body_end" s1 with
      | None => None
      | Some s2 =>
          Some (do s3 <- rfold replaceStep s2 (Replace_ t);
                let '(next, ap, sk) := s3 in Ok (next, ap, Join sk ","))
      end
  end.

Definition setResponseBody (resp : Response) (body : gostring) : Response :=
  {| rHeader := Header_Set (rHeader resp) "Content-Length" (ItoaNat (length body));
     rBody := Some (fresh_body body); rContentLength := Z.of_nat (length body);
     rStatusCode := rStatusCode resp; rRequestPath := rRequestPath resp |}.

Definition with_header (resp : Response) (h : Header) : Response :=
  {| rHeader := h; rBody := rBody resp; rContentLength := rContentLength resp;
     rStatusCode := rStatusCode resp; rRequestPath := rRequestPath resp |}.

Definition with_body (resp : Response) (b : Body) : Response :=
  {| rHeader := rHeader resp; rBody := Some b; rContentLength := rContentLength resp;
     rStatusCode := rStatusCode resp; rRequestPath := rRequestPath resp |}.

Definition closed (b : Body) : Body := {| bData := bData b; bFail := bFail b; bClosed := true |}.

(** readBody returns the bytes ([None] for a nil slice), the reason for skipping
    and the error, and leaves the response with the body it now has. *)
Definition readBody (p : Pipeline) (resp : Response) : result (option gostring * gostring) * Response :=
  match rBody resp with
  | None => (Ok (None, "body_unavailable"), resp)
  | Some b =>
      if negb (is_blank (Header_Get (rHeader resp) "Content-Encoding"))
      then (Ok (None, "unsupported_content_encoding"), resp)
      else if (pMaxBodySize (pcfg p) <? rContentLength resp)%Z then (Ok (None, "body_too_large"), resp)
      else
        let '(r, rest) := ReadAllLimit b (int64 (pMaxBodySize (pcfg p) + 1)) in
        match r with
        | Err e => (Err (Wrapf "read_response_body: %w" [] e), with_body resp (closed rest))
        | Ok data =>
            if (pMaxBodySize (pcfg p) <? Z.of_nat (length data))%Z
            then (Ok (None, "body_too_large"),
                  with_body resp {| bData := data ++ bData rest; bFail := bFail rest; bClosed := bClosed rest |})
            else (Ok (Some data, []), with_body resp (closed rest))
        end
  end.

Definition restore (resp : Response) (header : Header) (body : option gostring) : Response :=
  match body with
  | Some b => setResponseBody (with_header resp header) b
  | None => with_header resp header
  end.

(** * The pipeline *)

(** What the loops of ApplyResponseWithMeta carry. *)
Record Progress := {
  gPipe : Pipeline;
  gResp : Response;
  gBody : gostring;
  gModified : bool;
  gEvents : list Event;
}.

Definition skip (name reason : gostring) (meta : ResponseMeta) (g : Progress) : Progress :=
  {| gPipe := addSkipped (gPipe g); gResp := gResp g; gBody := gBody g; gModified := gModified g;
     gEvents := gEvents g ++ [eventFromMeta "skip" name reason meta] |}.
Definition mark (name : gostring) (meta : ResponseMeta) (g : Progress) : Progress :=
  {| gPipe := addApplied (gPipe g); gResp := gResp g; gBody := gBody g; gModified := gModified g;
     gEvents := gEvents g ++ [eventFromMeta "apply" name [] meta] |}.
Definition fails (name : gostring) (e : error) (meta : ResponseMeta) (g : Progress) : Progress :=
  {| gPipe := addError (gPipe g); gResp := gResp g; gBody := gBody g; gModified := gModified g;
     gEvents := gEvents g ++ [eventFromMeta "error" name (error_text e) meta] |}.
Definition set_resp (resp : Response) (g : Progress) : Progress :=
  {| gPipe := gPipe g; gResp := resp; gBody := gBody g; gModified := gModified g; gEvents := gEvents g |}.
Definition set_body (body : gostring) (g : Progress) : Progress :=
  {| gPipe := gPipe g; gResp := gResp g; gBody := body; gModified := true; gEvents := gEvents g |}.

(** A loop goes on, stops at an error, or panics. *)
Inductive flow :=
| Going (g : Progress)
| Failed (g : Progress) (e : error)
| Panicked.

(** One configured transform. *)
Definition transformStep (bodyLoaded : bool) (meta : ResponseMeta) (g : Progress) (t : Transform) : flow :=
  let '(header, appliedHeader) := applyHeaders (rHeader (gResp g)) t in
  let g1 := set_resp (with_header (gResp g) header) g in
  if bodyLoaded && hasBodyOps t then
    match applyBodyTransform (gBody g1) t with
    | None => Panicked
    | Some (Err e) => Failed (fails (label t) e meta g1) e
    | Some (Ok (next, ap, skippedReason)) =>
        let g2 := if bool_decide (skippedReason = []) then g1 else skip (label t) skippedReason meta g1 in
        let g3 := if ap then set_body next g2 else g2 in
        Going (if appliedHeader || ap then mark (label t) meta g3 else g3)
    end
  else Going (if appliedHeader then mark (label t) meta g1 else g1).

(** One custom transformer. *)
Definition transformerStep (bodyLoaded : bool) (meta : ResponseMeta) (g : Progress) (t : Transformer) : flow :=
  if NeedsBody t && negb bodyLoaded then Going g
  else
    let '(resp, r) := TransformerRun t (gResp g) (gBody g) meta in
    let g1 := set_resp resp g in
    match r with
    | Err e => Failed (fails (transformerName t) e meta g1) e
    | Ok r =>
        let g2 := if bool_decide (SkipReason r = []) then g1 else skip (transformerName t) (SkipReason r) meta g1 in
        let g3 := if BodyModified r then set_body (ResultBody r) g2 else g2 in
        Going (if Applied r then mark (transformerName t) meta g3 else g3)
    end.

Fixpoint loop {A} (step : Progress -> A -> flow) (g : Progress) (l : list A) : flow :=
  match l with
  | [] => Going g
  | x :: l' => match step g x with Going g' => loop step g' l' | f => f end
  end.

(** Reporting the transforms that cannot run because the body was not read. *)
Definition skipBodyOps (reason : gostring) (meta : ResponseMeta) (ts : list Transform) (cs : list Transformer)
    (g : Progress) : Progress :=
  let g1 := foldl (fun g t => if hasBodyOps t then skip (label t) reason meta g else g) g ts in
  foldl (fun g t => if NeedsBody t then skip (transformerName t) reason meta g else g) g1 cs.

(** The end of a run: the error is returned or the response is restored. *)
Definition failed (p : Pipeline) (header : Header) (original : option gostring) (g : Progress) (e : error)
  : Pipeline * Response * list Event * option error :=
  if bool_decide (pOnError (pcfg p) = OnErrorFailClosed)
  then (gPipe g, gResp g, gEvents g, Some e)
  else (gPipe g, restore (gResp g) header original, gEvents g, None).

Definition finish (bodyLoaded : bool) (g : Progress) : Response :=
  if gModified g then
    let resp := setResponseBody (gResp g) (gBody g) in
    with_header resp (Header_Del (Header_Del (rHeader resp) "ETag") "Content-MD5")
  else if bodyLoaded then setResponseBody (gResp g) (gBody g)
  else gResp g.

(** The two loops and the end of a run; [original] is the body that was read. *)
Definition runTransforms (p : Pipeline) (header : Header) (meta : ResponseMeta) (ts : list Transform)
    (cs : list Transformer) (original : option gostring) (g : Progress)
  : option (Pipeline * Response * list Event * option error) :=
  let loaded := bool_decide (is_Some original) in
  match loop (transformStep loaded meta) g ts with
  | Panicked => None
  | Failed g' e => Some (failed p header original g' e)
  | Going g1 =>
      match loop (transformerStep loaded meta) g1 cs with
      | Panicked => None
      | Failed g' e => Some (failed p header original g' e)
      | Going g2 => Some (gPipe g2, finish loaded g2, gEvents g2, None)
      end
  end.

(** ApplyResponseWithMeta on a response that is not nil. *)
Definition ApplyResponseWithMeta (p : Pipeline) (resp : Response) (meta0 : ResponseMeta)
  : option (Pipeline * Response * list Event * option error) :=
  if negb (Enabled p) then Some (p, resp, [], None)
  else
    let meta := completeResponseMeta resp meta0 in
    let ts := matchingTransforms p meta in
    let cs := matchingCustomTransformers p meta in
    if bool_decide (ts = []) && bool_decide (length cs = 0) then Some (p, resp, [], None)
    else
      let originalHeader := rHeader resp in
      let g0 := {| gPipe := p; gResp := resp; gBody := []; gModified := false; gEvents := [] |} in
      let run := runTransforms p originalHeader meta ts cs in
      if transformsNeedBody ts || transformersNeedBody cs then
        match readBody p resp with
        | (Err e, resp1) => Some (failed p originalHeader None (fails [] e meta (set_resp resp1 g0)) e)
        | (Ok (None, reason), resp1) =>
            let reason := if bool_decide (reason = []) then "body_unavailable" else reason in
            run None (skipBodyOps reason meta ts cs (set_resp resp1 g0))
        | (Ok (Some body, _), resp1) =>
            run (Some body) {| gPipe := p; gResp := resp1; gBody := body; gModified := false; gEvents := [] |}
        end
      else run None g0.

(** * Assets *)

(** os.ReadFile and http.DetectContentType. *)
Variable readFile : gostring -> result gostring.
Variable DetectContentType : gostring -> gostring.

(** [path] is the path of the request's URL, [None] when there is no URL. *)
Definition ServeAsset (p : Pipeline) (w : ResponseWriter) (path : option gostring) (host : gostring)
  : bool * list Event * ResponseWriter * Pipeline :=
  if negb (Enabled p) then (false, [], w, p)
  else match List.find (fun a => bool_decide (path = Some (AssetPath a))) (pAssets (pcfg p)) with
       | None => (false, [], w, p)
       | Some a =>
           let event action reason status :=
             {| evAction := action; evTransform := AssetPath a; evReason := reason; evProvider := []; evHost := host;
                evPath := AssetPath a; evStatus := status |} in
           match readFile (AssetFile a) with
           | Err e =>
               (true, [event "error" ("read_asset: " ++ error_text e) StatusInternalServerError],
                httpError w "page enhance asset failed" StatusInternalServerError, addError p)
           | Ok data =>
               let contentType := TrimSpace (AssetContentType a) in
               let contentType := if bool_decide (contentType = []) then DetectContentType data else contentType in
               (true, [event "asset" [] StatusOK],
                {| wHeader := Header_Set (Header_Set (wHeader w) "Content-Type" contentType)
                                "Content-Length" (ItoaNat (length data));
                   wStatus := Some StatusOK; wBody := wBody w ++ data |},
                addApplied p)
           end
       end.

Record Status := {
  StEnabled : bool;
  StOnError : gostring;
  StTransforms : nat;
  StAssets : nat;
  StApplied : Z;
  StSkipped : Z;
  StErrors : Z;
}.

Definition status (p : Pipeline) : Status :=
  {| StEnabled := pEnabled (pcfg p); StOnError := pOnError (pcfg p);
     StTransforms := length (pTransforms (pcfg p)) + length (pCustomTransformers (pcfg p));
     StAssets := length (pAssets (pcfg p)); StApplied := applied p; StSkipped := skipped p; StErrors := errors p |}.
End pipeline.

(** * Properties *)

Section loops.
Context {A : Type}.

(** An invariant that holds of a flow, with what is known of an error. *)
Definition holds (I : Progress -> Prop) (J : Progress -> error -> Prop) (f : flow) : Prop :=
  match f with Going g => I g | Failed g e => J g e | Panicked => True end.

Lemma loop_holds (I : Progress -> Prop) J (step : Progress -> A -> flow) g l :
  I g -> (forall g x, x ∈ l -> I g -> holds I J (step g x)) -> holds I J (loop step g l).
Proof.
  revert g. induction l as [|x l IH]; intros g Hg Hs; [done|]. cbn [loop].
  pose proof (Hs g x ltac:(left) Hg) as Hx. destruct (step g x) as [g'|g' e|]; [|done..].
  apply IH; [done|]. intros g1 y Hy. apply Hs. by right.
Qed.
End loops.

(** ** Counters *)

Section counting.
Context `{Externals} (error_text : error -> gostring).

Definition count (action : gostring) (evs : list Event) : Z :=
  Z.of_nat (length (filter (fun ev => evAction ev = action) evs)).

(** The counters of [p'] are those of [p] increased by the reported events. *)
Definition counted (p p' : Pipeline) (evs : list Event) : Prop :=
  pcfg p' = pcfg p ∧ applied p' = uint64 (applied p + count "apply" evs) ∧
  skipped p' = uint64 (skipped p + count "skip" evs) ∧ errors p' = uint64 (errors p + count "error" evs).

Definition wf (p : Pipeline) : Prop :=
  uint64 (applied p) = applied p ∧ uint64 (skipped p) = skipped p ∧ uint64 (errors p) = errors p.

Lemma uint64_add a b : uint64 (uint64 a + b) = uint64 (a + b).
Proof. unfold uint64. by rewrite Zplus_mod_idemp_l. Qed.

Lemma counted_nil p : wf p -> counted p p [].
Proof. intros (Ha & Hs & He). unfold counted, count. cbn. rewrite !Z.add_0_r. by split_and!. Qed.

Lemma count_snoc action evs ev :
  count action (evs ++ [ev]) = (count action evs + if decide (evAction ev = action) then 1 else 0)%Z.
Proof.
  unfold count. rewrite filter_app, length_app, Nat2Z.inj_add. f_equal.
  destruct (decide (evAction ev = action)) as [Hd|Hd]; [by rewrite filter_cons_True|by rewrite filter_cons_False].
Qed.

Lemma counted_snoc p p' evs ev q :
  counted p p' evs -> pcfg q = pcfg p' ->
  applied q = uint64 (applied p' + if decide (evAction ev = "apply") then 1 else 0) ->
  skipped q = uint64 (skipped p' + if decide (evAction ev = "skip") then 1 else 0) ->
  errors q = uint64 (errors p' + if decide (evAction ev = "error") then 1 else 0) ->
  counted p q (evs ++ [ev]).
Proof.
  intros (Hc & Ha & Hs & He) Hq Hqa Hqs Hqe. unfold counted. rewrite !count_snoc.
  rewrite Hqa, Hqs, Hqe, Ha, Hs, He, !uint64_add, !Z.add_assoc. by split_and!; congruence.
Qed.

Lemma uint64_same p p' evs : counted p p' evs ->
  uint64 (applied p' + 0) = applied p' ∧ uint64 (skipped p' + 0) = skipped p' ∧ uint64 (errors p' + 0) = errors p'.
Proof. intros (_ & Ha & Hs & He). rewrite Ha, Hs, He, !uint64_add, !Z.add_0_r. done. Qed.

Definition tallied (p : Pipeline) (g : Progress) : Prop := counted p (gPipe g) (gEvents g).

Lemma tallied_skip p name reason meta g : tallied p g -> tallied p (skip name reason meta g).
Proof. intros Hg. destruct (uint64_same _ _ _ Hg) as (Ha & Hs & He). eapply counted_snoc; cbn; eauto. Qed.
Lemma tallied_mark p name meta g : tallied p g -> tallied p (mark name meta g).
Proof. intros Hg. destruct (uint64_same _ _ _ Hg) as (Ha & Hs & He). eapply counted_snoc; cbn; eauto. Qed.
Lemma tallied_fails p name e meta g : tallied p g -> tallied p (fails error_text name e meta g).
Proof. intros Hg. destruct (uint64_same _ _ _ Hg) as (Ha & Hs & He). eapply counted_snoc; cbn; eauto. Qed.
End counting.

#[export] Hint Resolve tallied_skip tallied_mark tallied_fails : golib.

Section accounting.
Context `{Externals} (error_text : error -> gostring).

Lemma tallied_set_resp p resp g : tallied p g -> tallied p (set_resp resp g).
Proof. done. Qed.
Lemma tallied_set_body p body g : tallied p g -> tallied p (set_body body g).
Proof. done. Qed.
Hint Resolve tallied_set_resp tallied_set_body : golib.

Lemma transformStep_tallied p loaded meta g t :
  tallied p g -> holds (tallied p) (fun g _ => tallied p g) (transformStep error_text loaded meta g t).
Proof.
  intros Hg. unfold transformStep. destruct (applyHeaders _ _) as [h ah].
  destruct (loaded && hasBodyOps t); [destruct (applyBodyTransform _ _) as [[[[next ap] sk]|e]|]|]; cbn [holds]; auto with golib.
  - case_bool_decide; destruct ap, ah; cbn [orb]; auto 7 with golib.
  - destruct ah; auto with golib.
Qed.

Lemma transformerStep_tallied p loaded meta g t :
  tallied p g -> holds (tallied p) (fun g _ => tallied p g) (transformerStep error_text loaded meta g t).
Proof.
  intros Hg. unfold transformerStep. destruct (NeedsBody t && _); [done|].
  destruct (TransformerRun t _ _ _) as [resp [r|e]]; cbn [holds]; [|auto with golib].
  case_bool_decide; destruct (BodyModified r), (Applied r); auto 7 with golib.
Qed.

Lemma skipBodyOps_tallied p reason meta ts cs g : tallied p g -> tallied p (skipBodyOps reason meta ts cs g).
Proof.
  unfold skipBodyOps. intros Hg.
  assert (H1 : tallied p (foldl (fun g t => if hasBodyOps t then skip (label t) reason meta g else g) g ts)).
  { revert g Hg. induction ts as [|t ts IH]; intros g Hg; [done|]. cbn. apply IH. destruct (hasBodyOps t); auto with golib. }
  revert H1. generalize (foldl (fun g t => if hasBodyOps t then skip (label t) reason meta g else g) g ts). clear g Hg.
  induction cs as [|c cs IH]; intros g Hg; [done|]. cbn. apply IH. destruct (NeedsBody c); auto with golib.
Qed.

Lemma failed_counted p h o g e : tallied p g -> counted p (failed p h o g e).1.1.1 (failed p h o g e).1.2.
Proof. intros Hg. unfold failed. by case_bool_decide. Qed.

Lemma runTransforms_counted p h m ts cs original g r :
  tallied p g -> runTransforms error_text p h m ts cs original g = Some r -> counted p r.1.1.1 r.1.2.
Proof.
  intros Hg. unfold runTransforms. set (loaded := bool_decide (is_Some original)).
  pose proof (loop_holds (tallied p) (fun g _ => tallied p g) (transformStep error_text loaded m)
    g ts Hg (fun g t _ => transformStep_tallied p loaded m g t)) as H1.
  destruct (loop _ g ts) as [g1|g1 e|]; cbn in H1; [|intros [= <-]; by apply failed_counted|done].
  pose proof (loop_holds (tallied p) (fun g _ => tallied p g) (transformerStep error_text loaded m)
    g1 cs H1 (fun g t _ => transformerStep_tallied p loaded m g t)) as H2.
  destruct (loop _ g1 cs) as [g2|g2 e|]; cbn in H2; [|intros [= <-]; by apply failed_counted|done].
  by intros [= <-].
Qed.

(** The counters of the status report are exact: whatever the response and the
    transforms, a run increases the applied, skipped and error counters by the
    number of events of that kind it reports (modulo 2^64, their width), and
    changes nothing else of the pipeline. *)
Theorem counters_match_events p resp meta p' resp' evs err :
  wf p -> ApplyResponseWithMeta error_text p resp meta = Some (p', resp', evs, err) ->
  pcfg p' = pcfg p ∧ applied p' = uint64 (applied p + count "apply" evs) ∧
  skipped p' = uint64 (skipped p + count "skip" evs) ∧ errors p' = uint64 (errors p + count "error" evs).
Proof.
  intros Hwf. change (ApplyResponseWithMeta error_text p resp meta = Some (p', resp', evs, err) -> counted p p' evs).
  unfold ApplyResponseWithMeta. destruct (Enabled p); cbn [negb]; [|intros [= <- _ <- _]; by apply counted_nil].
  set (m := completeResponseMeta resp meta). set (ts := matchingTransforms p m). set (cs := matchingCustomTransformers p m).
  destruct (_ && _); [intros [= <- _ <- _]; by apply counted_nil|].
  set (g0 := {| gPipe := p; gResp := resp; gBody := []; gModified := false; gEvents := [] |}).
  assert (Hg0 : tallied p g0) by by apply counted_nil.
  intros Hr. set (R := (p', resp', evs, err)) in Hr. change (counted p R.1.1.1 R.1.2). revert Hr.
  destruct (_ || _); [|by apply runTransforms_counted].
  destruct (readBody p resp) as [[[[body|] reason]|e] resp1]; [by apply runTransforms_counted| |].
  - apply runTransforms_counted, skipBodyOps_tallied, tallied_set_resp, Hg0.
  - intros [= <-]. apply failed_counted. auto with golib.
Qed.
End accounting.

(** ** What a run does to a response *)

Section bodies.
Context `{Externals} (error_text : error -> gostring).

(** The limit on the body is positive and its successor is a 64-bit integer. *)
Definition sized (p : Pipeline) : Prop := (0 < pMaxBodySize (pcfg p) < 2 ^ 63 - 1)%Z.

Lemma int64_id z : (- 2 ^ 63 <= z < 2 ^ 63)%Z -> int64 z = z.
Proof. intros Hz. unfold int64. rewrite Z.mod_small; lia. Qed.

(** A response that differs from [resp] in its body only. *)
Definition same_but_body (resp resp1 : Response) : Prop := exists b, resp1 = with_body resp b.

(** The three outcomes of reading the body: it is read in full, it is left as it
    was, or it fails. *)
Lemma readBody_spec p resp :
  sized p ->
  match readBody p resp with
  | (Ok (Some body, _), resp1) => (exists b, rBody resp = Some b ∧ body = bData b ∧ bFail b = None) ∧
      (Z.of_nat (length body) <= pMaxBodySize (pcfg p))%Z ∧ same_but_body resp resp1
  | (Ok (None, _), resp1) => resp1 = resp
  | (Err _, resp1) => same_but_body resp resp1
  end.
Proof.
  intros Hs. unfold readBody. destruct (rBody resp) as [b|] eqn:Eb; [|done].
  destruct (negb _); [done|]. destruct (Z.ltb_spec (pMaxBodySize (pcfg p)) (rContentLength resp)) as [Hl|Hl]; [done|].
  rewrite int64_id by (unfold sized in Hs; lia). set (m := pMaxBodySize (pcfg p)) in *.
  destruct (ReadAllLimit b (m + 1)) as [[data|e] rest] eqn:Er; [|by eexists].
  destruct (ReadAllLimit_rest _ _ _ _ Er) as (Hd & Hf & Hc).
  destruct (Z.ltb_spec m (Z.of_nat (length data))) as [Hm|Hm].
  - rewrite Hd, Hf, Hc. destruct resp, b; cbn in *. by subst.
  - split; [|split; [done|by eexists]]. exists b. split; [done|].
    assert (Hlen : length (bData b) < Z.to_nat (m + 1)).
    { unfold ReadAllLimit in Er. destruct (bFail b); [case_bool_decide; [done|]|]; injection Er as <- _;
        rewrite length_take in Hm; lia. }
    unfold ReadAllLimit in Er. destruct (bFail b); [by rewrite bool_decide_eq_true_2 in Er|].
    injection Er as <- _. by rewrite take_ge by lia.
Qed.

(** The body the transforms make of a page, one after the other, and the headers
    they leave: the reference the pipeline is compared with. *)
Fixpoint pages (ts : list Transform) (body : gostring) : option (result gostring) :=
  match ts with
  | [] => Some (Ok body)
  | t :: ts' =>
      if hasBodyOps t then
        match applyBodyTransform body t with
        | None => None
        | Some (Err e) => Some (Err e)
        | Some (Ok (next, _, _)) => pages ts' next
        end
      else pages ts' body
  end.
Definition headersOf (ts : list Transform) (h : Header) : Header := foldl (fun h t => (applyHeaders h t).1) h ts.

(** A transform that reports nothing applied leaves the body alone. *)
Lemma injectStep_unapplied marker insert reason s next sk :
  injectStep marker insert reason s = Some (next, false, sk) -> s.1.1 = next ∧ s.1.2 = false.
Proof.
  destruct s as [[b ap] sk0]. unfold injectStep. case_bool_decide; [by intros [= -> -> _]|].
  destruct (insertBeforeFold b marker insert) as [[u [|]]|]; [done|by intros [= -> -> _]|done].
Qed.

Lemma replaceStep_unapplied s r next sk : replaceStep s r = Ok (next, false, sk) -> s.1.1 = next ∧ s.1.2 = false.
Proof.
  destruct s as [[b ap] sk0]. unfold replaceStep. case_bool_decide; [done|]. case_bool_decide; [by intros [= -> -> _]|done].
Qed.

Lemma replaces_unapplied l (s : gostring * bool * list gostring) next sk : rfold replaceStep s l = Ok (next, false, sk) -> s.1.1 = next ∧ s.1.2 = false.
Proof.
  revert s. induction l as [|r l IH]; intros s; cbn [rfold]; [by intros [= ->]|].
  destruct (replaceStep s r) as [[[b a] k]|] eqn:Er; cbn [rbind]; [|done]. intros Hl.
  destruct (IH _ Hl) as [Hb Ha]. cbn in Hb, Ha. subst. by apply replaceStep_unapplied in Er.
Qed.

Lemma applyBodyTransform_unapplied body t next sk :
  applyBodyTransform body t = Some (Ok (next, false, sk)) -> next = body.
Proof.
  unfold applyBodyTransform. destruct (injectStep "</head>" _ _ _) as [[[b1 a1] k1]|] eqn:E1; [|done].
  destruct (injectStep "</body>" _ _ _) as [[[b2 a2] k2]|] eqn:E2; [|done].
  destruct (rfold replaceStep (b2, a2, k2) (Replace_ t)) as [[[b3 a3] k3]|] eqn:E3; [|done]. intros [= -> -> _].
  apply replaces_unapplied in E3 as [Hb Ha]. cbn in Hb, Ha. subst.
  apply injectStep_unapplied in E2 as [Hb Ha]. cbn in Hb, Ha. subst.
  by apply injectStep_unapplied in E1 as [Hb _].
Qed.

(** What every state of the loop over the configured transforms satisfies: only
    the header of the response changed, and only an error is reported as one. *)
Definition in_progress (resp : Response) (g : Progress) : Prop :=
  exists h, gResp g = with_header resp h.
Definition errorless (g : Progress) : Prop := Forall (fun ev => evAction ev <> "error") (gEvents g).

Lemma errorless_snoc g evs : errorless g -> Forall (fun ev => evAction ev <> "error") evs ->
  Forall (fun ev => evAction ev <> "error") (gEvents g ++ evs).
Proof. intros. by apply Forall_app. Qed.

(** One step, against the reference. *)
Lemma transformStep_pages (loaded : bool) m g t resp :
  in_progress resp g -> errorless g ->
  let r := if loaded then pages [t] (gBody g) else Some (Ok (gBody g)) in
  match transformStep error_text loaded m g t with
  | Going g' => in_progress resp g' ∧ errorless g' ∧ r = Some (Ok (gBody g')) ∧
      rHeader (gResp g') = (applyHeaders (rHeader (gResp g)) t).1 ∧
      (gModified g' = false -> gModified g = false ∧ gBody g' = gBody g) ∧
      (loaded = false -> gModified g' = gModified g)
  | Failed g' e => in_progress resp g' ∧ ~ errorless g' ∧ r = Some (Err e)
  | Panicked => r = None
  end.
Proof.
  intros [h Hh] He. unfold transformStep. cbn [pages]. destruct (applyHeaders (rHeader (gResp g)) t) as [h' ah].
  assert (Hp : in_progress resp (set_resp (with_header (gResp g) h') g)) by (exists h'; cbn; by rewrite Hh).
  destruct (hasBodyOps t) eqn:Eops; rewrite ?andb_true_r, ?andb_false_r.
  2: { destruct loaded, ah; (split; [exact Hp|]); (split; [|by split_and!]); try exact He;
         apply errorless_snoc; try done; by repeat constructor. }
  destruct loaded.
  2: { destruct ah; (split; [exact Hp|]); (split; [|by split_and!]); try exact He;
         apply errorless_snoc; try done; by repeat constructor. }
  cbn [gBody set_resp]. destruct (applyBodyTransform (gBody g) t) as [[[[next ap] sk]|e]|] eqn:Eb; [| |done].
  - assert (Hnext : ap = false -> next = gBody g) by (intros ->; by eapply applyBodyTransform_unapplied).
    assert (Hs : forall n r, errorless (skip n r m (set_resp (with_header (gResp g) h') g))).
    { intros n r. apply errorless_snoc; [done|by repeat constructor]. }
    case_bool_decide; destruct ap, ah; cbn [orb]; (split; [exact Hp|]); (split; [|split_and!; cbn; try done; by rewrite Hnext]);
      try exact He; try apply Hs; apply (errorless_snoc (set_body _ _)) || apply errorless_snoc; try exact He; try apply Hs;
      by repeat constructor.
  - split; [exact Hp|]. split; [|done]. unfold errorless. cbn. rewrite Forall_app, Forall_singleton. cbn. tauto.
Qed.

Lemma loop_pages (loaded : bool) m ts g resp :
  in_progress resp g -> errorless g ->
  let r := if loaded then pages ts (gBody g) else Some (Ok (gBody g)) in
  match loop (transformStep error_text loaded m) g ts with
  | Going g' => in_progress resp g' ∧ errorless g' ∧ r = Some (Ok (gBody g')) ∧
      rHeader (gResp g') = headersOf ts (rHeader (gResp g)) ∧
      (gModified g' = false -> gModified g = false ∧ gBody g' = gBody g) ∧
      (loaded = false -> gModified g' = gModified g)
  | Failed g' e => in_progress resp g' ∧ ~ errorless g' ∧ r = Some (Err e)
  | Panicked => r = None
  end.
Proof.
  revert g. induction ts as [|t ts IH]; intros g Hp He; cbn [loop].
  { split_and!; try done. by destruct loaded. }
  pose proof (transformStep_pages loaded m g t resp Hp He) as Hs. cbn zeta in *.
  assert (Hcons : forall b, pages (t :: ts) b = match pages [t] b with Some (Ok n) => pages ts n | x => x end).
  { intros b. cbn [pages]. destruct (hasBodyOps t); [|done]. by destruct (applyBodyTransform b t) as [[[[]]|]|]. }
  destruct (transformStep error_text loaded m g t) as [g1|g1 e|].
  - destruct Hs as (Hp1 & He1 & Hr & Hh & Hm & Hl). specialize (IH g1 Hp1 He1).
    assert (Hr1 : (if loaded then pages (t :: ts) (gBody g) else Some (Ok (gBody g))) =
                  (if loaded then pages ts (gBody g1) else Some (Ok (gBody g1)))).
    { destruct loaded; [by rewrite Hcons, Hr|exact Hr]. }
    rewrite Hr1. destruct (loop _ g1 ts) as [g2|g2 e|]; [|done..].
    destruct IH as (Hp2 & He2 & Hr2 & Hh2 & Hm2 & Hl2). split_and!; try done; [by rewrite Hh2, Hh| |].
    + intros E. destruct (Hm2 E) as [E1 E2]. destruct (Hm E1) as [E3 E4]. split; congruence.
    + intros E. rewrite Hl2, Hl by done. done.
  - destruct Hs as (Hp1 & He1 & Hr). split_and!; try done. destruct loaded; [by rewrite Hcons, Hr|done].
  - destruct loaded; [by rewrite Hcons, Hs|done].
Qed.

(** The result of a run without custom transformers, from a state in which
    nothing happened yet. *)
Definition has_error (evs : list Event) : Prop := ~ Forall (fun ev => evAction ev <> "error") evs.

Lemma run_outcome p h m ts original g resp1 :
  in_progress resp1 g -> errorless g -> gModified g = false -> gBody g = default [] original ->
  let r := match original with Some body => pages ts body | None => Some (Ok []) end in
  match runTransforms error_text p h m ts [] original g with
  | None => r = None
  | Some (p', resp', evs, err) =>
      (Forall (fun ev => evAction ev <> "error") evs ∧ err = None ∧
         exists g', in_progress resp1 g' ∧ r = Some (Ok (gBody g')) ∧
           rHeader (gResp g') = headersOf ts (rHeader (gResp g)) ∧
           (gModified g' = false -> gBody g' = default [] original) ∧
           resp' = finish (bool_decide (is_Some original)) g' ∧ (original = None -> gModified g' = false)) ∨
      (has_error evs ∧ exists g' e, in_progress resp1 g' ∧ r = Some (Err e) ∧
         if bool_decide (pOnError (pcfg p) = OnErrorFailClosed) then err = Some e
         else err = None ∧ resp' = restore (gResp g') h original)
  end.
Proof.
  intros Hp He Hm Hb. unfold runTransforms. set (loaded := bool_decide (is_Some original)).
  pose proof (loop_pages loaded m ts g resp1 Hp He) as Hl. cbn zeta in Hl.
  assert (Hr : (if loaded then pages ts (gBody g) else Some (Ok (gBody g))) =
               match original with Some body => pages ts body | None => Some (Ok []) end).
  { subst loaded. rewrite Hb. by destruct original. }
  rewrite Hr in Hl. destruct (loop _ g ts) as [g1|g1 e|]; [|destruct Hl as (Hp1 & He1 & Hr1)|done].
  - destruct Hl as (Hp1 & He1 & Hr1 & Hh1 & Hm1 & Hl1). cbn [loop]. left. split; [done|]. split; [done|]. exists g1.
    split_and!; try done; [intros E; rewrite <-Hb; by apply Hm1|]. intros ->. by rewrite Hl1.
  - unfold failed. case_bool_decide; right; (split; [done|]); exists g1, e; rewrite ?bool_decide_eq_true_2 by done; by split_and!.
Qed.

(** A pipeline built from the application's configuration has no custom
    transformers. *)
Definition configured (p : Pipeline) : Prop := pCustomTransformers (pcfg p) = [].

Lemma skipBodyOps_progress reason m ts g resp :
  in_progress resp g -> errorless g ->
  let g' := skipBodyOps reason m ts [] g in
  in_progress resp g' ∧ errorless g' ∧ gModified g' = gModified g ∧ gBody g' = gBody g ∧ gResp g' = gResp g.
Proof.
  unfold skipBodyOps. cbn [foldl]. revert g. induction ts as [|t ts IH]; intros g Hp He; [done|]. cbn [foldl].
  destruct (hasBodyOps t); [|by apply IH].
  apply (IH (skip (label t) reason m g) Hp). apply errorless_snoc; [done|by repeat constructor].
Qed.

(** The whole call, by what happens to the body. *)
Definition start (p : Pipeline) (resp : Response) (body : gostring) : Progress :=
  {| gPipe := p; gResp := resp; gBody := body; gModified := false; gEvents := [] |}.

Lemma Apply_configured p resp meta :
  configured p -> Enabled p = true ->
  let m := completeResponseMeta resp meta in
  let ts := matchingTransforms p m in
  ApplyResponseWithMeta error_text p resp meta =
    if transformsNeedBody ts then
      match readBody p resp with
      | (Err e, resp1) => Some (failed p (rHeader resp) None (fails error_text [] e m (start p resp1 [])) e)
      | (Ok (None, reason), resp1) =>
          runTransforms error_text p (rHeader resp) m ts [] None
            (skipBodyOps (if bool_decide (reason = []) then "body_unavailable" else reason) m ts [] (start p resp1 []))
      | (Ok (Some body, _), resp1) => runTransforms error_text p (rHeader resp) m ts [] (Some body) (start p resp1 body)
      end
    else runTransforms error_text p (rHeader resp) m ts [] None (start p resp []).
Proof.
  intros Hc He. cbn zeta. unfold ApplyResponseWithMeta, matchingCustomTransformers. rewrite He, Hc. cbn [negb].
  rewrite filter_nil. cbn [length transformersNeedBody existsb]. rewrite orb_false_r.
  set (m := completeResponseMeta resp meta). destruct (matchingTransforms p m) as [|t ts]; [done|].
  reflexivity.
Qed.

Lemma start_progress p resp body : in_progress resp (start p resp body) ∧ errorless (start p resp body).
Proof. split; [exists (rHeader resp); by destruct resp|by constructor]. Qed.

(** A disabled pipeline and one with nothing to do leave the response alone. *)
Lemma Apply_disabled p resp meta : Enabled p = false -> ApplyResponseWithMeta error_text p resp meta = Some (p, resp, [], None).
Proof. intros He. unfold ApplyResponseWithMeta. by rewrite He. Qed.

(** When a page's body is not read (no matched transform works on the body, or
    it is encoded, announced or found too large, or absent) the client gets
    exactly the body of the server: every byte, the error that may follow them and
    the declared length, and no error is reported. *)
Theorem unread_body_untouched p resp meta p' resp' evs err :
  sized p -> configured p ->
  transformsNeedBody (matchingTransforms p (completeResponseMeta resp meta)) = false ∨
    (exists reason, (readBody p resp).1 = Ok (None, reason)) ->
  ApplyResponseWithMeta error_text p resp meta = Some (p', resp', evs, err) ->
  err = None ∧ rBody resp' = rBody resp ∧ rContentLength resp' = rContentLength resp ∧
  rStatusCode resp' = rStatusCode resp ∧ Forall (fun ev => evAction ev <> "error") evs.
Proof.
  intros Hs Hc Hun. destruct (Enabled p) eqn:He; [|rewrite Apply_disabled by done; intros [= <- <- <- <-]; by split_and!].
  rewrite (Apply_configured p resp meta Hc He). set (m := completeResponseMeta resp meta) in *.
  set (ts := matchingTransforms p m) in *.
  assert (Hrun : forall g, in_progress resp g -> errorless g -> gModified g = false -> gBody g = [] ->
    runTransforms error_text p (rHeader resp) m ts [] None g = Some (p', resp', evs, err) ->
    err = None ∧ rBody resp' = rBody resp ∧ rContentLength resp' = rContentLength resp ∧
    rStatusCode resp' = rStatusCode resp ∧ Forall (fun ev => evAction ev <> "error") evs).
  { intros g Hp Hel Hm Hb Hr. pose proof (run_outcome p (rHeader resp) m ts None g resp Hp Hel Hm Hb) as Ho.
    cbn zeta in Ho. rewrite Hr in Ho. destruct Ho as [(Hev & -> & g' & [h Hg'] & _ & _ & _ & -> & Hmod)|(_ & g' & e & _ & Hx & _)];
      [|done]. unfold finish. rewrite Hmod, Hg' by done. cbn. by split_and!. }
  destruct (transformsNeedBody ts) eqn:En; [|by apply Hrun; try apply start_progress].
  destruct Hun as [|[reason Hrb]]; [done|]. pose proof (readBody_spec p resp Hs) as Hspec.
  destruct (readBody p resp) as [r resp1]. cbn in Hrb. subst r. subst resp1.
  destruct (start_progress p resp []) as [Hp Hel].
  destruct (skipBodyOps_progress (if bool_decide (reason = []) then "body_unavailable" else reason) m ts _ resp Hp Hel)
    as (Hp1 & Hel1 & Hm1 & Hb1 & _). by apply Hrun.
Qed.

(** C16: the error policy.  Errors are reported as events; a run without one returns
    no error.  With [fail_closed] a run with an error event returns the error;
    with [pass_through] it returns none and the response is the server's again:
    the same status, the same headers but for the declared length and, when the
    body could be read, the same body, whatever was changed before the failure. *)
Theorem errors_roll_back p resp meta p' resp' evs err :
  sized p -> configured p ->
  ApplyResponseWithMeta error_text p resp meta = Some (p', resp', evs, err) ->
  (Forall (fun ev => evAction ev <> "error") evs -> err = None) ∧
  (has_error evs ->
     if bool_decide (pOnError (pcfg p) = OnErrorFailClosed) then is_Some err
     else err = None ∧ rStatusCode resp' = rStatusCode resp ∧
       (forall k, k <> "Content-Length" -> rHeader resp' !! k = rHeader resp !! k) ∧
       (is_ok (readBody p resp).1 = true -> bData <$> rBody resp' = bData <$> rBody resp)).
Proof.
  intros Hs Hc. destruct (Enabled p) eqn:He; [|rewrite Apply_disabled by done; intros [= <- <- <- <-];
    split; [done|intros Hx; destruct Hx; constructor]].
  rewrite (Apply_configured p resp meta Hc He). set (m := completeResponseMeta resp meta) in *.
  set (ts := matchingTransforms p m) in *. pose proof (readBody_spec p resp Hs) as Hspec.
  assert (Hrun : forall original g resp1, in_progress resp1 g -> errorless g -> gModified g = false ->
    gBody g = default [] original -> rStatusCode resp1 = rStatusCode resp ->
    (original = None -> bData <$> rBody resp1 = bData <$> rBody resp) ->
    (forall b, original = Some b -> Some b = bData <$> rBody resp) ->
    runTransforms error_text p (rHeader resp) m ts [] original g = Some (p', resp', evs, err) ->
    (Forall (fun ev => evAction ev <> "error") evs -> err = None) ∧
    (has_error evs -> if bool_decide (pOnError (pcfg p) = OnErrorFailClosed) then is_Some err
       else err = None ∧ rStatusCode resp' = rStatusCode resp ∧
         (forall k, k <> "Content-Length" -> rHeader resp' !! k = rHeader resp !! k) ∧
         (is_ok (readBody p resp).1 = true -> bData <$> rBody resp' = bData <$> rBody resp))).
  { intros original g resp1 Hp Hel Hm Hb Hst Hnone Hsome Hr.
    pose proof (run_outcome p (rHeader resp) m ts original g resp1 Hp Hel Hm Hb) as Ho. cbn zeta in Ho. rewrite Hr in Ho.
    destruct Ho as [(Hev & -> & _)|(Hev & g' & e & [h Hg'] & _ & Hpol)]; [split; [done|by intros []]|].
    split; [intros Hno; by destruct Hev|]. intros _. case_bool_decide; [by rewrite Hpol|]. destruct Hpol as [-> ->].
    split; [done|]. rewrite Hg'. destruct original as [b|]; cbn; split_and!; try done; [|by intros _; rewrite (Hsome b)|by intros _; apply Hnone].
    intros k Hk. rewrite Header_Set_lookup, bool_decide_eq_false_2; done. }
  destruct (transformsNeedBody ts); [|apply Hrun with resp; try done; apply start_progress].
  destruct (readBody p resp) as [[[[body|] reason]|e] resp1].
  - destruct Hspec as ((b & Hb & -> & _) & _ & [b1 ->]). apply Hrun with (with_body resp b1); try done; try apply start_progress.
    intros b2 [= <-]. by rewrite Hb.
  - subst resp1. destruct (start_progress p resp []) as [Hp Hel].
    destruct (skipBodyOps_progress (if bool_decide (reason = []) then "body_unavailable" else reason) m ts _ resp Hp Hel)
      as (Hp1 & Hel1 & Hm1 & Hb1 & _). by apply Hrun with resp.
  - destruct Hspec as [b1 ->]. unfold failed. case_bool_decide; intros [= <- <- <- <-]; (split; [intros Hno|by intros _]);
      apply Forall_cons in Hno as [Hno _]; by destruct Hno.
Qed.

(** A limit of 2^63 - 1 bytes, the largest the configuration can hold, empties
    pages: one more wraps around to a negative limit, nothing is read, and the
    transforms and the client get an empty body whatever the server sent. *)
Theorem max_body_size_overflow p resp b :
  pMaxBodySize (pcfg p) = (2 ^ 63 - 1)%Z -> rBody resp = Some b ->
  is_blank (Header_Get (rHeader resp) "Content-Encoding") = true -> (rContentLength resp < 2 ^ 63)%Z ->
  exists resp1, readBody p resp = (Ok (Some [], []), resp1).
Proof.
  intros Hm Hb Henc Hlen. unfold readBody. rewrite Hb, Henc, Hm. cbn [negb].
  destruct (Z.ltb_spec (2 ^ 63 - 1) (rContentLength resp)) as [Hl|_]; [lia|].
  unfold ReadAllLimit. change (Z.to_nat (int64 (2 ^ 63 - 1 + 1))) with 0.
  assert (Hz : bool_decide (length (bData b) < 0) = false) by (apply bool_decide_eq_false_2; lia).
  destruct (bFail b); rewrite ?Hz; cbn [take]; change (2 ^ 63 - 1 <? Z.of_nat (length [] ))%Z with false; by eexists.
Qed.
End bodies.

(** ** Injection *)

Lemma Index_least s sub i a b : Index s sub = Some i -> s = a ++ sub ++ b -> i <= length a.
Proof.
  revert i a. induction s as [|c s IH]; intros i a; cbn -[HasPrefix].
  - destruct (HasPrefix [] sub); [intros [= <-]; lia|done].
  - destruct (HasPrefix (c :: s) sub) eqn:E; [intros [= <-]; lia|].
    destruct (Index s sub) as [j|] eqn:Ej; [|done]. cbn. intros [= <-] Hs.
    destruct a as [|x a]; cbn in *; [|injection Hs as -> Hs; specialize (IH j a eq_refl Hs); lia].
    exfalso. rewrite Hs, HasPrefix_app in E. done.
Qed.

Lemma Index_none s sub : Index s sub = None -> forall a b, s <> a ++ sub ++ b.
Proof. intros Hi a b ->. destruct (Index_app_Some a sub b) as [i Hx]. congruence. Qed.

Lemma Index_skip p c sub r : c ∉ p -> Index (p ++ (c :: sub) ++ r) (c :: sub) = Some (length p).
Proof.
  intros Hc. induction p as [|x p IH].
  - change (Index ((c :: sub) ++ r) (c :: sub) = Some 0). pose proof (HasPrefix_app (c :: sub) r) as Hp.
    cbn [app] in *. cbn -[HasPrefix]. by rewrite Hp.
  - apply not_elem_of_cons in Hc as [Hx Hc]. cbn -[HasPrefix].
    destruct (HasPrefix _ _) eqn:E; [|cbn in IH; by rewrite IH].
    apply HasPrefix_true in E as [q Hq]. cbn in Hq. congruence.
Qed.

Section injection.
Context `{Externals}.

(** On ASCII pages the insertion is exact: the text goes right before the first
    occurrence of the marker in any letter case, nothing else of the page changes,
    a page without the marker is reported as such and left alone, and there is no
    panic. *)
Theorem insertBeforeFold_ascii body marker insert :
  is_ascii body = true -> is_ascii marker = true ->
  let occurs a m b := body = a ++ m ++ b ∧ ascii_ToLower m = ascii_ToLower marker in
  match insertBeforeFold body marker insert with
  | Some (out, true) => exists a m b, occurs a m b ∧ out = a ++ insert ++ m ++ b ∧
      (forall a' m' b', occurs a' m' b' -> length a <= length a')
  | Some (out, false) => out = body ∧ forall a m b, ~ occurs a m b
  | None => False
  end.
Proof.
  intros Hb Hm. cbn zeta. unfold insertBeforeFold, ToLower. rewrite Hb, Hm.
  assert (Hocc : forall a m b, body = a ++ m ++ b ∧ ascii_ToLower m = ascii_ToLower marker ->
    ascii_ToLower body = ascii_ToLower a ++ ascii_ToLower marker ++ ascii_ToLower b).
  { intros a m b [-> Hx]. unfold ascii_ToLower in *. by rewrite !fmap_app, Hx. }
  destruct (Index (ascii_ToLower body) (ascii_ToLower marker)) as [i|] eqn:Ei.
  - destruct (Index_Some _ _ _ Ei) as (a & b & Hab & Hla).
    apply fmap_app_inv in Hab as (a' & mb & -> & Hmb & ->). symmetry in Hmb.
    apply fmap_app_inv in Hmb as (m' & b' & Hm' & Hb' & ->).
    rewrite length_fmap in Hla. subst i. rewrite bool_decide_eq_true_2 by (rewrite length_app; lia).
    exists a', m', b'. rewrite take_app_length, drop_app_length. split; [by split|]. split; [done|].
    intros a1 m1 b1 Ho. pose proof (Index_least _ _ _ _ _ Ei (Hocc _ _ _ Ho)) as Hl. unfold ascii_ToLower in Hl. by rewrite !length_fmap in Hl.
  - split; [done|]. intros a m b Ho. by eapply (Index_none _ _ Ei), Hocc.
Qed.

(** bytes.ToLower decodes the page as UTF-8 and writes the three bytes of U+FFFD
    for every byte that is not part of a character; a byte 0xE9 (e with acute accent
    in Latin-1) followed by another one or by an ASCII character is such a byte. *)
Definition replacement_char : gostring := [chr 239; chr 191; chr 189].
Definition lowers_invalid_bytes : Prop := forall n s,
  is_ascii s = true ->
  unicode_ToLower (replicate (S n) (chr 233) ++ s) = mjoin (replicate (S n) replacement_char) ++ ascii_ToLower s.

Lemma lowered_run k :
  length (mjoin (replicate k replacement_char)) = 3 * k ∧ chr 60 ∉ mjoin (replicate k replacement_char).
Proof.
  induction k as [|k [IH1 IH2]]; [split; [done|apply not_elem_of_nil]|]. cbn [replicate].
  change (mjoin (replacement_char :: replicate k replacement_char))
    with (replacement_char ++ mjoin (replicate k replacement_char)).
  rewrite length_app, IH1, not_elem_of_app. split; [cbn [length replacement_char]; lia|]. split; [by_decide|done].
Qed.

(** On pages that are not UTF-8 the insertion point is wrong: it is an index
    into the lower-cased page, in which every undecodable byte takes three.  After
    n such bytes the text is inserted 2n bytes too late, inside the markup, and the
    handler panics when that is past the end of the page. *)
Theorem latin1_page_misplaced n rest insert :
  lowers_invalid_bytes -> is_ascii rest = true ->
  let body := replicate (S n) (chr 233) ++ "</head>" ++ rest in
  insertBeforeFold body "</head>" insert =
    if bool_decide (3 * S n <= length body)
    then Some (take (3 * S n) body ++ insert ++ drop (3 * S n) body, true) else None.
Proof.
  intros Hlaw Hr. cbn zeta. unfold insertBeforeFold.
  assert (Hascii : is_ascii (("</head>" : gostring) ++ rest) = true) by (unfold is_ascii in *; by rewrite forallb_app, Hr).
  assert (Hna : is_ascii (replicate (S n) (chr 233) ++ ("</head>" : gostring) ++ rest) = false) by done.
  unfold ToLower at 1. rewrite Hna, Hlaw by done.
  assert (Hi : Index (mjoin (replicate (S n) replacement_char) ++ ascii_ToLower (("</head>" : gostring) ++ rest)) (ToLower "</head>")
    = Some (3 * S n)).
  { change (ToLower "</head>") with (chr 60 :: ("/head>" : gostring)). unfold ascii_ToLower. rewrite fmap_app.
    change (lower_byte <$> ("</head>" : gostring)) with (chr 60 :: ("/head>" : gostring)).
    rewrite Index_skip.
    - by rewrite (proj1 (lowered_run (S n))).
    - apply lowered_run. }
  by rewrite Hi.
Qed.
End injection.

(** ** What the transforms make of a page

    The reference the pipeline is compared with: what a configured transform means, said
    without the operations of the code. *)
Section enhancement.
Context `{Externals} (error_text : error -> gostring).

(** The text goes in at the first place where the marker occurs in the lower-cased page,
    and nowhere when it does not occur; on an ASCII page that is right before the marker
    in any letter case ([insertBeforeFold_ascii]). *)
Inductive injected (marker insert : gostring) : gostring -> gostring -> Prop :=
| inject_nothing body : insert = [] -> injected marker insert body body
| inject_absent body : insert <> [] -> (forall a b, ToLower body <> a ++ marker ++ b) -> injected marker insert body body
| inject_first pre post a b :
    insert <> [] -> ToLower (pre ++ post) = a ++ marker ++ b -> length pre = length a ->
    (forall a' b', ToLower (pre ++ post) = a' ++ marker ++ b' -> length a <= length a') ->
    injected marker insert (pre ++ post) (pre ++ insert ++ post).

(** Occurrences of [old] are replaced from the left, none overlapping, at most [n] of them. *)
Inductive replaced (old new : gostring) : option nat -> gostring -> gostring -> Prop :=
| replace_limit s : replaced old new (Some 0) s s
| replace_absent n s : (forall a b, s <> a ++ old ++ b) -> replaced old new n s s
| replace_first n a b out :
    n <> Some 0 -> (forall a' b', a ++ old ++ b = a' ++ old ++ b' -> length a <= length a') ->
    replaced old new (pred <$> n) b out -> replaced old new n (a ++ old ++ b) (a ++ new ++ out).

(** The replacements of a transform in their order; a count that is not positive is none. *)
Inductive replaced_all : list Replacement -> gostring -> gostring -> Prop :=
| replace_done s : replaced_all [] s s
| replace_next r rs s s1 s2 :
    Old r <> [] -> replaced (Old r) (New_ r) (if (Count r <=? 0)%Z then None else Some (Z.to_nat (Count r))) s s1 ->
    replaced_all rs s1 s2 -> replaced_all (r :: rs) s s2.

(** The pages that the transforms make of a page, one after the other. *)
Inductive makes : list Transform -> gostring -> gostring -> Prop :=
| makes_nothing s : makes [] s s
| makes_next t ts s s1 s2 s3 s4 :
    injected "</head>" (InjectHead t) s s1 -> injected "</body>" (InjectBody t) s1 s2 ->
    replaced_all (Replace_ t) s2 s3 -> makes ts s3 s4 -> makes (t :: ts) s s4.

(** The header a transform leaves: a field it sets has that one value, one it removes and
    does not set is gone, the others stay. *)
Definition header_made (t : Transform) (h h' : Header) : Prop :=
  forall k,
    (exists key v, HeaderSet t !! key = Some v ∧ CanonicalMIMEHeaderKey key = k ∧ h' !! k = Some [v]) ∨
    ((forall key v, HeaderSet t !! key = Some v -> CanonicalMIMEHeaderKey key <> k) ∧
     h' !! k = if bool_decide (k ∈ CanonicalMIMEHeaderKey <$> HeaderRemove t) then None else h !! k).

Inductive headers_made : list Transform -> Header -> Header -> Prop :=
| headers_nothing h : headers_made [] h h
| headers_next t ts h h1 h2 : header_made t h h1 -> headers_made ts h1 h2 -> headers_made (t :: ts) h h2.

Lemma injectStep_injected marker insert reason body out ap sk :
  ToLower marker = marker -> injected marker insert body out ->
  exists ap' sk', injectStep marker insert reason (body, ap, sk) = Some (out, ap', sk').
Proof.
  intros Hm Hi. unfold injectStep, insertBeforeFold.
  destruct Hi as [body ->|body Hne Hno|pre post a b Hne Hab Hl Hmin]; [by eexists _, _| |];
    rewrite bool_decide_eq_false_2, Hm by done.
  - destruct (Index (ToLower body) marker) as [i|] eqn:Ei; [|by eexists _, _].
    apply Index_Some in Ei as (a & b & Hab & _). by destruct (Hno a b).
  - destruct (Index (ToLower (pre ++ post)) marker) as [i|] eqn:Ei; [|by destruct (Index_none _ _ Ei a b)].
    assert (i = length pre) as ->.
    { pose proof (Index_least _ _ _ _ _ Ei Hab). apply Index_Some in Ei as (a' & b' & Hab' & <-). apply Hmin in Hab'. lia. }
    rewrite bool_decide_eq_true_2 by (rewrite length_app; lia). rewrite take_app_length, drop_app_length. by eexists _, _.
Qed.

Lemma Replace_fuel_absent fuel s old new n : (forall a b, s <> a ++ old ++ b) -> Replace_fuel fuel s old new n = s.
Proof.
  revert s. induction fuel as [|fuel IH]; intros s Hs; [by destruct n|]. cbn [Replace_fuel].
  assert (CutPrefix s old = None) as ->.
  { destruct (CutPrefix s old) as [r|] eqn:E; [|done]. apply CutPrefix_Some in E. by destruct (Hs [] r). }
  destruct s as [|c s]; [by destruct n as [[]|]|]. rewrite IH; [by destruct n as [[]|]|].
  intros a b ->. by apply (Hs (c :: a) b).
Qed.

Lemma Replace_fuel_replaced old new n s out fuel :
  old <> [] -> replaced old new n s out -> length s <= fuel -> Replace_fuel fuel s old new n = out.
Proof.
  intros Hne Hr. revert fuel. induction Hr as [s|n s Hs|n a b out Hn Hmin _ IH]; intros fuel Hf.
  - by destruct fuel.
  - by apply Replace_fuel_absent.
  - revert fuel Hf. induction a as [|c a IHa]; intros fuel Hf.
    + destruct fuel as [|fuel]; [destruct old; cbn in *; [done|lia]|]. cbn [app Replace_fuel].
      assert (CutPrefix (old ++ b) old = Some b) as -> by by apply CutPrefix_Some.
      rewrite IH; [by destruct n as [[]|]|]. cbn in Hf. rewrite length_app in Hf. destruct old; [done|]. cbn in Hf. lia.
    + destruct fuel as [|fuel]; [cbn in Hf; lia|]. cbn [app Replace_fuel].
      assert (CutPrefix (c :: a ++ old ++ b) old = None) as ->.
      { destruct (CutPrefix _ old) as [r|] eqn:E; [|done]. apply CutPrefix_Some in E. specialize (Hmin [] r E). cbn in Hmin. lia. }
      rewrite IHa; [by destruct n as [[]|]| |cbn in Hf; lia].
      intros a' b' E. specialize (Hmin (c :: a') b'). cbn in Hmin. rewrite E in Hmin. specialize (Hmin eq_refl). lia.
Qed.

Lemma replaces_replaced rs s out ap sk :
  replaced_all rs s out -> exists ap' sk', rfold replaceStep (s, ap, sk) rs = Ok (out, ap', sk').
Proof.
  intros Hr. revert ap sk. induction Hr as [s|r rs s s1 s2 Hne Hr _ IH]; intros ap sk; [by eexists _, _|].
  cbn [rfold replaceStep]. rewrite bool_decide_eq_false_2 by done.
  assert (Replace s (Old r) (New_ r) (if (Count r <=? 0)%Z then None else Some (Z.to_nat (Count r))) = s1) as ->
    by (by apply Replace_fuel_replaced).
  case_bool_decide as He; [subst s1|]; apply IH.
Qed.

Lemma applyBodyTransform_makes t s s1 s2 s3 :
  injected "</head>" (InjectHead t) s s1 -> injected "</body>" (InjectBody t) s1 s2 -> replaced_all (Replace_ t) s2 s3 ->
  exists ap sk, applyBodyTransform s t = Some (Ok (s3, ap, sk)).
Proof.
  intros H1 H2 H3. unfold applyBodyTransform.
  destruct (injectStep_injected _ _ "missing_head_end" _ _ false [] eq_refl H1) as (ap1 & sk1 & ->).
  destruct (injectStep_injected _ _ "missing_body_end" _ _ ap1 sk1 eq_refl H2) as (ap2 & sk2 & ->).
  destruct (replaces_replaced _ _ _ ap2 sk2 H3) as (ap3 & sk3 & ->). by eexists _, _.
Qed.

Lemma injected_nothing marker body out : injected marker [] body out -> out = body.
Proof. by inversion 1. Qed.

Lemma pages_makes ts s out : makes ts s out -> pages ts s = Some (Ok out).
Proof.
  induction 1 as [s|t ts s s1 s2 s3 s4 H1 H2 H3 _ IH]; [done|]. cbn [pages]. destruct (hasBodyOps t) eqn:Eh.
  - destruct (applyBodyTransform_makes _ _ _ _ _ H1 H2 H3) as (ap & sk & ->). done.
  - unfold hasBodyOps in Eh. apply orb_false_iff in Eh as [[Eh Eb]%orb_false_iff Er].
    apply negb_false_iff, bool_decide_eq_true_1 in Eh, Eb, Er. rewrite Eh in H1. rewrite Eb in H2. rewrite Er in H3.
    apply injected_nothing in H1, H2. inversion H3. by subst.
Qed.

Lemma setHeaders_lookup l (s : Header * bool) k :
  (exists key v, (key, v) ∈ l ∧ CanonicalMIMEHeaderKey key = k ∧ (foldl setHeader s l).1 !! k = Some [v]) ∨
  ((forall key v, (key, v) ∈ l -> CanonicalMIMEHeaderKey key <> k) ∧ (foldl setHeader s l).1 !! k = s.1 !! k).
Proof.
  revert s. induction l as [|[key v] l IH]; intros s; cbn [foldl]; [right; split; [by intros ? ? ?%elem_of_nil|done]|].
  destruct (IH (setHeader s (key, v))) as [(key' & v' & Hin & Hk & Hl)|[Hno Hl]].
  - left. exists key', v'. split; [by right|done].
  - rewrite Hl. cbn [setHeader fst snd]. rewrite Header_Set_lookup. case_bool_decide as Hd.
    + left. exists key, v. split; [by left|done].
    + right. split; [|done]. intros key' v' [[= -> ->]|Hin]%elem_of_cons; [congruence|by eapply Hno].
Qed.

Lemma applyHeaders_made t h : header_made t h (applyHeaders h t).1.
Proof.
  intros k. unfold applyHeaders.
  assert (Hrm : forall ks (s : Header * bool), (foldl removeHeader s ks).1 = foldl Header_Del s.1 ks).
  { induction ks as [|x ks IH]; intros s; [done|]. cbn [foldl]. by rewrite IH. }
  destruct (setHeaders_lookup (map_to_list (HeaderSet t)) (foldl removeHeader (h, false) (HeaderRemove t)) k)
    as [(key & v & Hin & Hk & Hl)|[Hno Hl]]; rewrite Hl.
  - left. exists key, v. split; [by apply elem_of_map_to_list|done].
  - right. split; [|by rewrite Hrm, foldl_Header_Del]. intros key v Hin. apply (Hno key v). by apply elem_of_map_to_list.
Qed.

Lemma headersOf_made ts h : headers_made ts h (headersOf ts h).
Proof.
  revert h. induction ts as [|t ts IH]; intros h; [constructor|]. econstructor; [apply applyHeaders_made|apply IH].
Qed.

Lemma readBody_reads p resp b :
  sized p -> rBody resp = Some b -> bFail b = None -> is_blank (Header_Get (rHeader resp) "Content-Encoding") = true ->
  (rContentLength resp <= pMaxBodySize (pcfg p))%Z -> (Z.of_nat (length (bData b)) <= pMaxBodySize (pcfg p))%Z ->
  exists b1, readBody p resp = (Ok (Some (bData b), []), with_body resp b1).
Proof.
  intros Hs Hb Hf Henc Hcl Hlen. unfold readBody. rewrite Hb, Henc. cbn [negb].
  destruct (Z.ltb_spec (pMaxBodySize (pcfg p)) (rContentLength resp)); [lia|].
  rewrite int64_id by (unfold sized in Hs; lia). unfold ReadAllLimit. rewrite Hf, take_ge by lia.
  destruct (Z.ltb_spec (pMaxBodySize (pcfg p)) (Z.of_nat (length (bData b)))); [lia|]. by eexists.
Qed.

End enhancement.

(** ** With the configuration *)

Section validated.
Context `{Externals} (error_text : error -> gostring).

Definition replaceable (t : Transform) : Prop := Forall (fun r => Old r <> []) (Replace_ t).

Lemma pages_no_error ts body e : Forall replaceable ts -> pages ts body <> Some (Err e).
Proof.
  intros Hts. revert body. induction Hts as [|t ts Ht _ IH]; intros body; cbn [pages]; [done|].
  destruct (hasBodyOps t); [|apply IH].
  destruct (applyBodyTransform body t) as [[[[next ap] sk]|e']|] eqn:Ea; [apply IH| |done]. exfalso.
  unfold applyBodyTransform in Ea. destruct (injectStep _ _ _ (body, false, [])) as [s1|]; [|done].
  destruct (injectStep _ _ _ s1) as [s2|]; [|done]. clear -Ea Ht. unfold replaceable in Ht.
  assert (Hok : is_ok (rfold replaceStep s2 (Replace_ t)) = true).
  { clear Ea. revert s2. induction Ht as [|r l Hr _ IH]; intros [[b a] k]; [done|]. cbn [rfold replaceStep].
    rewrite bool_decide_eq_false_2 by done. case_bool_decide; cbn [rbind]; by apply IH. }
  destruct (rfold replaceStep s2 (Replace_ t)) as [[[b a] k]|]; done.
Qed.

Lemma validated_replaceable c c' :
  Validate c = Ok c' -> PEEnabled (PageEnhance c') = true ->
  Forall replaceable (pTransforms (pcfg (New (ConfigFromApp c')))).
Proof.
  unfold Validate. intros Hv He. inv_ok Hv. cbn [PageEnhance] in *.
  match goal with H : validatePageEnhanceConfig _ = _ |- _ => unfold validatePageEnhanceConfig in H; inv_ok H; [done|] end.
  cbn [New ConfigFromApp pcfg pTransforms PageEnhance Transforms]. apply Forall_fmap, Forall_forall. intros t Ht.
  match goal with H : rmapM validateTransform _ = _ |- _ => destruct (rmapM_enum_out _ _ _ _ H Ht) as (i & u & _ & Hu) end.
  unfold validateTransform in Hu. inv_ok Hu. cbn. apply Forall_fmap, Forall_forall. intros r Hr.
  match goal with H : rmapM (validateReplace _) _ = _ |- _ => destruct (rmapM_enum_out _ _ _ _ H Hr) as (j & v & _ & Hrep) end.
  unfold validateReplace in Hrep. inv_ok Hrep. by boolify.
Qed.

(** With an accepted configuration no transform ever fails: the only error a
    response can meet in the pipeline is that its body cannot be read. *)
Theorem validated_pages_never_fail c c' resp meta p' resp' evs err :
  Validate c = Ok c' ->
  let p := New (ConfigFromApp c') in
  ApplyResponseWithMeta error_text p resp meta = Some (p', resp', evs, err) -> has_error evs ->
  exists e, (readBody p resp).1 = Err e.
Proof.
  cbn zeta. intros Hv. set (p := New (ConfigFromApp c')). intros Ha Hev.
  destruct (Enabled p) eqn:He; [|rewrite Apply_disabled in Ha by done; injection Ha as <- <- <- <-; destruct Hev; constructor].
  pose proof (validated_replaceable c c' Hv He) as Hrep. fold p in Hrep.
  rewrite (Apply_configured error_text p resp meta eq_refl He) in Ha.
  set (m := completeResponseMeta resp meta) in *. set (ts := matchingTransforms p m) in *.
  assert (Hts : Forall replaceable ts) by (apply Forall_forall; intros t [_ Ht]%list_elem_of_filter;
    rewrite Forall_forall in Hrep; auto).
  assert (Hrun : forall original g resp1, in_progress resp1 g -> errorless g -> gModified g = false ->
    gBody g = default [] original -> runTransforms error_text p (rHeader resp) m ts [] original g = Some (p', resp', evs, err) -> False).
  { intros original g resp1 Hp Hel Hm Hb Hr.
    pose proof (run_outcome error_text p (rHeader resp) m ts original g resp1 Hp Hel Hm Hb) as Ho. cbn zeta in Ho. rewrite Hr in Ho.
    destruct Ho as [(Hno & _)|(_ & g' & e & _ & Hx & _)]; [by destruct Hev|]. destruct original; [|done].
    by eapply (pages_no_error ts). }
  destruct (transformsNeedBody ts); [|exfalso; eapply (Hrun None _ resp), Ha; try done; apply start_progress].
  destruct (readBody p resp) as [[[[body|] reason]|e] resp1]; [| |by eexists]; exfalso.
  - eapply (Hrun (Some body) _ resp1), Ha; try done; apply start_progress.
  - destruct (start_progress p resp1 []) as [Hp Hel].
    destruct (skipBodyOps_progress (if bool_decide (reason = []) then "body_unavailable" else reason) m ts _ resp1 Hp Hel)
      as (Hp1 & Hel1 & Hm1 & Hb1 & _). by eapply (Hrun None), Ha.
Qed.
End validated.

(** ** Witnesses *)

Section enhance_witnesses.
#[local] Existing Instance simple_externals.

Definition sample_text (e : error) : gostring := [].

(** Sets a header, injects a script and replaces a word on pages of one host. *)
Definition sample_transform : Transform :=
  {| Name := "t";
     tMatch := {| mProviders := []; mHosts := ["*.example.com"]; mPathPrefixes := ["/"]; mContentTypes := ["text/html"];
                  mStatusCodes := [200%Z] |};
     HeaderSet := {["X-Frame-Options" : gostring := "DENY" : gostring]}; HeaderRemove := ["Server"]; InjectHead := "<x>"; InjectBody := [];
     Replace_ := [{| Old := "old"; New_ := "new"; Count := 1 |}] |}.

Definition sample_pipeline (ts : list Transform) (onError : gostring) : Pipeline :=
  New {| pEnabled := true; pOnError := onError; pMaxBodySize := 100; pAssets := []; pTransforms := ts;
         pCustomTransformers := [] |}.

Definition sample_page (body : gostring) : Response :=
  {| rHeader := <[("Content-Type" : gostring) := ["Text/HTML; charset=utf-8" : gostring]]> {[("Etag" : gostring) := ["1" : gostring]]};
     rBody := Some (fresh_body body); rContentLength := -1; rStatusCode := 200; rRequestPath := Some "/x" |}.

Definition sample_meta : ResponseMeta :=
  {| mtProvider := "steam"; mtHost := "www.example.com"; mtPath := []; mtContentType := []; mtStatusCode := 0 |}.

Lemma sample_sized ts onError : sized (sample_pipeline ts onError).
Proof. split; reflexivity. Qed.

Lemma sample_wf ts onError : wf (sample_pipeline ts onError).
Proof. by split_and!. Qed.

Lemma counters_match_events_witness :
  exists p' resp' evs, ApplyResponseWithMeta sample_text (sample_pipeline [sample_transform] []) (sample_page "<HEAD></HEAD>old") sample_meta
    = Some (p', resp', evs, None) ∧ applied p' = 1%Z ∧ skipped p' = 0%Z.
Proof.
  destruct (ApplyResponseWithMeta sample_text (sample_pipeline [sample_transform] []) (sample_page "<HEAD></HEAD>old") sample_meta)
    as [[[[p' resp'] evs] err]|] eqn:Ha; [|vm_compute in Ha; discriminate Ha].
  pose proof (counters_match_events sample_text _ _ _ _ _ _ _ (sample_wf _ _) Ha) as (_ & H1 & H2 & _).
  assert (Hev : (fun r => (r.2, count "apply" r.1.2, count "skip" r.1.2)) <$>
    ApplyResponseWithMeta sample_text (sample_pipeline [sample_transform] []) (sample_page "<HEAD></HEAD>old") sample_meta
    = Some (None, 1%Z, 0%Z)) by (vm_compute; reflexivity).
  rewrite Ha in Hev. cbn [fmap option_fmap option_map fst snd] in Hev. injection Hev as -> Hc1 Hc2. exists p', resp', evs. rewrite H1, H2, Hc1, Hc2. by split_and!.
Defined.

Lemma sample_makes : makes [sample_transform] "<HEAD></HEAD>old" "<HEAD><x></HEAD>new".
Proof.
  apply makes_next with (s1 := "<HEAD><x></HEAD>old") (s2 := "<HEAD><x></HEAD>old") (s3 := "<HEAD><x></HEAD>new"); [..|constructor].
  - apply (inject_first "</head>" "<x>" "<HEAD>" "</HEAD>old" "<head>" "old"); [done|vm_compute; reflexivity|done|].
    intros a' b' E. refine (Index_least _ "</head>" 6 _ _ _ E). vm_compute. reflexivity.
  - by constructor.
  - apply replace_next with (s1 := "<HEAD><x></HEAD>new"); [done| |constructor].
    apply (replace_first "old" "new" (Some 1) "<HEAD><x></HEAD>" []); [done| |constructor].
    intros a' b' E. refine (Index_least _ "old" 16 _ _ _ E). vm_compute. reflexivity.
Qed.

(** A page of exactly the size limit. *)
Definition tight_pipeline : Pipeline :=
  New {| pEnabled := true; pOnError := []; pMaxBodySize := 16; pAssets := []; pTransforms := [sample_transform];
         pCustomTransformers := [] |}.


Lemma unread_body_untouched_witness :
  exists p' resp' evs, ApplyResponseWithMeta sample_text (sample_pipeline [sample_transform] []) (sample_page (replicate 101 (chr 65))) sample_meta
    = Some (p', resp', evs, None) ∧ rBody resp' = Some (fresh_body (replicate 101 (chr 65))).
Proof.
  set (p := sample_pipeline [sample_transform] []). set (resp := sample_page (replicate 101 (chr 65))).
  destruct (ApplyResponseWithMeta sample_text p resp sample_meta) as [[[[p' resp'] evs] err]|] eqn:Ha; [|vm_compute in Ha; discriminate Ha].
  assert (Hun : exists reason, (readBody p resp).1 = Ok (None, reason)) by (exists "body_too_large"; vm_compute; reflexivity).
  destruct (unread_body_untouched sample_text p resp sample_meta p' resp' evs err (sample_sized _ _) eq_refl
    (or_intror Hun) Ha) as (-> & Hb & _).
  exists p', resp', evs. split; [done|]. by rewrite Hb.
Defined.

Definition one_error : list gostring := ["error"].
Definition actionsOf (r : Pipeline * Response * list Event * option error) : list gostring := evAction <$> r.1.2.

Lemma reported_error evs : evAction <$> evs = one_error -> has_error evs.
Proof.
  destruct evs as [|ev evs]; [done|]. intros [= He _] Hx. apply Forall_cons in Hx as [Hx _]. done.
Qed.

(** A transform that fails after it changed a header, under both policies. *)
Definition failing_transform : Transform :=
  {| Name := "f"; tMatch := tMatch sample_transform; HeaderSet := {["X-A" : gostring := "1" : gostring]}; HeaderRemove := []; InjectHead := "<x>"; InjectBody := [];
     Replace_ := [{| Old := []; New_ := []; Count := 0 |}] |}.

Lemma errors_roll_back_witness :
  exists p' resp' evs, ApplyResponseWithMeta sample_text (sample_pipeline [failing_transform] []) (sample_page "</head>") sample_meta
    = Some (p', resp', evs, None) ∧ rHeader resp' !! ("X-A" : gostring) = None ∧ bData <$> rBody resp' = Some "</head>".
Proof.
  destruct (ApplyResponseWithMeta sample_text (sample_pipeline [failing_transform] []) (sample_page "</head>") sample_meta)
    as [[[[p' resp'] evs] err]|] eqn:Ha; [|vm_compute in Ha; discriminate Ha].
  pose proof (errors_roll_back sample_text _ _ _ _ _ _ _ (sample_sized _ _) eq_refl Ha) as [_ Hr].
  assert (Hev : actionsOf <$>
    ApplyResponseWithMeta sample_text (sample_pipeline [failing_transform] []) (sample_page "</head>") sample_meta
    = Some one_error) by (vm_compute; reflexivity).
  rewrite Ha in Hev. cbn [fmap option_fmap option_map fst snd] in Hev. apply (inj Some) in Hev. assert (He : has_error evs) by by apply reported_error.
  destruct (Hr He) as (-> & _ & Hh & Hb). exists p', resp', evs. split; [done|]. rewrite Hh by discriminate.
  split; [reflexivity|]. by rewrite Hb.
Defined.

Lemma max_body_size_overflow_witness :
  exists resp1, readBody (New {| pEnabled := true; pOnError := []; pMaxBodySize := 2 ^ 63 - 1; pAssets := [];
    pTransforms := [sample_transform]; pCustomTransformers := [] |}) (sample_page "<head></head>") = (Ok (Some [], []), resp1).
Proof. apply (max_body_size_overflow _ _ (fresh_body "<head></head>")); reflexivity. Defined.

Lemma insertBeforeFold_ascii_witness :
  insertBeforeFold "a</HEAD></head>" "</head>" "<x>" = Some ("a<x></HEAD></head>", true) ∧
  exists a m b, ("a</HEAD></head>" : gostring) = a ++ m ++ b ∧ "a<x></HEAD></head>" = a ++ "<x>" ++ m ++ b.
Proof.
  pose proof (insertBeforeFold_ascii "a</HEAD></head>" "</head>" "<x>" eq_refl eq_refl) as Hi.
  assert (He : insertBeforeFold "a</HEAD></head>" "</head>" "<x>" = Some ("a<x></HEAD></head>", true)) by (vm_compute; reflexivity).
  cbn zeta in Hi. rewrite He in Hi. destruct Hi as (a & m & b & [Ho _] & Hx & _). split; [done|]. by exists a, m, b.
Defined.

(** A configuration that injects a script into every page. *)
Definition injecting : Config.Config :=
  let d := enhanced "X-Frame-Options" "DENY" in
  {| Mode := Mode d; ProvidersEnabled := ProvidersEnabled d; DNS := DNS d; Proxy := Proxy d; PAC := PAC d;
     Hosts := Hosts d; Cert := Cert d; Resolver := Resolver d; Upstream := Upstream d;
     PageEnhance := {| PEEnabled := true; OnError := "pass_through"; MaxBodySize := 100; Assets := [];
       Transforms := [{| TName := "t";
         TMatch := {| MProviders := []; MHosts := []; MPathPrefixes := []; MContentTypes := []; MStatusCodes := [] |};
         THeaders := {| HSet := ∅; HRemove := [] |}; TInjectHead := "<x>"; TInjectBody := []; TReplace := [] |}] |};
     SystemServices := SystemServices d; CustomDomains := CustomDomains d; Runtime := Runtime d |}.

(** A page whose connection breaks. *)
Definition broken_page : Response :=
  {| rHeader := ∅; rBody := Some {| bData := "abc"; bFail := Some (External "reset"); bClosed := false |};
     rContentLength := -1; rStatusCode := 200; rRequestPath := None |}.

Lemma validated_pages_never_fail_witness :
  exists e, (readBody (New (ConfigFromApp injecting)) broken_page).1 = Err e.
Proof.
  destruct (ApplyResponseWithMeta sample_text (New (ConfigFromApp injecting)) broken_page sample_meta)
    as [[[[p' resp'] evs] err]|] eqn:Ha; [|vm_compute in Ha; discriminate Ha].
  refine (validated_pages_never_fail sample_text injecting injecting broken_page sample_meta p' resp' evs err _ Ha _).
  - vm_compute. reflexivity.
  - assert (Hev : actionsOf <$> ApplyResponseWithMeta sample_text (New (ConfigFromApp injecting)) broken_page sample_meta
      = Some one_error) by (vm_compute; reflexivity).
    rewrite Ha in Hev. cbn [fmap option_fmap option_map fst snd] in Hev. apply (inj Some) in Hev. by apply reported_error.
Defined.
End enhance_witnesses.

(** A Unicode table that treats 0xE9 as an undecodable byte. *)
Section latin1.
Definition latin1_externals : Externals := {|
  ext_unicode := {| unicode_ToLower s := mjoin ((fun c => if bool_decide (c = chr 233) then replacement_char else [lower_byte c]) <$> s);
                    unicode_EqualFold s t := bool_decide (s = t) |};
  idna_ToASCII := @idna_ToASCII simple_externals;
  url_Parse := @url_Parse simple_externals;
|}.

Lemma latin1_law : @lowers_invalid_bytes latin1_externals.
Proof.
  intros n s Hs. change (@unicode_ToLower (@ext_unicode latin1_externals)) with
    (fun s : gostring => mjoin ((fun c => if bool_decide (c = chr 233) then replacement_char else [lower_byte c]) <$> s)). cbn beta.
  generalize (S n). intros k. induction k as [|k IH].
  - induction s as [|c s IHs]; [done|]. apply andb_true_iff in Hs as [Hc Hs]. cbn in IHs |- *. 
    rewrite bool_decide_eq_false_2 by (intros ->; discriminate Hc). cbn. f_equal. by apply IHs.
  - cbn [replicate app fmap list_fmap]. rewrite bool_decide_eq_true_2 by done.
    cbn [mjoin list_join]. rewrite <-app_assoc. f_equal. exact IH.
Qed.

(** Eleven accented letters before the end of the head: the handler panics. *)
Lemma latin1_page_misplaced_witness :
  @insertBeforeFold latin1_externals (replicate 11 (chr 233) ++ "</head>" ++ "ok") "</head>" "<x>" = None.
Proof. exact (@latin1_page_misplaced latin1_externals 10 "ok" "<x>" latin1_law eq_refl). Defined.
End latin1.
