(* ===== verification/Tunnel.v ===== *)
(** The byte tunnel of a CONNECT request (src/internal/proxy/server.go: tunnel,
    copyAndCloseWrite, closeWrite): two copying goroutines and the goroutine that
    waits for them, as an executable step function over every interleaving of their
    actions with those of the network. *)
From stdpp Require Import strings functions.
From Stdlib Require Import Ascii.
From S2P Require Import Prelude GoStrings.

(** * State *)

Inductive side := SideA | SideB.
#[export] Instance side_eq_dec : EqDecision side.
Proof. solve_decision. Defined.

Definition other (s : side) : side := match s with SideA => SideB | SideB => SideA end.

(** A connection as the tunnel sees it: what the peer has sent so far, how much of it
    was read, what was written to the peer, and its condition.  A stalled peer does not
    read, so writes to it block. *)
Record Conn := {
  cTCP : bool;
  cSent : gostring;
  cRead : nat;
  cEOF : bool;
  cBroken : bool;
  cStalled : bool;
  cOut : gostring;
  cWriteClosed : bool;
  cClosed : bool;
}.

(** Where a run of copyAndCloseWrite stands: in a read or a write of io.Copy, before
    closeWrite, before the send on the channel, or at its end. *)
Inductive phase :=
| Reading
| Writing (chunk : gostring)
| ClosingWrite
| Signalling
| Finished.

#[export] Instance phase_eq_dec : EqDecision phase.
Proof. solve_decision. Defined.

(** Where tunnel stands. *)
Inductive mphase := WaitFirst | CloseFirst | CloseSecond | WaitSecond | Returned.

(** [copy s] is the goroutine that reads from [s] and writes to [other s]; [signals] is
    the number of values in the channel, whose capacity is 2. *)
Record Tunnel := {
  conn : side -> Conn;
  copy : side -> phase;
  signals : nat;
  main : mphase;
}.

(** * Steps *)

(** The actions of the peers, then those of the goroutines. *)
Inductive event :=
| Send (s : side) (bytes : gostring)
| Finish (s : side)
| Break (s : side)
| Stall (s : side) (b : bool)
| Read (s : side) (n : nat)
| ReadEnd (s : side)
| Write (s : side)
| WriteFail (s : side) (written : nat)
| CloseWrite (s : side)
| Signal (s : side)
| Receive
| Close.

Definition program (e : event) : bool :=
  match e with Send _ _ | Finish _ | Break _ | Stall _ _ => false | _ => true end.

Definition unread (c : Conn) : gostring := drop (cRead c) (cSent c).

Definition peer_sends (bytes : gostring) (c : Conn) : Conn :=
  {| cTCP := cTCP c; cSent := cSent c ++ bytes; cRead := cRead c; cEOF := cEOF c; cBroken := cBroken c;
     cStalled := cStalled c; cOut := cOut c; cWriteClosed := cWriteClosed c; cClosed := cClosed c |}.
Definition peer_finishes (c : Conn) : Conn :=
  {| cTCP := cTCP c; cSent := cSent c; cRead := cRead c; cEOF := true; cBroken := cBroken c;
     cStalled := cStalled c; cOut := cOut c; cWriteClosed := cWriteClosed c; cClosed := cClosed c |}.
Definition breaks (c : Conn) : Conn :=
  {| cTCP := cTCP c; cSent := cSent c; cRead := cRead c; cEOF := cEOF c; cBroken := true;
     cStalled := cStalled c; cOut := cOut c; cWriteClosed := cWriteClosed c; cClosed := cClosed c |}.
Definition stalls (b : bool) (c : Conn) : Conn :=
  {| cTCP := cTCP c; cSent := cSent c; cRead := cRead c; cEOF := cEOF c; cBroken := cBroken c;
     cStalled := b; cOut := cOut c; cWriteClosed := cWriteClosed c; cClosed := cClosed c |}.
Definition consume (n : nat) (c : Conn) : Conn :=
  {| cTCP := cTCP c; cSent := cSent c; cRead := cRead c + n; cEOF := cEOF c; cBroken := cBroken c;
     cStalled := cStalled c; cOut := cOut c; cWriteClosed := cWriteClosed c; cClosed := cClosed c |}.
Definition write (bytes : gostring) (c : Conn) : Conn :=
  {| cTCP := cTCP c; cSent := cSent c; cRead := cRead c; cEOF := cEOF c; cBroken := cBroken c;
     cStalled := cStalled c; cOut := cOut c ++ bytes; cWriteClosed := cWriteClosed c; cClosed := cClosed c |}.
Definition close (c : Conn) : Conn :=
  {| cTCP := cTCP c; cSent := cSent c; cRead := cRead c; cEOF := cEOF c; cBroken := cBroken c;
     cStalled := cStalled c; cOut := cOut c; cWriteClosed := cWriteClosed c; cClosed := true |}.

(** closeWrite: half of a TCP connection, or the whole of another one. *)
Definition closeWrite (c : Conn) : Conn :=
  if cTCP c
  then {| cTCP := cTCP c; cSent := cSent c; cRead := cRead c; cEOF := cEOF c; cBroken := cBroken c;
          cStalled := cStalled c; cOut := cOut c; cWriteClosed := true; cClosed := cClosed c |}
  else close c.

Definition on_conn (s : side) (f : Conn -> Conn) (t : Tunnel) : Tunnel :=
  {| conn := <[s := f (conn t s)]> (conn t); copy := copy t; signals := signals t; main := main t |}.
Definition on_copy (s : side) (p : phase) (t : Tunnel) : Tunnel :=
  {| conn := conn t; copy := <[s := p]> (copy t); signals := signals t; main := main t |}.
Definition on_main (signals' : nat) (p : mphase) (t : Tunnel) : Tunnel :=
  {| conn := conn t; copy := copy t; signals := signals'; main := p |}.

(** One read of at most [n] bytes by io.Copy: some bytes, or the end. *)
Definition can_end (c : Conn) : bool :=
  cClosed c || cBroken c || (cEOF c && bool_decide (unread c = [])).

Definition write_fails (c : Conn) : bool := cClosed c || cWriteClosed c || cBroken c.

(** One run of copyAndCloseWrite, reading from [s]. *)
Definition copyAndCloseWrite (t : Tunnel) (e : event) : option Tunnel :=
  match e with
  | Read s n =>
      let c := conn t s in
      if bool_decide (copy t s = Reading) && negb (cClosed c) && bool_decide (0 < n) && bool_decide (n <= length (unread c))
      then Some (on_copy s (Writing (take n (unread c))) (on_conn s (consume n) t)) else None
  | ReadEnd s =>
      if bool_decide (copy t s = Reading) && can_end (conn t s) then Some (on_copy s ClosingWrite t) else None
  | Write s =>
      match copy t s with
      | Writing chunk =>
          let d := conn t (other s) in
          if negb (cClosed d) && negb (cWriteClosed d) && negb (cStalled d)
          then Some (on_copy s Reading (on_conn (other s) (write chunk) t)) else None
      | _ => None
      end
  | WriteFail s written =>
      match copy t s with
      | Writing chunk =>
          let d := conn t (other s) in
          if write_fails d && (bool_decide (written = 0) || negb (cClosed d) && negb (cWriteClosed d))
          then Some (on_copy s ClosingWrite (on_conn (other s) (write (take written chunk)) t)) else None
      | _ => None
      end
  | CloseWrite s =>
      if bool_decide (copy t s = ClosingWrite) then Some (on_copy s Signalling (on_conn (other s) closeWrite t)) else None
  | Signal s =>
      if bool_decide (copy t s = Signalling) && bool_decide (signals t < 2)
      then Some (on_main (S (signals t)) (main t) (on_copy s Finished t)) else None
  | _ => None
  end.

(** The body of tunnel after the two goroutines are started. *)
Definition tunnel (t : Tunnel) (e : event) : option Tunnel :=
  match e, main t, signals t with
  | Receive, WaitFirst, S n => Some (on_main n CloseFirst t)
  | Close, CloseFirst, n => Some (on_main n CloseSecond (on_conn SideA close t))
  | Close, CloseSecond, n => Some (on_main n WaitSecond (on_conn SideB close t))
  | Receive, WaitSecond, S n => Some (on_main n Returned t)
  | _, _, _ => None
  end.

Definition peer (t : Tunnel) (e : event) : option Tunnel :=
  match e with
  | Send s bytes => if cEOF (conn t s) then None else Some (on_conn s (peer_sends bytes) t)
  | Finish s => Some (on_conn s peer_finishes t)
  | Break s => Some (on_conn s breaks t)
  | Stall s b => Some (on_conn s (stalls b) t)
  | _ => None
  end.

Definition tstep (t : Tunnel) (e : event) : option Tunnel :=
  match e with
  | Receive | Close => tunnel t e
  | Send _ _ | Finish _ | Break _ | Stall _ _ => peer t e
  | _ => copyAndCloseWrite t e
  end.

Fixpoint run (t : Tunnel) (es : list event) : option Tunnel :=
  match es with
  | [] => Some t
  | e :: es' => match tstep t e with Some t' => run t' es' | None => None end
  end.

Definition fresh_conn (tcp : bool) : Conn :=
  {| cTCP := tcp; cSent := []; cRead := 0; cEOF := false; cBroken := false; cStalled := false; cOut := [];
     cWriteClosed := false; cClosed := false |}.

(** Both goroutines are started and nothing has been sent. *)
Definition started (tcp : side -> bool) : Tunnel :=
  {| conn := fun s => fresh_conn (tcp s); copy := fun _ => Reading; signals := 0; main := WaitFirst |}.

(** * The invariant *)

Definition received (m : mphase) : nat :=
  match m with WaitFirst => 0 | Returned => 2 | _ => 1 end.
Definition finished (p : phase) : nat := match p with Finished => 1 | _ => 0 end.
Definition past (p : phase) : Prop := match p with Reading | Writing _ => False | _ => True end.
Definition closed_write (p : phase) : Prop := match p with Signalling | Finished => True | _ => False end.

Definition main_closed (m : mphase) (s : side) : Prop :=
  match m, s with
  | (CloseSecond | WaitSecond | Returned), SideA => True
  | (WaitSecond | Returned), SideB => True
  | _, _ => False
  end.

(** What was read from [src] and not yet written to [dst]. *)
Definition transferred (src dst : Conn) (p : phase) : Prop :=
  match p with
  | Reading => cOut dst = take (cRead src) (cSent src)
  | Writing chunk => cOut dst ++ chunk = take (cRead src) (cSent src)
  | _ => cOut dst `prefix_of` take (cRead src) (cSent src)
  end.

(** One direction: its bytes, how its goroutine ended, and who closed its target. *)
Record direction (src dst : Conn) (p : phase) (closedSrc closedDst : Prop) : Prop := {
  dir_read : cRead src <= length (cSent src);
  dir_bytes : transferred src dst p;
  dir_end : past p -> cEOF src = true ∧ cOut dst = cSent src ∨
                      cBroken src = true ∨ cBroken dst = true ∨ cClosed src = true ∨ cClosed dst = true;
  dir_half : closed_write p -> cWriteClosed dst = true ∨ cClosed dst = true;
  dir_write_closed : cWriteClosed dst = true -> closed_write p;
  dir_closed : cClosed dst = true -> closedDst ∨ cTCP dst = false ∧ closed_write p;
  dir_main : closedDst -> cClosed dst = true;
}.

Record inv (t : Tunnel) : Prop := {
  inv_dir s : direction (conn t s) (conn t (other s)) (copy t s) (main_closed (main t) s) (main_closed (main t) (other s));
  inv_signals : signals t + received (main t) = finished (copy t SideA) + finished (copy t SideB);
}.

Lemma inv_started tcp : inv (started tcp).
Proof. split; [|done]. intros s. by split. Qed.

Lemma transferred_prefix src dst p : transferred src dst p -> cOut dst `prefix_of` take (cRead src) (cSent src).
Proof. destruct p; cbn; try done; [intros ->; done|intros <-; by eexists]. Qed.

Lemma direction_peer f src dst p cs cd :
  (forall c, cOut (f c) = cOut c ∧ cSent (f c) = cSent c ∧ cRead (f c) = cRead c ∧ cClosed (f c) = cClosed c ∧
             cWriteClosed (f c) = cWriteClosed c ∧ cTCP (f c) = cTCP c ∧
             (cEOF c = true -> cEOF (f c) = true) ∧ (cBroken c = true -> cBroken (f c) = true)) ->
  direction src dst p cs cd -> direction (f src) dst p cs cd ∧ direction src (f dst) p cs cd.
Proof.
  intros Hf [H1 H2 H3 H4 H5 H6 H7].
  destruct (Hf src) as (E1 & E2 & E3 & E4 & E5 & E6 & E7 & E8).
  destruct (Hf dst) as (F1 & F2 & F3 & F4 & F5 & F6 & F7 & F8).
  unfold transferred in *.
  split; split; unfold transferred; rewrite ?E1, ?E2, ?E3, ?E4, ?E5, ?E6, ?F1, ?F2, ?F3, ?F4, ?F5, ?F6; tauto.
Qed.

Lemma inv_peer f s t :
  (forall c, cOut (f c) = cOut c ∧ cSent (f c) = cSent c ∧ cRead (f c) = cRead c ∧ cClosed (f c) = cClosed c ∧
             cWriteClosed (f c) = cWriteClosed c ∧ cTCP (f c) = cTCP c ∧
             (cEOF c = true -> cEOF (f c) = true) ∧ (cBroken c = true -> cBroken (f c) = true)) ->
  inv t -> inv (on_conn s f t).
Proof.
  intros Hf [Hd Hs]. split; [|done]. intros s'. pose proof (Hd s') as D.
  destruct s, s'; cbn in *; by apply direction_peer.
Qed.

(** What one goroutine does leaves the direction of the other one alone, up to the
    condition of its connections. *)
Ltac side_simpl :=
  cbn -[take fn_insert] in *; rewrite ?fn_lookup_insert in *;
  repeat (rewrite fn_lookup_insert_ne in * by done); cbn -[take fn_insert] in *.
Ltac side_cases :=
  match goal with
  | D : inv ?t |- inv _ =>
      let Hd := fresh "Hd" in let Hs := fresh "Hs" in
      let s' := fresh "s'" in
      destruct D as [Hd Hs]; split;
      [intros s'; destruct (Hd s') as [? ? ? ? ? ? ?]; clear Hd; destruct s'; side_simpl;
       split; unfold transferred in *; side_simpl
      |side_simpl]
  end.

Lemma inv_send s bytes t : cEOF (conn t s) = false -> inv t -> inv (on_conn s (peer_sends bytes) t).
Proof.
  intros He D. destruct s; side_cases;
    rewrite ?take_app_le, ?length_app by lia; try tauto; try lia.
  all: try (intuition congruence).
Qed.

Lemma inv_read s n t :
  copy t s = Reading -> cClosed (conn t s) = false -> n <= length (unread (conn t s)) ->
  inv t -> inv (on_copy s (Writing (take n (unread (conn t s)))) (on_conn s (consume n) t)).
Proof.
  unfold unread. intros Hp Hc Hn D. rewrite length_drop in Hn.
  assert (forall c, take (cRead c) (cSent c) ++ take n (drop (cRead c) (cSent c)) = take (cRead c + n) (cSent c)) as Ht.
  { intros c. by rewrite take_take_drop. }
  destruct s; side_cases; rewrite ?Hp in *; cbn -[take] in *; try tauto; try lia.
  all: try congruence.
Qed.

Lemma inv_read_end s t :
  copy t s = Reading -> can_end (conn t s) = true -> inv t -> inv (on_copy s ClosingWrite t).
Proof.
  unfold can_end, unread. rewrite !orb_true_iff, andb_true_iff, bool_decide_eq_true. intros Hp He D.
  destruct s; side_cases; rewrite ?Hp in *; side_simpl; try tauto.
  all: try (intros _; destruct He as [[?|?]|[He Hl]]; try tauto; left; split; [done|]).
  all: try (apply (f_equal length) in Hl; rewrite length_drop in Hl; cbn [length] in Hl; rewrite take_ge in * by lia; done).
  all: try match goal with H : cOut ?c = _ |- cOut ?c `prefix_of` _ => by rewrite H end.
Qed.

Lemma inv_write s chunk t :
  copy t s = Writing chunk -> cClosed (conn t (other s)) = false -> cWriteClosed (conn t (other s)) = false ->
  inv t -> inv (on_copy s Reading (on_conn (other s) (write chunk) t)).
Proof. intros Hp Hc Hw D. destruct s; side_cases; rewrite ?Hp in *; side_simpl; tauto. Qed.

Lemma inv_write_fail s chunk n t :
  copy t s = Writing chunk -> write_fails (conn t (other s)) = true ->
  n = 0 ∨ cClosed (conn t (other s)) = false ∧ cWriteClosed (conn t (other s)) = false ->
  inv t -> inv (on_copy s ClosingWrite (on_conn (other s) (write (take n chunk)) t)).
Proof.
  unfold write_fails. rewrite !orb_true_iff. intros Hp Hf Hn D.
  assert (forall (o l : gostring), o ++ chunk = l -> o ++ take n chunk `prefix_of` l) as Hpre.
  { intros o l <-. exists (drop n chunk). by rewrite <-app_assoc, take_drop. }
  destruct s; side_cases; rewrite ?Hp in *; side_simpl; try tauto; eauto.
Qed.

Lemma inv_close_write s t :
  copy t s = ClosingWrite -> inv t -> inv (on_copy s Signalling (on_conn (other s) closeWrite t)).
Proof.
  intros Hp D. destruct s; side_cases; rewrite ?Hp in *; side_simpl; unfold closeWrite;
    repeat match goal with |- context [if ?b then _ else _] => destruct b eqn:? end; side_simpl; try tauto.
  all: try (intuition congruence).
Qed.

Lemma inv_signal s t :
  copy t s = Signalling -> inv t -> inv (on_main (S (signals t)) (main t) (on_copy s Finished t)).
Proof. intros Hp D. destruct s; side_cases; rewrite ?Hp in *; side_simpl; try tauto; lia. Qed.

Lemma inv_receive n m t :
  (main t = WaitFirst ∧ m = CloseFirst) ∨ (main t = WaitSecond ∧ m = Returned) ->
  signals t = S n -> inv t -> inv (on_main n m t).
Proof. intros [[Hm ->]|[Hm ->]] Hn D; side_cases; rewrite ?Hm in *; side_simpl; try tauto; lia. Qed.

Lemma inv_close s m n t :
  (main t = CloseFirst ∧ s = SideA ∧ m = CloseSecond) ∨ (main t = CloseSecond ∧ s = SideB ∧ m = WaitSecond) ->
  signals t = n -> inv t -> inv (on_main n m (on_conn s close t)).
Proof. intros [(Hm & -> & ->)|(Hm & -> & ->)] Hn D; side_cases; rewrite ?Hm in *; side_simpl; try tauto; lia. Qed.

Lemma inv_step t e t' : inv t -> tstep t e = Some t' -> inv t'.
Proof.
  intros D Ht. destruct e; cbn [tstep peer copyAndCloseWrite tunnel] in Ht.
  - destruct (cEOF _) eqn:He; [done|]. injection Ht as <-. by apply inv_send.
  - injection Ht as <-. by apply inv_peer.
  - injection Ht as <-. by apply inv_peer.
  - injection Ht as <-. by apply inv_peer.
  - case_match eqn:Hc; [|done]. injection Ht as <-. boolify. by apply inv_read.
  - case_match eqn:Hc; [|done]. injection Ht as <-. boolify. by apply inv_read_end.
  - destruct (copy t s) eqn:Hp; try done. case_match eqn:Hc; [|done]. injection Ht as <-. boolify. by apply inv_write.
  - destruct (copy t s) eqn:Hp; try done. case_match eqn:Hc; [|done]. injection Ht as <-.
    apply andb_true_iff in Hc as [Hf Hn]. apply inv_write_fail; [done..| |done].
    apply orb_true_iff in Hn as [Hn|Hn]; boolify; tauto.
  - case_match eqn:Hc; [|done]. injection Ht as <-. boolify. by apply inv_close_write.
  - case_match eqn:Hc; [|done]. injection Ht as <-. boolify. by apply inv_signal.
  - destruct (main t) eqn:Hm; try done; destruct (signals t) eqn:Hn; try done; injection Ht as <-;
      apply inv_receive; tauto.
  - destruct (main t) eqn:Hm; try done; injection Ht as <-; apply inv_close; tauto.
Qed.

Lemma inv_run t es t' : inv t -> run t es = Some t' -> inv t'.
Proof.
  revert t. induction es as [|e es IH]; cbn; intros t D; [by intros [= <-]|].
  destruct (tstep t e) as [t1|] eqn:Ht; [|done]. apply IH. by eapply inv_step.
Qed.

(** * Properties *)

Definition reachable (tcp : side -> bool) (t : Tunnel) : Prop := exists es, run (started tcp) es = Some t.

Lemma inv_reachable tcp t : reachable tcp t -> inv t.
Proof. intros [es Hr]. eapply inv_run; [apply inv_started|done]. Qed.

Lemma cTCP_step t e t' s : tstep t e = Some t' -> cTCP (conn t' s) = cTCP (conn t s).
Proof.
  intros Ht. destruct e as [s0 ?|s0|s0|s0 ?|s0 ?|s0|s0|s0 ?|s0|s0| |]; cbn [tstep peer copyAndCloseWrite tunnel] in Ht;
    repeat case_match; try discriminate Ht; injection Ht as <-; try done.
  all: try destruct s0; destruct s; try done; cbn; unfold closeWrite; by case_match.
Qed.

Lemma cTCP_reachable tcp t s : reachable tcp t -> cTCP (conn t s) = tcp s.
Proof.
  intros [es Hr]. change (tcp s) with (cTCP (conn (started tcp) s)). revert Hr. generalize (started tcp).
  induction es as [|e es IH]; cbn; intros t0; [by intros [= ->]|].
  destruct (tstep t0 e) as [t1|] eqn:Ht; [|done]. intros ->%IH. by eapply cTCP_step.
Qed.

(** C28: at every moment of every interleaving, what the tunnel has written to one
    peer is a prefix of what the other peer has sent: nothing is lost in the middle,
    reordered, duplicated or made up, and the two directions never mix. *)
Theorem tunnel_prefix tcp t s :
  reachable tcp t -> cOut (conn t (other s)) `prefix_of` cSent (conn t s).
Proof.
  intros [D _]%inv_reachable. destruct (D s) as [_ Hb _ _ _ _ _].
  etrans; [by eapply transferred_prefix|]. apply prefix_take.
Qed.

(** As long as no connection breaks, the direction between TCP connections that
    ends first has delivered all its peer sent, and passed on the end of the stream. *)
Theorem first_direction_complete t s :
  reachable (fun _ => true) t -> main t = WaitFirst -> copy t s = Finished ->
  cBroken (conn t SideA) = false -> cBroken (conn t SideB) = false ->
  cOut (conn t (other s)) = cSent (conn t s) ∧ cEOF (conn t s) = true ∧ cWriteClosed (conn t (other s)) = true.
Proof.
  intros Hr Hm Hf HbA HbB. pose proof (cTCP_reachable _ _ SideA Hr) as HA. pose proof (cTCP_reachable _ _ SideB Hr) as HB.
  apply inv_reachable in Hr as [D _].
  pose proof (D SideA) as [_ _ EA HA2 _ CA _]. pose proof (D SideB) as [_ _ EB HB2 _ CB _]. cbn in *.
  rewrite Hm in *. cbn in *.
  assert (cClosed (conn t SideA) = false) as HcA.
  { apply not_true_iff_false. intros [[]|[? _]]%CB. congruence. }
  assert (cClosed (conn t SideB) = false) as HcB.
  { apply not_true_iff_false. intros [[]|[? _]]%CA. congruence. }
  rewrite HcA, HcB, HbA, HbB in *. clear CA CB D.
  destruct s; rewrite Hf in *; cbn in *.
  - destruct (EA I) as [[He Ho]|[?|[?|[?|?]]]]; try discriminate. split_and!; [done..|]. by destruct (HA2 I).
  - destruct (EB I) as [[He Ho]|[?|[?|[?|?]]]]; try discriminate. split_and!; [done..|]. by destruct (HB2 I).
Qed.

(** ** Termination *)

(** How many steps a goroutine can still take when no more bytes arrive. *)
Definition phase_steps (p : phase) : nat :=
  match p with Reading => 3 | Writing _ => 4 | ClosingWrite => 2 | Signalling => 1 | Finished => 0 end.
Definition main_steps (m : mphase) : nat :=
  match m with WaitFirst => 4 | CloseFirst => 3 | CloseSecond => 2 | WaitSecond => 1 | Returned => 0 end.

Definition potential (t : Tunnel) : nat :=
  2 * length (unread (conn t SideA)) + 2 * length (unread (conn t SideB)) +
  phase_steps (copy t SideA) + phase_steps (copy t SideB) + main_steps (main t).

(** The steps the bytes of an action of the peers make room for. *)
Definition supply (e : event) : nat := match e with Send _ bytes => 2 * length bytes | _ => 0 end.
Definition cost (e : event) : nat := if program e then 1 else 0.

Lemma potential_step t e t' : inv t -> tstep t e = Some t' -> cost e + potential t' <= supply e + potential t.
Proof.
  intros [D _] Ht. pose proof (dir_read _ _ _ _ _ (D SideA)) as RA. pose proof (dir_read _ _ _ _ _ (D SideB)) as RB.
  unfold potential, unread.
  destruct e as [s0 ?|s0|s0|s0 ?|s0 ?|s0|s0|s0 ?|s0|s0| |]; cbn [tstep peer copyAndCloseWrite tunnel] in Ht;
    repeat case_match; try discriminate Ht; injection Ht as <-; boolify; try destruct s0; side_simpl;
    unfold closeWrite; repeat case_match; side_simpl; unfold unread in *;
    repeat match goal with H : _ = Reading |- _ => rewrite H | H : _ = ClosingWrite |- _ => rewrite H
      | H : _ = Signalling |- _ => rewrite H | H : _ = Writing _ |- _ => rewrite H
      | H : main _ = _ |- _ => rewrite H end;
    rewrite ?length_drop, ?length_app in *; cbn [phase_steps main_steps] in *; lia.
Qed.

Definition total {A} (f : A -> nat) (l : list A) : nat := sum_list_with f l.

Lemma potential_run t es t' :
  inv t -> run t es = Some t' -> total cost es + potential t' <= total supply es + potential t.
Proof.
  unfold total. revert t. induction es as [|e es IH]; cbn -[potential]; intros t D; [intros [= <-]; lia|].
  destruct (tstep t e) as [t1|] eqn:Ht; [|done]. intros Hr.
  apply IH in Hr; [|by eapply inv_step]. apply potential_step in Ht; [lia|done].
Qed.

Definition sent (t : Tunnel) : nat := length (cSent (conn t SideA)) + length (cSent (conn t SideB)).

Lemma sent_step t e t' : tstep t e = Some t' -> 2 * sent t' = supply e + 2 * sent t.
Proof.
  unfold sent. intros Ht.
  destruct e as [s0 ?|s0|s0|s0 ?|s0 ?|s0|s0|s0 ?|s0|s0| |]; cbn [tstep peer copyAndCloseWrite tunnel] in Ht;
    repeat case_match; try discriminate Ht; injection Ht as <-; try destruct s0; side_simpl;
    unfold closeWrite; repeat case_match; side_simpl; rewrite ?length_app; lia.
Qed.

Lemma sent_run t es t' : run t es = Some t' -> 2 * sent t' = total supply es + 2 * sent t.
Proof.
  unfold total. revert t. induction es as [|e es IH]; cbn -[sent]; intros t; [intros [= <-]; lia|].
  destruct (tstep t e) as [t1|] eqn:Ht; [|done]. intros Hr%IH. apply sent_step in Ht. lia.
Qed.

(** In every interleaving the goroutines of a tunnel take at most two steps for
    each byte the peers send, and ten more: no schedule keeps the tunnel busy once
    the peers are silent. *)
Theorem tunnel_steps_bounded tcp es t :
  run (started tcp) es = Some t -> total cost es <= 2 * sent t + 10.
Proof.
  intros Hr. pose proof (potential_run _ _ _ (inv_started tcp) Hr) as Hp. apply sent_run in Hr.
  change (potential (started tcp)) with 10 in Hp. change (sent (started tcp)) with 0 in Hr. lia.
Qed.

(** A direction has ended, or tunnel has already seen one end. *)
Definition ending (t : Tunnel) : Prop := main t <> WaitFirst ∨ exists s, past (copy t s).

(** The steps of the goroutines that need nothing from the peers. *)
Definition own (e : event) : bool :=
  match e with ReadEnd _ | WriteFail _ _ | CloseWrite _ | Signal _ | Receive | Close => true | _ => false end.

Definition left_to_do (t : Tunnel) : nat :=
  phase_steps (copy t SideA) + phase_steps (copy t SideB) + main_steps (main t).

Lemma finished_le p : finished p <= 1.
Proof. by destruct p; cbn; lia. Qed.

(** A goroutine that has left io.Copy can always go on. *)
Lemma past_enabled t s : inv t -> past (copy t s) -> copy t s <> Finished -> exists e, own e = true ∧ is_Some (tstep t e).
Proof.
  intros [_ Hs] Hp Hf. assert (finished (copy t s) = 0) as H0 by by destruct (copy t s).
  pose proof (finished_le (copy t SideA)). pose proof (finished_le (copy t SideB)).
  assert (signals t < 2) by (destruct s; lia).
  destruct (copy t s) eqn:Hc; try done.
  - exists (CloseWrite s). split; [done|]. cbn. rewrite Hc. by eexists.
  - exists (Signal s). split; [done|]. cbn. rewrite Hc, !bool_decide_eq_true_2 by done. by eexists.
Qed.

(** Once a direction has ended, the goroutines never wait for a peer. *)
Lemma ending_enabled t : inv t -> ending t -> main t <> Returned -> exists e, own e = true ∧ is_Some (tstep t e).
Proof.
  intros D He Hm. pose proof D as [Dd Ds]. destruct (main t) eqn:Em; try done; cbn [received] in Ds.
  - destruct He as [He|[s Hp]]; [done|]. destruct (decide (copy t s = Finished)) as [Hf|Hf]; [|by eapply past_enabled].
    exists Receive. split; [done|]. cbn. rewrite Em. destruct (signals t) eqn:Hs; [|by eexists].
    destruct s; rewrite Hf in Ds; cbn in Ds; lia.
  - exists Close. split; [done|]. cbn. rewrite Em. by eexists.
  - exists Close. split; [done|]. cbn. rewrite Em. by eexists.
  - destruct (signals t) eqn:Hs; [|exists Receive; split; [done|]; cbn; rewrite Em, Hs; by eexists].
    assert (exists s, copy t s <> Finished) as [s Hf].
    { destruct (decide (copy t SideA = Finished)) as [HA|]; [|by eexists]. exists SideB. intros HB.
      rewrite HA, HB in Ds. cbn in Ds. lia. }
    assert (forall s, cClosed (conn t s) = true) as Hc.
    { intros x. pose proof (dir_main _ _ _ _ _ (Dd (other x))) as Hx. destruct x; by apply Hx. }
    destruct (copy t s) eqn:Hp; try done.
    + exists (ReadEnd s). split; [done|]. cbn. unfold can_end. rewrite Hp, Hc. by eexists.
    + exists (WriteFail s 0). split; [done|]. cbn. unfold write_fails. rewrite Hp, Hc. by eexists.
    + eapply (past_enabled t s); [done|by rewrite Hp|by rewrite Hp].
    + eapply (past_enabled t s); [done|by rewrite Hp|by rewrite Hp].
Qed.

Lemma own_step t e t' :
  own e = true -> tstep t e = Some t' -> left_to_do t' < left_to_do t ∧ (ending t -> ending t').
Proof.
  unfold left_to_do, ending.
  intros Ho Ht. destruct e as [s0 ?|s0|s0|s0 ?|s0 ?|s0|s0|s0 ?|s0|s0| |]; try discriminate Ho;
    cbn [tstep copyAndCloseWrite tunnel] in Ht;
    repeat case_match; try discriminate Ht; injection Ht as <-; boolify; try destruct s0; side_simpl;
    repeat match goal with H : copy _ _ = _ |- _ => rewrite H | H : main _ = _ |- _ => rewrite H end;
    cbn [phase_steps main_steps]; (split; [lia|]); try (intros _; by left).
  all: intros [?|[x Hx]]; [by left|right].
  all: try (exists SideA; by rewrite fn_lookup_insert). all: try (exists SideB; by rewrite fn_lookup_insert).
Qed.

Lemma ending_drains n t :
  inv t -> ending t -> left_to_do t <= n ->
  exists es t', forallb own es = true ∧ length es <= n ∧ run t es = Some t' ∧ main t' = Returned.
Proof.
  revert t. induction n as [|n IH]; intros t D He Hn.
  - exists [], t. split_and!; [done..|]. unfold left_to_do in Hn. destruct (main t); cbn in Hn; (done || lia).
  - destruct (main t) eqn:Em.
    5: { exists [], t. split_and!; [done|cbn; lia|done..]. }
    all: assert (main t <> Returned) as Hm by by rewrite Em.
    all: destruct (ending_enabled t D He Hm) as (e & Ho & [t1 Ht]).
    all: destruct (own_step _ _ _ Ho Ht) as [Hl Hk].
    all: destruct (IH t1) as (es & t' & Hes & Hlen & Hr & Hret); [by eapply inv_step|by apply Hk|lia|].
    all: exists (e :: es), t'; cbn [forallb length run]; rewrite Ho, Ht; split_and!; [done|lia|done..].
Qed.

Lemma left_to_do_bound t : ending t -> left_to_do t <= 11.
Proof.
  unfold ending, left_to_do. intros [Hm|[s Hs]].
  - destruct (main t); try done; destruct (copy t SideA), (copy t SideB); cbn; lia.
  - destruct (main t); destruct s, (copy t SideA), (copy t SideB); cbn in *; try done; lia.
Qed.

(** C29: once one direction has ended, the goroutines can always finish on their own,
    in at most eleven steps that wait for no peer, even when both peers stall; and
    when tunnel returns, both goroutines are done, both connections are closed and
    the channel is empty, so nothing is leaked. *)
Theorem tunnel_drains tcp t :
  reachable tcp t ->
  (ending t -> exists es t', forallb own es = true ∧ length es <= 11 ∧ run t es = Some t' ∧ main t' = Returned) ∧
  (main t = Returned ->
   (forall s, copy t s = Finished ∧ cClosed (conn t s) = true) ∧ signals t = 0 ∧ forall e, program e = true -> tstep t e = None).
Proof.
  intros D%inv_reachable. split.
  - intros He. apply ending_drains; [done..|by apply left_to_do_bound].
  - intros Hm. pose proof D as [Dd Ds]. rewrite Hm in *. cbn in Ds.
    pose proof (finished_le (copy t SideA)). pose proof (finished_le (copy t SideB)).
    assert (forall s, copy t s = Finished) as Hf.
    { intros s. assert (finished (copy t s) = 1) as H1 by (destruct s; lia). by destruct (copy t s). }
    split_and!; [|lia|].
    + intros s. split; [done|]. pose proof (dir_main _ _ _ _ _ (Dd (other s))) as Hx. destruct s; by apply Hx.
    + intros e He. destruct e as [s0 ?|s0|s0|s0 ?|s0 ?|s0|s0|s0 ?|s0|s0| |]; try discriminate He;
        cbn [tstep copyAndCloseWrite tunnel]; by rewrite ?Hf, ?Hm.
Qed.

Lemma run_step t e t' es r : tstep t e = Some t' -> run t' es = r -> run t (e :: es) = r.
Proof. cbn. by intros ->. Qed.

(** Runs one step whose tests evaluate, keeping the state in normal form. *)
Ltac norm_state := match goal with |- ?x = _ => let y := eval cbv -[length take drop app] in x in exact (eq_refl y) end.
Ltac next_step := eapply run_step; [norm_state|].

(** The schedule of a client that ends its half of the connection after a request,
    while the server answers. *)
Definition half_close (req resp : gostring) : list event :=
  [Send SideA req; Finish SideA; Read SideA (length req); Write SideA; ReadEnd SideA; CloseWrite SideA;
   Send SideB resp; Finish SideB; Signal SideA; Receive; Close; Close;
   ReadEnd SideB; CloseWrite SideB; Signal SideB; Receive].

(** A client that half-closes after its request can lose the whole response:
    the end of one direction closes both connections, although the server has
    answered and no connection broke. *)
Theorem half_close_truncates req resp :
  req <> [] -> exists t, run (started (fun _ => true)) (half_close req resp) = Some t ∧ main t = Returned ∧
    cOut (conn t SideB) = req ∧ cSent (conn t SideB) = resp ∧ cOut (conn t SideA) = [] ∧
    cBroken (conn t SideA) = false ∧ cBroken (conn t SideB) = false.
Proof.
  intros Hr. assert (0 < length req) as Hl by (destruct req; [done|cbn; lia]).
  unfold half_close, started. eexists. split.
  { do 2 next_step. eapply run_step.
    { cbn [tstep copyAndCloseWrite]. unfold unread. side_simpl. rewrite drop_0, !bool_decide_eq_true_2 by (done || lia).
      cbn [andb negb]. rewrite take_ge by done. norm_state. }
    next_step. eapply run_step.
    { cbn [tstep copyAndCloseWrite]. unfold can_end, unread. side_simpl. rewrite drop_ge, !bool_decide_eq_true_2 by done.
      norm_state. }
    repeat next_step. reflexivity. }
  side_simpl. done.
Qed.

(** ** Witnesses *)

(** The tunnel when the request has been forwarded and the half close passed on. *)
Definition forwarded_events : list event := take 9 (half_close "GET" "OK").
Definition tcp_tunnel : Tunnel := started (fun _ => true).
Definition forwarded : Tunnel := default tcp_tunnel (run tcp_tunnel forwarded_events).

Lemma forwarded_run : run tcp_tunnel forwarded_events = Some forwarded.
Proof. vm_compute. reflexivity. Qed.

Lemma forwarded_reachable : reachable (fun _ => true) forwarded.
Proof. exists forwarded_events. exact forwarded_run. Qed.

Lemma tunnel_prefix_witness :
  reachable (fun _ => true) forwarded ∧ cOut (conn forwarded SideB) `prefix_of` cSent (conn forwarded SideA).
Proof.
  split; [exact forwarded_reachable|]. exact (tunnel_prefix _ forwarded SideA forwarded_reachable).
Defined.

Lemma first_direction_complete_witness :
  cOut (conn forwarded SideB) = "GET" ∧ cWriteClosed (conn forwarded SideB) = true.
Proof.
  destruct (first_direction_complete forwarded SideA) as (Ho & _ & Hw);
    [exact forwarded_reachable|vm_compute; reflexivity..|]. split; [etransitivity; [exact Ho|vm_compute; reflexivity]|exact Hw].
Defined.

Lemma tunnel_steps_bounded_witness : total cost forwarded_events <= 2 * sent forwarded + 10.
Proof. apply (tunnel_steps_bounded (fun _ => true) forwarded_events forwarded). exact forwarded_run. Defined.

Lemma tunnel_drains_witness :
  exists es t', forallb own es = true ∧ length es <= 11 ∧ run forwarded es = Some t' ∧ main t' = Returned.
Proof.
  destruct (tunnel_drains (fun _ => true) forwarded) as [Hd _]; [exact forwarded_reachable|].
  apply Hd. right. exists SideA. vm_compute. exact I.
Defined.

Lemma half_close_truncates_witness :
  exists t, run tcp_tunnel (half_close "GET" "OK") = Some t ∧ main t = Returned ∧
    cOut (conn t SideB) = "GET" ∧ cSent (conn t SideB) = "OK" ∧ cOut (conn t SideA) = [] ∧
    cBroken (conn t SideA) = false ∧ cBroken (conn t SideB) = false.
Proof. apply (half_close_truncates "GET" "OK"). discriminate. Defined.
