(* ===== verification/Proxy.v ===== *)
(** The forward proxy (src/internal/proxy/server.go): plain HTTP requests, CONNECT
    requests, header handling and the server life cycle.  The bytes of a CONNECT
    tunnel are in [Tunnel].

    A handler returns the response it wrote and the list of what it did with the
    network and the log, in order; [None] is a panic. *)
From stdpp Require Import strings.
From Stdlib Require Import Ascii.
From S2P Require Import Prelude GoStrings GoNet External Rules Config Http Diagnostics.
From S2P Require Upstream Pac.

(** * Server *)

Record ServerConfig := {
  ListenAddr : gostring;
  NonTarget : gostring;
  HeaderTimeout : Duration;
  Idle : Duration;
  Shutdown : Duration;
}.

Definition ConfigFromApp (cfg : Config) : ServerConfig :=
  {| ListenAddr := PxListenAddr (Proxy cfg); NonTarget := NonTargetBehavior (Proxy cfg);
     HeaderTimeout := ReadHeaderTimeout (Proxy cfg); Idle := IdleTimeout (Proxy cfg);
     Shutdown := ShutdownTimeout (Proxy cfg) |}.

(** [server], [transport] and [listener] say which of the pointers are not nil. *)
Record Server := {
  cfg : ServerConfig;
  matcher : Matcher;
  server : bool;
  transport : bool;
  listener : bool;
  addr : gostring;
}.

Definition New (c : ServerConfig) (m : Matcher) : Server :=
  {| cfg := c; matcher := m; server := false; transport := false; listener := false; addr := [] |}.

(** [listen] is the answer of net.Listen: the bound address or its error. *)
Definition Start (s : Server) (listen : result gostring) : result unit * Server :=
  if server s then (Err (Errorf "proxy server already started" []), s)
  else match listen with
       | Err e => (Err (Wrapf "listen %s: %w" [ListenAddr (cfg s)] e), s)
       | Ok a => (Ok tt, {| cfg := cfg s; matcher := matcher s; server := true; transport := true;
                            listener := true; addr := a |})
       end.

(** The locked section of Stop, before it waits for the running handlers. *)
Definition stopping (s : Server) : Server :=
  {| cfg := cfg s; matcher := matcher s; server := false; transport := false; listener := false; addr := addr s |}.

Definition Stop (s : Server) (shutdown : option error) (ev : Pac.stop_event) : option error * Server :=
  if server s then (Pac.stop_error shutdown ev, stopping s) else (None, stopping s).

(** * Requests and actions *)

Record Request := {
  Method : gostring;
  ReqURL : option URL;
  Host : gostring;
  RequestURI : gostring;
  ReqHeader : Header;
}.

Record Response := { StatusCode : Z; RespHeader : Header; RespBody : Body }.

Definition Attrs := list (gostring * AttrValue).

Inductive action :=
| Log (attrs : Attrs)
| RoundTrip (r : Request)
| CloseBody
| Dial (address : gostring)
| Hijack
| WriteClient (bytes : gostring)
| Tunnel
| CloseUpstream
| CloseClient.

(** What the network answers: the transport, the dialer ([None] for a connection),
    the hijacking of the client connection, how many bytes are then buffered, and the
    two writes to it. *)
Record Environment := {
  onRoundTrip : Request -> result Response;
  onDial : gostring -> option error;
  isHijacker : bool;
  onHijack : option error;
  buffered : nat;
  onWrite : option error;
  onFlush : option error;
}.

(** * Headers *)

Definition comma : byte := chr 44.

Definition hopByHop : list gostring :=
  ["Connection"; "Keep-Alive"; "Proxy-Authenticate"; "Proxy-Authorization"; "Proxy-Connection"; "Te"; "Trailer";
   "Transfer-Encoding"; "Upgrade"].

Definition deletePart (h : Header) (part : gostring) : Header :=
  let name := TrimSpace part in if bool_decide (name = []) then h else Header_Del h name.

Definition removeHopByHopHeaders (header : Header) : Header :=
  foldl Header_Del
    (foldl (fun h token => foldl deletePart h (Split token comma)) header (Header_Values header "Connection"))
    hopByHop.

Definition addValues (dst : Header) (kv : gostring * list gostring) : Header :=
  foldl (fun h v => Header_Add h kv.1 v) dst kv.2.

Definition copyHeader (dst src : Header) : Header := foldl addValues dst (map_to_list src).

(** * Handlers *)

Section handlers.
Context `{Externals}.

(** [err.Error()], and the direct dial error [errors.As] finds in an error. *)
Variable text : error -> gostring.
Variable asDirect : error -> option Upstream.DirectDialError.

Definition matchRequestHost (s : Server) (rawHost : gostring) : bool * MatchResult * gostring :=
  match NormalizeHost rawHost with
  | Err _ => (false, emptyMatch, rawHost)
  | Ok normalized =>
      match MatchHost (matcher s) normalized with
      | Some m => (true, m, normalized)
      | None => (false, emptyMatch, normalized)
      end
  end.

Definition behaviorFor (s : Server) (allowed : bool) : gostring :=
  if allowed then "target" else NonTarget (cfg s).

Definition groupAttrs (m : MatchResult) : Attrs :=
  if bool_decide (MGroupName m = []) then []
  else [(("rule_group" : gostring), AStr (MGroupName m)); (("rule" : gostring), AStr (MRule m))].

Definition requestAttrs (event method host behavior : gostring) (status : Z) : Attrs :=
  [(("event" : gostring), AStr event); (("method" : gostring), AStr method); (("host" : gostring), AStr host);
   (("behavior" : gostring), AStr behavior); (("status" : gostring), AInt status)].

Definition logRequest (event method host : gostring) (m : MatchResult) (behavior : gostring) (status : Z) : action :=
  Log (requestAttrs event method host behavior status ++ groupAttrs m).

Definition logRequestError (event method host : gostring) (m : MatchResult) (behavior : gostring) (status : Z)
    (message : gostring) (extra : Attrs) : action :=
  Log (requestAttrs event method host behavior status ++ [(("error" : gostring), AStr message)] ++ extra ++ groupAttrs m).

Definition addressWithDefaultPort (raw defaultPort : gostring) : result gostring :=
  match SplitHostPort raw with
  | Err _ => do normalized <- NormalizeHost raw; Ok (JoinHostPort normalized defaultPort)
  | Ok (host, port) => do normalized <- NormalizeHost host; Ok (JoinHostPort normalized port)
  end.

Definition outgoing (req : Request) : Request :=
  {| Method := Method req; ReqURL := ReqURL req; Host := Host req; RequestURI := [];
     ReqHeader := removeHopByHopHeaders (ReqHeader req) |}.

(** The response is copied to the client: headers, status and what can be read of
    the body. *)
Definition relay (w : ResponseWriter) (resp : Response) : ResponseWriter :=
  {| wHeader := copyHeader (wHeader w) (removeHopByHopHeaders (RespHeader resp));
     wStatus := Some (StatusCode resp); wBody := wBody w ++ bData (RespBody resp) |}.

Definition handleHTTP (s : Server) (env : Environment) (w : ResponseWriter) (req : Request)
  : option (ResponseWriter * list action) :=
  match ReqURL req with
  | None => Some (httpError w "proxy requests must use an absolute URL" StatusBadRequest, [])
  | Some u =>
      if bool_decide (URLHost u = []) || bool_decide (Scheme u = [])
      then Some (httpError w "proxy requests must use an absolute URL" StatusBadRequest, [])
      else if negb (bool_decide (Scheme u = "http")) && negb (bool_decide (Scheme u = "https"))
      then Some (httpError w "unsupported proxy request scheme" StatusBadRequest, [])
      else
        let '(allowed, m, host) := matchRequestHost s (URLHost u) in
        if negb allowed && bool_decide (NonTarget (cfg s) = NonTargetReject)
        then Some (httpError w "host is not allowed by provider rules" StatusForbidden,
                   [logRequest "http_reject" (Method req) host m "reject" StatusForbidden])
        else
          let outReq := outgoing req in
          if negb (transport s) then None
          else match onRoundTrip env outReq with
               | Err e =>
                   let msg := UpstreamErrorMessage (Some (text e)) in
                   Some (httpError w ("upstream request failed: " ++ msg) StatusBadGateway,
                         [RoundTrip outReq;
                          logRequestError "http_error" (Method req) host m (behaviorFor s allowed) StatusBadGateway
                            msg (UpstreamErrorAttrs (asDirect e))])
               | Ok resp =>
                   Some (relay w resp,
                         [RoundTrip outReq;
                          logRequest "http" (Method req) host m (behaviorFor s allowed) (StatusCode resp);
                          CloseBody])
               end
  end.

Definition established : gostring := "HTTP/1.1 200 Connection Established" ++ crlf ++ crlf.

(** From the hijacked connection to the end of the handler, without the deferred
    calls. *)
Definition connected (env : Environment) (log : action) : list action :=
  if bool_decide (0 < buffered env) then [CloseClient]
  else WriteClient established ::
       match onWrite env, onFlush env with
       | None, None => [log; Tunnel]
       | _, _ => []
       end.

Definition handleConnect (s : Server) (env : Environment) (w : ResponseWriter) (req : Request)
  : ResponseWriter * list action :=
  let '(allowed, m, host) := matchRequestHost s (Host req) in
  if negb allowed && bool_decide (NonTarget (cfg s) = NonTargetReject)
  then (httpError w "host is not allowed by provider rules" StatusForbidden,
        [logRequest "connect_reject" (Method req) host m "reject" StatusForbidden])
  else match addressWithDefaultPort (Host req) "443" with
       | Err _ => (httpError w "invalid CONNECT target" StatusBadRequest, [])
       | Ok target =>
           match onDial env target with
           | Some e =>
               let msg := UpstreamErrorMessage (Some (text e)) in
               (httpError w ("upstream dial failed: " ++ msg) StatusBadGateway,
                [Dial target;
                 logRequestError "connect_error" (Method req) host m (behaviorFor s allowed) StatusBadGateway
                   msg (UpstreamErrorAttrs (asDirect e))])
           | None =>
               if negb (isHijacker env)
               then (httpError w "hijacking is not supported" StatusInternalServerError, [Dial target; CloseUpstream])
               else match onHijack env with
                    | Some _ => (w, [Dial target; Hijack; CloseUpstream])
                    | None =>
                        (w, [Dial target; Hijack] ++
                            connected env (logRequest "connect" (Method req) host m (behaviorFor s allowed) StatusOK) ++
                            [CloseUpstream; CloseClient])
                    end
           end
       end.

Definition ServeHTTP (s : Server) (env : Environment) (w : ResponseWriter) (req : Request)
  : option (ResponseWriter * list action) :=
  if bool_decide (Method req = "CONNECT") then Some (handleConnect s env w req) else handleHTTP s env w req.
End handlers.

(** * Where a request is sent *)

Section targets.
Context `{ExternalLaws}.

(** The host of a request is the authority of its URL, which ends at the first slash, or a
    Host header, in which net/http admits none.  Every other byte can occur in it. *)
Definition request_host (raw : gostring) : Prop := "/"%char ∉ raw.

Lemma no_scheme s : "/"%char ∉ s -> Contains s "://" = false.
Proof. intros Hs. apply not_true_iff_false. intros (a & b & ->)%Contains_true. apply Hs. set_solver. Qed.

(** What NormalizeHost does to a host once the port and the brackets are gone. *)
Definition canonize (raw h : gostring) : result gostring :=
  let name := ToLower (TrimSpace (TrimSuffix h ".")) in
  if bool_decide (name = []) then Err (Errorf "host is required" [])
  else if ContainsAny name "/?#" then Err (Errorf "host %q contains URL delimiters" [raw])
  else do ascii <- idna_ToASCII name; Ok (ToLower ascii).

Lemma canonize_Ok raw h n : canonize raw h = Ok n ->
  exists r, idna_ToASCII (ToLower (TrimSpace (TrimSuffix h "."))) = Ok r ∧ n = ToLower r.
Proof.
  unfold canonize. case_bool_decide; [done|]. case_match; [done|]. destruct (idna_ToASCII _) as [r|]; [|done].
  cbn. intros [= <-]. by exists r.
Qed.

Lemma normalizeAuthority_eq raw hp h : lbracket ∉ h -> rbracket ∉ h ->
  match SplitHostPort hp with Ok (x, _) => x | Err _ => hp end = h -> normalizeAuthority raw hp = canonize raw h.
Proof.
  intros Hl Hr Hs. unfold normalizeAuthority, canonize. rewrite Hs. change "["%go with [lbracket]. rewrite TrimPrefix_none.
  2: { rewrite HasPrefix_byte. apply bool_decide_eq_false. intros Hh. apply Hl. by destruct h; [|injection Hh as ->; left]. }
  change "]"%go with [rbracket]. rewrite (TrimSuffix_none h); [done|].
  rewrite HasSuffix_byte. apply bool_decide_eq_false. intros [l' Hx]%last_Some. apply Hr. rewrite Hx. set_solver.
Qed.

(** White space around a host matters only where it hides the dot of the root. *)
Lemma canonize_trim raw raw' h n n' : canonize raw h = Ok n -> canonize raw' (TrimSpace h) = Ok n' -> n = n' ∨ n = n' ++ ".".
Proof.
  intros (r & Hr & ->)%canonize_Ok (r' & Hr' & ->)%canonize_Ok. revert Hr Hr'. unfold TrimSuffix.
  destruct (CutSuffix h ".") as [x|] eqn:Eh; cbn [default].
  - apply CutSuffix_Some in Eh as ->. change "."%go with (dot :: []) at 2. rewrite (TrimSpace_at dot x []) by done.
    change (dot :: TrimRightSpace []) with ("."%go). rewrite (proj2 (CutSuffix_Some _ "." (TrimLeftSpace x)) eq_refl). cbn [default from_option id]. rewrite TrimSpace_left. intros -> [= ->]. by left.
  - destruct (CutSuffix (TrimSpace h) ".") as [x|] eqn:Et; cbn [default from_option id].
    + apply CutSuffix_Some in Et. rewrite Et. intros Hr. pose proof (idna_ascii _ _ Hr) as Ha. apply idna_root in Hr as (-> & r0 & -> & ->).
      intros [= <-]. right. assert (Ha0 : is_ascii r0 = true) by (unfold is_ascii in *; rewrite forallb_app in Ha; by apply andb_true_iff in Ha as [? _]).
      rewrite !ToLower_ascii by done. unfold ascii_ToLower. by rewrite fmap_app.
    + rewrite TrimSpace_idemp. intros -> [= ->]. by left.
Qed.

Lemma canonize_no_colon raw h n : canonize raw h = Ok n -> colon ∉ h.
Proof.
  intros (r & Hr & _)%canonize_Ok Hc. apply idna_std3 in Hr. apply Hr. clear Hr.
  assert (Ht : colon ∈ TrimSuffix h ".").
  { unfold TrimSuffix. destruct (CutSuffix h ".") as [x|] eqn:E; cbn; [|done]. apply CutSuffix_Some in E as ->. set_solver. }
  apply list_elem_of_split in Ht as (u & v & ->). rewrite TrimSpace_at by done. set_solver.
Qed.

(** The host of an address whose port could be split off, seen from both functions. *)
Lemma host_twice raw h p n n' :
  request_host raw -> SplitHostPort raw = Ok (h, p) -> NormalizeHost raw = Ok n -> NormalizeHost h = Ok n' -> n = n' ∨ n = n' ++ ".".
Proof.
  intros Hraw (Hp & Hpl & Hpr & Hl & Hr & Hx)%SplitHostPort_Ok Hn Hn'.
  assert (Hslash : "/"%char ∉ h) by (intros Hin; apply Hraw; destruct Hx as [[-> _]| ->]; set_solver).
  assert (Hp' : colon ∉ TrimRightSpace p ∧ lbracket ∉ TrimRightSpace p ∧ rbracket ∉ TrimRightSpace p)
    by (split_and!; intros Hin%TrimRightSpace_elem; done).
  assert (exists x, canonize raw x = Ok n ∧ TrimSpace x = TrimSpace h ∧ colon ∉ h) as (x & Hcx & Htx & Hc).
  { revert Hn. unfold NormalizeHost. case_bool_decide; [done|]. rewrite no_scheme by (intros Hin%TrimSpace_elem; done). cbn [rbind].
    destruct Hx as [[Ex Hc]|Ex].
    - rewrite Ex at 2. rewrite TrimSpace_at by done. intros Hn. exists (TrimLeftSpace h). split; [|split; [apply TrimSpace_left|done]].
      rewrite <-(normalizeAuthority_eq raw (TrimLeftSpace h ++ colon :: TrimRightSpace p)); [done|intros Hin%TrimLeftSpace_elem; done..|].
      rewrite (SplitHostPort_shape _ (TrimLeftSpace h) (TrimRightSpace p)); [done|].
      destruct Hp' as (? & ? & ?). split_and!; try done; [intros Hin%TrimLeftSpace_elem; done..|]. left. split; [done|].
      intros Hin%TrimLeftSpace_elem; done.
    - rewrite Ex at 2. change (lbracket :: h ++ rbracket :: colon :: p) with ((lbracket :: h ++ [rbracket] ++ colon :: p)).
      rewrite (app_assoc h), app_comm_cons, TrimSpace_at by done. intros Hn. exists h.
      assert (Hleft : TrimLeftSpace (lbracket :: h ++ [rbracket]) = lbracket :: h ++ [rbracket]).
      { change (lbracket :: h ++ [rbracket]) with ([] ++ lbracket :: h ++ [rbracket]). apply trim_runes_id. cbn.
        destruct (h ++ [rbracket]) as [|? [|? ?]]; done. }
      rewrite Hleft in Hn. assert (Hcx : canonize raw h = Ok n).
      { rewrite <-(normalizeAuthority_eq raw ((lbracket :: h ++ [rbracket]) ++ colon :: TrimRightSpace p)); [done|done|done|].
        rewrite (SplitHostPort_shape _ h (TrimRightSpace p)); [done|]. destruct Hp' as (? & ? & ?). split_and!; try done.
        right. cbn. by rewrite <-app_assoc. }
      split; [done|]. split; [done|]. by eapply canonize_no_colon. }
  eapply canonize_trim; [exact Hcx|]. rewrite Htx. revert Hn'. unfold NormalizeHost. case_bool_decide; [done|].
  assert (Hct : colon ∉ TrimSpace h) by (intros Hin%TrimSpace_elem; done).
  rewrite no_scheme by (intros Hin%TrimSpace_elem; done). cbn [rbind]. intros Hn'. rewrite <-Hn'. symmetry.
  apply normalizeAuthority_eq; [intros Hin%TrimSpace_elem; done..|].
  pose proof (SplitHostPort_no_colon (TrimSpace h) Hct) as Hno. by destruct (SplitHostPort (TrimSpace h)) as [[]|].
Qed.

(** The address a CONNECT request is sent to has the host that was matched, up to the
    dot of the root. *)
Lemma addressWithDefaultPort_host raw dp n t :
  request_host raw -> NormalizeHost raw = Ok n -> addressWithDefaultPort raw dp = Ok t ->
  exists n' p, (n = n' ∨ n = n' ++ ".") ∧ t = JoinHostPort n' p.
Proof.
  intros Hr Hn. unfold addressWithDefaultPort. destruct (SplitHostPort raw) as [[h p]|] eqn:Es.
  - destruct (NormalizeHost h) as [n'|] eqn:En; [|done]. cbn. intros [= <-]. exists n', p. split; [|done]. by eapply host_twice.
  - rewrite Hn. cbn. intros [= <-]. exists n, dp. split; [by left|done].
Qed.
End targets.

(** * Headers *)

(** The names a Connection header lists. *)
Definition connectionNames (h : Header) : list gostring :=
  List.filter (fun name => negb (bool_decide (name = [])))
    (TrimSpace <$> concat ((fun v => Split v comma) <$> Header_Values h "Connection")).

(** The canonical names of the headers that are meant for one hop only. *)
Definition hopNames (h : Header) : list gostring := CanonicalMIMEHeaderKey <$> (connectionNames h ++ hopByHop).

Lemma foldl_deletePart h ps :
  foldl deletePart h ps = foldl Header_Del h (List.filter (fun name => negb (bool_decide (name = []))) (TrimSpace <$> ps)).
Proof.
  revert h. induction ps as [|p ps IH]; intros h; [done|]. cbn [foldl fmap list_fmap List.filter].
  unfold deletePart at 2. case_bool_decide; cbn [negb foldl]; by rewrite IH.
Qed.

Lemma foldl_tokens h vs :
  foldl (fun h token => foldl deletePart h (Split token comma)) h vs =
  foldl deletePart h (concat ((fun v => Split v comma) <$> vs)).
Proof.
  revert h. induction vs as [|v vs IH]; intros h; [done|]. cbn [foldl fmap list_fmap concat].
  by rewrite foldl_app, IH.
Qed.

Lemma removeHopByHopHeaders_lookup h k :
  removeHopByHopHeaders h !! k = if bool_decide (k ∈ hopNames h) then None else h !! k.
Proof.
  unfold removeHopByHopHeaders. rewrite foldl_tokens, foldl_deletePart, <-foldl_app. apply foldl_Header_Del.
Qed.

Definition canonical (h : Header) : Prop := forall k vs, h !! k = Some vs -> CanonicalMIMEHeaderKey k = k.

Lemma addValues_lookup dst k vs k' :
  CanonicalMIMEHeaderKey k = k ->
  addValues dst (k, vs) !! k' =
    if bool_decide (k' = k ∧ vs <> []) then Some (default [] (dst !! k) ++ vs) else dst !! k'.
Proof.
  intros Hk. unfold addValues. cbn [fst snd]. revert dst. induction vs as [|v vs IH]; intros dst; cbn [foldl].
  { by rewrite bool_decide_eq_false_2 by by intros [_ ?]. }
  rewrite IH, !Header_Add_lookup, Hk. unfold Header_Values. rewrite Hk.
  destruct (decide (k' = k)) as [->|Hne].
  - rewrite !(bool_decide_eq_true_2 (k = k)), (bool_decide_eq_true_2 (k = k ∧ v :: vs <> [])) by done.
    cbn [default from_option id]. case_bool_decide as Hv; [by rewrite <-app_assoc|]. destruct vs; [done|]. by destruct Hv.
  - rewrite (bool_decide_eq_false_2 (k' = k)) by done. by rewrite !bool_decide_eq_false_2 by by intros [? _].
Qed.

(** What the client gets under a name: what was set before and then the values of
    the copied header. *)
Lemma copyHeader_lookup dst src k :
  canonical src ->
  copyHeader dst src !! k =
    match src !! k with
    | Some (v :: vs) => Some (default [] (dst !! k) ++ v :: vs)
    | _ => dst !! k
    end.
Proof.
  intros Hc. unfold copyHeader.
  assert (forall l, NoDup l.*1 -> Forall (fun kv => CanonicalMIMEHeaderKey kv.1 = kv.1) l -> forall dst,
    foldl addValues dst l !! k =
      match (list_to_map l : gmap gostring (list gostring)) !! k with
      | Some (v :: vs) => Some (default [] (dst !! k) ++ v :: vs)
      | _ => dst !! k
      end) as Hl.
  { induction l as [|[k0 vs0] l IH]; intros Hn Hf dst'; [done|].
    apply NoDup_cons in Hn as [Hk0 Hn]. apply Forall_cons in Hf as [Hc0 Hf]. cbn in Hc0, Hk0.
    cbn [foldl]. rewrite IH, addValues_lookup, list_to_map_cons by done. destruct (decide (k = k0)) as [->|Hne].
    - rewrite not_elem_of_list_to_map_1, lookup_insert_eq by done.
      destruct vs0; [by rewrite bool_decide_eq_false_2 by by intros [_ ?]|]. by rewrite bool_decide_eq_true_2.
    - rewrite lookup_insert_ne by done. by rewrite !bool_decide_eq_false_2 by by intros [? _]. }
  rewrite (Hl (map_to_list src)).
  - pose proof (list_to_map_to_list (M := gmap gostring) src) as Hs. by setoid_rewrite Hs.
  - apply NoDup_fst_map_to_list.
  - apply Forall_forall. intros [k0 vs0] Hin%elem_of_map_to_list. by eapply Hc.
Qed.

(** * Properties *)

Section properties.
Context `{ExternalLaws} (text : error -> gostring) (asDirect : error -> option Upstream.DirectDialError).

(** An action that reaches a host of the rules only, and sends no header of the
    client's hop. *)
Definition on_target (m : Matcher) (a : action) : Prop :=
  match a with
  | Dial t => exists n d r p, (d = [] ∨ d = ".") ∧ MatchHost m (n ++ d) = Some r ∧ t = JoinHostPort n p
  | RoundTrip r =>
      RequestURI r = [] ∧ (exists u n x, ReqURL r = Some u ∧ NormalizeHost (URLHost u) = Ok n ∧ MatchHost m n = Some x) ∧
      Forall (fun k => ReqHeader r !! CanonicalMIMEHeaderKey k = None) hopByHop
  | _ => True
  end.

Lemma matchRequestHost_spec s raw allowed m host :
  matchRequestHost s raw = (allowed, m, host) ->
  allowed = true -> NormalizeHost raw = Ok host ∧ MatchHost (matcher s) host = Some m.
Proof.
  unfold matchRequestHost. destruct (NormalizeHost raw) as [n|]; [|by intros [= <- _ _]].
  destruct (MatchHost (matcher s) n) eqn:Em; by intros [= <- <- <-].
Qed.

Lemma outgoing_clean req : Forall (fun k => ReqHeader (outgoing req) !! CanonicalMIMEHeaderKey k = None) hopByHop.
Proof.
  apply Forall_forall. intros k Hk. cbn [outgoing ReqHeader]. rewrite removeHopByHopHeaders_lookup, bool_decide_eq_true_2; [done|].
  unfold hopNames. apply list_elem_of_fmap. exists k. split; [done|]. apply elem_of_app. by right.
Qed.

Lemma Some_pair_snd {A B} (a a' : A) (b b' : B) : Some (a, b) = Some (a', b') -> b = b'.
Proof. congruence. Qed.

Ltac all_on :=
  cbn [app snd]; repeat (apply Forall_cons; split; [first [assumption|exact I]|]); apply Forall_nil_2.

Lemma handleHTTP_targets s env w req out acts :
  NonTarget (cfg s) = NonTargetReject ->
  handleHTTP text asDirect s env w req = Some (out, acts) -> Forall (on_target (matcher s)) acts.
Proof.
  unfold handleHTTP. intros Hb. destruct (ReqURL req) as [u|] eqn:Eu; [|by intros [= _ <-]].
  do 2 (case_match; [by intros [= _ <-]|]). destruct (matchRequestHost s (URLHost u)) as [[allowed m] host] eqn:Em.
  destruct allowed; cbn [negb andb].
  2: { rewrite bool_decide_eq_true_2 by done. intros [= _ <-]. all_on. }
  destruct (matchRequestHost_spec _ _ _ _ _ Em eq_refl) as [Hn Hm]. destruct (transport s); [|done]. cbn [negb].
  assert (on_target (matcher s) (RoundTrip (outgoing req))) as Ht.
  { split_and!; [done|by exists u, host, m|apply outgoing_clean]. }
  destruct (onRoundTrip env (outgoing req)); intros <-%Some_pair_snd; all_on.
Qed.

Lemma handleConnect_targets s env w req :
  NonTarget (cfg s) = NonTargetReject -> request_host (Host req) ->
  Forall (on_target (matcher s)) (handleConnect text asDirect s env w req).2.
Proof.
  unfold handleConnect. intros Hb Hr. destruct (matchRequestHost s (Host req)) as [[allowed m] host] eqn:Em.
  destruct allowed; cbn [negb andb].
  2: { rewrite bool_decide_eq_true_2 by done. all_on. }
  destruct (matchRequestHost_spec _ _ _ _ _ Em eq_refl) as [Hn Hm].
  destruct (addressWithDefaultPort _ _) as [t|] eqn:Ea; [|all_on].
  assert (on_target (matcher s) (Dial t)) as Ht.
  { destruct (addressWithDefaultPort_host _ _ _ _ Hr Hn Ea) as (n' & p & [->| ->] & Hp).
    - exists n', [], m, p. rewrite app_nil_r. by split; [left|].
    - exists n', ".", m, p. by split; [right|]. }
  unfold connected. repeat case_match; all_on.
Qed.


(** The client's view of a header relayed from the server. *)
Definition relayed (w : ResponseWriter) (resp : Response) (k : gostring) : option (list gostring) :=
  match RespHeader resp !! k with
  | Some (v :: vs) => if bool_decide (k ∈ hopNames (RespHeader resp)) then wHeader w !! k
                      else Some (default [] (wHeader w !! k) ++ v :: vs)
  | _ => wHeader w !! k
  end.

Lemma relay_header w resp k : canonical (RespHeader resp) -> wHeader (relay w resp) !! k = relayed w resp k.
Proof.
  intros Hc. unfold relay, relayed. cbn [wHeader]. rewrite copyHeader_lookup, removeHopByHopHeaders_lookup.
  - case_bool_decide; [|done]. by repeat case_match.
  - intros k0 vs. rewrite removeHopByHopHeaders_lookup. case_bool_decide; [done|]. apply Hc.
Qed.

(** A plain request with an absolute URL whose host may be contacted. *)
Definition forwardable (s : Server) (req : Request) : Prop :=
  Method req <> "CONNECT" ∧
  exists u, ReqURL req = Some u ∧ URLHost u <> [] ∧ (Scheme u = "http" ∨ Scheme u = "https") ∧
    (NonTarget (cfg s) <> NonTargetReject ∨
     exists n r, NormalizeHost (URLHost u) = Ok n ∧ MatchHost (matcher s) n = Some r).

Lemma handleHTTP_forwards s env w req :
  forwardable s req ->
  exists host m allowed, ServeHTTP text asDirect s env w req =
    if negb (transport s) then None
    else match onRoundTrip env (outgoing req) with
         | Err e =>
             let msg := UpstreamErrorMessage (Some (text e)) in
             Some (httpError w ("upstream request failed: " ++ msg) StatusBadGateway,
                   [RoundTrip (outgoing req);
                    logRequestError "http_error" (Method req) host m (behaviorFor s allowed) StatusBadGateway
                      msg (UpstreamErrorAttrs (asDirect e))])
         | Ok resp =>
             Some (relay w resp,
                   [RoundTrip (outgoing req);
                    logRequest "http" (Method req) host m (behaviorFor s allowed) (StatusCode resp); CloseBody])
         end.
Proof.
  intros (Hm & u & Hu & Hh & Hs & Ha). unfold ServeHTTP, handleHTTP. rewrite (bool_decide_eq_false_2 (Method req = _)), Hu by done.
  rewrite (bool_decide_eq_false_2 (URLHost u = [])) by done.
  replace (bool_decide (Scheme u = [])) with false by by destruct Hs as [-> | ->].
  replace (negb (bool_decide (Scheme u = "http")) && negb (bool_decide (Scheme u = "https"))) with false
    by by destruct Hs as [-> | ->].
  destruct (matchRequestHost s (URLHost u)) as [[allowed m] host] eqn:Em.
  exists host, m, allowed.
  replace (negb allowed && bool_decide (NonTarget (cfg s) = NonTargetReject)) with false; [done|].
  destruct Ha as [Ha|(n & r & Hn & Hr)]; [by rewrite bool_decide_eq_false_2, andb_false_r|].
  unfold matchRequestHost in Em. rewrite Hn, Hr in Em. by injection Em as <- _ _.
Qed.

(** A plain request that may be forwarded is sent upstream with all its headers
    but those of its hop, and the client gets the status, every header that is not
    for one hop (those the Connection header names included) with all its values, and
    the bytes of the body up to its end or its first error; when the upstream fails
    the client gets 502 and nothing else. *)
Theorem http_relayed s env w req :
  forwardable s req -> transport s = true ->
  (forall k, ReqHeader (outgoing req) !! k =
     if bool_decide (k ∈ hopNames (ReqHeader req)) then None else ReqHeader req !! k) ∧
  exists out acts, ServeHTTP text asDirect s env w req = Some (out, acts) ∧
  match onRoundTrip env (outgoing req) with
  | Ok resp =>
      wStatus out = Some (StatusCode resp) ∧ wBody out = wBody w ++ bData (RespBody resp) ∧
      (canonical (RespHeader resp) -> forall k, wHeader out !! k = relayed w resp k) ∧
      last acts = Some CloseBody
  | Err e =>
      wStatus out = Some StatusBadGateway ∧
      wBody out = wBody w ++ ("upstream request failed: " ++ UpstreamErrorMessage (Some (text e))) ++ nl
  end.
Proof.
  intros Hf Ht. split; [intros k; apply removeHopByHopHeaders_lookup|].
  destruct (handleHTTP_forwards s env w req Hf) as (host & m & allowed & ->). rewrite Ht. cbn [negb].
  destruct (onRoundTrip env (outgoing req)) as [resp|e]; do 2 eexists; (split; [reflexivity|]); [|done].
  split_and!; [done..| |done]. intros Hc k. by apply relay_header.
Qed.

(** The traces of the two handlers. *)
Inductive trace (env : Environment) : list action -> Prop :=
| trace_refused log : trace env (Log <$> log)
| trace_dial_failed t e log : onDial env t = Some e -> trace env [Dial t; Log log]
| trace_no_hijacker t : trace env [Dial t; CloseUpstream]
| trace_hijack_failed t e : onHijack env = Some e -> trace env [Dial t; Hijack; CloseUpstream]
| trace_buffered t : trace env [Dial t; Hijack; CloseClient; CloseUpstream; CloseClient]
| trace_write_failed t : trace env [Dial t; Hijack; WriteClient established; CloseUpstream; CloseClient]
| trace_tunnel t log :
    buffered env = 0 -> onWrite env = None -> onFlush env = None ->
    trace env [Dial t; Hijack; WriteClient established; Log log; Tunnel; CloseUpstream; CloseClient]
| trace_round_trip_failed r e log : onRoundTrip env r = Err e -> trace env [RoundTrip r; Log log]
| trace_round_trip r log : trace env [RoundTrip r; Log log; CloseBody].

Lemma handleConnect_trace s env w req : trace env (handleConnect text asDirect s env w req).2.
Proof.
  unfold handleConnect. destruct (matchRequestHost _ _) as [[allowed m] host].
  destruct (_ && _); [apply (trace_refused _ [_])|]. destruct (addressWithDefaultPort _ _) as [t|]; [|apply (trace_refused _ [])].
  destruct (onDial env t) eqn:Ed; [by eapply trace_dial_failed|]. destruct (isHijacker env); [|apply trace_no_hijacker].
  destruct (onHijack env) eqn:Eh; [by eapply trace_hijack_failed|]. cbn [negb snd]. unfold connected.
  case_bool_decide; [apply trace_buffered|].
  destruct (onWrite env) eqn:Ew; [apply trace_write_failed|]. destruct (onFlush env) eqn:Ef; [apply trace_write_failed|].
  apply trace_tunnel; [lia|done..].
Qed.

Lemma ServeHTTP_trace s env w req out acts : ServeHTTP text asDirect s env w req = Some (out, acts) -> trace env acts.
Proof.
  unfold ServeHTTP, handleHTTP. case_bool_decide.
  - pose proof (handleConnect_trace s env w req) as Ht. destruct (handleConnect _ _ _ _ _ _) as [w' l].
    by intros <-%Some_pair_snd.
  - destruct (ReqURL req); [|intros <-%Some_pair_snd; apply (trace_refused _ [])].
    do 2 (case_match; [intros <-%Some_pair_snd; apply (trace_refused _ [])|]).
    destruct (matchRequestHost _ _) as [[allowed m] host]. case_match; [intros <-%Some_pair_snd; apply (trace_refused _ [_])|].
    case_match; [done|]. destruct (onRoundTrip _ _) eqn:Er; intros <-%Some_pair_snd; [apply trace_round_trip|].
    by eapply trace_round_trip_failed.
Qed.

(** The handlers release what they acquire: a connection that was dialed is
    closed on every path, a hijacked client connection too, a response body is
    closed, and a tunnel starts only on a client connection with nothing buffered
    after the whole 200 line was written to it. *)
Theorem connections_released s env w req out acts :
  ServeHTTP text asDirect s env w req = Some (out, acts) ->
  (forall t, Dial t ∈ acts -> onDial env t = None -> CloseUpstream ∈ acts) ∧
  (Hijack ∈ acts -> onHijack env = None -> last acts = Some CloseClient) ∧
  (Tunnel ∈ acts -> buffered env = 0 ∧ onWrite env = None ∧ onFlush env = None ∧
     exists t log, acts = [Dial t; Hijack; WriteClient established; Log log; Tunnel; CloseUpstream; CloseClient]) ∧
  (forall r resp, RoundTrip r ∈ acts -> onRoundTrip env r = Ok resp -> CloseBody ∈ acts).
Proof.
  intros [log| | | | | | | |]%ServeHTTP_trace.
  - assert (forall a, a ∈ Log <$> log -> exists x, a = Log x) as Hl by by intros a (x & -> & _)%list_elem_of_fmap; eauto.
    split_and!; intros; match goal with H : _ ∈ Log <$> log |- _ => by apply Hl in H as [? ?] end.
  - split_and!; set_unfold; naive_solver.
  - split_and!; set_unfold; naive_solver.
  - split_and!; set_unfold; naive_solver.
  - split_and!; set_unfold; naive_solver.
  - split_and!; set_unfold; naive_solver.
  - split_and!; set_unfold; naive_solver.
  - split_and!; set_unfold; [naive_solver..|]. intros x resp [[= ->]|[?|[]]]; congruence.
  - split_and!; set_unfold; naive_solver.
Qed.

(** A server that is started never panics in a handler; but a request that is
    still to be forwarded when Stop runs its locked section panics, since Stop clears
    the transport before the handlers have ended. *)
Theorem stopping_panics s env w req a s' :
  Start s (Ok a) = (Ok tt, s') ->
  ServeHTTP text asDirect s' env w req <> None ∧
  (forwardable s' req -> ServeHTTP text asDirect (stopping s') env w req = None).
Proof.
  intros Hs. assert (transport s' = true) as Ht.
  { revert Hs. unfold Start. destruct (server s); [done|]. by intros [= <-]. }
  split.
  - unfold ServeHTTP, handleHTTP. rewrite Ht. cbn [negb]. repeat case_match; done.
  - intros Hf. destruct (handleHTTP_forwards (stopping s') env w req Hf) as (h & m & al & ->). reflexivity.
Qed.
End properties.

(** ** Witnesses *)

Section proxy_witnesses.
#[local] Existing Instance simple_externals.

Definition proxy_groups : list RuleGroup :=
  [{| GroupName := "steam"; Domains := ["steamcommunity.com"; "*.steamcommunity.com"] |}].

Definition sample_server : Server :=
  {| cfg := {| ListenAddr := "127.0.0.1:26501"; NonTarget := NonTargetReject; HeaderTimeout := 0%Z; Idle := 0%Z; Shutdown := 0%Z |};
     matcher := canonical_matcher proxy_groups; server := true; transport := true; listener := true;
     addr := "127.0.0.1:26501" |}.

Definition sample_response : Response :=
  {| StatusCode := StatusOK;
     RespHeader := <[("Connection" : gostring) := [("X-Hop, close" : gostring)]]>
                     (<[("X-Hop" : gostring) := [("1" : gostring)]]>
                        (<[("Etag" : gostring) := [("7" : gostring)]]> ∅));
     RespBody := fresh_body "page" |}.

Definition sample_environment : Environment :=
  {| onRoundTrip := fun _ => Ok sample_response; onDial := fun _ => None; isHijacker := true; onHijack := None;
     buffered := 0; onWrite := None; onFlush := None |}.

Definition no_text (e : error) : gostring := [].
Definition no_direct (e : error) : option Upstream.DirectDialError := None.
Definition empty_writer : ResponseWriter := {| wHeader := ∅; wStatus := None; wBody := [] |}.

Definition connect_request : Request :=
  {| Method := "CONNECT"; ReqURL := None; Host := "Store.SteamCommunity.com:443"; RequestURI := []; ReqHeader := ∅ |}.
Definition get_request : Request :=
  {| Method := "GET"; ReqURL := Some {| Scheme := "http"; URLHost := "steamcommunity.com"; URLUser := None |};
     Host := "steamcommunity.com"; RequestURI := "http://steamcommunity.com/"; ReqHeader := ∅ |}.

Definition served : ResponseWriter * list action :=
  default (empty_writer, []) (ServeHTTP no_text no_direct sample_server sample_environment empty_writer connect_request).

Lemma served_ok :
  ServeHTTP no_text no_direct sample_server sample_environment empty_writer connect_request = Some (served.1, served.2).
Proof. vm_compute. reflexivity. Qed.

Lemma served_dials : bool_decide (last served.2 = None) = false ∧ head served.2 = Some (Dial "store.steamcommunity.com:443").
Proof. by vm_compute. Qed.

Lemma connect_host : request_host (Host connect_request).
Proof. by_decide. Qed.


Lemma connections_released_witness : last served.2 = Some CloseClient.
Proof.
  destruct (connections_released no_text no_direct sample_server sample_environment empty_writer connect_request
    served.1 served.2 served_ok) as (_ & Hc & _).
  apply Hc; [vm_compute; right; left|reflexivity].
Defined.

Lemma get_forwardable : forwardable sample_server get_request.
Proof.
  split; [discriminate|]. eexists. split; [reflexivity|]. split; [discriminate|]. split; [by left|]. right.
  exists "steamcommunity.com". eexists. split; vm_compute; reflexivity.
Qed.

Lemma http_relayed_witness :
  exists out acts, ServeHTTP no_text no_direct sample_server sample_environment empty_writer get_request = Some (out, acts) ∧
    wStatus out = Some StatusOK ∧ wBody out = "page".
Proof.
  destruct (http_relayed no_text no_direct sample_server sample_environment empty_writer get_request get_forwardable eq_refl)
    as (_ & out & acts & Hs & Hst & Hb & _).
  exists out, acts. split; [exact Hs|]. split; [exact Hst|exact Hb].
Defined.

Lemma stopping_panics_witness :
  ServeHTTP no_text no_direct (stopping sample_server) sample_environment empty_writer get_request = None.
Proof.
  destruct (stopping_panics no_text no_direct (stopping sample_server) sample_environment empty_writer get_request
    "127.0.0.1:26501" sample_server eq_refl) as [_ Hp].
  apply Hp. exact get_forwardable.
Defined.
End proxy_witnesses.
