(* ===== verification/Reverse.v ===== *)
(** The reverse proxy (src/internal/reverse/reverse.go): the HTTP and HTTPS servers
    that take the place of the matched hosts, the certificates they present, and
    the forwarding of requests with page enhancement.

    A handler returns the response it wrote, the pipeline with its counters and the
    list of what it did, in order; [None] is a panic. *)
From stdpp Require Import strings.
From Stdlib Require Import Ascii.
From S2P Require Import Prelude GoStrings GoNet External Rules Config Http PageEnhance Diagnostics.
From S2P Require Upstream Pac Proxy.

(** * Server *)

Record RConfig := {
  HTTPListen : gostring;
  HTTPSListen : gostring;
  HeaderTimeout : Duration;
  Idle : Duration;
  Shutdown : Duration;
  Enhance : PConfig;
}.

Definition ConfigFromApp (cfg : Config.Config) : RConfig :=
  {| HTTPListen := HTTPListenAddr (Hosts cfg); HTTPSListen := HTTPSListenAddr (Hosts cfg);
     HeaderTimeout := ReadHeaderTimeout (Proxy cfg); Idle := IdleTimeout (Proxy cfg);
     Shutdown := ShutdownTimeout (Proxy cfg); Enhance := PageEnhance.ConfigFromApp cfg |}.

(** [dialer], [certs], [httpSrv], [httpsSrv] and [transport] say which of the values
    are not nil. *)
Record Server := {
  cfg : RConfig;
  matcher : option Matcher;
  dialer : bool;
  certs : bool;
  transport : bool;
  enhancer : Pipeline;
  httpSrv : bool;
  httpsSrv : bool;
  httpAddr : gostring;
  httpsAddr : gostring;
}.

Definition New (c : RConfig) (m : option Matcher) (hasDialer hasCerts : bool) : Server :=
  {| cfg := c; matcher := m; dialer := hasDialer; certs := hasCerts; transport := false;
     enhancer := PageEnhance.New (Enhance c); httpSrv := false; httpsSrv := false; httpAddr := []; httpsAddr := [] |}.

Definition with_transport (s : Server) : Server :=
  {| cfg := cfg s; matcher := matcher s; dialer := dialer s; certs := certs s; transport := true;
     enhancer := enhancer s; httpSrv := httpSrv s; httpsSrv := httpsSrv s; httpAddr := httpAddr s; httpsAddr := httpsAddr s |}.

(** [listen] is net.Listen on each address; the last component are the listeners
    that are left open. *)
Definition Start (s : Server) (listen : gostring -> result gostring) : result unit * Server * list gostring :=
  if httpSrv s || httpsSrv s then (Err (Errorf "reverse server already started" []), s, [])
  else if bool_decide (matcher s = None) then (Err (Errorf "rules matcher is required" []), s, [])
  else if negb (dialer s) then (Err (Errorf "upstream dialer is required" []), s, [])
  else if negb (certs s) then (Err (Errorf "certificate provider is required" []), s, [])
  else
    let s := with_transport s in
    match listen (HTTPListen (cfg s)) with
    | Err e => (Err (Wrapf "listen reverse HTTP %s: %w" [HTTPListen (cfg s)] e), s, [])
    | Ok a =>
        match listen (HTTPSListen (cfg s)) with
        | Err e => (Err (Wrapf "listen reverse HTTPS %s: %w" [HTTPSListen (cfg s)] e), s, [])
        | Ok b =>
            (Ok tt,
             {| cfg := cfg s; matcher := matcher s; dialer := dialer s; certs := certs s; transport := true;
                enhancer := enhancer s; httpSrv := true; httpsSrv := true; httpAddr := a; httpsAddr := b |},
             [a; b])
        end
    end.

Definition stopping (s : Server) : Server :=
  {| cfg := cfg s; matcher := matcher s; dialer := dialer s; certs := certs s; transport := false;
     enhancer := enhancer s; httpSrv := false; httpsSrv := false; httpAddr := httpAddr s; httpsAddr := httpsAddr s |}.

(** The two servers and what Stop does to them: a shutdown waits for the running
    requests, a close ends them. *)
Inductive which := HTTP | HTTPS.
Inductive stop_call := Shut (s : which) | ForceClose (s : which).

(** [shutdown] is the result of Shutdown on each server, [evs] what Stop waits for on
    the two channels. *)
Definition Stop (s : Server) (shutdown : which -> option error) (evs : list Pac.stop_event)
  : option error * Server * list stop_call :=
  if negb (httpSrv s) && negb (httpsSrv s) then (None, stopping s, [])
  else
    let '(err1, calls1) :=
      if httpSrv s then
        match shutdown HTTP with
        | Some e => (Some e, [Shut HTTP; ForceClose HTTP])
        | None => (None, [Shut HTTP])
        end
      else (None, []) in
    let '(err2, calls2) :=
      if httpsSrv s then
        match err1, shutdown HTTPS with
        | None, Some e => (Some e, [Shut HTTPS; ForceClose HTTPS])
        | _, _ => (err1, [Shut HTTPS])
        end
      else (err1, []) in
    (foldl Pac.stop_error err2 evs, stopping s, calls1 ++ calls2).

(** * Requests and actions *)

Record Request := {
  Method : gostring;
  ReqURL : option URL;
  Path : gostring;
  Host : gostring;
  TLS : bool;
  RemoteAddr : gostring;
  RequestURI : gostring;
  ReqHeader : Header;
}.

Definition Attrs := list (gostring * AttrValue).

Inductive action :=
| Log (attrs : Attrs)
| RoundTrip (r : Request)
| SwitchProtocols
| CloseBody
| Abort.

(** * httputil.ReverseProxy, as documented: the parts of it the handler relies on *)

Section reverse_proxy.
(** The Director, the Transport (its final response; [None] for a panic), the
    ErrorHandler and ModifyResponse; [St] is what ModifyResponse changes besides the
    response. *)
Context {St : Type}.
Variable director : Request -> option Request.
Variable roundTrip : Request -> option (result Response).
Variable errorHandler : ResponseWriter -> Request -> error -> ResponseWriter * list action.
Variable modifyResponse : St -> Response -> option (St * Response * list action * option error).

(** textproto.TrimString *)
Definition TrimString (s : gostring) : gostring := Trim s ([chr 32; chr 9] ++ nl ++ [chr 13]).

Definition deleteToken (h : Header) (part : gostring) : Header :=
  let name := TrimString part in if bool_decide (name = []) then h else Header_Del h name.

Definition removeHopHeaders (h : Header) : Header :=
  foldl Header_Del (foldl (fun h v => foldl deleteToken h (Split v Proxy.comma)) h (Header_Values h "Connection"))
    Proxy.hopByHop.

Definition containsToken (values : list gostring) (token : gostring) : bool :=
  existsb (fun v => existsb (fun p => bool_decide (ascii_ToLower (Trim p [chr 32; chr 9]) = token)) (Split v Proxy.comma)) values.

Definition upgradeType (h : Header) : gostring :=
  if containsToken (Header_Values h "Connection") "upgrade" then Header_Get h "Upgrade" else [].

Definition printable (s : gostring) : bool := forallb (fun c => (32 <=? code c) && (code c <=? 126))%N s.

Definition with_reqheader (r : Request) (h : Header) : Request :=
  {| Method := Method r; ReqURL := ReqURL r; Path := Path r; Host := Host r; TLS := TLS r;
     RemoteAddr := RemoteAddr r; RequestURI := RequestURI r; ReqHeader := h |}.

Definition forwardedFor (remote : gostring) (h : Header) : Header :=
  match SplitHostPort remote with
  | Err _ => h
  | Ok (clientIP, _) =>
      match h !! ("X-Forwarded-For" : gostring) with
      | None => Header_Set h "X-Forwarded-For" clientIP
      | Some [] => h
      | Some prior => Header_Set h "X-Forwarded-For" (Join prior ", " ++ ", " ++ clientIP)
      end
  end.

(** The header of the outgoing request, from the one the Director left. *)
Definition outgoingHeader (req : Request) (h : Header) : Header :=
  let up := upgradeType h in
  let h := removeHopHeaders h in
  let h := if containsToken (Header_Values (ReqHeader req) "Te") "trailers" then Header_Set h "Te" "trailers" else h in
  let h := if bool_decide (up = []) then h else Header_Set (Header_Set h "Connection" "Upgrade") "Upgrade" up in
  let h := forwardedFor (RemoteAddr req) h in
  match h !! ("User-Agent" : gostring) with Some _ => h | None => Header_Set h "User-Agent" [] end.

Definition body_data (resp : Response) : gostring := match rBody resp with Some b => bData b | None => [] end.
Definition body_fails (resp : Response) : bool :=
  match rBody resp with Some b => bool_decide (is_Some (bFail b)) | None => false end.

(** The response to the client: a body that breaks off aborts the handler. *)
Definition deliver (w : ResponseWriter) (resp : Response) : ResponseWriter * list action :=
  ({| wHeader := Proxy.copyHeader (wHeader w) (rHeader resp); wStatus := Some (rStatusCode resp);
      wBody := wBody w ++ body_data resp |},
   if body_fails resp then [CloseBody; Abort] else [CloseBody]).

Definition ReverseProxy (st : St) (w : ResponseWriter) (req : Request) : option (ResponseWriter * St * list action) :=
  match director req with
  | None => None
  | Some out =>
      let '(up, out') := (upgradeType (ReqHeader out), with_reqheader out (outgoingHeader req (ReqHeader out))) in
      if negb (printable up) then
        let '(w', acts) := errorHandler w req (Errorf "client tried to switch to invalid protocol %q" [up]) in
        Some (w', st, acts)
      else
        match roundTrip out' with
        | None => None
        | Some (Err e) => let '(w', acts) := errorHandler w out' e in Some (w', st, RoundTrip out' :: acts)
        | Some (Ok resp) =>
            let resp := if (rStatusCode resp =? 101)%Z then resp else with_header resp (removeHopHeaders (rHeader resp)) in
            match modifyResponse st resp with
            | None => None
            | Some (st', _, acts, Some e) =>
                let '(w', acts') := errorHandler w out' e in
                Some (w', st', RoundTrip out' :: acts ++ CloseBody :: acts')
            | Some (st', resp', acts, None) =>
                if (rStatusCode resp' =? 101)%Z then Some (w, st', RoundTrip out' :: acts ++ [SwitchProtocols])
                else let '(w', acts') := deliver w resp' in Some (w', st', RoundTrip out' :: acts ++ acts')
            end
        end
  end.
End reverse_proxy.

(** * The handler *)

Section handler.
Context `{Externals}.
Variable text : error -> gostring.
Variable asDirect : error -> option Upstream.DirectDialError.
Variable readFile : gostring -> result gostring.
Variable DetectContentType : gostring -> gostring.

Definition matchRequestHost (m : Matcher) (req : Request) : gostring * MatchResult * bool :=
  let rawHost := match Host req, ReqURL req with [], Some u => URLHost u | h, _ => h end in
  match NormalizeHost rawHost with
  | Err _ => (rawHost, emptyMatch, false)
  | Ok host =>
      match MatchHost m host with
      | Some r => (host, r, true)
      | None => (host, emptyMatch, false)
      end
  end.

Definition groupAttrs (m : MatchResult) : Attrs :=
  if bool_decide (MGroupName m = []) then []
  else [(("rule_group" : gostring), AStr (MGroupName m)); (("rule" : gostring), AStr (MRule m))].

Definition logRequest (event method host : gostring) (m : MatchResult) (status : Z) : action :=
  Log ([(("event" : gostring), AStr event); (("method" : gostring), AStr method); (("host" : gostring), AStr host)] ++
       (if (status =? 0)%Z then [] else [(("status" : gostring), AInt status)]) ++ groupAttrs m).

Definition logRequestError (event method host : gostring) (m : MatchResult) (status : Z) (message : gostring)
    (extra : Attrs) : action :=
  Log ([(("event" : gostring), AStr event); (("method" : gostring), AStr method); (("host" : gostring), AStr host);
        (("status" : gostring), AInt status); (("error" : gostring), AStr message)] ++ extra ++ groupAttrs m).

Definition optional (key : gostring) (value : gostring) : Attrs :=
  if bool_decide (value = []) then [] else [(key, AStr value)].

Definition logEnhanceEvent (e : Event) : action :=
  Log ([(("event" : gostring), AStr ("page_enhance_" ++ evAction e)); (("host" : gostring), AStr (evHost e));
        (("path" : gostring), AStr (evPath e))] ++
       optional "transform" (evTransform e) ++ optional "provider" (evProvider e) ++ optional "reason" (evReason e) ++
       (if (evStatus e =? 0)%Z then [] else [(("status" : gostring), AInt (evStatus e))])).

Definition logEnhanceEvents (events : list Event) : list action := logEnhanceEvent <$> events.

Definition providerFromRuleGroup (group : gostring) : gostring :=
  let group := TrimSpace group in
  match Index group "/" with
  | Some idx => if bool_decide (0 < idx) then take idx group else group
  | None => group
  end.

(** The host and scheme of the request are those of the matched host; a request
    without a URL panics. *)
Definition direct (enh : Pipeline) (host : gostring) (req : Request) : option Request :=
  match ReqURL req with
  | None => None
  | Some u =>
      let h := Header_Del (Header_Del (ReqHeader req) "Proxy-Authorization") "Proxy-Connection" in
      Some {| Method := Method req;
              ReqURL := Some {| Scheme := if TLS req then "https" else "http";
                                URLHost := JoinHostPort host (if TLS req then "443" else "80"); URLUser := URLUser u |};
              Path := Path req; Host := host; TLS := TLS req; RemoteAddr := RemoteAddr req; RequestURI := [];
              ReqHeader := if NeedsIdentityEncoding enh then Header_Set h "Accept-Encoding" "identity" else h |}
  end.

Definition onError (host : gostring) (m : MatchResult) (w : ResponseWriter) (r : Request) (e : error)
  : ResponseWriter * list action :=
  let msg := UpstreamErrorMessage (Some (text e)) in
  (httpError w ("upstream request failed: " ++ msg) StatusBadGateway,
   [logRequestError "reverse_error" (Method r) host m StatusBadGateway msg (UpstreamErrorAttrs (asDirect e))]).

Definition enhance (host : gostring) (m : MatchResult) (p : Pipeline) (resp : Response)
  : option (Pipeline * Response * list action * option error) :=
  match ApplyResponseWithMeta text p resp
          {| mtProvider := providerFromRuleGroup (MGroupName m); mtHost := host; mtPath := []; mtContentType := [];
             mtStatusCode := 0%Z |} with
  | None => None
  | Some (p', resp', events, err) => Some (p', resp', logEnhanceEvents events, err)
  end.

Definition aborted (acts : list action) : bool :=
  existsb (fun a => match a with Abort => true | _ => false end) acts.

(** The transport of a server that is being stopped is a nil pointer. *)
Definition ServeHTTP (s : Server) (roundTrip : Request -> result Response) (w : ResponseWriter) (req : Request)
  : option (ResponseWriter * Pipeline * list action) :=
  match matcher s with
  | None => None
  | Some mt =>
      let '(host, m, ok) := matchRequestHost mt req in
      if negb ok then
        Some (httpError w "host is not allowed by Steam rules" StatusForbidden, enhancer s,
              [logRequest "reverse_reject" (Method req) host m StatusForbidden])
      else
        let '(served, events, w1, enh) :=
          ServeAsset text readFile DetectContentType (enhancer s) w (match ReqURL req with Some _ => Some (Path req) | None => None end) host in
        if served then
          Some (w1, enh, logEnhanceEvents events ++ [logRequest "reverse_asset" (Method req) host m StatusOK])
        else
          let trip r := if transport s then Some (roundTrip r) else None in
          match ReverseProxy (direct enh host) trip (onError host m) (enhance host m) enh w1 req with
          | None => None
          | Some (w2, enh', acts) =>
              Some (w2, enh',
                    logEnhanceEvents events ++ acts ++
                    (if aborted acts then [] else [logRequest "reverse" (Method req) host m 0]))
          end
  end.

(** [certificate] is the provider's answer for a host. *)
Definition getCertificate {Cert} (m : Matcher) (certificate : gostring -> result Cert) (serverName : gostring) : result Cert :=
  do host <- NormalizeHost serverName;
  match MatchHost m host with
  | None => Err (Errorf "host %q is not allowed by Steam rules" [host])
  | Some _ => certificate host
  end.
End handler.

(** * Properties *)

Section properties.
Context `{Externals} (text : error -> gostring) (asDirect : error -> option Upstream.DirectDialError).
Context (readFile : gostring -> result gostring) (DetectContentType : gostring -> gostring).

Lemma ServeAsset_config p w path host b evs w' p' :
  ServeAsset text readFile DetectContentType p w path host = (b, evs, w', p') ->
  pcfg p' = pcfg p ∧ (b = false -> p' = p ∧ w' = w ∧ evs = []).
Proof.
  unfold ServeAsset. repeat case_match; intros [= <- <- <- <-]; by split.
Qed.

(** The headers that the Connection header of a request lists. *)
Definition listed (h : Header) : list gostring :=
  CanonicalMIMEHeaderKey <$> List.filter (fun name => negb (bool_decide (name = [])))
    (TrimString <$> concat ((fun v => Split v Proxy.comma) <$> Header_Values h "Connection")).

Lemma foldl_deleteToken h ps :
  foldl deleteToken h ps = foldl Header_Del h (List.filter (fun name => negb (bool_decide (name = []))) (TrimString <$> ps)).
Proof.
  revert h. induction ps as [|p ps IH]; intros h; [done|]. cbn [foldl fmap list_fmap List.filter].
  unfold deleteToken at 2. case_bool_decide; cbn [negb foldl]; by rewrite IH.
Qed.

Lemma foldl_deleteTokens h vs :
  foldl (fun h v => foldl deleteToken h (Split v Proxy.comma)) h vs = foldl deleteToken h (concat ((fun v => Split v Proxy.comma) <$> vs)).
Proof. revert h. induction vs as [|v vs IH]; intros h; [done|]. cbn [foldl fmap list_fmap concat]. by rewrite foldl_app, IH. Qed.

Lemma removeHopHeaders_lookup h k :
  removeHopHeaders h !! k = if bool_decide (k ∈ listed h ++ (CanonicalMIMEHeaderKey <$> Proxy.hopByHop)) then None else h !! k.
Proof. unfold removeHopHeaders, listed. rewrite foldl_deleteTokens, foldl_deleteToken, <-foldl_app, <-fmap_app. apply foldl_Header_Del. Qed.

(** The outgoing header has the Director's values without those for one hop, but for the
    names the proxy sets itself. *)
Definition own_names : list gostring := ["Te"; "Connection"; "Upgrade"; "X-Forwarded-For"; "User-Agent"].

Lemma outgoingHeader_lookup req h k : k ∉ own_names ->
  outgoingHeader req h !! k = if bool_decide (k ∈ listed h ++ (CanonicalMIMEHeaderKey <$> Proxy.hopByHop)) then None else h !! k.
Proof.
  intros Hk. assert (forall x h v, x ∈ own_names -> CanonicalMIMEHeaderKey x = x -> Header_Set h x v !! k = h !! k) as Hset.
  { intros x h0 v Hx Hc. rewrite Header_Set_lookup, Hc, bool_decide_eq_false_2; [done|]. by intros ->. }
  assert (forall r h, forwardedFor r h !! k = h !! k) as Hx.
  { intros r h0. unfold forwardedFor. repeat case_match; try done; apply Hset; by_decide. }
  rewrite <-removeHopHeaders_lookup. unfold outgoingHeader.
  destruct (containsToken _ _), (bool_decide _), (_ !! ("User-Agent" : gostring));
    repeat (rewrite ?Hx, ?Hset by by_decide); done.
Qed.

Definition log_only (acts : list action) : Prop := Forall (fun a => exists l, a = Log l) acts.

Lemma log_only_events evs : log_only (logEnhanceEvents evs).
Proof. apply Forall_fmap, Forall_forall. intros e _. by eexists. Qed.

Lemma log_only_round_trip acts r : log_only acts -> RoundTrip r ∉ acts.
Proof. unfold log_only. rewrite Forall_forall. by intros Ha [l Hl]%Ha. Qed.

(** Every round trip of the proxy is the Director's request with its header. *)
Lemma ReverseProxy_round_trip {St} director trip
    (errorHandler : ResponseWriter -> Request -> error -> ResponseWriter * list action)
    (modify : St -> Response -> option (St * Response * list action * option error)) st w req w' st' acts :
  (forall w r e, log_only (errorHandler w r e).2) ->
  (forall st resp st' resp' acts err, modify st resp = Some (st', resp', acts, err) -> log_only acts) ->
  ReverseProxy director trip errorHandler modify st w req = Some (w', st', acts) ->
  forall r, RoundTrip r ∈ acts ->
    exists out, director req = Some out ∧ r = with_reqheader out (outgoingHeader req (ReqHeader out)).
Proof.
  intros He Hm. unfold ReverseProxy. destruct (director req) as [out|]; [|done].
  set (r0 := with_reqheader out (outgoingHeader req (ReqHeader out))).
  assert (forall w r e r1, RoundTrip r1 ∉ (errorHandler w r e).2) as He' by (intros; by apply log_only_round_trip).
  destruct (negb _).
  { destruct (errorHandler w req _) as [w1 l] eqn:El. intros [= _ _ <-] r Hr. exfalso.
    eapply (He' w req). by rewrite El. }
  destruct (trip r0) as [[resp|e]|]; [| |done].
  2: { destruct (errorHandler w r0 e) as [w1 l] eqn:El. intros [= _ _ <-] r [[= ->]|Hr]%elem_of_cons; [by exists out|].
       exfalso. eapply (He' w r0). by rewrite El. }
  destruct (modify st _) as [[[[st1 resp1] l] [e|]]|] eqn:Em; [| |done]; apply Hm in Em as Hl.
  - destruct (errorHandler w r0 e) as [w1 l1] eqn:El. intros [= _ _ <-] r. rewrite elem_of_cons, elem_of_app, elem_of_cons.
    intros [[= ->]|[Hr|[Hr|Hr]]]; [by exists out| |done|]; exfalso;
      [by eapply log_only_round_trip|eapply (He' w r0); by rewrite El].
  - destruct (rStatusCode resp1 =? 101)%Z.
    + intros [= _ _ <-] r. rewrite elem_of_cons, elem_of_app, list_elem_of_singleton.
      intros [[= ->]|[Hr|Hr]]; [by exists out| |done]. exfalso. by eapply log_only_round_trip.
    + cbn [deliver]. intros [= _ _ <-] r. rewrite elem_of_cons, elem_of_app. intros [[= ->]|[Hr|Hr]]; [by exists out| |].
      * exfalso. by eapply log_only_round_trip.
      * destruct (body_fails resp1); set_unfold; naive_solver.
Qed.

Definition rawHost (req : Request) : gostring := match Host req, ReqURL req with [], Some u => URLHost u | h, _ => h end.

Lemma matchRequestHost_matched mt req host m :
  matchRequestHost mt req = (host, m, true) -> NormalizeHost (rawHost req) = Ok host ∧ MatchHost mt host = Some m.
Proof.
  unfold matchRequestHost. fold (rawHost req). destruct (NormalizeHost (rawHost req)) as [n|]; [|done].
  destruct (MatchHost mt n) eqn:Em; by intros [= <- <-].
Qed.

(** A request sent upstream for the request [req] of a client. *)
Record forwards_to (mt : Matcher) (enh : Pipeline) (req r : Request) : Prop := {
  to_host : exists n x u, NormalizeHost (rawHost req) = Ok n ∧ MatchHost mt n = Some x ∧ Host r = n ∧
    ReqURL r = Some u ∧ Scheme u = (if TLS req then "https" else "http") ∧
    URLHost u = JoinHostPort n (if TLS req then "443" else "80");
  to_path : Path r = Path req ∧ Method r = Method req ∧ RequestURI r = [];
  to_auth : ReqHeader r !! ("Proxy-Authorization" : gostring) = None;
  to_encoding : NeedsIdentityEncoding enh = true ->
    ReqHeader r !! ("Accept-Encoding" : gostring) =
      if bool_decide (("Accept-Encoding" : gostring) ∈ listed (ReqHeader req)) then None else Some [("identity" : gostring)];
}.

Lemma direct_forwards mt enh req host m out :
  matchRequestHost mt req = (host, m, true) -> direct enh host req = Some out ->
  forwards_to mt enh req (with_reqheader out (outgoingHeader req (ReqHeader out))).
Proof.
  intros [Hn Hm]%matchRequestHost_matched. unfold direct. destruct (ReqURL req) as [u|]; [|done]. intros [= <-]. split; cbn.
  - by do 3 eexists.
  - done.
  - rewrite outgoingHeader_lookup by by_decide. case_bool_decide; [done|].
    case_match; rewrite ?Header_Set_lookup, !Header_Del_lookup; by eval_tests.
  - intros ->. rewrite outgoingHeader_lookup by by_decide.
    assert (Hl : listed (Header_Set (Header_Del (Header_Del (ReqHeader req) "Proxy-Authorization") "Proxy-Connection") "Accept-Encoding" "identity")
      = listed (ReqHeader req)).
    { unfold listed, Header_Values. rewrite Header_Set_lookup, !Header_Del_lookup. by eval_tests. }
    rewrite Hl, Header_Set_lookup. eval_tests.
    assert (Hno : ("Accept-Encoding" : gostring) ∉ CanonicalMIMEHeaderKey <$> Proxy.hopByHop) by by_decide.
    rewrite (bool_decide_ext _ (("Accept-Encoding" : gostring) ∈ listed (ReqHeader req))); [done|]. rewrite elem_of_app. tauto.
Qed.

Lemma log_only_error host m w r e : log_only (onError text asDirect host m w r e).2.
Proof. apply Forall_cons. split; [by eexists|]. apply Forall_nil_2. Qed.

Lemma log_only_enhance host m st resp st' resp' acts err :
  enhance text host m st resp = Some (st', resp', acts, err) -> log_only acts.
Proof. unfold enhance. destruct (ApplyResponseWithMeta _ _ _ _) as [[[[? ?] evs] ?]|]; [|done]. intros [= _ _ <- _]. apply log_only_events. Qed.

(** C6: a request is forwarded to the very host that the matcher matched and to no
    other, with the scheme of the client's connection, that host's name in the Host
    header, the client's method and path and no proxy credentials; when pages are to be
    changed it asks for unencoded answers, with exactly one Accept-Encoding value, unless
    the client's own Connection header had that header removed; a request for a host
    outside the rules is answered with 403 and sent nowhere. *)
Theorem reverse_forwards_to_matched s mt trip w req w' p' acts :
  matcher s = Some mt ->
  ServeHTTP text asDirect readFile DetectContentType s trip w req = Some (w', p', acts) ->
  (forall r, RoundTrip r ∈ acts -> forwards_to mt (enhancer s) req r) ∧
  ((matchRequestHost mt req).2 = false -> wStatus w' = Some StatusForbidden ∧ p' = enhancer s ∧ log_only acts).
Proof.
  intros Hmt. unfold ServeHTTP. rewrite Hmt. destruct (matchRequestHost mt req) as [[host m] ok] eqn:Em. destruct ok; cbn [negb snd].
  2: { intros [= <- <- <-]. split; [by intros r [?|?%elem_of_nil]%elem_of_cons|]. intros _. split_and!; [done..|].
       apply Forall_cons. split; [by eexists|]. apply Forall_nil_2. }
  destruct (ServeAsset _ _ _ _ _ _ _) as [[[[] evs] w1] enh] eqn:Ea.
  { intros [= <- <- <-]. split; [|done]. intros r [Hr|Hr]%elem_of_app.
    - exfalso. by eapply log_only_round_trip, Hr; apply log_only_events.
    - by apply list_elem_of_singleton in Hr. }
  apply ServeAsset_config in Ea as [_ Hsame]. destruct (Hsame eq_refl) as (-> & -> & ->). cbn [logEnhanceEvents fmap list_fmap app].
  cbn zeta. destruct (ReverseProxy _ _ _ _ _ _ _) as [[[w2 enh'] l]|] eqn:Er; [|done].
  intros [= <- <- <-]. split; [|done]. intros r [Hr|Hr]%elem_of_app.
  - edestruct (ReverseProxy_round_trip _ _ _ _ _ _ _ _ _ _ (log_only_error host m) (log_only_enhance host m) Er r Hr)
      as (out & Hd & ->). by eapply direct_forwards.
  - destruct (aborted l); [by apply elem_of_nil in Hr|by apply list_elem_of_singleton in Hr].
Qed.

(** C18: for a forwarded request the client gets the upstream's response as the page
    enhancement leaves it, or, when the enhancement fails, 502 and no byte of the
    page. *)
Theorem enhanced_page_or_error s mt trip w req host m out resp :
  matcher s = Some mt -> matchRequestHost mt req = (host, m, true) -> transport s = true ->
  List.find (fun a => bool_decide (Some (Path req) = Some (AssetPath a))) (pAssets (pcfg (enhancer s))) = None ->
  direct (enhancer s) host req = Some out -> printable (upgradeType (ReqHeader out)) = true ->
  trip (with_reqheader out (outgoingHeader req (ReqHeader out))) = Ok resp -> rStatusCode resp <> 101%Z ->
  let served := ServeHTTP text asDirect readFile DetectContentType s trip w req in
  match enhance text host m (enhancer s) (with_header resp (removeHopHeaders (rHeader resp))) with
  | None => served = None
  | Some (p', resp', evs, None) =>
      rStatusCode resp' <> 101%Z ->
      exists w' acts, served = Some (w', p', acts) ∧ wStatus w' = Some (rStatusCode resp') ∧
        wBody w' = wBody w ++ body_data resp' ∧ wHeader w' = Proxy.copyHeader (wHeader w) (rHeader resp') ∧
        (Abort ∈ acts <-> body_fails resp' = true)
  | Some (p', _, _, Some e) =>
      exists acts, CloseBody ∈ acts ∧
        served = Some (httpError w ("upstream request failed: " ++ UpstreamErrorMessage (Some (text e))) StatusBadGateway, p', acts)
  end.
Proof.
  intros Hmt Hmatch Ht Ha Hd Hp Hr H101. cbn zeta. unfold ServeHTTP. rewrite Hmt, Hmatch. cbn [negb].
  assert (ReqURL req <> None) as Hu by (unfold direct in Hd; by destruct (ReqURL req)).
  assert (exists path, (match ReqURL req with Some _ => Some (Path req) | None => None end) = Some path ∧ path = Path req)
    as (path & -> & ->) by (destruct (ReqURL req); [by eexists|done]).
  assert (ServeAsset text readFile DetectContentType (enhancer s) w (Some (Path req)) host = (false, [], w, enhancer s)) as ->.
  { unfold ServeAsset. rewrite Ha. by destruct (negb _). }
  cbn [logEnhanceEvents fmap list_fmap app]. unfold ReverseProxy. rewrite Hd, Hp, Ht, Hr. cbn [negb].
  replace (rStatusCode resp =? 101)%Z with false by lia.
  destruct (enhance text host m (enhancer s) _) as [[[[p' resp'] evs] [e|]]|] eqn:Ee; [| |done].
  - eexists. split; [|reflexivity]. cbn. set_solver.
  - intros H1. replace (rStatusCode resp' =? 101)%Z with false by lia. cbn [deliver].
    do 2 eexists. split; [reflexivity|]. split_and!; [done..|]. apply log_only_enhance in Ee as Hl.
    assert (Abort ∉ evs) as Hab by (intros Hin; unfold log_only in Hl; rewrite Forall_forall in Hl; by destruct (Hl _ Hin)).
    rewrite elem_of_app, elem_of_cons, elem_of_app. destruct (body_fails resp'); split; try done.
    + intros _. left. right. right. by right; left.
    + intros [[Hx|[Hx|Hx]]|Hx]; [done..| |].
      * by apply list_elem_of_singleton in Hx.
      * destruct (aborted _); [by apply elem_of_nil in Hx|by apply list_elem_of_singleton in Hx].
Qed.
End properties.

(** ** Life cycle *)

(** Starting is all or nothing: the listeners left open are those of a started
    server. *)
Theorem reverse_start_no_leak s listen r s' open :
  Start s listen = (r, s', open) ->
  match r with
  | Ok _ => listen (HTTPListen (cfg s)) = Ok (httpAddr s') ∧ listen (HTTPSListen (cfg s)) = Ok (httpsAddr s') ∧
            open = [httpAddr s'; httpsAddr s'] ∧ httpSrv s' = true ∧ httpsSrv s' = true ∧ transport s' = true
  | Err _ => open = [] ∧ httpSrv s' = httpSrv s ∧ httpsSrv s' = httpsSrv s
  end.
Proof.
  unfold Start. repeat (case_match; [intros [= <- <- <-]; by split_and!|]).
  cbn [cfg with_transport]. destruct (listen (HTTPListen (cfg s))) eqn:E1; [|intros [= <- <- <-]; by split_and!].
  destruct (listen (HTTPSListen (cfg s))) eqn:E2; intros [= <- <- <-]; cbn; by split_and!.
Qed.

(** After Stop the HTTP server has always ended: it was shut down or closed.  The
    HTTPS server has ended unless the shutdown of the HTTP server had failed before:
    then a failed shutdown of the HTTPS server is not followed by a close, and its
    connections stay open while Stop returns and the server counts as stopped. *)
Theorem stop_leaves_https_open s shutdown evs err s' calls :
  httpSrv s = true -> httpsSrv s = true -> Stop s shutdown evs = (err, s', calls) ->
  httpSrv s' = false ∧ httpsSrv s' = false ∧
  (shutdown HTTP = None ∨ ForceClose HTTP ∈ calls) ∧
  (shutdown HTTPS = None ∨ ForceClose HTTPS ∈ calls <-> shutdown HTTPS = None ∨ shutdown HTTP = None).
Proof.
  intros H1 H2. unfold Stop. rewrite H1, H2. cbn [negb andb].
  destruct (shutdown HTTP) as [e|] eqn:Eh; destruct (shutdown HTTPS) as [e'|] eqn:Es; intros [= _ <- <-]; cbn;
    (split; [done|split; [done|]]); set_unfold; naive_solver.
Qed.

(** ** Witnesses *)

Section reverse_witnesses.
#[local] Existing Instance simple_externals.

Definition reverse_groups : list RuleGroup :=
  [{| GroupName := "steam/community"; Domains := ["steamcommunity.com"; "*.steamcommunity.com"] |}].

Definition inject_all : Transform :=
  {| Name := "banner"; tMatch := {| mProviders := ["steam"]; mHosts := []; mPathPrefixes := []; mContentTypes := []; mStatusCodes := [] |};
     HeaderSet := ∅; HeaderRemove := []; InjectHead := "<b>"; InjectBody := []; Replace_ := [] |}.

Definition reverse_config : RConfig :=
  {| HTTPListen := "127.0.0.1:80"; HTTPSListen := "127.0.0.1:443"; HeaderTimeout := 0%Z; Idle := 0%Z; Shutdown := 0%Z;
     Enhance := {| pEnabled := true; pOnError := OnErrorPassThrough; pMaxBodySize := 1024%Z; pAssets := [];
                   pTransforms := [inject_all]; pCustomTransformers := [] |} |}.

Definition reverse_server : Server :=
  {| cfg := reverse_config; matcher := Some (canonical_matcher reverse_groups); dialer := true; certs := true; transport := true;
     enhancer := PageEnhance.New (Enhance reverse_config); httpSrv := true; httpsSrv := true;
     httpAddr := "127.0.0.1:80"; httpsAddr := "127.0.0.1:443" |}.

Definition page_request : Request :=
  {| Method := "GET"; ReqURL := Some {| Scheme := []; URLHost := []; URLUser := None |}; Path := "/"; Host := "SteamCommunity.com";
     TLS := true; RemoteAddr := "127.0.0.1:5000"; RequestURI := "/"; ReqHeader := ∅ |}.

Definition page_response : Response :=
  {| rHeader := ∅; rBody := Some (fresh_body "<head></head>"); rContentLength := 13; rStatusCode := 200; rRequestPath := Some ("/" : gostring) |}.

Definition no_text (e : error) : gostring := [].
Definition no_direct (e : error) : option Upstream.DirectDialError := None.
Definition no_file (path : gostring) : result gostring := Err (External "file").
Definition no_type (data : gostring) : gostring := [].
Definition blank_writer : ResponseWriter := {| wHeader := ∅; wStatus := None; wBody := [] |}.
Definition answer (r : Request) : result Response := Ok page_response.

Definition page_served : option (ResponseWriter * Pipeline * list action) :=
  ServeHTTP no_text no_direct no_file no_type reverse_server answer blank_writer page_request.
Definition page_outcome : ResponseWriter * Pipeline * list action := default (blank_writer, enhancer reverse_server, []) page_served.

Lemma page_served_ok : page_served = Some (page_outcome.1.1, page_outcome.1.2, page_outcome.2).
Proof. vm_compute. reflexivity. Qed.

Lemma reverse_forwards_to_matched_witness :
  exists r, RoundTrip r ∈ page_outcome.2 ∧ forwards_to (canonical_matcher reverse_groups) (enhancer reverse_server) page_request r ∧
    ReqHeader r !! ("Accept-Encoding" : gostring) = Some [("identity" : gostring)].
Proof.
  destruct (reverse_forwards_to_matched no_text no_direct no_file no_type reverse_server _ answer blank_writer page_request
    page_outcome.1.1 page_outcome.1.2 page_outcome.2 eq_refl page_served_ok) as [Hf _].
  eexists. split; [|split; [apply Hf|]]; [vm_compute; left..|vm_compute; reflexivity].
Defined.

Lemma stop_leaves_https_open_witness :
  exists err s' calls, Stop reverse_server (fun _ => Some (External "deadline exceeded")) [] = (err, s', calls) ∧
    httpsSrv s' = false ∧ ForceClose HTTPS ∉ calls.
Proof.
  do 3 eexists. split; [reflexivity|].
  edestruct (stop_leaves_https_open reverse_server (fun _ => Some (External "deadline exceeded")) []) as (_ & Hs & _ & Hc);
    [reflexivity..|]. split; [exact Hs|]. intros Hin. destruct (proj1 Hc (or_intror Hin)) as [Hx|Hx]; discriminate Hx.
Defined.

(** The HTTPS port is taken. *)
Definition busy (a : gostring) : result gostring :=
  if bool_decide (a = HTTPListen reverse_config) then Ok a else Err (External "in use").

Lemma reverse_start_no_leak_witness : (Start (stopping reverse_server) busy).2 = [].
Proof.
  pose proof (reverse_start_no_leak (stopping reverse_server) busy (Start (stopping reverse_server) busy).1.1
    (Start (stopping reverse_server) busy).1.2 (Start (stopping reverse_server) busy).2 ltac:(vm_compute; reflexivity)) as Hs.
  exact (proj1 Hs).
Defined.

Definition page_out : Request :=
  {| Method := "GET"; ReqURL := Some {| Scheme := "https"; URLHost := "steamcommunity.com:443"; URLUser := None |}; Path := "/";
     Host := "steamcommunity.com"; TLS := true; RemoteAddr := "127.0.0.1:5000"; RequestURI := [];
     ReqHeader := Header_Set (Header_Del (Header_Del ∅ "Proxy-Authorization") "Proxy-Connection") "Accept-Encoding" "identity" |}.

Definition page_match : MatchResult := (matchRequestHost (canonical_matcher reverse_groups) page_request).1.2.

Lemma page_enhancement :
  exists p' resp' evs, enhance no_text "steamcommunity.com" page_match (enhancer reverse_server)
      (with_header page_response (removeHopHeaders (rHeader page_response))) = Some (p', resp', evs, None) ∧
    rStatusCode resp' = 200%Z ∧ body_data resp' = "<head><b></head>".
Proof. do 3 eexists. split; [vm_compute; reflexivity|]. split; vm_compute; reflexivity. Qed.

Definition page_matcher : Matcher := canonical_matcher reverse_groups.

Lemma page_matched : matchRequestHost page_matcher page_request = ("steamcommunity.com", page_match, true).
Proof. vm_compute. reflexivity. Qed.

Lemma page_directed : direct (enhancer reverse_server) "steamcommunity.com" page_request = Some page_out.
Proof. vm_compute. reflexivity. Qed.

Lemma page_printable : printable (upgradeType (ReqHeader page_out)) = true.
Proof. vm_compute. reflexivity. Qed.

Lemma enhanced_page_or_error_witness :
  exists w' p' acts, page_served = Some (w', p', acts) ∧ wBody w' = "<head><b></head>".
Proof.
  destruct page_enhancement as (p' & resp' & evs & He & Hst & Hb).
  pose proof (enhanced_page_or_error no_text no_direct no_file no_type reverse_server page_matcher answer
    blank_writer page_request "steamcommunity.com" page_match page_out page_response
    eq_refl page_matched eq_refl eq_refl page_directed page_printable eq_refl ltac:(discriminate)) as Hw.
  rewrite He in Hw. destruct Hw as (w' & acts & Hw & _ & Hwb & _); [rewrite Hst; discriminate|].
  exists w', p', acts. split; [exact Hw|]. rewrite Hwb, Hb. reflexivity.
Defined.
End reverse_witnesses.
