(* ===== verification/Engine.v ===== *)
(** The engine (src/internal/engine/engine.go): it builds the matcher, the
    resolver and the dialer from the configuration, starts the servers of the
    configured mode, changes the system settings, and undoes all of it on a
    failure or on Stop.

    What the engine calls is an interface, as in the source, where the calls go
    through package variables: the servers, the system settings and the
    certificate store are operations on an abstract system state.  What they
    promise is a second class, in terms of which services listen and which
    settings are in place, and the theorems about Start and Stop are proved
    against it for every outcome of every call. *)
From stdpp Require Import strings.
From Stdlib Require Import Ascii.
From S2P Require Import Prelude GoStrings GoNet External World Rules Profile Provider.
From S2P Require Import Hosts Pac Resolver DnsIntercept Upstream SystemProxy SystemDns Config.

(** * The interface *)

Inductive service := SvcProxy | SvcPAC | SvcReverse | SvcDNS.
Inductive setting := SetSystemProxy | SetHosts | SetSystemDNS.

#[export] Instance service_eq_dec : EqDecision service.
Proof. solve_decision. Defined.
#[export] Instance setting_eq_dec : EqDecision setting.
Proof. solve_decision. Defined.

(** certstore.TrustResult and privilege.PrepareHostsResult, as far as the engine
    reads them. *)
Record TrustResult := {
  TStoreScope : gostring;
  AlreadyTrusted : bool;
  Changed : bool;
  TViaHelper : bool;
}.
Record PrepareHostsResult := {
  PCert : TrustResult;
  CertTrusted : bool;
  PEntries : nat;
}.

Record SystemChange := {
  Component : gostring;
  Action : gostring;
  ChStatus : gostring;
  Detail : gostring;
}.

Class EngineSystem (S : Type) := {
  (** Starting a server returns what its status methods report: the bound
      address, the PAC URL, the two addresses of the reverse proxy. *)
  startProxy : Config.Config -> Matcher -> Upstream.Dialer -> Resolver.Client -> ST S gostring;
  startPAC : Pac.Server -> ST S gostring;
  startReverse : Config.Config -> Matcher -> Upstream.Dialer -> Resolver.Client -> ST S (gostring * gostring);
  startDNS : DnsIntercept.Server -> RawForwarder -> ST S unit;
  stopService : service -> ST S unit;
  runStartupProbes : list compiledProfile -> Resolver.Client -> list ProbeTarget -> S -> list ProbeResult * S;
  applySystemProxy : ProxySettings -> ST S unit;
  restoreSystemProxy : gostring -> ST S unit;
  preflightSystemDNS : DNSSettings -> ST S SystemDns.Result;
  applySystemDNS : DNSSettings -> ST S SystemDns.Result;
  restoreSystemDNS : gostring -> ST S unit;
  isCertInstalled : Config.Config -> ST S bool;
  ensureCertTrusted : Config.Config -> ST S TrustResult;
  ensureRootCA : Config.Config -> ST S unit;
  preflightHosts : Hosts.Config -> ST S unit;
  applyHosts : Hosts.Config -> ST S unit;
  prepareHostsElevated : Config.Config -> Hosts.Config -> ST S PrepareHostsResult;
  restoreHosts : gostring -> ST S unit;
  shouldUseHostHelper : bool;
  onWindows : bool;
  error_text : error -> gostring;
}.

(** * Decisions on the configuration *)

Definition usesDirectUpstream (t : gostring) : bool := bool_decide (t = []) || bool_decide (t = UpstreamDirect).

Definition usesSystemDNS (cfg : Config.Config) : bool :=
  bool_decide (Mode cfg = ModeDNS) && bool_decide (Strategy (DNS cfg) = DNSInterceptSystem).

Definition requiresLoopSafeResolver (cfg : Config.Config) : bool :=
  bool_decide (Mode cfg = ModeDNS) ||
  (bool_decide (Mode cfg = ModeHosts) && usesDirectUpstream (UType (Upstream cfg))).

Definition with_doh (c : ResolverConfig) (mode : gostring) : ResolverConfig :=
  {| RMode := mode; Servers := DefaultDoHServers; PreferIPv4 := PreferIPv4 c; PreferIPv6 := PreferIPv6 c;
     DisableIPv6 := DisableIPv6 c; CacheTTL := CacheTTL c; RTimeout := RTimeout c |}.

Definition effectiveResolverConfig (cfg : Config.Config) : ResolverConfig :=
  let c := Resolver.ConfigFromApp cfg in
  if negb (requiresLoopSafeResolver cfg) then c
  else if bool_decide (RMode c = ResolverSystem) then with_doh c ResolverDoH
  else if bool_decide (RMode c = ResolverDoH) && bool_decide (Servers c = []) then with_doh c (RMode c)
  else c.

Section decisions.
Context `{Externals}.

Definition buildMatcher (cfg : Config.Config) : result Matcher :=
  do providers <- ResolveEnabled (ProvidersEnabled cfg);
  let custom := CustomDomains cfg ++
    (if bool_decide (Mode cfg = ModeHosts) || bool_decide (Mode cfg = ModeDNS) then ExtraDomains (Config.Hosts cfg) else []) in
  NewMatcher (RuleGroups providers) custom.

Definition ruleSetInfo (providers : list Provider) (m : Matcher) : Rules.RuleSetInfo :=
  let compiled := Rules m in
  match providers with
  | [p] => Provider.RuleSetInfo p
  | [] => {| InfoName := "custom"; InfoVersion := []; InfoUpdatedAt := []; GroupCount := 1;
             ExactCount := length (Exact compiled); WildcardCount := length (Wildcard compiled) |}
  | _ => {| InfoName := "multi-provider"; InfoVersion := []; InfoUpdatedAt := [];
            GroupCount := length (RuleGroups providers);
            ExactCount := length (Exact compiled); WildcardCount := length (Wildcard compiled) |}
  end.
End decisions.

Definition certTrustChange (t : TrustResult) : SystemChange :=
  {| Component := "root_ca"; Action := if AlreadyTrusted t then "check" else "install";
     ChStatus := if AlreadyTrusted t then "already_trusted" else "ok";
     Detail := "store=" ++ TStoreScope t ++ (if Changed t then ",installed" else []) ++
               (if TViaHelper t then ",helper=elevated" else []) |}.

Definition systemDNSChange (action : gostring) (r : SystemDns.Result) : SystemChange :=
  {| Component := "system_dns"; Action := action; ChStatus := "ok";
     Detail := "interfaces=" ++ ItoaNat (RInterfaces r) ++
               (if bool_decide (RServerIPs r = []) then [] else ",dns=" ++ Join (RServerIPs r) "|") ++
               (if RViaHelper r then ",helper=elevated" else []) |}.

(** * Starting *)

Section engine.
Context `{Externals} {S : Type} `{!EngineSystem S}.

(** [_ = server.Stop(context.Background())] for each service, in order. *)
Fixpoint stopAll (svcs : list service) : ST S unit :=
  match svcs with
  | [] => io_ret tt
  | v :: rest => try _ <- stopService v; stopAll rest
  end.

(** [if err != nil { stop the services; return err }]. *)
Definition cleanup {A} (svcs : list service) (m : ST S A) : ST S A :=
  try r <- m;
  match r with
  | Ok a => io_ret a
  | Err e => io _ <- stopAll svcs; io_err e
  end.

Definition shouldRetryHostsWithHelper (e : error) : bool :=
  if negb onWindows then false
  else if os_IsPermission e then true
  else
    let msg := ToLower (error_text e) in
    Contains msg "access is denied" || Contains msg "permission denied" || Contains msg "administrator".

Definition prepareHostsDirect (cfg : Config.Config) (hostsCfg : Hosts.Config) : ST S PrepareHostsResult :=
  io certOK <- io_wrap "check root CA install: %w" [] (isCertInstalled cfg);
  io trust <-
    (if negb certOK then
       if negb (AutoInstall (Cert cfg))
       then io_err (Errorf "local root CA is not installed; run `steam-accelerator cert install` first or enable cert.auto_install" [])
       else io_wrap "install local root CA: %w" [] (ensureCertTrusted cfg)
     else io_ret {| TStoreScope := StoreScope (Cert cfg); AlreadyTrusted := true; Changed := false; TViaHelper := false |});
  io _ <- io_wrap "preflight hosts mode: %w" [] (preflightHosts hostsCfg);
  io _ <- io_wrap "apply hosts: %w" [] (applyHosts hostsCfg);
  io_ret {| PCert := trust; CertTrusted := true; PEntries := length (Hosts.Entries hostsCfg) |}.

Definition prepareHostsWithHelper (cfg : Config.Config) (hostsCfg : Hosts.Config) : ST S PrepareHostsResult :=
  io _ <- io_wrap "ensure local root CA before elevated helper: %w" [] (ensureRootCA cfg);
  prepareHostsElevated cfg hostsCfg.

Definition prepareHostsForStart (cfg : Config.Config) (hostsCfg : Hosts.Config) (preferHelper : bool)
  : ST S PrepareHostsResult :=
  if preferHelper then prepareHostsWithHelper cfg hostsCfg
  else
    try prepare <- prepareHostsDirect cfg hostsCfg;
    match prepare with
    | Ok p => io_ret p
    | Err e =>
        if negb (shouldRetryHostsWithHelper e) then io_err e
        else
          try helper <- prepareHostsWithHelper cfg hostsCfg;
          match helper with
          | Ok p => io_ret p
          | Err helperErr => io_err (Wrapf "%w; elevated helper retry failed: %v" [error_text helperErr] e)
          end
    end.

(** What a successful start leaves in the engine. *)
Record Launched := {
  lProxy : option gostring;
  lPAC : bool;
  lPACURL : gostring;
  lReverse : option (gostring * gostring);
  lDNS : bool;
  lCertOK : bool;
  lProbes : list ProbeResult;
  lChanges : list SystemChange;
}.

(** The startup probes run only for the direct dialer and when there are targets. *)
Definition startupProbes (cfg : Config.Config) (providers : list Provider) (dialer : Upstream.Dialer)
    (res : Resolver.Client) : ST S (list ProbeResult) := fun s =>
  match dialer with
  | DirectDialer profiles _ =>
      if usesDirectUpstream (UType (Config.Upstream cfg)) && negb (bool_decide (ProbeTargets providers = []))
      then let '(r, s') := runStartupProbes profiles res (ProbeTargets providers) s in (Ok r, s')
      else (Ok [], s)
  | _ => (Ok [], s)
  end.

Definition hostsConfigFromApp (cfg : Config.Config) (entries : list Hosts.Entry) : Hosts.Config :=
  {| Hosts.Path := HPath (Config.Hosts cfg); Hosts.RollbackPath := RtRollbackPath (Runtime cfg);
     Hosts.MapIP := HMapIP (Config.Hosts cfg); Hosts.Entries := entries |}.

Definition launchHosts (cfg : Config.Config) (m : Matcher) (providers : list Provider) (dialer : Upstream.Dialer)
    (res : Resolver.Client) : ST S Launched :=
  io entries <- io_wrap "build hosts entries: %w" [] (io_of (Hosts.EntriesFromRules (Rules m) (HMapIP (Config.Hosts cfg))).1);
  let hostsCfg := hostsConfigFromApp cfg entries in
  io probes <- startupProbes cfg providers dialer res;
  io addrs <- io_wrap "start hosts reverse proxy: %w" [] (startReverse cfg m dialer res);
  io prepare <- cleanup [SvcReverse] (prepareHostsForStart cfg hostsCfg shouldUseHostHelper);
  let helper := TViaHelper (PCert prepare) in
  io_ret {| lProxy := None; lPAC := false; lPACURL := []; lReverse := Some addrs; lDNS := false;
            lCertOK := CertTrusted prepare; lProbes := probes;
            lChanges :=
              [{| Component := "reverse_proxy"; Action := "listen"; ChStatus := "ok"; Detail := [] |};
               certTrustChange (PCert prepare);
               {| Component := "hosts"; Action := "preflight"; ChStatus := "ok";
                  Detail := if helper then "helper=elevated" else [] |};
               {| Component := "hosts"; Action := "apply"; ChStatus := "ok";
                  Detail := "entries=" ++ ItoaNat (PEntries prepare) ++ (if helper then ",helper=elevated" else []) |}] |}.

(** The system DNS settings once the DNS server runs; a failed change is undone
    at once. *)
Definition redirectSystemDNS (cfg : Config.Config) (dnsCfg : DNSSettings) : ST S (list SystemChange) :=
  try apply <- applySystemDNS dnsCfg;
  match apply with
  | Ok r => io_ret [systemDNSChange "apply" r]
  | Err e =>
      try restore <- restoreSystemDNS (RtRollbackPath (Runtime cfg));
      io _ <- stopAll [SvcDNS; SvcReverse];
      match restore with
      | Err re => if errors_Is re SystemDns.ErrNoState then io_err e
                  else io_err (Wrapf "%w; system DNS restore after failed apply also failed: %v" [error_text re] e)
      | Ok _ => io_err e
      end
  end.

Definition launchDNS (cfg : Config.Config) (m : Matcher) (providers : list Provider) (dialer : Upstream.Dialer)
    (res : Resolver.Client) (resolverCfg : ResolverConfig) : ST S Launched :=
  io pre <-
    (if usesSystemDNS cfg then
       io dnsCfg <- io_wrap "build system DNS config: %w" [] (io_of (SystemDns.ConfigFromApp cfg));
       io preflight <- io_wrap "preflight system DNS: %w" [] (preflightSystemDNS dnsCfg);
       io_ret (Some dnsCfg, [systemDNSChange "preflight" preflight])
     else io_ret (None, []));
  let '(dnsCfg, changes) := pre in
  io probes <- startupProbes cfg providers dialer res;
  io addrs <- io_wrap "start DNS reverse proxy: %w" [] (startReverse cfg m dialer res);
  let serverCfg := DnsIntercept.ConfigFromApp cfg in
  io forwarder <- cleanup [SvcReverse] (io_wrap "build DNS intercept forwarder: %w" []
            (io_of (NewRawForwarder (RMode resolverCfg) (Servers resolverCfg) (RTimeout resolverCfg))));
  io server <- cleanup [SvcReverse] (io_wrap "build DNS intercept server: %w" []
            (io_of (DnsIntercept.New serverCfg (Some m) true)));
  io _ <- cleanup [SvcReverse] (io_wrap "start DNS intercept: %w" [] (startDNS server forwarder));
  io applied <- match dnsCfg with Some c => redirectSystemDNS cfg c | None => io_ret [] end;
  io_ret {| lProxy := None; lPAC := false; lPACURL := []; lReverse := Some addrs; lDNS := true; lCertOK := false;
            lProbes := probes; lChanges := changes ++ applied |}.

Definition pacConfigFromApp (cfg : Config.Config) (proxyAddr : gostring) : Pac.Config :=
  {| Pac.ListenAddr := PACListenAddr (Config.PAC cfg); Pac.ProxyAddr := proxyAddr |}.

Definition launchProxy (cfg : Config.Config) (m : Matcher) (dialer : Upstream.Dialer) (res : Resolver.Client)
  : ST S Launched :=
  io addr <- startProxy cfg m dialer res;
  io pacURL <-
    (if bool_decide (Mode cfg = ModePAC) then
       io server <- cleanup [SvcProxy] (io_wrap "build PAC server: %w" []
                      (io_of (Pac.New (pacConfigFromApp cfg addr) (Rules m))));
       io url <- cleanup [SvcProxy] (startPAC server);
       io_ret (Some url)
     else io_ret None);
  io _ <-
    (if bool_decide (Mode cfg = ModePAC) || bool_decide (Mode cfg = ModeSystem) then
       cleanup ((if pacURL is Some _ then [SvcPAC] else []) ++ [SvcProxy])
         (io_wrap "apply system proxy: %w" [] (applySystemProxy (SystemProxy.ConfigFromApp cfg addr (default [] pacURL))))
     else io_ret tt);
  io_ret {| lProxy := Some addr; lPAC := bool_decide (is_Some pacURL); lPACURL := default [] pacURL; lReverse := None;
            lDNS := false; lCertOK := false; lProbes := []; lChanges := [] |}.

(** * The engine *)

Record Engine := {
  ecfg : Config.Config;
  eproxy : option gostring;
  epac : bool;
  epacURL : gostring;
  ereverse : option (gostring * gostring);
  edns : bool;
  ecertOK : bool;
  eresolver : ResolverConfig;
  eupstreamProfiles : nat;
  estartupProbes : list ProbeResult;
  eruleSet : Rules.RuleSetInfo;
  eproviders : list Summary;
  esystemChanges : list SystemChange;
  estartedAt : Time;
  elastErr : option error;
  eruleCount : nat;
  erunning : bool;
}.

Definition zeroResolver : ResolverConfig :=
  {| RMode := []; Servers := []; PreferIPv4 := false; PreferIPv6 := false; DisableIPv6 := false;
     CacheTTL := 0%Z; RTimeout := 0%Z |}.
Definition zeroRuleSet : Rules.RuleSetInfo :=
  {| InfoName := []; InfoVersion := []; InfoUpdatedAt := []; GroupCount := 0; ExactCount := 0; WildcardCount := 0 |}.

Definition zeroEngine (cfg : Config.Config) : Engine :=
  {| ecfg := cfg; eproxy := None; epac := false; epacURL := []; ereverse := None; edns := false;
     ecertOK := false; eresolver := zeroResolver; eupstreamProfiles := 0; estartupProbes := [];
     eruleSet := zeroRuleSet; eproviders := []; esystemChanges := []; estartedAt := 0%Z; elastErr := None;
     eruleCount := 0; erunning := false |}.

Definition New (cfg : Config.Config) : result Engine :=
  do cfg' <- Validate cfg;
  Ok (zeroEngine cfg').

(** The body of Start after the check that the engine is not running; the new
    fields of the engine are returned. *)
Definition launch (e : Engine) (now : Time) : ST S Engine :=
  let cfg := ecfg e in
  io m <- io_wrap "build rules matcher: %w" [] (io_of (buildMatcher cfg));
  io providers <- io_of (ResolveEnabled (ProvidersEnabled cfg));
  let resolverCfg := effectiveResolverConfig cfg in
  let res := Resolver.New resolverCfg in
  let providerProfiles :=
    if (bool_decide (Mode cfg = ModeHosts) || bool_decide (Mode cfg = ModeDNS)) &&
       usesDirectUpstream (UType (Config.Upstream cfg))
    then OutboundProfiles providers else [] in
  let upstreamCfg := Upstream.ConfigFromApp cfg providerProfiles in
  io dialer <- io_wrap "build upstream dialer: %w" [] (io_of (NewDialer upstreamCfg true));
  io l <- (if bool_decide (Mode cfg = ModeHosts) then launchHosts cfg m providers dialer res
           else if bool_decide (Mode cfg = ModeDNS) then launchDNS cfg m providers dialer res resolverCfg
           else launchProxy cfg m dialer res);
  io_ret {| ecfg := cfg; eproxy := lProxy l; epac := lPAC l; epacURL := lPACURL l; ereverse := lReverse l;
            edns := lDNS l; ecertOK := lCertOK l; eresolver := resolverCfg;
            eupstreamProfiles := length (CProfiles upstreamCfg); estartupProbes := lProbes l;
            eruleSet := ruleSetInfo providers m; eproviders := Summaries providers;
            esystemChanges := lChanges l; estartedAt := now; elastErr := None; eruleCount := RuleCount m;
            erunning := true |}.

Definition Start (e : Engine) (now : Time) (s : S) : result unit * Engine * S :=
  if erunning e then (Err (Errorf "engine already running" []), e, s)
  else match launch e now s with
       | (Ok e', s') => (Ok tt, e', s')
       | (Err err, s') => (Err err, e, s')
       end.

(** Restoring the settings of the mode: an error other than the missing rollback
    state is kept. *)
Definition keepError (noState : error) (r : result unit) (err : option error) : option error :=
  match r with
  | Err e => if errors_Is e noState then err else Some e
  | Ok _ => err
  end.

Definition restoreSettings (cfg : Config.Config) (s : S) : option error * S :=
  let path := RtRollbackPath (Runtime cfg) in
  let '(e1, s1) :=
    if bool_decide (Mode cfg = ModePAC) || bool_decide (Mode cfg = ModeSystem)
    then let '(r, s') := restoreSystemProxy path s in (keepError SystemProxy.ErrNoState r None, s')
    else (None, s) in
  let '(e2, s2) :=
    if bool_decide (Mode cfg = ModeHosts)
    then let '(r, s') := restoreHosts path s1 in (keepError Hosts.ErrNoState r e1, s')
    else (e1, s1) in
  if bool_decide (Mode cfg = ModeDNS) && bool_decide (Strategy (DNS cfg) = DNSInterceptSystem)
  then let '(r, s') := restoreSystemDNS path s2 in (keepError SystemDns.ErrNoState r e2, s')
  else (e2, s2).

(** [if stopErr := server.Stop(ctx); err == nil { err = stopErr }] *)
Definition stopOne (present : bool) (v : service) (st : option error * S) : option error * S :=
  let '(err, s) := st in
  if present then
    let '(r, s') := stopService v s in
    (match err, r with None, Err e => Some e | _, _ => err end, s')
  else st.

Definition stopped (e : Engine) (lastErr : option error) : Engine :=
  {| ecfg := ecfg e; eproxy := None; epac := false; epacURL := []; ereverse := None; edns := false;
     ecertOK := false; eresolver := zeroResolver; eupstreamProfiles := 0; estartupProbes := [];
     eruleSet := zeroRuleSet; eproviders := []; esystemChanges := []; estartedAt := estartedAt e;
     elastErr := lastErr; eruleCount := eruleCount e; erunning := false |}.

Definition Stop (e : Engine) (s : S) : option error * Engine * S :=
  if negb (bool_decide (is_Some (eproxy e))) && negb (bool_decide (is_Some (ereverse e))) && negb (edns e)
  then (None, stopped e (elastErr e), s)
  else
    let st0 := restoreSettings (ecfg e) s in
    let st1 := stopOne (epac e) SvcPAC st0 in
    let st2 := stopOne (edns e) SvcDNS st1 in
    let st3 := stopOne (bool_decide (is_Some (ereverse e))) SvcReverse st2 in
    let '(err, s') := stopOne (bool_decide (is_Some (eproxy e))) SvcProxy st3 in
    (err, stopped e err, s').
End engine.

(** * What the rest of the system promises

    [up] tells which services listen and [on] which settings are in place.  A
    server that fails to start does not listen and a stopped one never does; a
    change of one setting does not affect the others; a successful change or
    restore has its effect, a failed one may have had part of it. *)
Class EngineView (S : Type) := {
  up : S -> service -> bool;
  on : S -> setting -> bool;
}.

Section promises.
Context {S : Type} `{!EngineView S} {A : Type}.

Definition starts (w : service) (m : ST S A) : Prop := forall s,
  (forall v, up (m s).2 v = (is_ok (m s).1 && bool_decide (v = w)) || up s v) ∧ (forall y, on (m s).2 y = on s y).
Definition stops (w : service) (m : ST S A) : Prop := forall s,
  (forall v, up (m s).2 v = up s v && negb (bool_decide (v = w))) ∧ (forall y, on (m s).2 y = on s y).
Definition quiet (m : ST S A) : Prop := forall s,
  (forall v, up (m s).2 v = up s v) ∧ (forall y, on (m s).2 y = on s y).
Definition alters (y : setting) (b : bool) (m : ST S A) : Prop := forall s,
  (forall v, up (m s).2 v = up s v) ∧ (forall z, z <> y -> on (m s).2 z = on s z) ∧
  (is_ok (m s).1 = true -> on (m s).2 y = b).
End promises.

(** What the components promise.  A start brings its own service up exactly when it
    succeeds, a setting changes as asked when its operation succeeds, and nothing else
    moves.  Stopping a service ends its listening even when it reports an error, as
    closing a listener or http.Server.Shutdown does.  For the DNS server this assumes that
    its two serving goroutines have begun when Stop is called: miekg/dns answers a
    shutdown that comes before with [server not started] and leaves the sockets open. *)
Class EngineLaws (S : Type) `{!EngineSystem S} `{!EngineView S} := {
  startProxy_law c m d r : starts SvcProxy (startProxy c m d r);
  startPAC_law p : starts SvcPAC (startPAC p);
  startReverse_law c m d r : starts SvcReverse (startReverse c m d r);
  startDNS_law d f : starts SvcDNS (startDNS d f);
  stopService_law w : stops w (stopService w);
  probes_law ps r ts : quiet (fun s => let '(l, s') := runStartupProbes ps r ts s in (Ok l, s'));
  preflightSystemDNS_law c : quiet (preflightSystemDNS c);
  isCertInstalled_law c : quiet (isCertInstalled c);
  ensureCertTrusted_law c : quiet (ensureCertTrusted c);
  ensureRootCA_law c : quiet (ensureRootCA c);
  preflightHosts_law c : quiet (preflightHosts c);
  applySystemProxy_law c : alters SetSystemProxy true (applySystemProxy c);
  applySystemDNS_law c : alters SetSystemDNS true (applySystemDNS c);
  applyHosts_law c : alters SetHosts true (applyHosts c);
  prepareHostsElevated_law c h : alters SetHosts true (prepareHostsElevated c h);
  restoreSystemProxy_law p : alters SetSystemProxy false (restoreSystemProxy p);
  restoreSystemDNS_law p : alters SetSystemDNS false (restoreSystemDNS p);
  restoreHosts_law p : alters SetHosts false (restoreHosts p);
}.

(** * Properties *)

(** The services and the setting of a mode. *)
Definition serves (cfg : Config.Config) (v : service) : bool :=
  if bool_decide (Mode cfg = ModeHosts) then bool_decide (v = SvcReverse)
  else if bool_decide (Mode cfg = ModeDNS) then bool_decide (v = SvcReverse) || bool_decide (v = SvcDNS)
  else bool_decide (v = SvcProxy) || (bool_decide (v = SvcPAC) && bool_decide (Mode cfg = ModePAC)).

Definition setting_of (cfg : Config.Config) : option setting :=
  if bool_decide (Mode cfg = ModeHosts) then Some SetHosts
  else if bool_decide (Mode cfg = ModeDNS)
  then if bool_decide (Strategy (DNS cfg) = DNSInterceptSystem) then Some SetSystemDNS else None
  else if bool_decide (Mode cfg = ModePAC) || bool_decide (Mode cfg = ModeSystem) then Some SetSystemProxy else None.

(** The services of which the engine holds a handle. *)
Definition recorded (e : Engine) (v : service) : bool :=
  match v with
  | SvcProxy => bool_decide (is_Some (eproxy e))
  | SvcPAC => epac e
  | SvcReverse => bool_decide (is_Some (ereverse e))
  | SvcDNS => edns e
  end.

(** ** A program logic for the engine's calls

    [runs P m Q E]: from a state in [P], [m] succeeds in a state of [Q] or fails
    in a state of [E]. *)
Section logic.
Context {S : Type}.

Definition runs {A} (P : S -> Prop) (m : ST S A) (Q : A -> S -> Prop) (E : S -> Prop) : Prop :=
  forall s, P s -> match m s with (Ok a, s') => Q a s' | (Err _, s') => E s' end.

Lemma runs_conseq {A} (P P' : S -> Prop) (m : ST S A) (Q Q' : A -> S -> Prop) (E E' : S -> Prop) :
  runs P m Q E -> (forall s, P' s -> P s) -> (forall a s, Q a s -> Q' a s) -> (forall s, E s -> E' s) -> runs P' m Q' E'.
Proof. intros Hm HP HQ HE s Hs. specialize (Hm s (HP s Hs)). destruct (m s) as [[a|e] s']; auto. Qed.

Lemma runs_bind {A B} P (m : ST S A) (k : A -> ST S B) Q R E :
  runs P m Q E -> (forall a, runs (Q a) (k a) R E) -> runs P (io_bind m k) R E.
Proof.
  intros Hm Hk s Hs. specialize (Hm s Hs). unfold io_bind. destruct (m s) as [[a|e] s']; [|done].
  by apply Hk.
Qed.

Lemma runs_wrap {A} P f args (m : ST S A) Q E : runs P m Q E -> runs P (io_wrap f args m) Q E.
Proof. intros Hm s Hs. specialize (Hm s Hs). unfold io_wrap. by destruct (m s) as [[a|e] s']. Qed.

Lemma runs_ret {A} (P : S -> Prop) (a : A) (Q : A -> S -> Prop) E : (forall s, P s -> Q a s) -> runs P (io_ret a) Q E.
Proof. intros HQ s Hs. cbn. auto. Qed.

Lemma runs_err {A} (P : S -> Prop) e (Q : A -> S -> Prop) (E : S -> Prop) : (forall s, P s -> E s) -> runs P (io_err e) Q E.
Proof. intros HE s Hs. cbn. auto. Qed.

Lemma runs_of {A} P (r : result A) : runs P (io_of (S := S) r) (fun _ => P) P.
Proof. intros s Hs. unfold io_of. by destruct r. Qed.

Lemma runs_try {A B} P (m : ST S A) (k : result A -> ST S B) Q E R F :
  runs P m Q E -> (forall a, runs (Q a) (k (Ok a)) R F) -> (forall e, runs E (k (Err e)) R F) -> runs P (io_try m k) R F.
Proof.
  intros Hm HQ HE s Hs. specialize (Hm s Hs). unfold io_try. destruct (m s) as [[a|e] s']; [by apply HQ|by apply HE].
Qed.

(** A call whose effect on the state does not depend on its outcome. *)
Lemma runs_any {A} (P Q : S -> Prop) (m : ST S A) : (forall s, P s -> Q (m s).2) -> runs P m (fun _ => Q) Q.
Proof. intros Hm s Hs. specialize (Hm s Hs). by destruct (m s) as [[a|e] s']. Qed.
End logic.

(** ** The effect of each call *)

(** The services that listen are those of [u]; the settings other than [x] are
    those of [o]. *)
Definition stands {S} `{!EngineView S} (x : option setting) (u : service -> bool) (o : setting -> bool) (s : S) : Prop :=
  (forall v, up s v = u v) ∧ (forall y, Some y <> x -> on s y = o y).

Definition add (w : service) (u : service -> bool) (v : service) : bool := bool_decide (v = w) || u v.
Definition down (ws : list service) (u : service -> bool) (v : service) : bool := u v && negb (bool_decide (v ∈ ws)).

Section call_rules.
Context {S : Type} `{!EngineView S} {A : Type}.

Lemma stands_ext x u u' o (s : S) : (forall v, u v = u' v) -> stands x u o s -> stands x u' o s.
Proof. intros Hu [Hup Hon]. split; [|done]. intros v. by rewrite Hup. Qed.

Lemma quiet_runs (m : ST S A) x u o : quiet m -> runs (stands x u o) m (fun _ => stands x u o) (stands x u o).
Proof.
  intros Hm. apply runs_any. intros s [Hup Hon]. destruct (Hm s) as [H1 H2].
  split; [intros v; by rewrite H1|intros y Hy; rewrite H2; auto].
Qed.

Lemma start_runs (m : ST S A) w x u o :
  starts w m -> runs (stands x u o) m (fun _ => stands x (add w u) o) (stands x u o).
Proof.
  intros Hm s [Hu Ho]. destruct (Hm s) as [Hup Hon].
  destruct (m s) as [[a|e] s']; cbn in *; (split; [intros v; rewrite Hup, Hu; done|intros y Hy; rewrite Hon; auto]).
Qed.

Lemma alter_runs (m : ST S A) y b u o :
  alters y b m ->
  runs (stands (Some y) u o) m (fun _ s => stands (Some y) u o s ∧ on s y = b) (stands (Some y) u o).
Proof.
  intros Hm s [Hu Ho]. destruct (Hm s) as (Hup & Hon & Hy).
  destruct (m s) as [[a|e] s']; cbn in *; [split; [|auto]|];
    (split; [intros v; by rewrite Hup, Hu|intros z Hz; rewrite Hon by congruence; auto]).
Qed.

Lemma stop_runs (m : ST S A) w x u o :
  stops w m -> runs (stands x u o) m (fun _ => stands x (down [w] u) o) (stands x (down [w] u) o).
Proof.
  intros Hm. apply runs_any. intros s [Hu Ho]. destruct (Hm s) as [Hup Hon].
  split; [|intros y Hy; rewrite Hon; auto].
  intros v. rewrite Hup, Hu. unfold down. f_equal. f_equal. apply bool_decide_ext. set_solver.
Qed.
End call_rules.

Create HintDb engine.
#[export] Hint Resolve startProxy_law startPAC_law startReverse_law startDNS_law stopService_law probes_law
  preflightSystemDNS_law isCertInstalled_law ensureCertTrusted_law ensureRootCA_law preflightHosts_law
  applySystemProxy_law applySystemDNS_law applyHosts_law prepareHostsElevated_law
  restoreSystemProxy_law restoreSystemDNS_law restoreHosts_law : engine.
#[export] Hint Resolve quiet_runs start_runs alter_runs stop_runs runs_wrap runs_of runs_ret runs_err : engine.

Lemma down_cons ws w u v : down ws (down [w] u) v = down (w :: ws) u v.
Proof.
  unfold down. rewrite <- andb_assoc, <- negb_orb. f_equal. f_equal.
  apply eq_true_iff_eq. rewrite orb_true_iff, !bool_decide_eq_true. set_solver.
Qed.

Section start_properties.
Context `{Externals} {S : Type} `{!EngineSystem S} `{!EngineView S} `{!EngineLaws S}.

Lemma stopAll_runs ws x u o :
  runs (stands x u o) (stopAll ws) (fun _ => stands x (down ws u) o) (stands x (down ws u) o).
Proof.
  revert u. induction ws as [|w ws IH]; intros u.
  - apply runs_ret. intros s. apply stands_ext. intros v. unfold down.
    rewrite bool_decide_eq_false_2 by set_solver. by rewrite andb_true_r.
  - assert (Hrest : runs (stands x (down [w] u) o) (stopAll ws) (fun _ => stands x (down (w :: ws) u) o) (stands x (down (w :: ws) u) o)).
    { eapply runs_conseq; [apply IH|done| |]; intros; (eapply stands_ext; [apply down_cons|done]). }
    cbn [stopAll]. eapply runs_try; [eauto with engine|intros a; exact Hrest|intros e; exact Hrest].
Qed.

(** A step with the cleanup of what was started before it. *)
Lemma cleanup_back {A} ws (m : ST S A) P Q x u u' o :
  runs P m Q (stands x u o) -> (forall v, down ws u v = u' v) -> runs P (cleanup ws m) Q (stands x u' o).
Proof.
  intros Hm Hu. unfold cleanup. eapply runs_try; [exact Hm|intros a; by apply runs_ret|]. intros e.
  eapply (runs_bind _ _ _ (fun _ => stands x u' o)); [|intros a; by apply runs_err].
  eapply runs_conseq; [apply stopAll_runs|done|intros a s|intros s]; by apply stands_ext.
Qed.

(** ** The three ways to start *)

Lemma prepareHosts_runs cfg hc b u o :
  runs (stands (Some SetHosts) u o) (prepareHostsForStart cfg hc b)
    (fun _ s => stands (Some SetHosts) u o s ∧ on s SetHosts = true) (stands (Some SetHosts) u o).
Proof.
  assert (Hhelper : runs (stands (Some SetHosts) u o) (prepareHostsWithHelper cfg hc)
    (fun _ s => stands (Some SetHosts) u o s ∧ on s SetHosts = true) (stands (Some SetHosts) u o)).
  { eapply runs_bind; [eauto with engine|]. intros []. auto with engine. }
  assert (Hdirect : runs (stands (Some SetHosts) u o) (prepareHostsDirect cfg hc)
    (fun _ s => stands (Some SetHosts) u o s ∧ on s SetHosts = true) (stands (Some SetHosts) u o)).
  { eapply runs_bind; [eauto with engine|]. intros certOK.
    eapply (runs_bind _ _ _ (fun _ => stands (Some SetHosts) u o)).
    { destruct certOK; cbn [negb]; [auto with engine|]. destruct (AutoInstall _); cbn [negb]; auto with engine. }
    intros trust. eapply runs_bind; [eauto with engine|]. intros [].
    eapply runs_bind; [eauto with engine|]. intros []. auto with engine. }
  unfold prepareHostsForStart. destruct b; [done|].
  eapply runs_try; [exact Hdirect|intros p; by apply runs_ret|]. intros e.
  destruct (shouldRetryHostsWithHelper e); [|by apply runs_err].
  eapply runs_try; [exact Hhelper|intros p; by apply runs_ret|intros e'; by apply runs_err].
Qed.

Lemma startupProbes_quiet cfg ps d r : quiet (startupProbes cfg ps d r).
Proof. intros s. unfold startupProbes. destruct d; try done. destruct (_ && _); [|done]. exact (probes_law _ _ _ s). Qed.

Lemma startupProbes_runs cfg ps d r x u o :
  runs (stands x u o) (startupProbes cfg ps d r) (fun _ => stands x u o) (stands x u o).
Proof. apply quiet_runs, startupProbes_quiet. Qed.

(** What a launch achieves: the services [f] and the setting [x], or nothing. *)
Definition launches (x : option setting) (f : service -> bool) (m : ST S Launched) (h : Launched -> service -> bool) : Prop :=
  forall u o, (forall v, f v = true -> u v = false) ->
    runs (stands x u o) m
      (fun l s => stands x (fun v => f v || u v) o s ∧ (forall y, x = Some y -> on s y = true) ∧ (forall v, h l v = f v))
      (stands x u o).

Definition lrecorded (l : Launched) (v : service) : bool :=
  match v with
  | SvcProxy => bool_decide (is_Some (lProxy l))
  | SvcPAC => lPAC l
  | SvcReverse => bool_decide (is_Some (lReverse l))
  | SvcDNS => lDNS l
  end.

Lemma launchHosts_launches cfg m ps d r :
  launches (Some SetHosts) (fun v => bool_decide (v = SvcReverse)) (launchHosts cfg m ps d r) lrecorded.
Proof.
  intros u o Hu. specialize (Hu SvcReverse eq_refl). unfold launchHosts.
  eapply runs_bind; [eauto with engine|]. intros entries.
  eapply runs_bind; [apply startupProbes_runs|]. intros probes.
  eapply runs_bind; [eauto with engine|]. intros addrs.
  eapply runs_bind.
  { eapply cleanup_back; [apply prepareHosts_runs|]. intros v. unfold down, add. destruct v; cbn; rewrite ?Hu, ?andb_true_r; done. }
  intros p. apply runs_ret. intros s [Hs Hon]. split; [done|]. split; [by intros y [= <-]|]. intros []; done.
Qed.

(** Solves a comparison of two sets of services, service by service. *)
Ltac by_service := let v := fresh in intros v; unfold down, add; destruct v; cbn; rewrite ?andb_true_r; try done; try by auto.

Lemma redirect_runs cfg c u o :
  u SvcReverse = false -> u SvcDNS = false ->
  runs (stands (Some SetSystemDNS) (add SvcDNS (add SvcReverse u)) o) (redirectSystemDNS cfg c)
    (fun _ s => stands (Some SetSystemDNS) (add SvcDNS (add SvcReverse u)) o s ∧ on s SetSystemDNS = true)
    (stands (Some SetSystemDNS) u o).
Proof.
  intros Hr Hd. unfold redirectSystemDNS.
  assert (Hstop : forall (k : ST S (list SystemChange)), (forall s, is_ok (k s).1 = false ∧ (k s).2 = s) ->
    runs (stands (Some SetSystemDNS) (add SvcDNS (add SvcReverse u)) o) (io _ <- stopAll [SvcDNS; SvcReverse]; k)
      (fun _ s => stands (Some SetSystemDNS) (add SvcDNS (add SvcReverse u)) o s ∧ on s SetSystemDNS = true)
      (stands (Some SetSystemDNS) u o)).
  { intros k Hk. eapply (runs_bind _ _ _ (fun _ => stands (Some SetSystemDNS) u o)).
    - eapply runs_conseq; [apply stopAll_runs|done|intros a s|intros s]; apply stands_ext; by_service.
    - intros _ s Hs. destruct (Hk s) as [H1 H2]. destruct (k s) as [[a|e] s']; cbn in *; [done|by subst]. }
  eapply runs_try; [eauto with engine|intros r; by apply runs_ret|]. intros e.
  eapply runs_try; [eapply runs_conseq; [eauto with engine|done|by intros a s [Hs _]; exact Hs|by intros s]| |].
  - intros []. by apply Hstop.
  - intros e'. apply Hstop. intros s. by destruct (errors_Is _ _).
Qed.

Lemma launchDNS_launches cfg m ps d r rc :
  launches (if usesSystemDNS cfg then Some SetSystemDNS else None)
    (fun v => bool_decide (v = SvcReverse) || bool_decide (v = SvcDNS)) (launchDNS cfg m ps d r rc) lrecorded.
Proof.
  intros u o Hu. pose proof (Hu SvcReverse eq_refl) as Hr. pose proof (Hu SvcDNS eq_refl) as Hd. unfold launchDNS.
  set (x := if usesSystemDNS cfg then _ else _).
  eapply (runs_bind _ _ _ (fun pre s => stands x u o s ∧ bool_decide (is_Some pre.1) = usesSystemDNS cfg)).
  { destruct (usesSystemDNS cfg); [|by apply runs_ret].
    eapply runs_bind; [eauto with engine|]. intros c. eapply runs_bind; [eauto with engine|]. intros p. by apply runs_ret. }
  intros [dnsCfg changes]. cbn [fst].
  destruct (bool_decide_reflect (bool_decide (is_Some dnsCfg) = usesSystemDNS cfg)) as [Hc|Hc]; [|by intros s [_ Hs]].
  eapply (runs_conseq (stands x u o)); [|by intros s [Hs _]|by intros a s Hs; exact Hs|by intros s].
  eapply runs_bind; [apply startupProbes_runs|]. intros probes.
  eapply runs_bind; [eauto with engine|]. intros addrs.
  assert (Hback : forall v, down [SvcReverse] (add SvcReverse u) v = u v) by by_service.
  eapply runs_bind; [eapply cleanup_back; [eauto with engine|exact Hback]|]. intros fwd.
  eapply runs_bind; [eapply cleanup_back; [eauto with engine|exact Hback]|]. intros server.
  eapply runs_bind; [eapply cleanup_back; [eauto with engine|exact Hback]|]. intros [].
  eapply (runs_bind _ _ _ (fun _ s => stands x (add SvcDNS (add SvcReverse u)) o s ∧ (forall y, x = Some y -> on s y = true))).
  { subst x. rewrite <- Hc. destruct dnsCfg as [c|]; cbn.
    - eapply runs_conseq; [by apply redirect_runs|done| |done]. intros a s [Hs Ho]. split; [done|by intros y [= <-]].
    - by apply runs_ret. }
  intros applied. apply runs_ret. intros s [Hs Ho]. split; [eapply stands_ext; [|exact Hs]; by_service|].
  split; [done|]. by_service.
Qed.

Lemma launchProxy_launches cfg m d r :
  launches (if bool_decide (Mode cfg = ModePAC) || bool_decide (Mode cfg = ModeSystem) then Some SetSystemProxy else None)
    (fun v => bool_decide (v = SvcProxy) || (bool_decide (v = SvcPAC) && bool_decide (Mode cfg = ModePAC)))
    (launchProxy cfg m d r) lrecorded.
Proof.
  intros u o Hu. pose proof (Hu SvcProxy eq_refl) as Hp. pose proof (Hu SvcPAC : bool_decide (Mode cfg = ModePAC) = true -> u SvcPAC = false) as Hpac. clear Hu.
  unfold launchProxy. set (b := bool_decide (Mode cfg = ModePAC) || bool_decide (Mode cfg = ModeSystem)).
  set (x := if b then Some SetSystemProxy else None).
  eapply runs_bind; [eauto with engine|]. intros addr.
  assert (Hback : forall v, down [SvcProxy] (add SvcProxy u) v = u v) by by_service.
  eapply (runs_bind _ _ _ (fun url s => stands x (if url is Some _ then add SvcPAC (add SvcProxy u) else add SvcProxy u) o s ∧
    bool_decide (is_Some url) = bool_decide (Mode cfg = ModePAC))).
  { destruct (bool_decide (Mode cfg = ModePAC)); [|by apply runs_ret].
    eapply runs_bind; [eapply cleanup_back; [eauto with engine|exact Hback]|]. intros server.
    eapply runs_bind; [eapply cleanup_back; [eauto with engine|exact Hback]|]. intros url. by apply runs_ret. }
  intros url. set (u1 := if url is Some _ then _ else _).
  destruct (bool_decide_reflect (bool_decide (is_Some url) = bool_decide (Mode cfg = ModePAC))) as [Hc|Hc]; [|by intros s [_ Hs]].
  eapply (runs_conseq (stands x u1 o)); [|by intros s [Hs _]|by intros a s Hs; exact Hs|by intros s].
  eapply (runs_bind _ _ _ (fun _ s => stands x u1 o s ∧ (forall y, x = Some y -> on s y = true))).
  { subst x. destruct b; [|by apply runs_ret].
    eapply cleanup_back.
    - apply runs_wrap. eapply runs_conseq; [eauto with engine|done|intros a s [Hs Ho]; split; [exact Hs|by intros y [= <-]]|by intros s].
    - subst u1. destruct url; by_service; rewrite Hpac by (rewrite <- Hc; reflexivity); done. }
  intros []. apply runs_ret. intros s [Hs Ho]. split; [|split; [done|]].
  - eapply stands_ext; [|exact Hs]. subst u1. rewrite <- Hc. destruct url; by_service.
  - by_service.
Qed.

(** ** The whole of Start *)

Lemma launch_runs e now u o :
  (forall v, serves (ecfg e) v = true -> u v = false) ->
  runs (stands (setting_of (ecfg e)) u o) (launch e now)
    (fun e' s => stands (setting_of (ecfg e)) (fun v => serves (ecfg e) v || u v) o s ∧
       (forall y, setting_of (ecfg e) = Some y -> on s y = true) ∧
       (forall v, recorded e' v = serves (ecfg e) v) ∧ ecfg e' = ecfg e ∧ erunning e' = true)
    (stands (setting_of (ecfg e)) u o).
Proof.
  intros Hu. unfold launch. set (cfg := ecfg e) in *.
  eapply runs_bind; [eauto with engine|]. intros m. eapply runs_bind; [eauto with engine|]. intros ps.
  eapply runs_bind; [eauto with engine|]. intros d.
  eapply (runs_bind _ _ _ (fun l s => stands (setting_of cfg) (fun v => serves cfg v || u v) o s ∧
    (forall y, setting_of cfg = Some y -> on s y = true) ∧ (forall v, lrecorded l v = serves cfg v))).
  - unfold serves, setting_of in *. destruct (bool_decide (Mode cfg = ModeHosts)) eqn:Hh; [by apply launchHosts_launches|].
    destruct (bool_decide (Mode cfg = ModeDNS)) eqn:Hd; [|by apply launchProxy_launches].
    pose proof (launchDNS_launches cfg m ps d (Resolver.New (effectiveResolverConfig cfg)) (effectiveResolverConfig cfg)) as HL.
    unfold usesSystemDNS in HL. rewrite Hd in HL. by apply HL.
  - intros l. apply runs_ret. intros s (Hs & Ho & Hl). split; [done|]. split; [done|]. split; [|done].
    intros v. rewrite <- Hl. by destruct v.
Qed.
End start_properties.

(** ** Stop *)

Section restore.
Context {S : Type} `{!EngineSystem S}.

Definition restoreOf (y : setting) : gostring -> ST S unit :=
  match y with
  | SetSystemProxy => restoreSystemProxy
  | SetHosts => restoreHosts
  | SetSystemDNS => restoreSystemDNS
  end.
Definition noStateOf (y : setting) : error :=
  match y with
  | SetSystemProxy => SystemProxy.ErrNoState
  | SetHosts => Hosts.ErrNoState
  | SetSystemDNS => SystemDns.ErrNoState
  end.

(** At most one of the three restores runs: the one of the mode's setting. *)
Lemma restoreSettings_eq cfg s :
  restoreSettings cfg s =
  match setting_of cfg with
  | Some y => let '(r, s') := restoreOf y (RtRollbackPath (Runtime cfg)) s in (keepError (noStateOf y) r None, s')
  | None => (None, s)
  end.
Proof.
  unfold restoreSettings, setting_of. set (path := RtRollbackPath (Runtime cfg)).
  destruct (bool_decide_reflect (Mode cfg = ModeHosts)) as [->|Hh].
  { change (bool_decide (ModeHosts = ModePAC) || bool_decide (ModeHosts = ModeSystem)) with false.
    change (bool_decide (ModeHosts = ModeDNS)) with false. cbn. by destruct (restoreHosts path s). }
  destruct (bool_decide_reflect (Mode cfg = ModeDNS)) as [->|Hd]; cbn [andb].
  - change (bool_decide (ModeDNS = ModePAC) || bool_decide (ModeDNS = ModeSystem)) with false.
    destruct (bool_decide (Strategy (DNS cfg) = DNSInterceptSystem)); [|done].
    cbn. by destruct (restoreSystemDNS path s).
  - destruct (bool_decide (Mode cfg = ModePAC) || bool_decide (Mode cfg = ModeSystem)); [|done].
    cbn. by destruct (restoreSystemProxy path s).
Qed.
End restore.

Section stop_properties.
Context {S : Type} `{!EngineSystem S} `{!EngineView S} `{!EngineLaws S}.

Lemma restoreOf_law y p : alters y false (restoreOf y p).
Proof. destruct y; cbn; auto with engine. Qed.

Lemma restoreSettings_stands cfg s u o :
  stands (setting_of cfg) u o s -> stands (setting_of cfg) u o (restoreSettings cfg s).2.
Proof.
  intros Hs. rewrite restoreSettings_eq. destruct (setting_of cfg) as [y|]; [|done].
  pose proof (alter_runs _ _ _ u o (restoreOf_law y (RtRollbackPath (Runtime cfg))) s Hs) as Hr.
  destruct (restoreOf y (RtRollbackPath (Runtime cfg)) s) as [[[]|e] s']; cbn; [by destruct Hr|done].
Qed.

Lemma stopOne_stands (b : bool) v x u o (st : option error * S) :
  stands x u o st.2 -> stands x (down (if b then [v] else []) u) o (stopOne b v st).2.
Proof.
  intros Hs. destruct st as [err s]. cbn in Hs. unfold stopOne. destruct b.
  - pose proof (stop_runs (stopService v) v x u o (stopService_law v) s Hs) as Hr.
    by destruct (stopService v s) as [[[]|e] s'].
  - eapply stands_ext; [|exact Hs]. intros w. unfold down. by rewrite bool_decide_eq_false_2, andb_true_r by set_solver.
Qed.

Lemma stopOne_on b v (st : option error * S) y : on (stopOne b v st).2 y = on st.2 y.
Proof.
  destruct st as [err s]. unfold stopOne. destruct b; [|done].
  pose proof (stopService_law v s) as [_ Hon]. specialize (Hon y). by destruct (stopService v s) as [r s'].
Qed.

(** An engine whose handles are those of its mode, and no other service listens. *)
Definition consistent (e : Engine) (s : S) : Prop :=
  (forall v, up s v = recorded e v) ∧ (forall v, recorded e v = erunning e && serves (ecfg e) v).

Definition idle (e : Engine) : bool :=
  negb (bool_decide (is_Some (eproxy e))) && negb (bool_decide (is_Some (ereverse e))) && negb (edns e).

Lemma serves_some cfg : serves cfg SvcProxy || serves cfg SvcReverse = true.
Proof. unfold serves. by repeat case_match. Qed.

Lemma recorded_idle e : (forall v, recorded e v = erunning e && serves (ecfg e) v) -> idle e = negb (erunning e).
Proof.
  intros Hr. pose proof (serves_some (ecfg e)) as Hs.
  change (idle e) with (negb (recorded e SvcProxy) && negb (recorded e SvcReverse) && negb (recorded e SvcDNS)).
  rewrite !Hr. destruct (erunning e); [|done]. cbn.
  destruct (serves (ecfg e) SvcProxy); [done|]. cbn in *. by rewrite Hs.
Qed.

Lemma consistent_idle e s : consistent e s -> idle e = negb (erunning e).
Proof. intros [_ Hr]. by apply recorded_idle. Qed.

Lemma stopped_recorded e err v : recorded (stopped e err) v = false.
Proof. by destruct v. Qed.

(** Stop from a consistent state, step by step. *)
Lemma Stop_state e s :
  consistent e s ->
  let '(err, e', s') := Stop e s in
  (forall v, up s' v = false) ∧ (forall y, Some y <> setting_of (ecfg e) -> on s' y = on s y) ∧
  (exists err', e' = stopped e err') ∧
  (erunning e = true -> forall y, setting_of (ecfg e) = Some y ->
     is_ok (restoreOf y (RtRollbackPath (Runtime (ecfg e))) s).1 = true -> on s' y = false).
Proof.
  intros Hc. pose proof (consistent_idle _ _ Hc) as Hi. destruct Hc as [Hup Hrec].
  unfold Stop. fold (idle e). rewrite Hi. destruct (erunning e) eqn:Hrun; cbn [negb].
  - assert (Hs : stands (setting_of (ecfg e)) (recorded e) (on s) s) by done.
    apply restoreSettings_stands in Hs.
    apply (stopOne_stands (epac e) SvcPAC) in Hs. apply (stopOne_stands (edns e) SvcDNS) in Hs.
    apply (stopOne_stands (bool_decide (is_Some (ereverse e))) SvcReverse) in Hs.
    apply (stopOne_stands (bool_decide (is_Some (eproxy e))) SvcProxy) in Hs.
    match type of Hs with stands _ _ _ ?p.2 => assert (Hon : forall y, on p.2 y = on (restoreSettings (ecfg e) s).2 y) end.
    { intros y. by rewrite !stopOne_on. }
    destruct (stopOne _ SvcProxy _) as [err s']. cbn in Hs, Hon. destruct Hs as [Hu Ho].
    split; [|split; [exact Ho|split; [by eexists|]]].
    + intros v. rewrite Hu. unfold down. destruct v; cbn; destruct (epac e), (edns e), (bool_decide _), (bool_decide _); done.
    + intros _ y Hy Hok. rewrite Hon, restoreSettings_eq, Hy.
      pose proof (restoreOf_law y (RtRollbackPath (Runtime (ecfg e))) s) as (_ & _ & Heff).
      destruct (restoreOf y (RtRollbackPath (Runtime (ecfg e))) s) as [[[]|er] s1]; cbn in *; [by apply Heff|done].
  - split; [intros v; rewrite Hup, Hrec; done|]. split; [done|]. split; [by eexists|done].
Qed.
End stop_properties.

(** ** The life cycle *)

Section lifecycle.
Context `{Externals} {S : Type} `{!EngineSystem S} `{!EngineView S} `{!EngineLaws S}.

Lemma launch_runs_session e now s e' s' : launch e now s = (Ok e', s') -> erunning e' = true ∧ ecfg e' = ecfg e.
Proof.
  unfold launch. rewrite io_bind_Ok. intros (m & s1 & _ & Hl). revert Hl. rewrite io_bind_Ok. intros (ps & s2 & _ & Hl).
  revert Hl. rewrite io_bind_Ok. intros (d & s3 & _ & Hl). revert Hl. rewrite io_bind_Ok. intros (l & s4 & _ & Hl).
  by injection Hl as <- <-.
Qed.

Lemma launch_consistent e now s :
  consistent e s -> erunning e = false ->
  match launch e now s with
  | (Ok e', s') => consistent e' s' ∧ erunning e' = true ∧ ecfg e' = ecfg e ∧
      (forall y, setting_of (ecfg e) = Some y -> on s' y = true) ∧
      (forall y, Some y <> setting_of (ecfg e) -> on s' y = on s y)
  | (Err _, s') => consistent e s' ∧ (forall y, Some y <> setting_of (ecfg e) -> on s' y = on s y)
  end.
Proof.
  intros [Hup Hrec] Hrun.
  assert (Hnone : forall v, recorded e v = false) by (intros v; by rewrite Hrec, Hrun).
  pose proof (launch_runs e now (recorded e) (on s) (fun v _ => Hnone v) s (conj Hup (fun y _ => eq_refl))) as Hl.
  destruct (launch e now s) as [[e'|er] s'].
  - destruct Hl as ((Hu & Ho) & Hy & Hr & Hcfg & Hrun'). split; [|done].
    split; intros v; rewrite ?Hu, ?Hr, ?Hrun', ?Hcfg, ?Hnone, ?orb_false_r; done.
  - destruct Hl as [Hu Ho]. done.
Qed.

(** C1: start is all or nothing.  When it succeeds the engine runs, exactly the
    services of its mode listen, each recorded for a later Stop, and the setting
    of the mode is in place.  When it fails, at whatever call, the engine is as
    before and exactly the services that listened before still do.  No setting
    but the mode's own is touched in either case. *)
Theorem Start_all_or_nothing e now s :
  consistent e s ->
  let '(r, e', s') := Start e now s in
  consistent e' s' ∧ (forall y, Some y <> setting_of (ecfg e) -> on s' y = on s y) ∧
  match r with
  | Ok _ => erunning e = false ∧ erunning e' = true ∧
      (forall v, up s' v = serves (ecfg e) v) ∧ (forall y, setting_of (ecfg e) = Some y -> on s' y = true)
  | Err _ => e' = e ∧ (forall v, up s' v = up s v)
  end.
Proof.
  intros Hc. unfold Start. destruct (erunning e) eqn:Hrun; [done|].
  pose proof (launch_consistent e now s Hc Hrun) as Hl. destruct (launch e now s) as [[e'|er] s'].
  - destruct Hl as ([Hu Hr] & Hrun' & Hcfg & Hy & Ho). split; [done|]. split; [done|]. split_and!; [done|done| |done].
    intros v. by rewrite Hu, Hr, Hrun', Hcfg.
  - destruct Hl as [Hc' Ho]. split; [done|]. split; [done|]. split; [done|].
    intros v. by rewrite (proj1 Hc'), (proj1 Hc).
Qed.

(** C2: stop is complete.  Whatever calls fail, after Stop no service listens, the
    engine holds no handle and is not running, and no setting but the mode's own
    is touched; the mode's setting is undone whenever its restore call reports
    success.  A second Stop changes nothing and succeeds. *)
Theorem Stop_complete e s :
  consistent e s ->
  let '(err, e', s') := Stop e s in
  consistent e' s' ∧ erunning e' = false ∧ (forall v, up s' v = false) ∧
  (forall y, Some y <> setting_of (ecfg e) -> on s' y = on s y) ∧
  (erunning e = true -> forall y, setting_of (ecfg e) = Some y ->
     is_ok (restoreOf y (RtRollbackPath (Runtime (ecfg e))) s).1 = true -> on s' y = false) ∧
  Stop e' s' = (None, e', s').
Proof.
  intros Hc. pose proof (Stop_state e s Hc) as Hst. destruct (Stop e s) as [[err e'] s'].
  destruct Hst as (Hu & Ho & [err' ->] & Hy).
  split; [split; intros v; rewrite ?Hu, stopped_recorded; done|]. by split_and!.
Qed.

(** The sequential use of one engine: every call of Start and Stop has returned before the
    next begins, and so has the Stop of a goroutine that Start left behind; [swatch] are
    the contexts that are still waited for.  [Process] has the calls that overlap, and
    shows that what is done here is one of the things a process does. *)
Record Session := { seng : Engine; ssys : S; swatch : list nat }.

Inductive step : Session -> Session -> Prop :=
| step_start e s w ctx now e' s' :
    Start e now s = (Ok tt, e', s') ->
    step {| seng := e; ssys := s; swatch := w |} {| seng := e'; ssys := s'; swatch := ctx :: w |}
| step_start_failed e s w now err e' s' :
    Start e now s = (Err err, e', s') ->
    step {| seng := e; ssys := s; swatch := w |} {| seng := e'; ssys := s'; swatch := w |}
| step_stop e s w err e' s' :
    Stop e s = (err, e', s') ->
    step {| seng := e; ssys := s; swatch := w |} {| seng := e'; ssys := s'; swatch := w |}
| step_cancel e s w1 ctx w2 err e' s' :
    Stop e s = (err, e', s') ->
    step {| seng := e; ssys := s; swatch := w1 ++ ctx :: w2 |} {| seng := e'; ssys := s'; swatch := w1 ++ w2 |}.

Definition sound (cfg : Config.Config) (o : setting -> bool) (σ : Session) : Prop :=
  ecfg (seng σ) = cfg ∧ consistent (seng σ) (ssys σ) ∧
  (forall y, Some y <> setting_of cfg -> on (ssys σ) y = o y) ∧
  (erunning (seng σ) = true -> swatch σ <> []).

Lemma Stop_sound cfg o e s w w' err e' s' :
  sound cfg o {| seng := e; ssys := s; swatch := w |} -> Stop e s = (err, e', s') ->
  sound cfg o {| seng := e'; ssys := s'; swatch := w' |} ∧ erunning e' = false ∧ (forall v, up s' v = false).
Proof.
  intros (Hcfg & Hc & Ho & _) Hs. cbn in *. pose proof (Stop_state e s Hc) as Hst. rewrite Hs in Hst.
  destruct Hst as (Hu & Ho' & [err' ->] & _). split; [|done].
  split; [done|]. split; [split; intros v; cbn; rewrite ?Hu, stopped_recorded; done|]. split; [|done].
  cbn. intros y Hy. rewrite Ho' by congruence. auto.
Qed.

Lemma step_sound cfg o σ σ' : sound cfg o σ -> step σ σ' -> sound cfg o σ'.
Proof.
  intros Hs Hstep.
  assert (Hl : forall e s w now, sound cfg o {| seng := e; ssys := s; swatch := w |} -> erunning e = false ->
    match launch e now s with
    | (Ok e', s') => forall ctx, sound cfg o {| seng := e'; ssys := s'; swatch := ctx :: w |}
    | (Err _, s') => sound cfg o {| seng := e; ssys := s'; swatch := w |}
    end).
  { intros e s w now (Hcfg & Hc & Ho & Hw) Hrun. pose proof (launch_consistent e now s Hc Hrun) as HL. cbn [seng ssys swatch] in *.
    destruct (launch e now s) as [[e'|er] s']; [intros ctx|].
    - destruct HL as (Hc' & Hr' & Hcfg' & _ & Ho'). split_and!; cbn; [congruence|done| |done].
      intros y Hy. rewrite Ho' by congruence. auto.
    - destruct HL as (Hc' & Ho'). split_and!; cbn; [done|done| |done]. intros y Hy. rewrite Ho' by congruence. auto. }
  destruct Hstep as [e s w ctx now e' s' HS|e s w now err e' s' HS|e s w err e' s' HS|e s w1 ctx w2 err e' s' HS];
    [| |by eapply Stop_sound|by eapply Stop_sound].
  - unfold Start in HS. destruct (erunning e) eqn:Hrun; [done|]. specialize (Hl e s w now Hs Hrun).
    destruct (launch e now s) as [[e1|er] s1]; simplify_eq. apply Hl.
  - unfold Start in HS. destruct (erunning e) eqn:Hrun; [by simplify_eq|]. specialize (Hl e s w now Hs Hrun).
    destruct (launch e now s) as [[e1|er] s1]; by simplify_eq.
Qed.

Lemma sessions_sound cfg o σ σ' : sound cfg o σ -> rtc step σ σ' -> sound cfg o σ'.
Proof. intros Hs Hr. induction Hr; [done|]. eauto using step_sound. Qed.

Lemma New_sound cfg e s :
  New cfg = Ok e -> (forall v, up s v = false) ->
  sound (ecfg e) (on s) {| seng := e; ssys := s; swatch := [] |}.
Proof.
  intros Hn Hup. unfold New in Hn. inv_ok Hn. repeat split; cbn; try done; try (intros v; by rewrite ?Hup; destruct v).
Qed.

(** The goroutine of an earlier session outlives it: after a start, a stop and
    a second start with another context, cancelling the context of the first
    session stops the second one. *)
Theorem stale_context_stops_session e s now1 now2 ctx1 ctx2 err e1 s1 e2 s2 e3 s3 :
  consistent e s ->
  Start e now1 s = (Ok tt, e1, s1) -> Stop e1 s1 = (err, e2, s2) -> Start e2 now2 s2 = (Ok tt, e3, s3) ->
  rtc step {| seng := e; ssys := s; swatch := [] |} {| seng := e3; ssys := s3; swatch := [ctx2; ctx1] |} ∧
  erunning e3 = true ∧
  exists e4 s4, step {| seng := e3; ssys := s3; swatch := [ctx2; ctx1] |} {| seng := e4; ssys := s4; swatch := [ctx2] |} ∧
    erunning e4 = false ∧ (forall v, up s4 v = false).
Proof.
  intros Hc H1 H2 H3.
  assert (Hr : rtc step {| seng := e; ssys := s; swatch := [] |} {| seng := e3; ssys := s3; swatch := [ctx2; ctx1] |}).
  { eapply rtc_l; [by apply (step_start _ _ _ ctx1 now1)|]. eapply rtc_l; [by eapply step_stop|].
    eapply rtc_l; [by apply (step_start _ _ _ ctx2 now2)|]. apply rtc_refl. }
  split; [exact Hr|].
  assert (Hs0 : sound (ecfg e) (on s) {| seng := e; ssys := s; swatch := [] |}).
  { split_and!; cbn; try done. unfold Start in H1. by destruct (erunning e). }
  pose proof (sessions_sound _ _ _ _ Hs0 Hr) as Hs.
  split.
  { unfold Start in H3. destruct (erunning e2); [done|].
    destruct (launch e2 now2 s2) as [[e'|er] s'] eqn:HL; simplify_eq. by eapply launch_runs_session. }
  destruct (Stop e3 s3) as [[err4 e4] s4] eqn:H4. exists e4, s4.
  destruct (Stop_sound _ _ _ _ _ [ctx2] _ _ _ Hs H4) as (_ & Hrun4 & Hup4). split; [|done].
  by apply (step_cancel _ _ [ctx2] ctx1 [] err4).
Qed.
End lifecycle.

(** ** The resolver behind the interception *)

Section loop_safety.
Context `{Externals}.

Lemma effective_safe cfg :
  requiresLoopSafeResolver cfg = true ->
  RMode (Resolver cfg) ∈ [ResolverSystem; ResolverUDP; ResolverTCP; ResolverDoH] ->
  RMode (Resolver cfg) = ResolverSystem ∨ Servers (Resolver cfg) <> [] ->
  let c := effectiveResolverConfig cfg in
  RMode (ccfg (Resolver.New c)) ∈ [ResolverUDP; ResolverTCP; ResolverDoH] ∧
  Servers (ccfg (Resolver.New c)) <> [] ∧
  exists f, NewRawForwarder (RMode c) (Servers c) (RTimeout c) = Ok f ∧ fmode f = RMode c.
Proof.
  intros Hl Hm Hs. unfold effectiveResolverConfig, Resolver.ConfigFromApp. rewrite Hl. cbn [negb].
  set (c := Resolver cfg) in *.
  destruct (bool_decide_reflect (RMode c = ResolverSystem)) as [Hsys|Hsys].
  { split; [by_decide|]. split; [by vm_compute|]. by eexists. }
  destruct Hs as [Hs|Hs]; [done|]. rewrite (bool_decide_eq_false_2 (Servers c = [])), andb_false_r by done.
  assert (Hmode : RMode c ∈ [ResolverUDP; ResolverTCP; ResolverDoH]) by set_solver.
  cbn [Resolver.New ccfg RMode Servers]. rewrite bool_decide_eq_false_2 by (intros Hn; rewrite Hn in Hmode; revert Hmode; by_decide).
  split; [done|]. split; [done|]. unfold NewRawForwarder.
  rewrite (bool_decide_eq_false_2 (RMode c = [])), (bool_decide_eq_false_2 (RMode c = ResolverSystem)) by
    (intros Hn; rewrite Hn in Hmode; revert Hmode; by_decide).
  cbn [orb]. rewrite (bool_decide_eq_false_2 (Servers c = [])), andb_false_r by done.
  rewrite bool_decide_eq_false_2 by done. by eexists.
Qed.

(** No loop through the engine's own interception: in DNS mode, and in hosts
    mode with direct dialing, an engine built from any configuration never
    resolves upstream names with the system resolver (which would ask the
    intercepting server, or read the managed hosts file); it has servers to ask,
    and the forwarder of the DNS server asks servers of the same configuration. *)
Theorem New_loop_safe cfg e :
  New cfg = Ok e -> requiresLoopSafeResolver (ecfg e) = true ->
  let c := effectiveResolverConfig (ecfg e) in
  RMode (ccfg (Resolver.New c)) ∈ [ResolverUDP; ResolverTCP; ResolverDoH] ∧
  Servers (ccfg (Resolver.New c)) <> [] ∧
  exists f, NewRawForwarder (RMode c) (Servers c) (RTimeout c) = Ok f ∧ fmode f = RMode c.
Proof.
  intros Hn Hl. unfold New in Hn. inv_ok Hn. cbn [ecfg] in *.
  match goal with H : Validate _ = Ok _ |- _ => destruct (Validate_resolver _ _ H) as [Hm Hs] end.
  exact (effective_safe _ Hl Hm Hs).
Qed.
End loop_safety.

(** * A concrete system

    Every call succeeds, except that a service cannot listen twice; the state lists the
    listening services and the settings in place. *)
Section concrete.

Definition Sys : Type := list service * list setting.

(** With a port the system chooses ([anyPort]) a service can be started again. *)
Definition opens (anyPort : bool) {A} (w : service) (a : A) : ST Sys A := fun s =>
  if bool_decide (w ∈ s.1) && negb anyPort then (Err (External "address already in use"), s) else (Ok a, (w :: s.1, s.2)).
Definition puts {A} (y : setting) (a : A) : ST Sys A := fun s => (Ok a, (s.1, y :: s.2)).
Definition drops (y : setting) : ST Sys unit := fun s => (Ok tt, (s.1, filter (fun z => z <> y) s.2)).

Definition trusted : TrustResult := {| TStoreScope := "user"; AlreadyTrusted := true; Changed := false; TViaHelper := false |}.

Definition system_of (anyPort : bool) : EngineSystem Sys := {|
  startProxy _ _ _ _ := opens anyPort SvcProxy "127.0.0.1:26501";
  startPAC _ := opens anyPort SvcPAC "http://127.0.0.1:26502/proxy.pac";
  startReverse _ _ _ _ := opens anyPort SvcReverse (("127.0.0.1:80" : gostring), ("127.0.0.1:443" : gostring));
  startDNS _ _ := opens anyPort SvcDNS tt;
  stopService w s := (Ok tt, (filter (fun v => v <> w) s.1, s.2));
  runStartupProbes _ _ _ s := ([], s);
  applySystemProxy _ := puts SetSystemProxy tt;
  restoreSystemProxy _ := drops SetSystemProxy;
  preflightSystemDNS _ := io_ret {| RInterfaces := 1; RServerIPs := []; RViaHelper := false |};
  applySystemDNS _ := puts SetSystemDNS {| RInterfaces := 1; RServerIPs := []; RViaHelper := false |};
  restoreSystemDNS _ := drops SetSystemDNS;
  isCertInstalled _ := io_ret true;
  ensureCertTrusted _ := io_ret trusted;
  ensureRootCA _ := io_ret tt;
  preflightHosts _ := io_ret tt;
  applyHosts _ := puts SetHosts tt;
  prepareHostsElevated _ _ := puts SetHosts {| PCert := trusted; CertTrusted := true; PEntries := 0 |};
  restoreHosts _ := drops SetHosts;
  shouldUseHostHelper := false;
  onWindows := false;
  error_text _ := [];
|}.

#[local] Instance simple_system : EngineSystem Sys := system_of false.

#[local] Instance simple_view : EngineView Sys := {|
  up s v := bool_decide (v ∈ s.1);
  on s y := bool_decide (y ∈ s.2);
|}.

Lemma opens_law b {A} w (a : A) : starts w (opens b w a).
Proof.
  intros s. unfold opens. destruct (_ && _); (split; [|done]); intros v; cbn; [done|].
  apply eq_true_iff_eq. rewrite orb_true_iff, !bool_decide_eq_true. set_solver.
Qed.
Lemma puts_law {A} y (a : A) : alters y true (puts y a).
Proof.
  intros s. split_and!; [done| |intros _; cbn; rewrite bool_decide_eq_true; set_solver].
  intros z Hz. cbn. apply bool_decide_ext. set_solver.
Qed.
Lemma drops_law y : alters y false (drops y).
Proof.
  intros s. split_and!; [done| |intros _; cbn; rewrite bool_decide_eq_false, list_elem_of_filter; by intros []].
  intros z Hz. cbn. apply bool_decide_ext. rewrite list_elem_of_filter. naive_solver.
Qed.

Lemma system_laws b : EngineLaws Sys (EngineSystem0 := system_of b).
Proof.
  constructor; intros;
    first [apply opens_law | apply puts_law | apply drops_law | by (intros s; split) | idtac].
  intros s. split; [|done]. intros v. cbn. apply eq_true_iff_eq.
  rewrite andb_true_iff, negb_true_iff, bool_decide_eq_true, bool_decide_eq_false, list_elem_of_filter, bool_decide_eq_true. naive_solver.
Qed.
#[local] Instance simple_laws : EngineLaws Sys := system_laws false.

#[local] Existing Instance simple_externals.

(** PAC mode with the built-in rules. *)
Definition pac_config : Config.Config :=
  let d := Default "/etc/hosts" "/certs" "/run/state" "/run/rollback" in
  {| Mode := ModePAC; ProvidersEnabled := ProvidersEnabled d; DNS := DNS d; Proxy := Proxy d; Config.PAC := Config.PAC d;
     Config.Hosts := Config.Hosts d; Cert := Cert d; Config.Resolver := Config.Resolver d; Config.Upstream := Config.Upstream d;
     PageEnhance := PageEnhance d; SystemServices := []; CustomDomains := []; Runtime := Runtime d |}.

Definition fresh : Engine := zeroEngine pac_config.

Lemma fresh_New : New pac_config = Ok fresh.
Proof. vm_compute. reflexivity. Qed.

Lemma fresh_consistent : consistent fresh (([], []) : Sys).
Proof. split; by intros []. Qed.

(** The three states of a start, a stop and a second start. *)
Definition session1 : result unit * Engine * Sys := Eval vm_compute in Start fresh 1%Z ([], []).
Definition session2 : option error * Engine * Sys := Eval vm_compute in Stop session1.1.2 session1.2.
Definition session3 : result unit * Engine * Sys := Eval vm_compute in Start session2.1.2 2%Z session2.2.

Lemma session_starts :
  Start fresh 1%Z (([], []) : Sys) = session1 ∧ Stop session1.1.2 session1.2 = session2 ∧
  Start session2.1.2 2%Z session2.2 = session3 ∧ session1.1.1 = Ok tt ∧ session3.1.1 = Ok tt.
Proof. split_and!; vm_compute; reflexivity. Qed.

Lemma Start_all_or_nothing_witness :
  up session1.2 SvcPAC = true ∧ up session1.2 SvcReverse = false ∧ on session1.2 SetSystemProxy = true.
Proof.
  pose proof (Start_all_or_nothing fresh 1%Z (([], []) : Sys) fresh_consistent) as Hs.
  rewrite (proj1 session_starts) in Hs. change session1 with (session1.1.1, session1.1.2, session1.2) in Hs.
  destruct Hs as (_ & _ & _ & _ & Hu & Ho). split_and!; [exact (Hu SvcPAC)|exact (Hu SvcReverse)|by apply Ho].
Defined.

Lemma quiet_start v : up (([], []) : Sys) v = false.
Proof. by destruct v. Qed.

Lemma session1_eq : Start fresh 1%Z (([], []) : Sys) = (Ok tt, session1.1.2, session1.2).
Proof. exact (proj1 session_starts). Qed.

Lemma session1_consistent : consistent session1.1.2 session1.2.
Proof. split; by intros []. Qed.

Lemma Stop_complete_witness : up session2.2 SvcPAC = false ∧ on session2.2 SetSystemProxy = false.
Proof.
  pose proof (Stop_complete session1.1.2 session1.2 session1_consistent) as Hs.
  rewrite (proj1 (proj2 session_starts)) in Hs. change session2 with (session2.1.1, session2.1.2, session2.2) in Hs.
  destruct Hs as (_ & _ & Hu & _ & Hy & _). split; [exact (Hu SvcPAC)|by apply Hy].
Defined.

Lemma session1_reached (ctx : nat) :
  rtc step {| seng := fresh; ssys := (([], []) : Sys); swatch := [] |}
    {| seng := session1.1.2; ssys := session1.2; swatch := [ctx] |}.
Proof. eapply rtc_l; [eapply step_start, session1_eq|apply rtc_refl]. Qed.

Lemma stale_context_stops_session_witness :
  exists e4 s4, step {| seng := session3.1.2; ssys := session3.2; swatch := [2; 1] |} {| seng := e4; ssys := s4; swatch := [2] |} ∧
    erunning e4 = false ∧ (forall v, up s4 v = false).
Proof.
  apply (stale_context_stops_session fresh ([], []) 1%Z 2%Z 1 2 session2.1.1 session1.1.2 session1.2 session2.1.2 session2.2
    session3.1.2 session3.2 fresh_consistent session1_eq (proj1 (proj2 session_starts)) (proj1 (proj2 (proj2 session_starts)))).
Defined.

(** DNS mode with the system resolver configured. *)
Lemma New_loop_safe_witness :
  RMode (Config.Resolver tidy) = ResolverSystem ∧
  RMode (ccfg (Resolver.New (effectiveResolverConfig tidy))) ∈ [ResolverUDP; ResolverTCP; ResolverDoH].
Proof.
  split; [reflexivity|]. refine (proj1 (New_loop_safe untidy (zeroEngine tidy) _ eq_refl)). vm_compute. reflexivity.
Defined.
End concrete.
