(* ===== verification/Shutdown.v ===== *)
(** Concurrent calls of the engine's Stop (src/internal/engine/engine.go).

    Stop takes the handles of the servers under the engine's lock, clears them and
    releases the lock; it restores the settings and stops the servers without it, and
    takes the lock again to record the last error.  Two calls meet whenever a session
    is ended by its context: the goroutine that Start left behind and the command that
    started the session both call Stop.

    A call is a phase here and the calls take steps in any order.  Engine.Stop, which
    does all at once, is what any number of calls amount to when all have returned;
    a single call may return before that. *)
From stdpp Require Import strings relations.
From Stdlib Require Import Ascii.
From S2P Require Import Prelude GoStrings GoNet External World Config.
From S2P Require Import Engine.

Section shutdown.
Context {S : Type} `{!EngineSystem S}.

(** What is left to do without the lock. *)
Inductive action :=
| RestoreSettings
| StopServer (v : service).

Inductive phase :=
| Called
| Tearing (err : option error) (rest : list action)
| Returned (err : option error).

Definition todo (e : Engine) : list action :=
  RestoreSettings :: (StopServer <$>
    (if epac e then [SvcPAC] else []) ++ (if edns e then [SvcDNS] else []) ++
    (if bool_decide (is_Some (ereverse e)) then [SvcReverse] else []) ++
    (if bool_decide (is_Some (eproxy e)) then [SvcProxy] else [])).

Definition act (cfg : Config.Config) (st : option error * S) (a : action) : option error * S :=
  match a with
  | RestoreSettings => restoreSettings cfg st.2
  | StopServer v => stopOne true v st
  end.

Definition with_lastErr (e : Engine) (err : option error) : Engine :=
  {| ecfg := ecfg e; eproxy := eproxy e; epac := epac e; epacURL := epacURL e; ereverse := ereverse e; edns := edns e;
     ecertOK := ecertOK e; eresolver := eresolver e; eupstreamProfiles := eupstreamProfiles e;
     estartupProbes := estartupProbes e; eruleSet := eruleSet e; eproviders := eproviders e;
     esystemChanges := esystemChanges e; estartedAt := estartedAt e; elastErr := err; eruleCount := eruleCount e;
     erunning := erunning e |}.

(** One step of a call: a section under the lock or one call into the system. *)
Definition advance (e : Engine) (s : S) (p : phase) : option (phase * Engine * S) :=
  match p with
  | Called => Some (if idle e then Returned None else Tearing None (todo e), stopped e (elastErr e), s)
  | Tearing err [] => Some (Returned err, with_lastErr e err, s)
  | Tearing err (a :: rest) => let '(err', s') := act (ecfg e) (err, s) a in Some (Tearing err' rest, e, s')
  | Returned _ => None
  end.

Inductive interleave : list phase * Engine * S -> list phase * Engine * S -> Prop :=
| interleave_step i p p' ps e e' s s' :
    ps !! i = Some p -> advance e s p = Some (p', e', s') -> interleave (ps, e, s) (<[i := p']> ps, e', s').

Definition returned (p : phase) : bool := match p with Returned _ => true | _ => false end.

(** ** One call alone *)

(** What a call comes to when no other call takes a step. *)
Definition complete (p : phase) (e : Engine) (s : S) : option error * Engine * S :=
  match p with
  | Called => Stop e s
  | Tearing err rest => let '(err', s') := foldl (act (ecfg e)) (err, s) rest in (err', with_lastErr e err', s')
  | Returned err => (err, e, s)
  end.

Lemma foldl_act_if cfg (b : bool) v rest st :
  foldl (act cfg) st (StopServer <$> (if b then [v] else []) ++ rest) =
  foldl (act cfg) (stopOne b v st) (StopServer <$> rest).
Proof. destruct b; cbn; [done|]. by destruct st. Qed.

Lemma Stop_todo e s :
  Stop e s =
  if idle e then (None, stopped e (elastErr e), s)
  else let '(err, s') := foldl (act (ecfg e)) (None, s) (todo e) in (err, stopped e err, s').
Proof.
  unfold Stop. fold (idle e). destruct (idle e); [done|]. unfold todo. cbn [foldl act snd].
  rewrite !foldl_act_if. rewrite <-(app_nil_r (if bool_decide (is_Some (eproxy e)) then _ else _)), foldl_act_if. done.
Qed.

Lemma advance_complete e s p p' e' s' :
  advance e s p = Some (p', e', s') -> complete p' e' s' = complete p e s.
Proof.
  destruct p as [|err [|a rest]|err]; cbn [advance]; [..|done].
  - intros [= <- <- <-]. cbn [complete]. rewrite Stop_todo. by destruct (idle e).
  - by intros [= <- <- <-].
  - destruct (act _ _ a) as [err' s1] eqn:Ea. intros [= <- <- <-]. cbn [complete foldl]. by rewrite Ea.
Qed.

(** ** Calls together *)

(** At most one call, the leader, has work to do; the engine is stopped once there is
    a leader. *)
Definition leads (ps : list phase) (i : nat) : Prop :=
  forall j q, j <> i -> ps !! j = Some q -> q = Called ∨ q = Returned None.

Definition ordered (e : Engine) (s : S) (σ : list phase * Engine * S) : Prop :=
  let '(ps, e', s') := σ in
  (Forall (fun p => p = Called) ps ∧ e' = e ∧ s' = s) ∨
  exists i p, ps !! i = Some p ∧ p <> Called ∧ leads ps i ∧ complete p e' s' = Stop e s ∧ exists l, e' = stopped e l.

Lemma leads_insert ps i j p : leads ps i -> p = Called ∨ p = Returned None -> leads (<[j := p]> ps) i.
Proof.
  intros Hl Hp k q Hk Hq. destruct (decide (j = k)) as [->|Hjk].
  - apply list_lookup_insert_Some in Hq as [(_ & <- & _)|[? _]]; done.
  - rewrite list_lookup_insert_ne in Hq by done. eauto.
Qed.

Lemma ordered_step e s σ σ' : ordered e s σ -> interleave σ σ' -> ordered e s σ'.
Proof.
  intros Ho Hs. destruct Hs as [j q q' ps e1 e2 s1 s2 Hj Ha].
  pose proof (lookup_lt_Some _ _ _ Hj) as Hlt. pose proof (advance_complete _ _ _ _ _ _ Ha) as Hc. right.
  destruct Ho as [(Hall & -> & ->)|(i & p & Hi & Hp & Hl & Hcp & l & ->)].
  - assert (Hq : q = Called) by (rewrite Forall_lookup in Hall; eauto). subst q. cbn in Ha. injection Ha as <- <- <-.
    exists j. eexists. rewrite list_lookup_insert_eq by done.
    split; [done|]. split; [by destruct (idle e)|]. split; [|split; [exact Hc|by eexists]].
    intros k r Hk Hr. rewrite list_lookup_insert_ne in Hr by done. rewrite Forall_lookup in Hall. eauto.
  - destruct (decide (j = i)) as [->|Hji].
    + simplify_eq. exists i, q'. rewrite list_lookup_insert_eq by done.
      assert (Hl' : leads (<[i:=q']> ps) i).
      { intros k r Hk Hr. rewrite list_lookup_insert_ne in Hr by done. eauto. }
      split_and!; [done| |done|congruence|]; destruct p as [|err [|a rest]|err]; cbn in Ha;
        [done|by simplify_eq| |done|done|injection Ha as <- <- <-; by eexists| |done];
        destruct (act _ _ a); by simplify_eq; eauto.
    + exists i, p. rewrite list_lookup_insert_ne by done. destruct (Hl j q Hji Hj) as [->| ->]; [|done].
      cbn in Ha. injection Ha as <- <- <-. split_and!; [done|done| | |by eexists].
      * apply leads_insert; [done|by right].
      * rewrite <-Hcp. by destruct p.
Qed.

Lemma ordered_reached n e s σ : rtc interleave (replicate n Called, e, s) σ -> ordered e s σ.
Proof.
  intros Hr. assert (Ho : ordered e s (replicate n Called, e, s)).
  { left. split; [|done]. by apply Forall_replicate. }
  induction Hr as [|σ1 σ2 σ3 Hs Hr IH]; [done|]. eauto using ordered_step.
Qed.

Lemma interleave_length σ σ' : rtc interleave σ σ' -> length σ'.1.1 = length σ.1.1.
Proof.
  intros Hr. induction Hr as [|x y z Hs Hr IH]; [done|]. rewrite IH. destruct Hs; cbn. by rewrite length_insert.
Qed.

(** ** All calls return *)

Definition pending (p : phase) : nat :=
  match p with Called => 7 | Tearing _ rest => 1 + length rest | Returned _ => 0 end.

Lemma todo_length e : length (todo e) <= 5.
Proof. unfold todo. cbn. rewrite length_fmap, !length_app. repeat case_match; cbn; lia. Qed.

Lemma advance_pending e s p p' e' s' : advance e s p = Some (p', e', s') -> pending p' < pending p.
Proof.
  pose proof (todo_length e). destruct p as [|err [|a rest]|err]; cbn [advance]; [..|done].
  - intros [= <- <- <-]. destruct (idle e); cbn in *; lia.
  - intros [= <- <- <-]. cbn. lia.
  - destruct (act _ _ a). intros [= <- <- <-]. cbn. lia.
Qed.

Lemma advance_returned e s p : returned p = false -> is_Some (advance e s p).
Proof. destruct p as [|err [|a rest]|err]; cbn; try done. destruct (act _ _ a). by eexists. Qed.

Definition work (ps : list phase) : nat := sum_list_with pending ps.

Lemma work_insert ps i p p' : ps !! i = Some p -> pending p' < pending p -> work (<[i := p']> ps) < work ps.
Proof.
  intros Hi Hp. unfold work. rewrite insert_take_drop by (by eapply lookup_lt_Some).
  rewrite <-(take_drop_middle ps i p Hi) at 3. rewrite !sum_list_with_app. cbn. lia.
Qed.

Lemma interleave_ends σ : exists σ', rtc interleave σ σ' ∧ forallb returned σ'.1.1 = true.
Proof.
  destruct σ as [[ps e] s]. remember (work ps) as n eqn:Hn. revert ps e s Hn.
  induction (lt_wf n) as [n _ IH]. intros ps e s ->.
  destruct (forallb returned ps) eqn:Hr; [by eexists; split; [apply rtc_refl|]|].
  destruct (list_find (fun p => returned p = false) ps) as [[i p]|] eqn:Hf.
  - apply list_find_Some in Hf as (Hi & Hp & _).
    destruct (advance_returned e s p Hp) as [[[p' e'] s'] Ha].
    destruct (IH _ (work_insert _ _ _ _ Hi (advance_pending _ _ _ _ _ _ Ha)) (<[i := p']> ps) e' s' eq_refl) as (σ' & Hσ & Hd).
    exists σ'. split; [|done]. eapply rtc_l; [|exact Hσ]. by eapply interleave_step.
  - apply list_find_None in Hf. exfalso. apply not_true_iff_false in Hr. apply Hr, forallb_forall.
    intros p Hp. apply list_elem_of_In in Hp. rewrite Forall_forall in Hf. specialize (Hf p Hp). by destruct (returned p).
Qed.

(** C11: calls of Stop can overlap in any way.  Whenever all have returned, the engine
    and the system are as one Stop alone leaves them, one of the calls returned its error
    and every other call none; and they do all return, from whatever state they got into. *)
Theorem concurrent_stops n e s σ :
  rtc interleave (replicate (1 + n) Called, e, s) σ ->
  (forallb returned σ.1.1 = true ->
     exists err e' s' i, Stop e s = (err, e', s') ∧ σ.1.2 = e' ∧ σ.2 = s' ∧
       length σ.1.1 = 1 + n ∧ i < 1 + n ∧
       forall j p, σ.1.1 !! j = Some p -> p = Returned (if bool_decide (j = i) then err else None)) ∧
  exists σ', rtc interleave σ σ' ∧ forallb returned σ'.1.1 = true.
Proof.
  intros Hr. split; [|apply interleave_ends]. pose proof (ordered_reached _ _ _ _ Hr) as Ho. destruct σ as [[ps e1] s1]. cbn [fst snd].
  intros Hd. assert (Hret : forall j p, ps !! j = Some p -> returned p = true).
  { intros j p Hj. rewrite forallb_forall in Hd. apply Hd, list_elem_of_In. by eapply list_elem_of_lookup_2. }
  destruct Ho as [(Hall & -> & ->)|(i & p & Hi & Hp & Hl & Hc & _)].
  - exfalso. apply interleave_length in Hr. cbn [fst] in Hr. rewrite length_replicate in Hr.
    destruct ps as [|p ps]; [done|]. rewrite Forall_cons in Hall. destruct Hall as [-> _]. by specialize (Hret 0 _ eq_refl).
  - pose proof (Hret i p Hi) as Hpr. destruct p as [| |err]; try done. cbn in Hc.
    exists err, e1, s1, i. apply interleave_length in Hr. cbn [fst] in Hr. rewrite length_replicate in Hr.
    split; [done|]. split; [done|]. split; [done|]. split; [done|].
    split; [rewrite <-Hr; by eapply lookup_lt_Some|]. intros j q Hj. case_bool_decide as Hji; [congruence|].
    destruct (Hl j q Hji Hj) as [->|]; [|done]. by specialize (Hret j _ Hj).
Qed.

(** ** Two calls, the steps of one seen from the other *)

Section two_calls.
Context `{!EngineView S} `{!EngineLaws S}.

(** What is true of the engine while a call is in the phase [q]. *)
Definition unfinished (q : phase) (e : Engine) (s : S) : Prop :=
  match q with
  | Tearing _ rest => (forall v, recorded e v = false) ∧ erunning e = false ∧ (forall v, up s v = true -> StopServer v ∈ rest)
  | _ => consistent e s
  end.

Definition takes_none (q : phase) : Prop := match q with Tearing _ _ => False | _ => True end.

Definition paired (q w : phase) (e : Engine) (s : S) : Prop :=
  (takes_none w ∧ unfinished q e s) ∨ (takes_none q ∧ unfinished w e s).

Definition keeps (e : Engine) (s : S) (e' : Engine) (s' : S) : Prop :=
  ecfg e' = ecfg e ∧ (forall y, Some y <> setting_of (ecfg e) -> on s' y = on s y) ∧ (erunning e = false -> erunning e' = false).

Lemma keeps_trans e s e1 s1 e2 s2 : keeps e s e1 s1 -> keeps e1 s1 e2 s2 -> keeps e s e2 s2.
Proof.
  intros (H1 & H2 & H3) (H4 & H5 & H6). split; [congruence|]. split; [|auto].
  intros y Hy. rewrite H5 by congruence. auto.
Qed.

Lemma paired_sym q w e s : paired q w e s -> paired w q e s.
Proof. unfold paired. tauto. Qed.

Lemma paired_returned err w e s : paired (Returned err) w e s <-> unfinished w e s.
Proof. unfold paired. split; [|by right]. intros [[Hw Hc]|[_ Hu]]; [|done]. by destruct w. Qed.

Lemma todo_recorded e v : recorded e v = true -> StopServer v ∈ todo e.
Proof.
  intros Hr. unfold todo. apply list_elem_of_further, list_elem_of_fmap_2. rewrite !elem_of_app.
  destruct v; cbn [recorded] in Hr; rewrite Hr; set_solver.
Qed.

Lemma act_unfinished cfg err a rest s s' err' :
  (forall v, up s v = true -> StopServer v ∈ a :: rest) -> act cfg (err, s) a = (err', s') ->
  (forall v, up s' v = true -> StopServer v ∈ rest) ∧ (forall y, Some y <> setting_of cfg -> on s' y = on s y).
Proof.
  intros Hu Ha. destruct a as [|w]; cbn [act snd] in Ha.
  - pose proof (restoreSettings_stands cfg s (up s) (on s) (conj (fun _ => eq_refl) (fun _ _ => eq_refl))) as [H1 H2].
    rewrite Ha in H1, H2. cbn in H1, H2. split; [|done]. intros v Hv. rewrite H1 in Hv. apply Hu in Hv. set_solver.
  - pose proof (stopOne_stands true w (setting_of cfg) (up s) (on s) (err, s) (conj (fun _ => eq_refl) (fun _ _ => eq_refl))) as [H1 H2].
    rewrite Ha in H1, H2. cbn in H1, H2. split; [|done]. intros v. rewrite H1. unfold Engine.down.
    rewrite andb_true_iff, negb_true_iff, bool_decide_eq_false. intros [Hv Hn]. apply Hu in Hv. set_solver.
Qed.

Lemma advance_unfinished q e s q' e' s' :
  unfinished q e s -> advance e s q = Some (q', e', s') -> unfinished q' e' s' ∧ keeps e s e' s' ∧ erunning e' = false.
Proof.
  destruct q as [|err [|a rest]|err]; cbn [advance unfinished]; [..|done].
  - intros Hc [= <- <- <-]. pose proof (consistent_idle _ _ Hc) as Hi. destruct Hc as [Hu Hr]. split; [|done].
    destruct (idle e) eqn:Ei; cbn [unfinished].
    + split; [|intros v; by rewrite stopped_recorded]. intros v. rewrite Hu, Hr, stopped_recorded. by destruct (erunning e).
    + split; [intros v; by rewrite stopped_recorded|]. split; [done|]. intros v. rewrite Hu. apply todo_recorded.
  - intros (Hr & He & Hu) [= <- <- <-]. split; [|done]. split; intros v; [change (up s v = recorded e v)|change (recorded e v = erunning e && serves (ecfg e) v)]; rewrite Hr; [|by rewrite He].
    destruct (up s v) eqn:Hv; [by apply Hu, elem_of_nil in Hv|done].
  - intros (Hr & He & Hu). destruct (act (ecfg e) (err, s) a) as [err' s1] eqn:Ea. intros [= <- <- <-].
    destruct (act_unfinished _ _ _ _ _ _ _ Hu Ea) as [H1 H2]. by split_and!.
Qed.

Lemma advance_beside q w e s w' e' s' :
  paired q w e s -> advance e s w = Some (w', e', s') -> paired q w' e' s' ∧ keeps e s e' s' ∧ erunning e' = false.
Proof.
  intros [[Hw Hq]|[Hq Hw]] Ha.
  - destruct w as [| |err]; [|done|done]. destruct q as [|err rest|err].
    1,3: destruct (advance_unfinished Called e s w' e' s' Hq Ha) as [H1 H2]; split; [by right|done].
    destruct Hq as (Hr & He & Hu). cbn in Ha. assert (Hi : idle e = true).
    { unfold idle. pose proof (Hr SvcProxy) as H1. pose proof (Hr SvcReverse) as H2. pose proof (Hr SvcDNS) as H3. cbn in H1, H2, H3.
      by rewrite H1, H2, H3. }
    rewrite Hi in Ha. injection Ha as <- <- <-. split; [|done]. left. split; [done|]. split; [intros v; by rewrite stopped_recorded|done].
  - destruct (advance_unfinished w e s w' e' s' Hw Ha) as [H1 H2]. split; [by right|done].
Qed.

(** What is left to a call is to stop what still listens. *)
Lemma complete_unfinished q e s : unfinished q e s -> erunning e = false ->
  (forall v, up (complete q e s).2 v = false) ∧ forall y, Some y <> setting_of (ecfg e) -> on (complete q e s).2 y = on s y.
Proof.
  intros Hu He. destruct q as [|err rest|err]; cbn [complete].
  - pose proof (Stop_state e s Hu) as Hs. destruct (Stop e s) as [[err e'] s']. by destruct Hs as (H1 & H2 & _).
  - destruct Hu as (_ & _ & Hu). revert err s Hu. induction rest as [|a rest IH]; intros err s Hu; cbn [foldl].
    + split; [|done]. intros v. cbn. destruct (up s v) eqn:Hv; [by apply Hu, elem_of_nil in Hv|done].
    + destruct (act (ecfg e) (err, s) a) as [err1 s1] eqn:Ea. destruct (act_unfinished _ _ _ _ _ _ _ Hu Ea) as [H1 H2].
      destruct (IH err1 s1 H1) as [H3 H4]. split; [exact H3|]. intros y Hy. rewrite H4 by done. auto.
  - destruct Hu as [H1 H2]. split; [|done]. intros v. cbn. by rewrite H1, H2, He.
Qed.
End two_calls.

(** A call of Stop can return at once, without an error, while another call that
    took the handles before it has undone nothing yet.  The start command returns
    from its own call to the end of the process, so a session that is ended by a
    signal or by the stop command can leave its setting in place and report success. *)
Theorem stop_returns_early `{!EngineView S} e s :
  consistent e s -> erunning e = true ->
  exists e', rtc interleave ([Called; Called], e, s) ([Returned None; Tearing None (todo e)], e', s) ∧
    erunning e' = false ∧ (forall v, up s v = serves (ecfg e) v) ∧ (exists rest, todo e = RestoreSettings :: rest).
Proof.
  intros Hc Hrun. pose proof (consistent_idle _ _ Hc) as Hi. rewrite Hrun in Hi. cbn in Hi.
  exists (stopped e (elastErr e)). split; [|split; [done|split; [|by eexists]]].
  - eapply rtc_l; [apply (interleave_step 1 Called (Tearing None (todo e))); [done|cbn; by rewrite Hi]|].
    eapply rtc_l; [by apply (interleave_step 0 Called (Returned None))|]. apply rtc_refl.
  - intros v. rewrite (proj1 Hc), (proj2 Hc), Hrun. done.
Qed.
End shutdown.

(** * Witnesses *)

Section shutdown_witnesses.
#[local] Existing Instance simple_externals.
#[local] Existing Instance simple_system.
#[local] Existing Instance simple_view.

(** The session of the engine's own witnesses: PAC mode. *)
Definition all_returned : list phase * Engine * Sys := ([Returned None; Returned None], session2.1.2, session2.2).

Lemma calls_end : rtc interleave ([Called; Called], session1.1.2, session1.2) all_returned.
Proof.
  do 5 (eapply rtc_l; [eapply (interleave_step 1); [reflexivity|vm_compute; reflexivity]|]).
  eapply rtc_l; [eapply (interleave_step 0); [reflexivity|vm_compute; reflexivity]|].
  cbn [list_insert insert]. apply rtc_refl.
Qed.

Lemma concurrent_stops_witness :
  exists err i, Stop session1.1.2 session1.2 = (err, session2.1.2, session2.2) ∧ i < 2 ∧ all_returned.1.1 !! i = Some (Returned err).
Proof.
  destruct (concurrent_stops 1 session1.1.2 session1.2 all_returned calls_end) as [Hs _].
  destruct (Hs eq_refl) as (err & e' & s' & i & HS & He & Hs' & _ & Hi & Hall). exists err, i. cbn in He, Hs', Hall.
  subst e' s'. split; [exact HS|]. split; [exact Hi|].
  destruct (lookup_lt_is_Some_2 [Returned None; Returned None] i Hi) as [p Hp].
  cbn. rewrite Hp. rewrite (Hall i p Hp). by rewrite bool_decide_eq_true_2.
Defined.

Lemma stop_returns_early_witness :
  exists e', rtc interleave ([Called; Called], session1.1.2, session1.2)
      ([Returned None; Tearing None (todo session1.1.2)], e', session1.2) ∧ erunning e' = false ∧
    on session1.2 SetSystemProxy = true.
Proof.
  destruct (stop_returns_early session1.1.2 session1.2 session1_consistent eq_refl) as (e' & Hr & He & _).
  exists e'. by split.
Defined.
End shutdown_witnesses.
