(* ===== verification/Steps.v ===== *)
(** Computations of the engine cut into their calls (src/internal/engine/engine.go).

    A computation of [Engine] is a function of the system's state and does all its calls
    at once.  Where calls of several goroutines interleave it has to be cut between any
    two calls: [Stepwise] gives the program of calls that a computation is, together with
    the proof that running the program alone is the computation, so that nothing of the
    engine is written twice. *)
From stdpp Require Import strings.
From Stdlib Require Import Ascii.
From S2P Require Import Prelude GoStrings GoNet External World Config.
From S2P Require Import Rules Provider Resolver Upstream Engine.
From S2P Require SystemDns DnsIntercept Pac SystemProxy Hosts.

(** * Programs of calls *)

Section programs.
Context {S : Type}.

(** A program has ended or makes a call and goes on with its answer. *)
Inductive prog (A : Type) :=
| Done (r : result A)
| Call {B : Type} (m : ST S B) (k : result B -> prog A).
Arguments Done {A} r.
Arguments Call {A B} m k.

(** The program without interference. *)
Fixpoint exec {A} (p : prog A) (s : S) : result A * S :=
  match p with
  | Done r => (r, s)
  | Call m k => exec (k (m s).1) (m s).2
  end.

Fixpoint ptry {A B} (p : prog A) (k : result A -> prog B) : prog B :=
  match p with
  | Done r => k r
  | Call m c => Call m (fun r => ptry (c r) k)
  end.

Definition pbind {A B} (p : prog A) (k : A -> prog B) : prog B :=
  ptry p (fun r => match r with Ok a => k a | Err e => Done (Err e) end).

Lemma exec_ptry {A B} (p : prog A) (k : result A -> prog B) s :
  exec (ptry p k) s = exec (k (exec p s).1) (exec p s).2.
Proof. revert s. induction p as [r|C m c IH]; intros s; cbn; [done|apply IH]. Qed.

(** The calls a computation consists of. *)
Class Stepwise {A} (m : ST S A) := {
  steps : prog A;
  exec_steps s : exec steps s = m s;
}.
Arguments steps {A} m {_}.

#[local] Typeclasses Opaque io_of io_ret io_err io_bind io_try io_wrap.
#[export] Instance stepwise_of {A} (r : result A) : Stepwise (io_of r) := {| steps := Done r; exec_steps s := eq_refl |}.
#[export] Instance stepwise_ret {A} (a : A) : Stepwise (io_ret a) := {| steps := Done (Ok a); exec_steps s := eq_refl |}.
#[export] Instance stepwise_err {A} e : Stepwise (io_err (A := A) e) := {| steps := Done (Err e); exec_steps s := eq_refl |}.
#[export, refine] Instance stepwise_try {A B} (m : ST S A) (k : result A -> ST S B) {Hm : Stepwise m} {Hk : forall r, Stepwise (k r)} :
  Stepwise (io_try m k) := {| steps := ptry (steps m) (fun r => steps (k r)) |}.
Proof. intros s. rewrite exec_ptry, !exec_steps. unfold io_try. by destruct (m s). Defined.
#[export, refine] Instance stepwise_bind {A B} (m : ST S A) (k : A -> ST S B) {Hm : Stepwise m} {Hk : forall a, Stepwise (k a)} :
  Stepwise (io_bind m k) := {| steps := pbind (steps m) (fun a => steps (k a)) |}.
Proof. intros s. unfold pbind. rewrite exec_ptry, !exec_steps. unfold io_bind. destruct (m s) as [[a|e] s']; cbn; [by rewrite exec_steps|done]. Defined.
#[export, refine] Instance stepwise_wrap {A} f args (m : ST S A) {Hm : Stepwise m} : Stepwise (io_wrap f args m) :=
  {| steps := ptry (steps m) (fun r => Done (wrap_err f args r)) |}.
Proof. intros s. rewrite exec_ptry, exec_steps. unfold io_wrap. by destruct (m s) as [[]]. Defined.
#[export] Instance stepwise_if {A} (b : bool) (m1 m2 : ST S A) {H1 : Stepwise m1} {H2 : Stepwise m2} : Stepwise (if b then m1 else m2) :=
  if b return Stepwise (if b then m1 else m2) then _ else _.
#[export] Instance stepwise_result {A B} (r : result A) (f : A -> ST S B) (g : error -> ST S B) {Hf : forall a, Stepwise (f a)} {Hg : forall e, Stepwise (g e)} :
  Stepwise (match r with Ok a => f a | Err e => g e end) :=
  match r return Stepwise (match r with Ok a => f a | Err e => g e end) with Ok a => _ | Err e => _ end.
#[export] Instance stepwise_option {A B} (o : option A) (f : A -> ST S B) (g : ST S B) {Hf : forall a, Stepwise (f a)} {Hg : Stepwise g} :
  Stepwise (match o with Some a => f a | None => g end) :=
  match o return Stepwise (match o with Some a => f a | None => g end) with Some a => _ | None => _ end.
#[export] Instance stepwise_pair {A B C} (p : A * B) (f : A -> B -> ST S C) {Hf : forall a b, Stepwise (f a b)} :
  Stepwise (let '(a, b) := p in f a b) := match p return Stepwise (let '(a, b) := p in f a b) with (a, b) => _ end.

(** A single call. *)
Definition one_call {A} (m : ST S A) : Stepwise m := {| steps := Call m Done; exec_steps s := eq_sym (surjective_pairing (m s)) |}.
End programs.
Arguments prog S A : clear implicits.
Arguments Done {S A} r.
Arguments Call {S A B} m k.
Arguments steps {S A} m {_}.

(** ** The engine's computations *)

Section engine_programs.
Context `{Externals} {S : Type} `{!EngineSystem S}.

#[local] Typeclasses Opaque io_of io_ret io_err io_bind io_try io_wrap.
#[local] Instance one_proxy c m d r : Stepwise (startProxy c m d r) := one_call _.
#[local] Instance one_pac p : Stepwise (startPAC p) := one_call _.
#[local] Instance one_reverse c m d r : Stepwise (startReverse c m d r) := one_call _.
#[local] Instance one_dns d f : Stepwise (startDNS d f) := one_call _.
#[local] Instance one_stop v : Stepwise (stopService v) := one_call _.
#[local] Instance one_probes cfg ps d r : Stepwise (startupProbes cfg ps d r) := one_call _.
#[local] Instance one_applyProxy c : Stepwise (applySystemProxy c) := one_call _.
#[local] Instance one_preflightDNS c : Stepwise (preflightSystemDNS c) := one_call _.
#[local] Instance one_applyDNS c : Stepwise (applySystemDNS c) := one_call _.
#[local] Instance one_restoreDNS p : Stepwise (restoreSystemDNS p) := one_call _.
#[local] Instance one_certInstalled c : Stepwise (isCertInstalled c) := one_call _.
#[local] Instance one_certTrusted c : Stepwise (ensureCertTrusted c) := one_call _.
#[local] Instance one_rootCA c : Stepwise (ensureRootCA c) := one_call _.
#[local] Instance one_preflightHosts c : Stepwise (preflightHosts c) := one_call _.
#[local] Instance one_applyHosts c : Stepwise (applyHosts c) := one_call _.
#[local] Instance one_elevated c h : Stepwise (prepareHostsElevated c h) := one_call _.

#[export] Instance stopAll_steps : forall ws, Stepwise (stopAll ws) :=
  fix stopAll_steps ws := match ws with [] => stepwise_ret tt | v :: rest => stepwise_try _ _ (Hm := one_stop v) (Hk := fun _ => stopAll_steps rest) end.
#[export] Instance cleanup_steps {A} ws (m : ST S A) {Hm : Stepwise m} : Stepwise (cleanup ws m).
Proof. unfold cleanup. exact _. Defined.
#[export] Instance direct_steps cfg hc : Stepwise (prepareHostsDirect cfg hc).
Proof. unfold prepareHostsDirect. exact _. Defined.
#[export] Instance helper_steps cfg hc : Stepwise (prepareHostsWithHelper cfg hc).
Proof. unfold prepareHostsWithHelper. exact _. Defined.
#[export] Instance prepareHosts_steps cfg hc b : Stepwise (prepareHostsForStart cfg hc b).
Proof. unfold prepareHostsForStart. exact _. Defined.
#[export] Instance redirect_steps cfg c : Stepwise (redirectSystemDNS cfg c).
Proof. unfold redirectSystemDNS. exact _. Defined.
#[export] Instance launchHosts_steps cfg m ps d r : Stepwise (launchHosts cfg m ps d r).
Proof. unfold launchHosts. exact _. Defined.
#[export] Instance launchDNS_steps cfg m ps d r rc : Stepwise (launchDNS cfg m ps d r rc).
Proof. unfold launchDNS. exact _. Defined.
#[export] Instance launchProxy_steps cfg m d r : Stepwise (launchProxy cfg m d r).
Proof. unfold launchProxy. exact _. Defined.
#[export] Instance launch_steps e now : Stepwise (launch e now).
Proof. unfold launch. cbv zeta. exact _. Defined.
End engine_programs.
