(* ===== verification/Overlap.v ===== *)
(** Calls of Start and Stop that overlap (src/internal/engine/engine.go).

    Start looks at the engine under its lock, releases it, starts servers and changes
    settings without it, and takes it again to record what runs.  Another Start can pass
    the same check meanwhile, and a Stop can take the handles of an earlier session or
    find none.  Each call into the system is a step here ([Steps]), and the steps of any
    number of Starts and Stops interleave in any order.

    The address of the first server acts as a lock: where an address can be listened on
    once, no two sessions mix.  With ports that the system chooses they can. *)
From stdpp Require Import strings relations.
From Stdlib Require Import Ascii.
From S2P Require Import Prelude GoStrings GoNet External World Config.
From S2P Require Import Rules Provider Resolver Upstream Engine Shutdown Steps.
From S2P Require SystemDns DnsIntercept Pac SystemProxy Hosts.

(** * Calls of Start and Stop *)

Section overlap.
Context `{Externals} {S : Type} `{!EngineSystem S}.

Inductive call :=
| Starting (now : Time)
| Launching (p : prog S Engine)
| Started (r : result unit)
| Stopping (p : phase).

(** One step of a call: a section under the lock of the engine or one call into the
    system.  The last step of a launch that failed only returns. *)
Definition advance_call (e : Engine) (s : S) (c : call) : option (call * Engine * S) :=
  match c with
  | Starting now => Some (if erunning e then Started (Err (Errorf "engine already running" [])) else Launching (steps (launch e now)), e, s)
  | Launching (Done (Ok e')) => Some (Started (Ok tt), e', s)
  | Launching (Done (Err err)) => Some (Started (Err err), e, s)
  | Launching (Call m k) => let '(r, s') := m s in Some (Launching (k r), e, s')
  | Started _ => None
  | Stopping p => match advance e s p with Some (p', e', s') => Some (Stopping p', e', s') | None => None end
  end.

Inductive overlap : list call * Engine * S -> list call * Engine * S -> Prop :=
| overlap_step i c c' cs e e' s s' :
    cs !! i = Some c -> advance_call e s c = Some (c', e', s') -> overlap (cs, e, s) (<[i := c']> cs, e', s').

Definition ended (c : call) : bool :=
  match c with Started _ | Stopping (Returned _) => true | _ => false end.
Definition fresh_call (c : call) : bool :=
  match c with Starting _ | Stopping Called => true | _ => false end.

(** A launch that meets no other call is [launch]. *)
Lemma launching_alone (p : prog S Engine) cs e s i : cs !! i = Some (Launching p) ->
  rtc overlap (cs, e, s)
    (match exec p s with
     | (Ok e', s') => (<[i := Started (Ok tt)]> cs, e', s')
     | (Err err, s') => (<[i := Started (Err err)]> cs, e, s')
     end).
Proof.
  revert cs s. induction p as [[e'|err]|B m k IH]; intros cs s Hi; cbn [exec]; [by eapply rtc_once, overlap_step..|].
  specialize (IH (m s).1 (<[i := Launching (k (m s).1)]> cs) (m s).2 (list_lookup_insert_eq _ _ _ (lookup_lt_Some _ _ _ Hi))).
  assert (Hs : overlap (cs, e, s) (<[i := Launching (k (m s).1)]> cs, e, (m s).2)) by (eapply overlap_step; [done|]; cbn; by destruct (m s)).
  destruct (exec (k (m s).1) (m s).2) as [[e'|err] s']; rewrite list_insert_insert_eq in IH; by eapply rtc_l.
Qed.

Lemma start_alone e now s :
  let '(r, e', s') := Start e now s in rtc overlap ([Starting now], e, s) ([Started r], e', s').
Proof.
  unfold Start. destruct (erunning e) eqn:Hrun.
  { apply rtc_once, (overlap_step 0 (Starting now) (Started _) [_]); [done|]. cbn. by rewrite Hrun. }
  pose proof (launching_alone (steps (launch e now)) [Launching (steps (launch e now))] e s 0 eq_refl) as Hl. rewrite exec_steps in Hl.
  destruct (launch e now s) as [[e'|err] s']; (eapply rtc_l; [|exact Hl]);
    (apply (overlap_step 0 (Starting now) (Launching _) [_]); [done|]; cbn; by rewrite Hrun).
Qed.
End overlap.

(** * Sessions do not mix *)

(** The server every mode starts first and stops last. *)
Definition first_service (cfg : Config.Config) : service :=
  if bool_decide (Mode cfg = ModeHosts) || bool_decide (Mode cfg = ModeDNS) then SvcReverse else SvcProxy.

(** An address can be listened on once: while a first server listens another one on the
    same address does not start. *)
Class ExclusiveServers (S : Type) `{!EngineSystem S} `{!EngineView S} : Prop := {
  proxy_once c m d r s : up s SvcProxy = true -> is_ok (startProxy c m d r s).1 = false;
  reverse_once c m d r s : up s SvcReverse = true -> is_ok (startReverse c m d r s).1 = false;
}.

(** What the call that has the first server up knows: the services that listen, and
    whether the setting is in place.  A call that has it not knows nothing. *)
Abbreviation hold := (option ((service -> bool) * bool)).

Section locking.
Context {S : Type} `{!EngineView S}.
Context (cfg : Config.Config) (o : setting -> bool).

#[local] Abbreviation x := (setting_of cfg).
#[local] Abbreviation first := (first_service cfg).

Definition same (s s' : S) : Prop := (forall v, up s' v = up s v) ∧ (forall y, on s' y = on s y).

Definition admits (h : hold) (s : S) : Prop :=
  match h with
  | None => forall y, Some y <> x -> on s y = o y
  | Some (u, b) => stands x u o s ∧ u first = true ∧ (forall v, u v = true -> serves cfg v = true) ∧ (b = true -> forall y, x = Some y -> on s y = true)
  end.

(** A call may take and release the first server; without it nothing is changed. *)
Definition moves_to (h : hold) (s : S) (h' : hold) (s' : S) : Prop :=
  match h, h' with
  | None, None => same s s'
  | None, Some _ => up s first = false ∧ ((forall v, up s v = false) -> admits h' s')
  | Some _, None => stands x (fun _ => false) o s'
  | Some _, Some _ => admits h' s'
  end.

Fixpoint safe {A} (p : prog S A) (h : hold) (Q : result A -> hold -> Prop) : Prop :=
  match p with
  | Done r => Q r h
  | Call m k => forall s, admits h s -> exists h', moves_to h s h' (m s).2 ∧ safe (k (m s).1) h' Q
  end.

Lemma safe_ptry {A B} (p : prog S A) (k : result A -> prog S B) h R Q :
  safe p h R -> (forall r h', R r h' -> safe (k r) h' Q) -> safe (ptry p k) h Q.
Proof.
  intros Hp Hk. revert h Hp. induction p as [r|C m c IH]; intros h Hp; cbn in *; [by apply Hk|].
  intros s Hs. destruct (Hp s Hs) as (h' & Hm & Hc). exists h'. split; [done|]. by apply IH.
Qed.

(** [secures P m Q E]: from what [P] says the call holds, [m] succeeds holding what [Q]
    says or fails holding what [E] says. *)
Definition secures {A} (P : hold -> Prop) (m : ST S A) {Hm : Stepwise m} (Q : A -> hold -> Prop) (E : hold -> Prop) : Prop :=
  forall h, P h -> safe (steps m) h (fun r h' => match r with Ok a => Q a h' | Err _ => E h' end).

Lemma safe_mono {A} (p : prog S A) h (Q Q' : result A -> hold -> Prop) : safe p h Q -> (forall r h', Q r h' -> Q' r h') -> safe p h Q'.
Proof.
  intros Hp HQ. revert h Hp. induction p as [r|C m c IH]; intros h Hp; cbn in *; [by apply HQ|].
  intros s Hs. destruct (Hp s Hs) as (h' & Hm & Hc). exists h'. split; [done|]. by apply IH.
Qed.

Lemma secures_conseq {A} (P P' : hold -> Prop) (m : ST S A) {Hm : Stepwise m} (Q Q' : A -> hold -> Prop) (E E' : hold -> Prop) :
  secures P m Q E -> (forall h, P' h -> P h) -> (forall a h, Q a h -> Q' a h) -> (forall h, E h -> E' h) -> secures P' m Q' E'.
Proof. intros Hs HP HQ HE h Hh. eapply safe_mono; [by apply Hs, HP|]. intros [a|e] h'; auto. Qed.

Lemma secures_of {A} P (r : result A) : secures P (io_of r) (fun _ => P) P.
Proof. intros h Hh. cbn. by destruct r. Qed.
Lemma secures_ret {A} (P : hold -> Prop) (a : A) (Q : A -> hold -> Prop) E : (forall h, P h -> Q a h) -> secures P (io_ret a) Q E.
Proof. intros HQ h Hh. cbn. auto. Qed.
Lemma secures_err {A} (P : hold -> Prop) e (Q : A -> hold -> Prop) (E : hold -> Prop) : (forall h, P h -> E h) -> secures P (io_err e) Q E.
Proof. intros HE h Hh. cbn. auto. Qed.
Lemma secures_try {A B} P (m : ST S A) (k : result A -> ST S B) {Hm : Stepwise m} {Hk : forall r, Stepwise (k r)} Q E R F :
  secures P m Q E -> (forall a, secures (Q a) (k (Ok a)) R F) -> (forall e, secures E (k (Err e)) R F) -> secures P (io_try m k) R F.
Proof. intros H1 H2 H3 h Hh. cbn. eapply safe_ptry; [by apply H1|]. intros [a|e] h' Hq; [by apply H2|by apply H3]. Qed.
Lemma secures_bind {A B} P (m : ST S A) (k : A -> ST S B) {Hm : Stepwise m} {Hk : forall a, Stepwise (k a)} Q R E :
  secures P m Q E -> (forall a, secures (Q a) (k a) R E) -> secures P (io_bind m k) R E.
Proof. intros H1 H2 h Hh. cbn. eapply safe_ptry; [by apply H1|]. intros [a|e] h' Hq; [by apply H2|done]. Qed.
Lemma secures_if {A} P (b : bool) (m1 m2 : ST S A) {H1 : Stepwise m1} {H2 : Stepwise m2} Q E :
  (b = true -> secures P m1 Q E) -> (b = false -> secures P m2 Q E) -> secures P (if b then m1 else m2) Q E.
Proof. destruct b; auto. Qed.
Lemma secures_wrap {A} P f args (m : ST S A) {Hm : Stepwise m} Q E : secures P m Q E -> secures P (io_wrap f args m) Q E.
Proof. intros H1 h Hh. cbn. eapply safe_ptry; [by apply H1|]. intros [a|e] h' Hq; exact Hq. Qed.

(** ** The effect of each call *)

Definition has (u : service -> bool) (b : bool) (h : hold) : Prop := exists u', h = Some (u', b) ∧ forall v, u' v = u v.
Definition nothing (h : hold) : Prop := h = None.

Lemma admits_same h s s' : same s s' -> admits h s -> admits h s'.
Proof.
  intros [Hu Ho]. destruct h as [[u b]|]; cbn; [|intros Hs y Hy; rewrite Ho; auto].
  intros ([H1 H2] & Hf & Hs & Hb). split; [|split; [done|split; [done|]]].
  - split; [intros v; by rewrite Hu|intros y Hy; rewrite Ho; auto].
  - intros Hb1 y Hy. rewrite Ho. auto.
Qed.

Lemma has_ext u u' b h : (forall v, u v = u' v) -> has u b h -> has u' b h.
Proof. intros Hu (u1 & -> & Hh). exists u1. split; [done|]. intros v. by rewrite Hh. Qed.

(** A call that moves a holder from [u] to what its outcome says. *)
Lemma call_holding {A} (m : ST S A) u b u1 b1 u2 b2 :
  (forall u', (forall v, u' v = u v) -> forall s, admits (Some (u', b)) s ->
     let '(u3, b3) := if is_ok (m s).1 then (u1, b1) else (u2, b2) in admits (Some (u3, b3)) (m s).2) ->
  secures (has u b) m (Hm := one_call m) (fun _ => has u1 b1) (has u2 b2).
Proof.
  intros Hm h (u' & -> & Hu) s Hs. specialize (Hm u' Hu s Hs). destruct (m s) as [[a|e] s']; cbn in *.
  - exists (Some (u1, b1)). split; [done|]. by exists u1.
  - exists (Some (u2, b2)). split; [done|]. by exists u2.
Qed.

Lemma call_quiet {A} P (m : ST S A) : quiet m -> secures P m (Hm := one_call m) (fun _ => P) P.
Proof.
  intros Hm h Hh s Hs. exists h. specialize (Hm s : same s (m s).2). split; [|by destruct (m s) as [[]]].
  destruct h as [[u b]|]; cbn; [|done]. by apply (admits_same (Some (u, b)) s).
Qed.

Lemma call_lock {A} (m : ST S A) :
  starts first m -> (forall s, up s first = true -> is_ok (m s).1 = false) ->
  secures nothing m (Hm := one_call m) (fun _ => has (add first (fun _ => false)) false) nothing.
Proof.
  intros Hm Hx h -> s Hs. specialize (Hm s) as [Hu Ho]. specialize (Hx s). cbn in Hs.
  destruct (m s) as [[a|e] s']; cbn in *; [|by exists None].
  exists (Some (add first (fun _ => false), false)). split; [|by eexists]. split; [destruct (up s first); [by discriminate Hx|done]|].
  intros Hd. split; [|split; [by unfold add; rewrite bool_decide_eq_true_2|split; [|done]]].
  - split; [intros v; by rewrite Hu, Hd, orb_false_r; unfold add; rewrite orb_false_r|intros y Hy; rewrite Ho; auto].
  - intros v. unfold add. rewrite orb_false_r, bool_decide_eq_true. intros ->. unfold serves, first_service.
    destruct (bool_decide (Mode cfg = ModeHosts)); [done|]. by destruct (bool_decide (Mode cfg = ModeDNS)).
Qed.

Lemma call_start {A} (m : ST S A) w u b :
  starts w m -> serves cfg w = true -> secures (has u b) m (Hm := one_call m) (fun _ => has (add w u) b) (has u b).
Proof.
  intros Hm Hw. apply call_holding. intros u' Hu s ([H1 H2] & Hf & Hs & Hb). destruct (Hm s) as [Hu' Ho'].
  destruct (is_ok (m s).1); cbn in *; rewrite Hu in Hf.
  - split_and!; [split; [intros v; by rewrite Hu', H1, Hu|intros y Hy; rewrite Ho'; auto]|by unfold add; rewrite Hf, orb_true_r| |].
    + intros v. unfold add. rewrite orb_true_iff, bool_decide_eq_true, <-Hu. intros [->|Hv]; auto.
    + intros Hb1 y Hy. rewrite Ho'. auto.
  - split_and!; [split; [intros v; by rewrite Hu', H1, Hu|intros y Hy; rewrite Ho'; auto]|done|intros v; rewrite <-Hu; auto|].
    intros Hb1 y Hy. rewrite Ho'. auto.
Qed.

Lemma call_alter {A} (m : ST S A) y b b' u :
  alters y b' m -> x = Some y -> secures (has u b) m (Hm := one_call m) (fun _ => has u b') (has u false).
Proof.
  intros Hm Hy. apply call_holding. intros u' Hu s ([H1 H2] & Hf & Hs & Hb). destruct (Hm s) as (Hu' & Ho' & Hb').
  assert (Hst : stands x u o (m s).2) by (split; [intros v; by rewrite Hu', H1, Hu|intros z Hz; rewrite Ho' by congruence; auto]).
  rewrite Hu in Hf. assert (Hs' : forall v, u v = true -> serves cfg v = true) by (intros v; rewrite <-Hu; auto).
  destruct (is_ok (m s).1); cbn; (split_and!; [done|done|done|]); [|done]. intros -> z Hz. rewrite Hy in Hz. injection Hz as <-. auto.
Qed.

Lemma call_stop {A} (m : ST S A) w u b :
  stops w m -> w <> first -> secures (has u b) m (Hm := one_call m) (fun _ => has (down [w] u) b) (has (down [w] u) b).
Proof.
  intros Hm Hw. apply call_holding. intros u' Hu s ([H1 H2] & Hf & Hs & Hb). destruct (Hm s) as [Hu' Ho'].
  rewrite Hu in Hf. assert (Ha : admits (Some (down [w] u, b)) (m s).2); [|by destruct (is_ok (m s).1)]. split_and!.
  - split; [|intros y Hy; rewrite Ho'; auto]. intros v. rewrite Hu', H1, Hu. unfold down. f_equal. f_equal. apply bool_decide_ext. set_solver.
  - unfold down. rewrite Hf, bool_decide_eq_false_2 by set_solver. done.
  - intros v. unfold down. rewrite andb_true_iff, <-Hu. intros [Hv _]. auto.
  - intros Hb1 y Hy. rewrite Ho'. auto.
Qed.

Lemma call_release {A} (m : ST S A) u b :
  stops first m -> (forall v, u v = true -> v = first) -> secures (has u b) m (Hm := one_call m) (fun _ => nothing) nothing.
Proof.
  intros Hm Hf h (u' & -> & Hu) s ([H1 H2] & _). destruct (Hm s) as [Hu' Ho']. exists None. split; [|by destruct (m s) as [[]]].
  split; [|intros y Hy; rewrite Ho'; auto]. intros v. rewrite Hu', H1, Hu. destruct (u v) eqn:Ev; [|done].
  rewrite (Hf v Ev), bool_decide_eq_true_2 by done. done.
Qed.
End locking.

Section launching.
Context `{Externals} {S : Type} `{!EngineSystem S} `{!EngineView S} `{!EngineLaws S} `{!ExclusiveServers S}.
Context (cfg : Config.Config) (o : setting -> bool).

#[local] Abbreviation x := (setting_of cfg).
#[local] Abbreviation first := (first_service cfg).
#[local] Abbreviation secures := (secures cfg o).

Lemma stopAll_releases pre u b :
  first ∉ pre -> (forall v, u v = true -> v ∈ pre ++ [first]) -> secures (has u b) (stopAll (pre ++ [first])) (fun _ => nothing) nothing.
Proof.
  revert u. induction pre as [|w pre IH]; intros u Hf Hu; cbn [app].
  - eapply secures_try with (Q := fun _ => nothing) (E := nothing); [|intros a; by apply secures_ret..].
    apply call_release; [apply stopService_law|]. intros v Hv%Hu. set_solver.
  - apply not_elem_of_cons in Hf as [Hw Hf].
    assert (Hrest : secures (has (down [w] u) b) (stopAll (pre ++ [first])) (fun _ => nothing) nothing).
    { apply IH; [done|]. intros v. unfold down. rewrite andb_true_iff, negb_true_iff, bool_decide_eq_false. intros [Hv%Hu Hn]. set_solver. }
    eapply secures_try with (Q := fun _ => has (down [w] u) b) (E := has (down [w] u) b); [|by intros a..].
    apply call_stop; [apply stopService_law|done].
Qed.

(** A step that releases what was started before it when it fails. *)
Lemma cleanup_releases {A} pre ws (m : ST S A) {Hm : Stepwise m} P Q u b :
  secures P m Q (has u b) -> ws = pre ++ [first] -> first ∉ pre -> (forall v, u v = true -> v ∈ ws) ->
  secures P (cleanup ws m) Q nothing.
Proof.
  intros H1 -> Hf Hu. eapply secures_try; [exact H1|intros a; by apply secures_ret|]. intros e.
  eapply secures_bind; [by apply stopAll_releases|]. intros []. by apply secures_err.
Qed.

Lemma prepareHosts_secures hc b u :
  x = Some SetHosts -> secures (has u false) (prepareHostsForStart cfg hc b) (fun _ => has u true) (has u false).
Proof.
  intros Hx.
  assert (Hhelper : secures (has u false) (prepareHostsWithHelper cfg hc) (fun _ => has u true) (has u false)).
  { eapply secures_bind; [apply secures_wrap, call_quiet, ensureRootCA_law|]. intros [].
    apply (call_alter _ _ _ SetHosts); [apply prepareHostsElevated_law|done]. }
  assert (Hdirect : secures (has u false) (prepareHostsDirect cfg hc) (fun _ => has u true) (has u false)).
  { eapply secures_bind; [apply secures_wrap, call_quiet, isCertInstalled_law|]. intros certOK.
    eapply (secures_bind _ _ _ _ _ (fun _ => has u false)).
    { destruct certOK; cbn [negb]; [by apply secures_ret|]. destruct (AutoInstall _); cbn [negb]; [|by apply secures_err].
      apply secures_wrap, call_quiet, ensureCertTrusted_law. }
    intros trust. eapply secures_bind; [apply secures_wrap, call_quiet, preflightHosts_law|]. intros [].
    eapply secures_bind; [apply secures_wrap, (call_alter _ _ _ SetHosts); [apply applyHosts_law|done]|]. intros []. by apply secures_ret. }
  unfold prepareHostsForStart, prepareHosts_steps. destruct b; [done|].
  eapply secures_try; [exact Hdirect|intros p; by apply secures_ret|]. intros e.
  apply secures_if; intros _; [by apply secures_err|].
  eapply secures_try; [exact Hhelper|intros p; by apply secures_ret|intros e'; by apply secures_err].
Qed.

Ltac by_service := let v := fresh in let Hv := fresh in intros v Hv; unfold down, add in Hv; destruct v; cbn in Hv; set_solver.

(** A launch ends with its services and the setting, or with nothing. *)
Definition full (h : hold) : Prop := exists b, has (serves cfg) b h ∧ forall y, x = Some y -> b = true.

Lemma launchHosts_secures m ps d r :
  Mode cfg = ModeHosts -> secures nothing (launchHosts cfg m ps d r) (fun l h => full h ∧ forall v, lrecorded l v = serves cfg v) nothing.
Proof.
  intros Hmode. assert (Hx : x = Some SetHosts) by (unfold setting_of; by rewrite Hmode).
  assert (Hf : first = SvcReverse) by (unfold first_service; by rewrite Hmode).
  eapply secures_bind; [apply secures_wrap, secures_of|]. intros entries.
  eapply secures_bind; [apply call_quiet, startupProbes_quiet|]. intros probes.
  eapply secures_bind; [apply secures_wrap, call_lock; rewrite Hf; [apply startReverse_law|intros s; apply reverse_once]|]. intros addrs.
  eapply secures_bind.
  { eapply (cleanup_releases []); [by apply prepareHosts_secures|by rewrite Hf|set_solver|rewrite Hf; by_service]. }
  intros p. apply secures_ret. intros h Hh. split.
  - exists true. split; [|done]. eapply has_ext; [|exact Hh]. intros v. rewrite Hf. unfold serves. rewrite Hmode. by destruct v.
  - intros v. unfold serves. rewrite Hmode. by destruct v.
Qed.

Lemma redirect_secures c :
  Mode cfg = ModeDNS -> x = Some SetSystemDNS ->
  secures (has (serves cfg) false) (redirectSystemDNS cfg c) (fun _ => has (serves cfg) true) nothing.
Proof.
  intros Hmode Hx. assert (Hf : first = SvcReverse) by (unfold first_service; by rewrite Hmode).
  assert (Hstop : secures (has (serves cfg) false) (stopAll [SvcDNS; SvcReverse]) (fun _ => nothing) nothing).
  { rewrite <-Hf. apply (stopAll_releases [SvcDNS]); rewrite Hf; [set_solver|]. unfold serves. rewrite Hmode. by_service. }
  eapply secures_try; [apply (call_alter _ _ _ SetSystemDNS); [apply applySystemDNS_law|done]|intros r; by apply secures_ret|]. intros e.
  eapply secures_try with (Q := fun _ => has (serves cfg) false) (E := has (serves cfg) false);
    [apply (call_alter _ _ _ SetSystemDNS _ false); [apply restoreSystemDNS_law|done]| |]; intros y;
    (eapply secures_bind; [exact Hstop|]; intros []); [by apply secures_err|].
  apply secures_if; intros _; by apply secures_err.
Qed.

Lemma launchDNS_secures m ps d r rc :
  Mode cfg = ModeDNS -> secures nothing (launchDNS cfg m ps d r rc) (fun l h => full h ∧ forall v, lrecorded l v = serves cfg v) nothing.
Proof.
  intros Hmode. assert (Hf : first = SvcReverse) by (unfold first_service; by rewrite Hmode).
  assert (Hx : x = if usesSystemDNS cfg then Some SetSystemDNS else None) by (unfold setting_of, usesSystemDNS; by rewrite Hmode).
  eapply (secures_bind _ _ _ _ _ (fun pre h => nothing h ∧ bool_decide (is_Some pre.1) = usesSystemDNS cfg)).
  { apply secures_if; intros Hu; rewrite ?Hu; [|by apply secures_ret].
    eapply secures_bind; [apply secures_wrap, secures_of|]. intros c.
    eapply secures_bind; [apply secures_wrap, call_quiet, preflightSystemDNS_law|]. intros p. by apply secures_ret. }
  intros [dnsCfg changes]. cbn [fst].
  destruct (bool_decide_reflect (bool_decide (is_Some dnsCfg) = usesSystemDNS cfg)) as [Hc|Hc]; [|by intros h [_ Hh]].
  apply (secures_conseq _ _ nothing) with (Q := fun l h => full h ∧ forall v, lrecorded l v = serves cfg v) (E := nothing); [|by intros h []|done..].
  eapply secures_bind; [apply call_quiet, startupProbes_quiet|]. intros probes.
  eapply secures_bind; [apply secures_wrap, call_lock; rewrite Hf; [apply startReverse_law|intros s; apply reverse_once]|]. intros addrs.
  assert (Hin : forall v, add first (fun _ => false) v = true -> v ∈ [SvcReverse]) by (rewrite Hf; by_service).
  eapply secures_bind; [eapply (cleanup_releases []); [apply secures_wrap, secures_of|by rewrite Hf|set_solver|done]|]. intros fwd.
  eapply secures_bind; [eapply (cleanup_releases []); [apply secures_wrap, secures_of|by rewrite Hf|set_solver|done]|]. intros server.
  eapply secures_bind; [eapply (cleanup_releases []); [apply secures_wrap, (call_start _ _ _ SvcDNS); [apply startDNS_law|unfold serves; by rewrite Hmode]
    |by rewrite Hf|set_solver|done]|]. intros [].
  apply (secures_conseq _ _ (has (serves cfg) false)) with (Q := fun l h => full h ∧ forall v, lrecorded l v = serves cfg v) (E := nothing);
    [|intros h; apply has_ext; intros v; rewrite Hf; unfold serves, add; rewrite Hmode; by destruct v|done..].
  eapply (secures_bind _ _ _ _ _ (fun _ => full)).
  { destruct dnsCfg as [c|]; rewrite <-Hc in Hx; cbn in Hx.
    - eapply secures_conseq; [by apply redirect_secures|done| |done]. intros a h Hh. exists true. by split.
    - apply secures_ret. intros h Hh. exists false. split; [done|]. by rewrite Hx. }
  intros applied. apply secures_ret. intros h Hh. split; [done|]. intros v. unfold serves. rewrite Hmode. by destruct v.
Qed.

Lemma launchProxy_secures m d r :
  Mode cfg <> ModeHosts -> Mode cfg <> ModeDNS ->
  secures nothing (launchProxy cfg m d r) (fun l h => full h ∧ forall v, lrecorded l v = serves cfg v) nothing.
Proof.
  intros H1 H2. assert (Hf : first = SvcProxy) by (unfold first_service; by rewrite !bool_decide_eq_false_2).
  set (b := bool_decide (Mode cfg = ModePAC) || bool_decide (Mode cfg = ModeSystem)).
  assert (Hx : x = if b then Some SetSystemProxy else None) by (unfold setting_of; by rewrite (bool_decide_eq_false_2 _ H1), (bool_decide_eq_false_2 _ H2)).
  assert (Hserves : forall v, serves cfg v = bool_decide (v = SvcProxy) || (bool_decide (v = SvcPAC) && bool_decide (Mode cfg = ModePAC)))
    by (intros v; unfold serves; by rewrite (bool_decide_eq_false_2 _ H1), (bool_decide_eq_false_2 _ H2)).
  assert (Hin : forall v, add first (fun _ => false) v = true -> v ∈ [SvcProxy]) by (rewrite Hf; by_service).
  eapply secures_bind; [apply call_lock; rewrite Hf; [apply startProxy_law|intros s; apply proxy_once]|]. intros addr.
  eapply (secures_bind _ _ _ _ _ (fun url h => has (serves cfg) false h ∧ bool_decide (is_Some url) = bool_decide (Mode cfg = ModePAC))).
  { apply secures_if; intros Hpac; rewrite Hpac.
    - eapply secures_bind; [eapply (cleanup_releases []); [apply secures_wrap, secures_of|by rewrite Hf|set_solver|done]|]. intros server.
      eapply secures_bind; [eapply (cleanup_releases []); [apply (call_start _ _ _ SvcPAC); [apply startPAC_law|by rewrite Hserves, Hpac]
        |by rewrite Hf|set_solver|done]|]. intros url. apply secures_ret. intros h Hh. split; [|done].
      eapply has_ext; [|exact Hh]. intros v. rewrite Hserves, Hpac, Hf. unfold add. by destruct v.
    - apply secures_ret. intros h Hh. split; [|done]. eapply has_ext; [|exact Hh]. intros v. rewrite Hserves, Hpac, Hf. unfold add. by destruct v. }
  intros url. destruct (bool_decide_reflect (bool_decide (is_Some url) = bool_decide (Mode cfg = ModePAC))) as [Hc|Hc]; [|by intros h [_ Hh]].
  apply (secures_conseq _ _ (has (serves cfg) false)) with (Q := fun l h => full h ∧ forall v, lrecorded l v = serves cfg v) (E := nothing);
    [|by intros h []|done..].
  eapply (secures_bind _ _ _ _ _ (fun _ => full)).
  { apply secures_if; intros Hb; fold b in Hb; rewrite Hb in Hx.
    - eapply secures_conseq with (P := has (serves cfg) false) (E := nothing); [|done| |done].
      + eapply (cleanup_releases (if url is Some _ then [SvcPAC] else [])) with (u := serves cfg) (b := false);
          [apply secures_wrap, (call_alter _ _ _ SetSystemProxy _ true); [apply applySystemProxy_law|done]|by rewrite Hf|rewrite Hf; destruct url; set_solver|].
        intros v. rewrite Hserves, <-Hc. destruct url, v; cbn; set_solver.
      + intros a h Hh. by exists true.
    - apply secures_ret. intros h Hh. exists false. split; [done|]. by rewrite Hx. }
  intros []. apply secures_ret. intros h Hh. split; [done|]. intros v. rewrite Hserves, <-Hc. by destruct v.
Qed.

(** What a launch ends with: the engine of a session that has everything its mode needs,
    or nothing. *)
Definition launched (r : result Engine) (h : hold) : Prop :=
  match r with
  | Ok e' => full h ∧ (forall v, recorded e' v = serves cfg v) ∧ ecfg e' = cfg ∧ erunning e' = true
  | Err _ => nothing h
  end.

Lemma launch_safe e now : ecfg e = cfg -> safe cfg o (steps (launch e now)) None launched.
Proof.
  intros He. enough (Hs : secures nothing (launch e now)
    (fun e' h => full h ∧ (forall v, recorded e' v = serves cfg v) ∧ ecfg e' = cfg ∧ erunning e' = true) nothing).
  { eapply safe_mono; [by apply Hs|]. by intros [e'|err]. }
  eapply secures_bind; [apply secures_wrap, secures_of|]. intros m. eapply secures_bind; [apply secures_of|]. intros ps.
  eapply secures_bind; [apply secures_wrap, secures_of|]. intros d. rewrite He.
  eapply (secures_bind _ _ _ _ _ (fun l h => full h ∧ forall v, lrecorded l v = serves cfg v)).
  - apply secures_if; intros Hh; [apply bool_decide_eq_true in Hh; by apply launchHosts_secures|apply bool_decide_eq_false in Hh].
    apply secures_if; intros Hd; [apply bool_decide_eq_true in Hd; by apply launchDNS_secures|apply bool_decide_eq_false in Hd].
    by apply launchProxy_secures.
  - intros l. apply secures_ret. intros h [Hh Hl]. split; [done|]. split; [|done]. intros v. rewrite <-Hl. by destruct v.
Qed.

(** ** The calls together *)

(** The engine and every call hold something, at most one of them the first server. *)
Definition valid (hs : list hold) (s : S) : Prop :=
  (Forall (fun h => h = None) hs ∧ stands x (fun _ => false) o s) ∨
  exists i u b, hs !! i = Some (Some (u, b)) ∧ (forall j h, j <> i -> hs !! j = Some h -> h = None) ∧ admits cfg o (Some (u, b)) s.

Lemma valid_admits hs s i h : valid hs s -> hs !! i = Some h -> admits cfg o h s.
Proof.
  intros [[Hn [_ Ho]]|(j & u & b & Hj & Hn & Ha)] Hi.
  - rewrite Forall_lookup in Hn. by rewrite (Hn i h Hi).
  - destruct (decide (i = j)) as [->|Hij]; [by simplify_eq|]. rewrite (Hn i h Hij Hi). destruct Ha as [[_ Ho] _]. exact Ho.
Qed.

Lemma valid_admits_other hs s : valid hs s -> forall y, Some y <> x -> on s y = o y.
Proof. intros [[_ [_ Ho]]|(i & u & b & _ & _ & [[_ Ho] _])]; exact Ho. Qed.

Lemma valid_first hs s : valid hs s -> up s first = false -> Forall (fun h => h = None) hs ∧ stands x (fun _ => false) o s.
Proof. intros [Hn|(j & u & b & _ & _ & [[Hu _] [Hf _]])] Hd; [done|]. by rewrite Hu, Hf in Hd. Qed.

Lemma valid_only hs s i u b : valid hs s -> hs !! i = Some (Some (u, b)) -> forall j h, j <> i -> hs !! j = Some h -> h = None.
Proof.
  intros [[Hn _]|(k & u' & b' & Hk & Hn & _)] Hi j h Hj Hh; [by rewrite Forall_lookup in Hn; apply Hn in Hi|].
  destruct (decide (i = k)) as [->|Hik]; [eauto|by apply Hn in Hi].
Qed.

Lemma valid_move hs s s' i h h' : valid hs s -> hs !! i = Some h -> moves_to cfg o h s h' s' -> valid (<[i := h']> hs) s'.
Proof.
  intros Hv Hi Hm. pose proof (lookup_lt_Some _ _ _ Hi) as Hlt. destruct h as [[u b]|], h' as [[u' b']|]; cbn [moves_to] in Hm.
  - right. exists i, u', b'. split; [by apply list_lookup_insert_eq|]. split; [|done]. intros j k Hj Hk.
    rewrite list_lookup_insert_ne in Hk by done. by eapply valid_only.
  - left. split; [|done]. apply Forall_lookup. intros j k [(-> & <- & _)|[Hj Hk]]%list_lookup_insert_Some; [done|]. by eapply valid_only.
  - destruct Hm as [Hf Ha]. destruct (valid_first _ _ Hv Hf) as [Hn [Hd _]]. right. exists i, u', b'.
    split; [by apply list_lookup_insert_eq|]. split; [|by apply Ha]. intros j k Hj Hk. rewrite list_lookup_insert_ne in Hk by done.
    rewrite Forall_lookup in Hn. eauto.
  - rewrite list_insert_id by done. destruct Hv as [[Hn [Hu Ho]]|(j & u & b & Hj & Hn & Ha)].
    + left. split; [done|]. destruct Hm as [H1 H2]. split; [intros v; by rewrite H1|intros y Hy; rewrite H2; auto].
    + right. exists j, u, b. split; [done|]. split; [done|]. by apply (admits_same _ _ _ s).
Qed.

(** What one holds passes to another. *)
Lemma valid_pass hs s i j u b u' b' :
  valid hs s -> hs !! i = Some (Some (u, b)) -> i <> j -> j < length hs ->
  (admits cfg o (Some (u, b)) s -> admits cfg o (Some (u', b')) s) -> valid (<[j := Some (u', b')]> (<[i := None]> hs)) s.
Proof.
  intros Hv Hi Hij Hlt Hab. right. exists j, u', b'. rewrite list_lookup_insert_eq by (by rewrite length_insert).
  split; [done|]. split; [|by eapply Hab, valid_admits]. intros k h Hk Hh. rewrite list_lookup_insert_ne in Hh by done.
  apply list_lookup_insert_Some in Hh as [(-> & <- & _)|[Hik Hh]]; [done|]. by eapply valid_only.
Qed.

#[local] Instance action_eq_dec : EqDecision action.
Proof. solve_decision. Defined.

(** A call of Stop still has to stop what it holds, the first server last. *)
Definition tears (rest : list action) (h : hold) : Prop :=
  NoDup rest ∧ last rest = Some (StopServer first) ∧
  exists u, h = Some (u, false) ∧ forall v, u v = bool_decide (StopServer v ∈ rest).

Definition fits (c : call) (h : hold) : Prop :=
  match c with
  | Launching p => safe cfg o p h launched
  | Stopping (Tearing _ (a :: rest)) => tears (a :: rest) h
  | _ => h = None
  end.

Definition engine_hold (e : Engine) : hold := if erunning e then Some (serves cfg, true) else None.

Definition orderly (σ : list call * Engine * S) : Prop :=
  let '(cs, e, s) := σ in
  ecfg e = cfg ∧ (forall v, recorded e v = erunning e && serves cfg v) ∧
  exists hs, Forall2 fits cs hs ∧ valid (engine_hold e :: hs) s.

Lemma todo_tears e : (forall v, recorded e v = serves cfg v) ->
  tears (todo e) (Some (fun v => bool_decide (StopServer v ∈ todo e), false)) ∧ forall v, serves cfg v = bool_decide (StopServer v ∈ todo e).
Proof.
  intros Hr. pose proof (Hr SvcProxy) as H1. pose proof (Hr SvcPAC) as H2. pose proof (Hr SvcReverse) as H3. pose proof (Hr SvcDNS) as H4.
  cbn [recorded] in *. unfold tears, todo. rewrite H1, H2, H3, H4. clear H1 H2 H3 H4 Hr. unfold serves, first_service.
  destruct (bool_decide (Mode cfg = ModeHosts)), (bool_decide (Mode cfg = ModeDNS)), (bool_decide (Mode cfg = ModePAC));
    (split; [split_and!; [by_decide|reflexivity|by eexists]|by intros []]).
Qed.

Lemma last_tears rest : last rest = Some (StopServer first) -> StopServer first ∈ rest.
Proof. intros (l & ->)%last_Some. set_solver. Qed.

Lemma act_moves err a rest h s :
  tears (a :: rest) h -> admits cfg o h s ->
  exists h', moves_to cfg o h s h' (act cfg (err, s) a).2 ∧ (rest = [] -> h' = None) ∧ (rest <> [] -> tears rest h').
Proof.
  intros (Hnd & Hlast & u & -> & Hu) (Hst & Hf & Hs & _). apply NoDup_cons in Hnd as [Ha Hnd].
  destruct rest as [|a' rest'].
  { injection Hlast as ->. exists None. split; [|done]. cbn [act].
    pose proof (stopOne_stands true first x u o (err, s) Hst) as Hd. eapply stands_ext; [|exact Hd].
    intros v. rewrite <-(andb_false_r (u v)). unfold down. destruct (u v) eqn:Ev; [|done]. rewrite Hu, bool_decide_eq_true in Ev.
    assert (v = first) as -> by set_solver. by rewrite bool_decide_eq_true_2 by set_solver. }
  set (rest := a' :: rest') in *. pose proof (last_tears rest Hlast) as Hin.
  exists (Some (fun v => bool_decide (StopServer v ∈ rest), false)). split; [|split; [done|intros _; split_and!; [done|done|by eexists]]].
  split; [|split; [by rewrite bool_decide_eq_true_2|split; [|done]]].
  2: { intros v Hv%bool_decide_eq_true. apply Hs. rewrite Hu, bool_decide_eq_true. set_solver. }
  destruct a as [|w]; cbn [act snd].
  - eapply stands_ext; [|by apply restoreSettings_stands]. intros v. rewrite Hu. apply bool_decide_ext. rewrite elem_of_cons. naive_solver.
  - pose proof (stopOne_stands true w x u o (err, s) Hst) as Hd. eapply stands_ext; [|exact Hd].
    intros v. unfold down. rewrite Hu. destruct (decide (v = w)) as [->|Hvw].
    + rewrite (bool_decide_eq_true_2 (w ∈ [w])), andb_false_r by set_solver. by rewrite bool_decide_eq_false_2.
    + rewrite (bool_decide_eq_false_2 (v ∈ [w])), andb_true_r by set_solver. apply bool_decide_ext. rewrite elem_of_cons. naive_solver.
Qed.

Lemma fits_none c c' cs (hs : list hold) i : Forall2 fits cs hs -> cs !! i = Some c -> fits c' None -> (forall h, fits c h -> h = None) ->
  Forall2 fits (<[i := c']> cs) hs.
Proof.
  intros Hf Hi Hc' Hc. destruct (Forall2_lookup_l _ _ _ _ _ Hf Hi) as (h & Hh & Hfit). pose proof (Hc h Hfit) as ->.
  rewrite <-(list_insert_id hs i None Hh). by apply Forall2_insert.
Qed.

(** A step of a call, for the call and the engine. *)
Definition steps_orderly (cs : list call) (e : Engine) (s : S) (i : nat) (c : call) : Prop :=
  forall c' e' s', cs !! i = Some c -> advance_call e s c = Some (c', e', s') ->
  orderly (cs, e, s) -> orderly (<[i := c']> cs, e', s').

Lemma launching_orderly cs e s i p : steps_orderly cs e s i (Launching p).
Proof.
  intros c' e' s' Hi Ha (He & Hr & hs & Hf & Hv). destruct (Forall2_lookup_l _ _ _ _ _ Hf Hi) as (h & Hh & Hfit).
  destruct p as [[e1|err]|B m k]; cbn [advance_call] in Ha.
  - injection Ha as <- <- <-. cbn in Hfit. destruct Hfit as ((b & (u & -> & Hu) & Hb) & Hrec & Hcfg & Hrun).
    split; [done|]. split; [intros v; by rewrite Hrec, Hrun|]. exists (<[i := None]> hs). split; [by apply Forall2_insert|].
    pose proof (valid_pass _ _ (Datatypes.S i) 0 u b (serves cfg) true Hv Hh) as Hp. unfold engine_hold. rewrite Hrun.
    apply Hp; [done|cbn; lia|]. intros ([H1 H2] & H3 & H4 & H5).
    split_and!; [split; [intros v; by rewrite H1, Hu|done]|by rewrite <-Hu|done|]. intros _ y Hy. apply H5; [|done]. by apply (Hb y).
  - injection Ha as <- <- <-. split; [done|]. split; [done|]. exists hs. split; [|done]. by eapply fits_none.
  - destruct (m s) as [r s1] eqn:Em. injection Ha as <- <- <-. split; [done|]. split; [done|].
    destruct (Hfit s (valid_admits _ _ (Datatypes.S i) _ Hv Hh)) as (h' & Hm & Hk). rewrite Em in Hm, Hk.
    exists (<[i := h']> hs). split; [by apply Forall2_insert|]. exact (valid_move (engine_hold e :: hs) s s1 (Datatypes.S i) h h' Hv Hh Hm).
Qed.

Lemma stop_taken_orderly cs e s i : steps_orderly cs e s i (Stopping Called).
Proof.
  intros c' e' s' Hi Ha (He & Hr & hs & Hf & Hv). destruct (Forall2_lookup_l _ _ _ _ _ Hf Hi) as (h & Hh & Hfit).
  cbn in Ha. injection Ha as <- <- <-. cbn in Hfit. subst h. rewrite (recorded_idle e) by (by rewrite He).
  unfold engine_hold in *. destruct (erunning e) eqn:Hrun; cbn [negb].
  - split; [done|]. split; [intros v; by rewrite stopped_recorded|].
    assert (Hrec : forall v, recorded e v = serves cfg v) by (intros v; by rewrite Hr).
    destruct (todo_tears e Hrec) as [Ht Hserves]. exists (<[i := Some (fun v => bool_decide (StopServer v ∈ todo e), false)]> hs).
    split; [apply Forall2_insert; [done|]; exact Ht|].
    eapply (valid_pass _ _ 0 (Datatypes.S i) _ _ _ _ Hv eq_refl); [done|cbn; apply lookup_lt_Some in Hh; lia|].
    intros ([H1 H2] & H3 & H4 & H5). split_and!; [split; [intros v; by rewrite H1, Hserves|done]|by rewrite <-Hserves|intros v; by rewrite <-Hserves|done].
  - split; [done|]. split; [intros v; by rewrite stopped_recorded|]. exists hs. by split; [eapply fits_none|].
Qed.

Lemma tearing_orderly cs e s i err rest : steps_orderly cs e s i (Stopping (Tearing err rest)).
Proof.
  intros c' e' s' Hi Ha (He & Hr & hs & Hf & Hv). destruct (Forall2_lookup_l _ _ _ _ _ Hf Hi) as (h & Hh & Hfit).
  destruct rest as [|a rest]; cbn in Ha.
  { injection Ha as <- <- <-. split; [done|]. split; [done|]. exists hs. split; [by eapply fits_none|done]. }
  destruct (act (ecfg e) (err, s) a) as [err' s1] eqn:Ea. injection Ha as <- <- <-. split; [done|]. split; [done|].
  destruct (act_moves err a rest h s Hfit (valid_admits _ _ (Datatypes.S i) _ Hv Hh)) as (h' & Hm & H0 & H1).
  rewrite He in Ea. rewrite Ea in Hm. exists (<[i := h']> hs).
  split; [|exact (valid_move (engine_hold e :: hs) s s1 (Datatypes.S i) h h' Hv Hh Hm)].
  apply Forall2_insert; [done|]. destruct rest; [by apply H0|by apply H1].
Qed.

Lemma overlap_orderly σ σ' : orderly σ -> overlap σ σ' -> orderly σ'.
Proof.
  intros Ho Hs. destruct Hs as [i c c' cs e e' s s' Hi Ha]. destruct c as [now|p|r|p]; cbn [advance_call] in Ha; [| |done|].
  - destruct Ho as (He & Hr & hs & Hf & Hv). injection Ha as <- <- <-. split; [done|]. split; [done|]. exists hs. split; [|done].
    eapply fits_none; [done|done| |done]. destruct (erunning e); [done|]. by apply launch_safe.
  - by eapply launching_orderly.
  - destruct p as [|err rest|err]; [by eapply stop_taken_orderly|by eapply tearing_orderly|done].
Qed.

Lemma overlaps_orderly σ σ' : orderly σ -> rtc overlap σ σ' -> orderly σ'.
Proof. intros Ho Hr. induction Hr; [done|]. eauto using overlap_orderly. Qed.

(** ** All calls return *)

Definition finishes (c : call) : Prop := forall cs e s i, cs !! i = Some c ->
  exists c' e' s', rtc overlap (cs, e, s) (<[i := c']> cs, e', s') ∧ ended c' = true.

Lemma finishes_ended c : ended c = true -> finishes c.
Proof. intros Hc cs e s i Hi. exists c, e, s. rewrite list_insert_id by done. split; [apply rtc_refl|done]. Qed.

Lemma finishes_later c : (forall e s, exists c' e' s', advance_call e s c = Some (c', e', s') ∧ finishes c') -> finishes c.
Proof.
  intros Hc cs e s i Hi. destruct (Hc e s) as (c1 & e1 & s1 & Ha & Hf).
  destruct (Hf (<[i := c1]> cs) e1 s1 i) as (c' & e' & s' & Hr & He); [apply list_lookup_insert_eq; by eapply lookup_lt_Some|].
  rewrite list_insert_insert_eq in Hr. exists c', e', s'. split; [|done]. eapply rtc_l; [|exact Hr]. by eapply overlap_step.
Qed.

Lemma finishes_launching p : finishes (Launching p).
Proof.
  induction p as [[e1|err]|B m k IH]; apply finishes_later; intros e s;
    [by eexists _, _, _; split; [|apply finishes_ended]..|].
  cbn. destruct (m s) as [r s1]. eexists _, _, _. split; [done|apply IH].
Qed.

Lemma finishes_tearing err rest : finishes (Stopping (Tearing err rest)).
Proof.
  revert err. induction rest as [|a rest IH]; intros err; apply finishes_later; intros e s; cbn;
    [by eexists _, _, _; split; [|apply finishes_ended]|].
  destruct (act (ecfg e) (err, s) a) as [err' s1]. eexists _, _, _. split; [done|apply IH].
Qed.

Lemma all_finish c : finishes c.
Proof.
  destruct c as [now|p|r|[|err rest|err]];
    [apply finishes_later; intros e s|apply finishes_launching|by apply finishes_ended|apply finishes_later; intros e s|apply finishes_tearing|by apply finishes_ended].
  - eexists _, _, _. split; [done|]. destruct (erunning e); [by apply finishes_ended|apply finishes_launching].
  - eexists _, _, _. split; [done|]. destruct (idle e); [by apply finishes_ended|apply finishes_tearing].
Qed.

Lemma calls_return σ : exists σ', rtc overlap σ σ' ∧ forallb ended σ'.1.1 = true.
Proof.
  destruct σ as [[cs e] s].
  enough (Hn : forall n, n <= length cs -> exists cs' e' s', rtc overlap (cs, e, s) (cs', e', s') ∧ length cs' = length cs ∧
    forall j c, j < n -> cs' !! j = Some c -> ended c = true).
  { destruct (Hn (length cs) (le_n _)) as (cs' & e' & s' & Hr & Hl & He). exists (cs', e', s'). split; [done|]. cbn.
    apply forallb_forall. intros c Hc%list_elem_of_In%list_elem_of_lookup. destruct Hc as [j Hj]. eapply He; [|done].
    rewrite <-Hl. by eapply lookup_lt_Some. }
  induction n as [|n IH]; intros Hle; [exists cs, e, s; split_and!; [apply rtc_refl|done|lia]|].
  destruct IH as (cs1 & e1 & s1 & Hr1 & Hl1 & He1); [lia|]. destruct (lookup_lt_is_Some_2 cs1 n) as [c Hc]; [lia|].
  destruct (all_finish c cs1 e1 s1 n Hc) as (c' & e' & s' & Hr & He). exists (<[n := c']> cs1), e', s'.
  split; [by etrans|]. split; [by rewrite length_insert|]. intros j c2 Hj Hc2.
  apply list_lookup_insert_Some in Hc2 as [(_ & <- & _)|[Hnj Hc2]]; [done|]. apply (He1 j); [lia|done].
Qed.

(** ** The theorem *)

Lemma orderly_start cs e s :
  ecfg e = cfg -> erunning e = false -> (forall v, recorded e v = false) -> (forall v, up s v = false) -> (forall y, on s y = o y) ->
  Forall (fun c => fresh_call c = true) cs -> orderly (cs, e, s).
Proof.
  intros He Hrun Hrec Hu Ho Hc. split; [done|]. split; [intros v; by rewrite Hrec, Hrun|].
  exists (replicate (length cs) None). split.
  - apply Forall2_same_length_lookup. split; [by rewrite length_replicate|]. intros j c h Hj [-> _]%lookup_replicate.
    rewrite Forall_lookup in Hc. specialize (Hc j c Hj). by destruct c as [| | |[]].
  - left. unfold engine_hold. rewrite Hrun. split; [constructor; [done|by apply Forall_replicate]|]. by split; [|intros y _].
Qed.

Lemma orderly_sound cs e s : orderly (cs, e, s) ->
  (forall v, recorded e v = erunning e && serves cfg v) ∧ (forall v, up s v = true -> serves cfg v = true) ∧
  (forall y, Some y <> x -> on s y = o y) ∧
  (erunning e = true -> (forall v, up s v = serves cfg v) ∧ forall y, x = Some y -> on s y = true) ∧
  (erunning e = false -> forallb ended cs = true -> forall v, up s v = false).
Proof.
  intros (He & Hr & hs & Hf & Hv). split; [done|]. split_and!.
  - intros v Hup. destruct Hv as [[_ [Hd _]]|(i & u & b & _ & _ & [Hu _] & _ & Hs & _)]; [by rewrite Hd in Hup|].
    apply Hs. by rewrite <-Hu.
  - exact (valid_admits_other _ _ Hv).
  - intros Hrun. pose proof (valid_admits _ _ 0 _ Hv eq_refl) as Ha. unfold engine_hold in Ha. rewrite Hrun in Ha.
    destruct Ha as ([Hu _] & _ & _ & Hb). split; [done|auto].
  - intros Hrun Hd. destruct Hv as [[_ [Hu _]]|(i & u & b & Hi & _)]; [done|]. unfold engine_hold in Hi. rewrite Hrun in Hi.
    destruct i as [|i]; [done|]. cbn in Hi. destruct (Forall2_lookup_r _ _ _ _ _ Hf Hi) as (c & Hc & Hfit).
    rewrite forallb_forall in Hd. specialize (Hd c). rewrite <-list_elem_of_In in Hd. specialize (Hd (list_elem_of_lookup_2 _ _ _ Hc)).
    by destruct c as [| | |[]].
Qed.
End launching.

(** C12: calls of Start and Stop of an engine can overlap in any way, each call into the
    system being a step, whatever calls fail: when an address can be listened on once,
    sessions do not mix.  While the engine runs, exactly the services of its mode listen
    and its setting is in place; nothing else is ever started or changed; the engine has
    the handles of all that listens once the calls have returned, and nothing listens then
    if it does not run; and the calls can always return. *)
Theorem overlapping_sessions `{Externals} {S : Type} `{!EngineSystem S} `{!EngineView S} `{!EngineLaws S} `{!ExclusiveServers S}
    cfg e (s : S) cs cs' e' s' :
  New cfg = Ok e -> (forall v, up s v = false) -> Forall (fun c => fresh_call c = true) cs -> rtc overlap (cs, e, s) (cs', e', s') ->
  (forall v, up s' v = true -> serves (ecfg e) v = true) ∧ (forall y, Some y <> setting_of (ecfg e) -> on s' y = on s y) ∧
  (erunning e' = true -> (forall v, up s' v = serves (ecfg e) v) ∧ forall y, setting_of (ecfg e) = Some y -> on s' y = true) ∧
  (forallb ended cs' = true -> forall v, up s' v = recorded e' v ∧ recorded e' v = erunning e' && serves (ecfg e) v) ∧
  exists σ, rtc overlap (cs', e', s') σ ∧ forallb ended σ.1.1 = true.
Proof.
  intros Hn Hu Hc Hr.
  assert (Hz : erunning e = false ∧ forall v, recorded e v = false) by (unfold New in Hn; inv_ok Hn; by split; [|intros []]).
  assert (Ho : orderly (ecfg e) (on s) (cs', e', s')).
  { eapply overlaps_orderly; [|exact Hr]. destruct Hz. by apply orderly_start. }
  destruct (orderly_sound _ _ _ _ _ Ho) as (H1 & H2 & H3 & H4 & H5). split; [done|]. split; [done|]. split; [done|].
  split; [|apply calls_return]. intros Hd v. split; [|done]. rewrite H1. destruct (erunning e'); [by apply H4|by apply H5].
Qed.

(** On addresses with a port the system chooses nothing keeps sessions apart: a Start that
    passes the check after a Stop has taken the handles can be finished before that Stop
    restores the settings.  The engine runs then without the setting of its mode. *)
Theorem restart_loses_setting `{Externals} {S : Type} `{!EngineSystem S} `{!EngineView S} `{!EngineLaws S} e (s : S) now e2 s2 y :
  consistent e s -> erunning e = true -> setting_of (ecfg e) = Some y ->
  launch (stopped e (elastErr e)) now s = (Ok e2, s2) -> is_ok (restoreOf y (RtRollbackPath (Runtime (ecfg e))) s2).1 = true ->
  exists err rest s3, rtc overlap ([Stopping Called; Starting now], e, s) ([Stopping (Tearing err rest); Started (Ok tt)], e2, s3) ∧
    erunning e2 = true ∧ on s3 y = false.
Proof.
  intros Hc Hrun Hy Hl Hok. pose proof (consistent_idle _ _ Hc) as Hi. rewrite Hrun in Hi. cbn in Hi.
  pose proof (launch_runs_session _ _ _ _ _ Hl) as [Hrun2 Hcfg].
  destruct (act (ecfg e2) (None, s2) RestoreSettings) as [err s3] eqn:Ea.
  exists err, (tail (todo e)), s3. split; [|split; [done|]].
  - eapply rtc_l; [by apply (overlap_step 0 (Stopping Called) (Stopping (Tearing None (todo e)))); [|cbn; rewrite Hi]|].
    eapply rtc_l; [by apply (overlap_step 1 (Starting now) (Launching (steps (launch (stopped e (elastErr e)) now))))|].
    etrans; [apply (launching_alone (steps (launch (stopped e (elastErr e)) now)) _ _ _ 1); reflexivity|]. rewrite exec_steps, Hl.
    apply rtc_once, (overlap_step 0 (Stopping (Tearing None (todo e))) (Stopping (Tearing err (tail (todo e)))) [_; Started (Ok tt)]); [done|].
    cbn in *. by rewrite Ea.
  - cbn [act snd] in Ea. rewrite restoreSettings_eq, Hcfg in Ea. cbn in Ea. rewrite Hy in Ea.
    destruct (restoreOf_law y (RtRollbackPath (Runtime (ecfg e))) s2) as (_ & _ & Hoff).
    destruct (restoreOf y (RtRollbackPath (Runtime (ecfg e))) s2) as [r s4]. injection Ea as _ <-. auto.
Qed.

(** * Witnesses *)

Section overlap_witnesses.
#[local] Existing Instance simple_externals.
#[local] Existing Instance simple_system.
#[local] Existing Instance simple_view.
#[local] Existing Instance simple_laws.

#[local] Instance simple_exclusive : ExclusiveServers Sys.
Proof. split; intros c m d r s Hs; cbn in *; unfold opens; by rewrite Hs. Qed.

(** Two Starts pass the check together; the second finds the address in use. *)
Definition address_in_use : error := External "address already in use".

Lemma second_launch : launch fresh 2%Z session1.2 = (Err address_in_use, session1.2).
Proof. vm_compute. reflexivity. Qed.

Lemma first_launch : launch fresh 1%Z (([], []) : Sys) = (Ok session1.1.2, session1.2).
Proof. vm_compute. reflexivity. Qed.

Lemma two_starts :
  rtc overlap ([Starting 1%Z; Starting 2%Z], fresh, (([], []) : Sys)) ([Started (Ok tt); Started (Err address_in_use)], session1.1.2, session1.2).
Proof.
  eapply rtc_l; [by apply (overlap_step 0 (Starting 1%Z))|]. eapply rtc_l; [by apply (overlap_step 1 (Starting 2%Z))|].
  etrans; [apply (launching_alone (steps (launch fresh 1%Z)) _ _ _ 0); reflexivity|]. rewrite exec_steps, first_launch.
  etrans; [apply (launching_alone (steps (launch fresh 2%Z)) _ _ _ 1); reflexivity|]. rewrite exec_steps, second_launch.
  apply rtc_refl.
Qed.

Lemma starts_fresh : Forall (fun c => fresh_call (S := Sys) c = true) [Starting 1%Z; Starting 2%Z].
Proof. by repeat constructor. Qed.

Lemma overlapping_sessions_witness :
  (forall v, up session1.2 v = serves pac_config v) ∧ on session1.2 SetSystemProxy = true.
Proof.
  destruct (overlapping_sessions pac_config fresh ([], []) [Starting 1%Z; Starting 2%Z] _ _ _ fresh_New quiet_start
    starts_fresh two_starts) as (_ & _ & Hrun & _).
  destruct (Hrun eq_refl) as [Hu Hs]. split; [exact Hu|exact (Hs SetSystemProxy eq_refl)].
Defined.

(** A second session beside the servers of the first. *)
Lemma restart_loses_setting_witness :
  exists e2 err rest s3, rtc (overlap (EngineSystem0 := system_of true)) ([Stopping Called; Starting 2%Z], session1.1.2, session1.2)
    ([Stopping (Tearing err rest); Started (Ok tt)], e2, s3) ∧ erunning e2 = true ∧ on s3 SetSystemProxy = false.
Proof.
  eexists. refine (restart_loses_setting (EngineSystem0 := system_of true) (EngineLaws0 := system_laws true) session1.1.2 session1.2 2%Z _ _
    SetSystemProxy session1_consistent eq_refl eq_refl _ _); vm_compute; reflexivity.
Defined.
End overlap_witnesses.
