(* ===== verification/Process.v ===== *)
(** The process of a program that uses one engine (src/internal/engine/engine.go).

    Any number of goroutines call Start and Stop, at any time, and cancel the contexts
    they gave to Start.  A Start that succeeded leaves a goroutine behind that waits for
    its context and calls Stop.  Every call takes its steps as in [Overlap], a section
    under the engine's lock or one call into the system at a time, so that all of this
    interleaves in any order. *)
From stdpp Require Import strings relations gmap.
From Stdlib Require Import Ascii.
From S2P Require Import Prelude GoStrings GoNet External World Config.
From S2P Require Import Rules Provider Resolver Upstream Engine Shutdown Steps Overlap.

(** * Runs of threads that end *)

(** A thread that takes a step is replaced by what is left of it and may add new threads.
    When no thread can take steps for ever, no number of threads can. *)
Section threads_end.
Context {T : Type} (tstep : T -> T -> list T -> Prop).

Definition child (u t : T) : Prop := exists t' new, tstep t t' new ∧ u ∈ t' :: new.

Inductive threads_step (l l' : list T) : Prop :=
| one_steps t t' new k : tstep t t' new -> l ≡ₚ t :: k -> l' ≡ₚ t' :: new ++ k -> threads_step l l'.

Lemma sn_perm l l' : l ≡ₚ l' -> sn threads_step l -> sn threads_step l'.
Proof. intros Hl Hs. constructor. intros m [t t' new k Ht H1 H2]. apply Hs. econstructor; [done|by rewrite Hl|done]. Qed.

Lemma sn_cons t : Acc child t -> forall l, sn threads_step l -> sn threads_step (t :: l).
Proof.
  induction 1 as [t _ IHt]. intros l Hl. induction Hl as [l Hl IHl]. constructor. intros m [a a' new k Ha H1 H2].
  assert (Hin : a ∈ t :: l) by (rewrite H1; set_solver). apply elem_of_cons in Hin as [->|Hin].
  - apply (Permutation_cons_inv (a := t)) in H1. apply (sn_perm ((a' :: new) ++ k)); [by rewrite H2|].
    assert (Hall : forall u, u ∈ a' :: new -> child u t) by (intros u Hu; by exists a', new).
    clear H2 Ha. induction (a' :: new) as [|u us IH]; cbn; [by apply (sn_perm l)|].
    apply IHt; [apply Hall; set_solver|]. apply IH. intros v Hv. apply Hall. set_solver.
  - apply elem_of_Permutation in Hin as [k' Hk']. rewrite Hk' in H1.
    assert (Hk : k ≡ₚ t :: k') by (apply (Permutation_cons_inv (a := a)); rewrite <-H1; apply perm_swap).
    apply (sn_perm (t :: (a' :: new) ++ k')); [by rewrite H2, Hk, Permutation_middle|].
    apply IHl. by econstructor.
Qed.

Lemma threads_sn : well_founded child -> forall l, sn threads_step l.
Proof.
  intros Hw l. induction l as [|t l IH]; [|apply sn_cons; [apply Hw|done]].
  constructor. intros m [t t' new k _ Hp _]. by apply Permutation_nil_l in Hp.
Qed.
End threads_end.

(** * The process *)

Section process.
Context `{Externals} {S : Type} `{!EngineSystem S}.

(** A goroutine: a call, of Start with the given context or of Stop, or the goroutine
    that waits for the context of a session. *)
Inductive thread :=
| Calling (c : call (S := S)) (ctx : nat)
| Watching (ctx : nat).

(** [session] is the context of the session that runs, which no code can see. *)
Record process := {
  threads : list thread;
  cancelled : gset nat;
  session : option nat;
  engine : Engine;
  system : S;
}.

Definition watcher (c : call (S := S)) (ctx : nat) : list thread :=
  match c with Launching (Done (Ok _)) => [Watching ctx] | _ => [] end.

Definition session_after (c : call (S := S)) (ctx : nat) (o : option nat) : option nat :=
  match c with Launching (Done (Ok _)) => Some ctx | Stopping Called => None | _ => o end.

(** What goes on by itself: calls take their steps, and the goroutine of a session wakes
    up when its context is cancelled. *)
Inductive internal (σ : process) : process -> Prop :=
| call_steps i c ctx c' e' s' :
    threads σ !! i = Some (Calling c ctx) -> advance_call (engine σ) (system σ) c = Some (c', e', s') ->
    internal σ {| threads := <[i := Calling c' ctx]> (threads σ) ++ watcher c ctx; cancelled := cancelled σ;
      session := session_after c ctx (session σ); engine := e'; system := s' |}
| watcher_wakes i ctx :
    threads σ !! i = Some (Watching ctx) -> ctx ∈ cancelled σ ->
    internal σ {| threads := <[i := Calling (Stopping Called) ctx]> (threads σ); cancelled := cancelled σ;
      session := session σ; engine := engine σ; system := system σ |}.

(** What the rest of the program does: it calls Start and Stop and cancels contexts. *)
Inductive external (σ : process) : process -> Prop :=
| new_call c ctx : fresh_call c = true ->
    external σ {| threads := threads σ ++ [Calling c ctx]; cancelled := cancelled σ; session := session σ;
      engine := engine σ; system := system σ |}
| cancels ctx :
    external σ {| threads := threads σ; cancelled := {[ctx]} ∪ cancelled σ; session := session σ;
      engine := engine σ; system := system σ |}.

Definition process_step (σ σ' : process) : Prop := internal σ σ' ∨ external σ σ'.

Definition initial (e : Engine) (s : S) : process :=
  {| threads := []; cancelled := ∅; session := None; engine := e; system := s |}.

(** A thread that has nothing under way: its call has not begun or has returned. *)
Definition at_rest (t : thread) : bool :=
  match t with Calling c _ => ended c || fresh_call c | Watching _ => true end.

(** ** What goes on by itself ends *)

Definition tstep (t t' : thread) (new : list thread) : Prop :=
  match t with
  | Calling c ctx => exists e s c' e' s', advance_call e s c = Some (c', e', s') ∧ t' = Calling c' ctx ∧ new = watcher c ctx
  | Watching ctx => t' = Calling (Stopping Called) ctx ∧ new = []
  end.

Lemma calls_acc c ctx (Q : thread -> Prop) : (forall u, u ∈ watcher c ctx -> Q u) ->
  (forall e s c' e' s', advance_call e s c = Some (c', e', s') -> Q (Calling c' ctx)) -> forall u, child tstep u (Calling c ctx) -> Q u.
Proof.
  intros Hw Hc u (t' & new & (e & s & c' & e' & s' & Ha & -> & ->) & Hu). apply elem_of_cons in Hu as [->|Hu]; [by eapply Hc|by apply Hw].
Qed.

(** A call that leaves no goroutine behind. *)
Lemma call_acc c ctx : watcher c ctx = [] ->
  (forall e s c' e' s', advance_call e s c = Some (c', e', s') -> Acc (child tstep) (Calling c' ctx)) -> Acc (child tstep) (Calling c ctx).
Proof.
  intros Hw Hc. constructor. apply (calls_acc c ctx (Acc (child tstep))); [|done]. rewrite Hw. by intros u Hu%elem_of_nil.
Qed.

Lemma ended_acc c ctx : ended c = true -> Acc (child tstep) (Calling c ctx).
Proof. intros Hc. apply call_acc; destruct c as [| | |[]]; done. Qed.

Lemma stopping_acc p ctx : Acc (child tstep) (Calling (Stopping p) ctx).
Proof.
  assert (Ht : forall err rest, Acc (child tstep) (Calling (Stopping (Tearing err rest)) ctx)).
  { intros err rest. revert err. induction rest as [|a rest IH]; intros err; (apply call_acc; [done|]);
      cbn; intros e s c' e' s'; [intros [= <- <- <-]; by apply ended_acc|].
    destruct (act _ _ a) as [err' s1]. intros [= <- <- <-]. apply IH. }
  destruct p as [|err rest|err]; [|apply Ht|by apply ended_acc]. apply call_acc; [done|].
  cbn. intros e s c' e' s' [= <- <- <-]. destruct (idle e); [by apply ended_acc|apply Ht].
Qed.

Lemma watching_acc ctx : Acc (child tstep) (Watching ctx).
Proof. constructor. intros u (t' & new & [-> ->] & ->%list_elem_of_singleton). apply stopping_acc. Qed.

Lemma launching_acc p ctx : Acc (child tstep) (Calling (Launching p) ctx).
Proof.
  induction p as [[e'|err]|B m k IH].
  - constructor. apply (calls_acc _ ctx (Acc (child tstep))); cbn.
    + intros u ->%list_elem_of_singleton. apply watching_acc.
    + intros e s c' e1 s' [= <- <- <-]. by apply ended_acc.
  - apply call_acc; [done|]. cbn. intros e s c' e1 s' [= <- <- <-]. by apply ended_acc.
  - apply call_acc; [done|]. cbn. intros e s c' e1 s'. destruct (m s) as [r s1]. intros [= <- <- <-]. apply IH.
Qed.

Lemma all_threads_acc : well_founded (child tstep).
Proof.
  intros [[now|p|r|p] ctx|ctx]; [|apply launching_acc|by apply ended_acc|apply stopping_acc|apply watching_acc].
  apply call_acc; [done|]. cbn. intros e s c' e' s' [= <- <- <-]. destruct (erunning e); [by apply ended_acc|apply launching_acc].
Qed.

Lemma lookup_perm {T} (l : list T) i x y : l !! i = Some x -> exists k, l ≡ₚ x :: k ∧ <[i := y]> l ≡ₚ y :: k.
Proof.
  intros Hi. exists (take i l ++ drop (Datatypes.S i) l). split; [rewrite <-(take_drop_middle l i x Hi) at 1|rewrite insert_take_drop by (by eapply lookup_lt_Some)];
    by rewrite Permutation_middle.
Qed.

Lemma internal_threads σ σ' : internal σ σ' -> threads_step tstep (threads σ) (threads σ').
Proof.
  intros [i c ctx c' e' s' Hi Ha|i ctx Hi _]; cbn [threads].
  - destruct (lookup_perm _ _ _ (Calling c' ctx) Hi) as (k & H1 & H2).
    apply (one_steps _ _ _ (Calling c ctx) (Calling c' ctx) (watcher c ctx) k); [by eexists _, _, _, _, _; split; [exact Ha|]|done|].
    rewrite H2. cbn. by rewrite (Permutation_app_comm k).
  - destruct (lookup_perm _ _ _ (Calling (Stopping Called) ctx) Hi) as (k & H1 & H2). by apply (one_steps _ _ _ (Watching ctx) (Calling (Stopping Called) ctx) [] k).
Qed.

Definition can_step (σ : process) (t : thread) : bool :=
  match t with
  | Calling c _ => match advance_call (engine σ) (system σ) c with Some _ => true | None => false end
  | Watching ctx => bool_decide (ctx ∈ cancelled σ)
  end.

Lemma internal_dec σ : red internal σ ∨ nf internal σ.
Proof.
  destruct (list_find (fun t => can_step σ t = true) (threads σ)) as [[i t]|] eqn:Hf.
  - left. apply list_find_Some in Hf as (Hi & Ht & _). destruct t as [c ctx|ctx]; cbn in Ht.
    + destruct (advance_call _ _ c) as [[[c' e'] s']|] eqn:Ha; [|done]. eexists. by eapply call_steps.
    + apply bool_decide_eq_true in Ht. eexists. by eapply watcher_wakes.
  - right. apply list_find_None in Hf. rewrite Forall_forall in Hf.
    intros [σ' [i c ctx c' e' s' Hi Ha|i ctx Hi Hd]]; apply list_elem_of_lookup_2 in Hi; apply (Hf _ Hi); cbn;
      [by rewrite Ha|by apply bool_decide_eq_true].
Qed.

Lemma internal_sn σ : sn internal σ.
Proof.
  remember (threads σ) as l eqn:El. pose proof (threads_sn tstep all_threads_acc l) as Hl. revert σ El.
  induction Hl as [l _ IH]. intros σ ->. constructor. intros σ' Hs. eapply IH; [|done]. by apply internal_threads.
Qed.

Lemma internal_ends σ : exists σ', rtc internal σ σ' ∧ nf internal σ'.
Proof.
  induction (internal_sn σ) as [σ _ IH]. destruct (internal_dec σ) as [[σ1 H1]|Hn]; [|by exists σ; split; [apply rtc_refl|]].
  destruct (IH σ1 H1) as (σ' & Hr & Hn). exists σ'. split; [by eapply rtc_l|done].
Qed.
End process.

(** * What holds in every state *)

Section invariant.
Context `{Externals} {S : Type} `{!EngineSystem S} `{!EngineView S} `{!EngineLaws S} `{!ExclusiveServers S}.
Context (cfg : Config.Config) (o : setting -> bool).

#[local] Abbreviation x := (setting_of cfg).
#[local] Abbreviation process := (process (S := S)).

(** A goroutine that waits is a call of Stop that has not begun. *)
Definition call_of (t : thread (S := S)) : call := match t with Calling c _ => c | Watching _ => Stopping Called end.

Definition waits_for (ctx : nat) (t : thread (S := S)) : Prop := t = Watching ctx ∨ t = Calling (Stopping Called) ctx.

Definition coherent (σ : process) : Prop :=
  orderly cfg o (call_of <$> threads σ, engine σ, system σ) ∧
  erunning (engine σ) = bool_decide (is_Some (session σ)) ∧
  (forall ctx, session σ = Some ctx -> exists i t, threads σ !! i = Some t ∧ waits_for ctx t).

Lemma orderly_more cs c e s : orderly cfg o (cs, e, s) -> fresh_call c = true -> orderly cfg o (cs ++ [c], e, s).
Proof.
  intros (He & Hr & hs & Hf & Hv) Hc. split; [done|]. split; [done|]. exists (hs ++ [None]). split.
  - apply Forall2_app; [done|]. constructor; [|done]. by destruct c as [| | |[]].
  - rewrite app_comm_cons. destruct Hv as [[Hn Hs]|(i & u & b & Hi & Hn & Ha)].
    + left. split; [|done]. apply Forall_app. split; [done|by constructor].
    + right. exists i, u, b. split; [by apply lookup_app_l_Some|]. split; [|done]. intros j h Hj Hh.
      apply lookup_app_Some in Hh as [Hh|[_ Hh]]; [by eapply Hn|]. by apply list_lookup_singleton_Some in Hh as [_ <-].
Qed.

(** With no call under way nothing but the engine's session listens. *)
Lemma orderly_rest cs e s : orderly cfg o (cs, e, s) -> (forall c, c ∈ cs -> ended c || fresh_call c = true) ->
  forall v, up s v = recorded e v ∧ recorded e v = erunning e && serves cfg v.
Proof.
  intros Ho Hc v. pose proof (orderly_sound _ _ _ _ _ Ho) as (Hrec & _ & _ & Hrun & _). split; [|done]. rewrite Hrec.
  destruct (erunning e) eqn:Er; [by apply Hrun|]. cbn. destruct Ho as (_ & _ & hs & Hf & [[_ [Hu _]]|(i & u & b & Hi & _)]); [done|].
  unfold engine_hold in Hi. rewrite Er in Hi. destruct i as [|i]; [done|]. cbn in Hi.
  destruct (Forall2_lookup_r _ _ _ _ _ Hf Hi) as (c & Hc' & Hfit). apply list_elem_of_lookup_2, Hc in Hc'.
  by destruct c as [| | |[]].
Qed.

Lemma orderly_commit cs e s i e' : orderly cfg o (cs, e, s) -> cs !! i = Some (Launching (Done (Ok e'))) -> erunning e' = true.
Proof.
  intros (_ & _ & hs & Hf & _) Hi. destruct (Forall2_lookup_l _ _ _ _ _ Hf Hi) as (h & _ & Hfit). cbn in Hfit. by destruct Hfit as (_ & _ & _ & ?).
Qed.

(** What a step of a call does to the session. *)
Lemma session_steps e s c c' e' s' ctx m :
  advance_call e s c = Some (c', e', s') -> (forall e1, c = Launching (Done (Ok e1)) -> erunning e1 = true) ->
  erunning e = bool_decide (is_Some m) -> erunning e' = bool_decide (is_Some (session_after c ctx m)).
Proof.
  intros Ha He Hm. destruct c as [now|[[e1|err]|B k p]|r|[|err [|a rest]|err]]; cbn in *; try (by simplify_eq).
  - injection Ha as _ <- _. by apply He.
  - destruct (k s). by simplify_eq.
  - destruct (act _ _ a). by simplify_eq.
Qed.

Lemma internal_coherent σ σ' : coherent σ -> internal σ σ' -> coherent σ'.
Proof.
  intros (Ho & Hr & Hw) [i c ctx c' e' s' Hi Ha|i ctx Hi Hd].
  - assert (Hi' : (call_of <$> threads σ) !! i = Some c) by (by rewrite list_lookup_fmap, Hi).
    pose proof (overlap_orderly _ _ _ _ Ho (overlap_step i c c' _ _ _ _ _ Hi' Ha)) as Ho'. split; [|split]; cbn [threads session engine system].
    + rewrite fmap_app, list_fmap_insert. cbn [call_of].
      assert (Hcw : call_of <$> watcher c ctx = [] ∨ call_of <$> watcher c ctx = [Stopping Called])
        by (clear; destruct c as [|[[]|]| |]; auto).
      destruct Hcw as [->| ->]; [by rewrite app_nil_r|by apply orderly_more].
    + eapply session_steps; [exact Ha| |exact Hr]. intros e1 ->. by apply (orderly_commit _ _ _ _ _ Ho Hi').
    + assert (Hold : session_after c ctx (session σ) = session σ -> c <> Stopping Called ->
        forall k, session σ = Some k -> exists j t, (<[i := Calling c' ctx]> (threads σ) ++ watcher c ctx) !! j = Some t ∧ waits_for k t).
      { intros _ Hc k Hk. destruct (Hw k Hk) as (j & t & Hj & Ht). exists j, t. split; [|done]. apply lookup_app_l_Some.
        rewrite list_lookup_insert_ne; [done|]. intros <-. rewrite Hi in Hj. injection Hj as <-. by destruct Ht as [?|[= ? ?]]. }
      destruct c as [now|[[e1|err]|B k p]|r|[|err rest|err]]; try (by apply Hold); [|done].
      intros k [= ->]. exists (length (threads σ)), (Watching k). split; [|by left].
      rewrite lookup_app_r by (by rewrite length_insert). by rewrite length_insert, Nat.sub_diag.
  - split; [|split]; cbn [threads session engine system]; [|done|].
    + rewrite list_fmap_insert. cbn [call_of]. rewrite list_insert_id; [done|]. by rewrite list_lookup_fmap, Hi.
    + intros k Hk. destruct (Hw k Hk) as (j & t & Hj & Ht). destruct (decide (i = j)) as [<-|Hij].
      * exists i, (Calling (Stopping Called) ctx). rewrite list_lookup_insert_eq by (by eapply lookup_lt_Some). split; [done|].
        rewrite Hi in Hj. injection Hj as <-. destruct Ht as [[= ->]|?]; [by right|done].
      * exists j, t. by rewrite list_lookup_insert_ne.
Qed.

Lemma step_coherent σ σ' : coherent σ -> process_step σ σ' -> coherent σ'.
Proof.
  intros Hs [Hi|He]; [by eapply internal_coherent|]. destruct Hs as (Ho & Hr & Hw). destruct He as [c ctx Hc|ctx]; [|done].
  split; [|split]; cbn [threads session engine system]; [|done|].
  - rewrite fmap_app. by apply orderly_more.
  - intros k Hk. destruct (Hw k Hk) as (j & t & Hj & Ht). exists j, t. split; [by apply lookup_app_l_Some|done].
Qed.

Lemma steps_coherent σ σ' : coherent σ -> rtc process_step σ σ' -> coherent σ'.
Proof. intros Hs Hr. induction Hr; [done|]. eauto using step_coherent. Qed.

(** When nothing goes on by itself any more, the session that runs has a context that is
    not cancelled. *)
Lemma advance_ended e s c : advance_call e s c = None -> ended c = true.
Proof.
  destruct c as [now|[[]|B m k]|r|[|err [|a rest]|err]]; try done; cbn; [by destruct (m s)|]. by destruct (act _ _ a).
Qed.

Lemma settled σ : coherent σ -> nf internal σ ->
  forallb at_rest (threads σ) = true ∧ forall ctx, session σ = Some ctx -> Watching ctx ∈ threads σ ∧ ctx ∉ cancelled σ.
Proof.
  intros (Ho & Hr & Hw) Hn.
  assert (Hcall : forall i c ctx, threads σ !! i = Some (Calling c ctx) -> ended c = true).
  { intros i c ctx Hi. destruct (advance_call (engine σ) (system σ) c) as [[[c' e'] s']|] eqn:Ea; [|by eapply advance_ended].
    destruct Hn. eexists. by eapply call_steps. }
  assert (Hwatch : forall i ctx, threads σ !! i = Some (Watching ctx) -> ctx ∉ cancelled σ).
  { intros i ctx Hi Hd. destruct Hn. eexists. by eapply watcher_wakes. }
  split.
  - apply forallb_forall. intros t Ht%list_elem_of_In%list_elem_of_lookup. destruct Ht as [i Hi]. destruct t as [c ctx|ctx]; [|done].
    cbn. by rewrite (Hcall i c ctx).
  - intros ctx Hk. destruct (Hw ctx Hk) as (i & t & Hi & [->| ->]); [split; [by eapply list_elem_of_lookup_2|by eapply Hwatch]|].
    by apply Hcall in Hi.
Qed.

(** A session belongs to a Start that was under way. *)
Definition starts_with (ctx : nat) (t : thread (S := S)) : Prop :=
  match t with Calling (Starting _ | Launching _) k => k = ctx | _ => False end.

Lemma session_origin σ σ' ctx : internal σ σ' -> session σ' = Some ctx ∨ (exists t, t ∈ threads σ' ∧ starts_with ctx t) ->
  session σ = Some ctx ∨ exists t, t ∈ threads σ ∧ starts_with ctx t.
Proof.
  intros [i c k c' e' s' Hi Ha|i k Hi Hd]; cbn [threads session]; intros [Hs|(t & Ht & Hst)].
  - destruct c as [|[[]|]| |[]]; cbn in Hs; auto; [|done].
    injection Hs as ->. right. eexists. split; [by eapply list_elem_of_lookup_2|done].
  - apply elem_of_app in Ht as [Ht|Ht].
    + right. apply list_elem_of_lookup in Ht as [j Hj]. apply list_lookup_insert_Some in Hj as [(<- & <- & _)|[_ Hj]];
        [|exists t; split; [by eapply list_elem_of_lookup_2|done]].
      exists (Calling c k). split; [by eapply list_elem_of_lookup_2|].
      destruct c as [|[[]|]| |[|? []|]]; cbn in Ha; simplify_eq; cbn in *; try done; repeat case_match; by simplify_eq.
    + destruct c as [|[[]|]| |]; cbn in Ht; try (by apply elem_of_nil in Ht). by apply list_elem_of_singleton in Ht as ->.
  - by left.
  - right. apply list_elem_of_lookup in Ht as [j Hj]. apply list_lookup_insert_Some in Hj as [(<- & <- & _)|[_ Hj]]; [done|].
    exists t. split; [by eapply list_elem_of_lookup_2|done].
Qed.

Lemma session_origins σ σ' ctx : rtc internal σ σ' -> session σ' = Some ctx ->
  session σ = Some ctx ∨ exists t, t ∈ threads σ ∧ starts_with ctx t.
Proof.
  intros Hr Hs. cut (session σ' = Some ctx ∨ exists t, t ∈ threads σ' ∧ starts_with ctx t); [|by left]. clear Hs.
  induction Hr as [|a b c Hab _ IH]; [done|]. intros Hc. by eapply session_origin, IH.
Qed.

Lemma rest_calls σ : forallb at_rest (threads σ) = true -> forall c, c ∈ call_of <$> threads σ -> ended c || fresh_call c = true.
Proof.
  rewrite forallb_forall. intros Hr c ([c' ctx|ctx] & -> & Ht)%list_elem_of_fmap; [|done].
  apply (Hr (Calling c' ctx)). by apply list_elem_of_In.
Qed.
End invariant.

Lemma initial_coherent `{Externals} {S : Type} `{!EngineSystem S} `{!EngineView S} cfg e (s : S) :
  New cfg = Ok e -> (forall v, up s v = false) -> coherent (ecfg e) (on s) (initial e s).
Proof.
  intros Hn Hu. assert (Hz : erunning e = false ∧ forall v, recorded e v = false) by (unfold New in Hn; inv_ok Hn; by split; [|intros []]).
  destruct Hz as [Hz1 Hz2]. split; [by apply orderly_start|]. by split.
Qed.

(** C3: goroutines may call Start and Stop of an engine and cancel contexts at any time,
    and all calls and the goroutines that Start leaves behind interleave between any two
    calls into the system, whatever fails.  When an address can be listened on once, then
    at every moment only services of the mode listen and no other setting has changed;
    while the engine runs, exactly the services of its mode listen and its setting is in
    place; and whenever no call is under way, what listens is what the engine has handles
    of, which is nothing if it does not run. *)
Theorem session_invariant `{Externals} {S : Type} `{!EngineSystem S} `{!EngineView S} `{!EngineLaws S} `{!ExclusiveServers S} cfg e (s : S) σ :
  New cfg = Ok e -> (forall v, up s v = false) -> rtc process_step (initial e s) σ ->
  (forall v, up (system σ) v = true -> serves (ecfg e) v = true) ∧
  (forall y, Some y <> setting_of (ecfg e) -> on (system σ) y = on s y) ∧
  (erunning (engine σ) = true ->
    (forall v, up (system σ) v = serves (ecfg e) v) ∧ forall y, setting_of (ecfg e) = Some y -> on (system σ) y = true) ∧
  (forallb at_rest (threads σ) = true -> forall v,
    up (system σ) v = recorded (engine σ) v ∧ recorded (engine σ) v = erunning (engine σ) && serves (ecfg e) v).
Proof.
  intros Hn Hu Hr. destruct (steps_coherent _ _ _ _ (initial_coherent _ _ _ Hn Hu) Hr) as [Ho _].
  pose proof (orderly_sound _ _ _ _ _ Ho) as (_ & H1 & H2 & H3 & _). split_and!; [done..|].
  intros Hq. by apply (orderly_rest _ _ _ _ _ Ho), rest_calls.
Qed.


(** * Calls one after the other *)

(** [Engine.step] takes a whole call of Start or Stop as one step.  It is what a process
    does in which every call returns before the next begins, and a process can always do
    so. *)
Section sequential.
Context `{Externals} {S : Type} `{!EngineSystem S}.
#[local] Abbreviation process := (process (S := S)).

Definition waiting (ths : list (thread (S := S))) : list nat := omap (fun t => match t with Watching ctx => Some ctx | _ => None end) ths.

Definition represents (σ : process) (q : Session (S := S)) : Prop :=
  engine σ = seng q ∧ system σ = ssys q ∧ waiting (threads σ) ≡ₚ swatch q.

(** A call alone goes through its steps and may leave a goroutine behind. *)
Definition runs_alone (c : call (S := S)) (ctx : nat) (e : Engine) (s : S) (m : option nat)
    (c' : call) (e' : Engine) (s' : S) (m' : option nat) (new : list thread) : Prop :=
  forall ths d i, ths !! i = Some (Calling c ctx) ->
  rtc internal {| threads := ths; cancelled := d; session := m; engine := e; system := s |}
    {| threads := <[i := Calling c' ctx]> ths ++ new; cancelled := d; session := m'; engine := e'; system := s' |}.

Lemma runs_refl c ctx e s m : runs_alone c ctx e s m c e s m [].
Proof. intros ths d i Hi. rewrite list_insert_id, app_nil_r by done. apply rtc_refl. Qed.

Lemma runs_step c ctx e s m c1 e1 s1 c' e' s' m' new :
  advance_call e s c = Some (c1, e1, s1) -> watcher c ctx = [] -> runs_alone c1 ctx e1 s1 (session_after c ctx m) c' e' s' m' new ->
  runs_alone c ctx e s m c' e' s' m' new.
Proof.
  intros Ha Hw Hr ths d i Hi. pose proof (lookup_lt_Some _ _ _ Hi) as Hlt.
  specialize (Hr (<[i := Calling c1 ctx]> ths) d i (list_lookup_insert_eq _ _ _ Hlt)).
  rewrite list_insert_insert_eq in Hr. eapply rtc_l; [|exact Hr].
  pose proof (call_steps {| threads := ths; cancelled := d; session := m; engine := e; system := s |} i c ctx c1 e1 s1 Hi Ha) as Hs.
  rewrite Hw, app_nil_r in Hs. exact Hs.
Qed.

Lemma launch_alone p ctx e s m :
  match exec p s with
  | (Ok e', s') => runs_alone (Launching p) ctx e s m (Started (Ok tt)) e' s' (Some ctx) [Watching ctx]
  | (Err err, s') => runs_alone (Launching p) ctx e s m (Started (Err err)) e s' m []
  end.
Proof.
  revert s. induction p as [[e'|err]|B k c IH]; intros s; cbn [exec].
  - intros ths d i Hi. apply rtc_once.
    by apply (call_steps {| threads := ths; cancelled := d; session := m; engine := e; system := s |} i (Launching (Done (Ok e'))) ctx).
  - by eapply runs_step; [| |apply runs_refl].
  - specialize (IH (k s).1 (k s).2). destruct (exec (c (k s).1) (k s).2) as [[e'|err] s'];
      (eapply runs_step; [|done|exact IH]; cbn; by destruct (k s)).
Qed.

Lemma start_alone_runs e now ctx s m r e' s' : Start e now s = (r, e', s') ->
  runs_alone (Starting now) ctx e s m (Started r) e' s' (if is_ok r then Some ctx else m) (if is_ok r then [Watching ctx] else []).
Proof.
  unfold Start. intros HS. destruct (erunning e) eqn:Hrun.
  { simplify_eq. eapply runs_step; [cbn; by rewrite Hrun|done|apply runs_refl]. }
  pose proof (launch_alone (steps (launch e now)) ctx e s m) as Hl. rewrite exec_steps in Hl.
  destruct (launch e now s) as [[e1|err] s1]; simplify_eq; (eapply runs_step; [cbn; by rewrite Hrun|done|exact Hl]).
Qed.

Lemma tear_alone err rest ctx e s m : runs_alone (Stopping (Tearing err rest)) ctx e s m
  (Stopping (Returned (foldl (act (ecfg e)) (err, s) rest).1)) (with_lastErr e (foldl (act (ecfg e)) (err, s) rest).1)
  (foldl (act (ecfg e)) (err, s) rest).2 m [].
Proof.
  revert err s. induction rest as [|a rest IH]; intros err s; [by eapply runs_step; [| |apply runs_refl]|].
  cbn [foldl]. destruct (act (ecfg e) (err, s) a) as [err1 s1] eqn:Ea. eapply runs_step; [cbn; by rewrite Ea|done|apply IH].
Qed.

Lemma stop_alone e ctx s m err e' s' : Stop e s = (err, e', s') ->
  runs_alone (Stopping Called) ctx e s m (Stopping (Returned err)) e' s' None [].
Proof.
  rewrite Stop_todo. intros HS. eapply runs_step; [done|done|]. destruct (idle e); [simplify_eq; apply runs_refl|].
  pose proof (tear_alone None (todo e) ctx (stopped e (elastErr e)) s None) as Ht.
  change (ecfg (stopped e (elastErr e))) with (ecfg e) in Ht. destruct (foldl _ _ _) as [err1 s1]. by simplify_eq.
Qed.

Lemma waiting_app l k : waiting (l ++ k) = waiting l ++ waiting k.
Proof. unfold waiting. apply omap_app. Qed.

Lemma waiting_insert ths i t t' w : ths !! i = Some t -> waiting [t] = w -> waiting [t'] = [] -> waiting ths ≡ₚ w ++ waiting (<[i := t']> ths).
Proof.
  intros Hi Hw Ht'. rewrite insert_take_drop by (by eapply lookup_lt_Some). rewrite <-(take_drop_middle ths i t Hi) at 1.
  change (t :: ?l) with ([t] ++ l). change (t' :: ?l) with ([t'] ++ l). rewrite !waiting_app, Hw, Ht'. cbn. by rewrite Permutation_app_swap_app.
Qed.

(** A call made, run to its end and returned. *)
Lemma call_alone (σ : process) c ctx c' e' s' m' new :
  fresh_call c = true -> runs_alone c ctx (engine σ) (system σ) (session σ) c' e' s' m' new ->
  rtc process_step σ {| threads := threads σ ++ Calling c' ctx :: new; cancelled := cancelled σ; session := m'; engine := e'; system := s' |}.
Proof.
  intros Hc Hr. eapply rtc_l; [right; by apply (new_call σ c ctx)|]. eapply (rtc_subrel internal); [by left|].
  specialize (Hr (threads σ ++ [Calling c ctx]) (cancelled σ) (length (threads σ))).
  rewrite insert_app_r_alt, Nat.sub_diag, <-app_assoc in Hr by done. apply Hr. by rewrite lookup_app_r, Nat.sub_diag by done.
Qed.

Lemma sequential_steps q q' : step q q' -> forall σ, represents σ q -> exists σ', rtc process_step σ σ' ∧ represents σ' q'.
Proof.
  intros Hs σ (He & Hss & Hw).
  destruct Hs as [e s w ctx now e' s' HS|e s w now err e' s' HS|e s w err e' s' HS|e s w1 ctx w2 err e' s' HS]; cbn in He, Hss; subst e s.
  - eexists. split; [exact (call_alone σ (Starting now) ctx _ _ _ _ _ eq_refl (start_alone_runs _ _ _ _ _ _ _ _ HS))|].
    split; [done|]. split; [done|]. cbn. rewrite waiting_app. cbn in *. by rewrite Hw, Permutation_app_comm.
  - eexists. split; [exact (call_alone σ (Starting now) 0 _ _ _ _ _ eq_refl (start_alone_runs _ _ 0 _ _ _ _ _ HS))|].
    split; [done|]. split; [done|]. cbn. rewrite waiting_app. cbn in *. by rewrite Hw, app_nil_r.
  - eexists. split; [exact (call_alone σ (Stopping Called) 0 _ _ _ _ _ eq_refl (stop_alone _ 0 _ _ _ _ _ HS))|].
    split; [done|]. split; [done|]. cbn. rewrite waiting_app. cbn in *. by rewrite Hw, app_nil_r.
  - destruct σ as [ths d m e0 s0]. cbn in Hw, HS. assert (Hin : ctx ∈ waiting ths) by (rewrite Hw; set_solver).
    apply list_elem_of_omap in Hin as (t & Ht & Htc). destruct t as [|k]; [done|]. injection Htc as ->.
    apply list_elem_of_lookup in Ht as [i Hi]. pose proof (lookup_lt_Some _ _ _ Hi) as Hlt.
    pose proof (waiting_insert ths i _ (Calling (Stopping Called) ctx) [ctx] Hi eq_refl eq_refl) as Hp.
    pose proof (stop_alone _ ctx _ m _ _ _ HS (<[i := Calling (Stopping Called) ctx]> ths) ({[ctx]} ∪ d) i (list_lookup_insert_eq _ _ _ Hlt)) as Hm.
    rewrite list_insert_insert_eq, app_nil_r in Hm. eexists. split; [|split; [|split]].
    + eapply rtc_l; [right; apply (cancels _ ctx)|]. eapply rtc_l; [left; apply (watcher_wakes _ i ctx); [done|cbn; set_solver]|].
      eapply (rtc_subrel internal); [by left|exact Hm].
    + done.
    + done.
    + cbn. pose proof (waiting_insert ths i _ (Calling (Stopping (Returned err)) ctx) [ctx] Hi eq_refl eq_refl) as Hq.
      rewrite Hw in Hq. cbn in Hq. rewrite <-Permutation_middle in Hq. by apply Permutation_cons_inv in Hq.
Qed.

Lemma sequential_is_process q q' : rtc step q q' -> forall σ, represents σ q -> exists σ', rtc process_step σ σ' ∧ represents σ' q'.
Proof.
  induction 1 as [q|q q1 q' Hs _ IH]; intros σ Hσ; [by exists σ; split; [apply rtc_refl|]|].
  destruct (sequential_steps _ _ Hs σ Hσ) as (σ1 & Hr1 & H1). destruct (IH σ1 H1) as (σ' & Hr & H2).
  exists σ'. split; [by etrans|done].
Qed.
End sequential.

(** * Witnesses *)

Section process_witnesses.
#[local] Existing Instance simple_externals.
#[local] Existing Instance simple_system.
#[local] Existing Instance simple_view.
#[local] Existing Instance simple_laws.

#[local] Instance simple_exclusive_servers : ExclusiveServers Sys.
Proof. split; intros c m d r s Hs; cbn in *; unfold opens; by rewrite Hs. Qed.

(** A session is started with context 7; then its context is cancelled. *)
Definition running_process : process (S := Sys) :=
  {| threads := [Calling (Started (Ok tt)) 7; Watching 7]; cancelled := ∅; session := Some 7; engine := session1.1.2; system := session1.2 |}.
Definition cancelled_process : process (S := Sys) :=
  {| threads := [Calling (Started (Ok tt)) 7; Watching 7]; cancelled := {[7]} ∪ ∅; session := Some 7; engine := session1.1.2; system := session1.2 |}.

Lemma running_reached : rtc process_step (initial fresh (([], []) : Sys)) running_process.
Proof. exact (call_alone (initial fresh (([], []) : Sys)) (Starting 1%Z) 7 _ _ _ _ _ eq_refl (start_alone_runs _ _ 7 _ None _ _ _ session1_eq)). Qed.

Lemma cancelled_reached : rtc process_step (initial fresh (([], []) : Sys)) cancelled_process.
Proof. eapply rtc_r; [exact running_reached|]. right. apply (cancels running_process). Qed.

Lemma session_invariant_witness :
  (forall v, up session1.2 v = serves pac_config v) ∧ on session1.2 SetSystemProxy = true.
Proof.
  destruct (session_invariant pac_config fresh ([], []) _ fresh_New quiet_start running_reached) as (_ & _ & Hrun & _).
  destruct (Hrun eq_refl) as [Hu Hs]. split; [exact Hu|exact (Hs SetSystemProxy eq_refl)].
Defined.

Lemma no_start_under_way ctx : (exists t, t ∈ threads cancelled_process ∧ starts_with ctx t) -> False.
Proof. intros (t & Ht & Hs). cbn in Ht. rewrite !elem_of_cons, elem_of_nil in Ht. by destruct Ht as [->|[->|[]]]. Qed.

End process_witnesses.
