(* ===== verification/Flags.v ===== *)
(** Go's flag package: the parsing of a command's arguments, as the commands of
    src/cmd/steam-accelerator/main.go use it, and the flags they define. *)
From stdpp Require Import strings.
From Stdlib Require Import Ascii.
From S2P Require Import Prelude GoStrings.

Inductive kind :=
| StringFlag
| BoolFlag
| IntFlag.

(** The flags a command defines, with their kinds. *)
Definition FlagSet := list (gostring * kind).

Definition lookup_flag (formal : FlagSet) (name : gostring) : option kind :=
  snd <$> List.find (fun nk => bool_decide (nk.1 = name)) formal.

Definition ErrHelp : error := ErrorVar "flag.ErrHelp".

(** strconv.ParseBool *)
Definition ParseBool (s : gostring) : result bool :=
  if bool_decide (s ∈ ["1"; "t"; "T"; "true"; "TRUE"; "True"]) then Ok true
  else if bool_decide (s ∈ ["0"; "f"; "F"; "false"; "FALSE"; "False"]) then Ok false
  else Err (Errorf "parse error" []).

Definition FormatBool (b : bool) : gostring := if b then "true" else "false".

(** *** strconv.ParseInt with base 0

    A sign, a prefix that tells the base, digits, and underscores between digits. *)
Definition errSyntax : error := Errorf "parse error" [].
Definition errRange : error := Errorf "value out of range" [].

Definition zero_byte : byte := "0"%char.
Definition underscore : byte := "_"%char.

Definition digit_value (c : byte) : option N :=
  if is_digit c then Some (code c - 48)%N
  else let l := lower_byte c in
       if ((97 <=? code l) && (code l <=? 122))%N then Some (code l - 87)%N else None.

(** The letter of a base prefix. *)
Definition base_letter (s : gostring) : option N :=
  match s with
  | z :: l :: _ =>
      if negb (bool_decide (z = zero_byte)) then None
      else if bool_decide (lower_byte l = "b"%char) then Some 2%N
      else if bool_decide (lower_byte l = "o"%char) then Some 8%N
      else if bool_decide (lower_byte l = "x"%char) then Some 16%N
      else None
  | _ => None
  end.

Definition base_of (s : gostring) : N * gostring :=
  match base_letter s, s with
  | Some b, _ :: _ :: (_ :: _) as rest => (b, drop 2 s)
  | _, z :: rest => if bool_decide (z = zero_byte) then (8%N, rest) else (10%N, s)
  | _, [] => (10%N, s)
  end.

(** What was seen last: a digit or the prefix, an underscore, something else. *)
Inductive seen := SeenNothing | SeenDigit | SeenUnderscore | SeenOther.

Fixpoint underscores_between (hex : bool) (last : seen) (s : gostring) : bool :=
  match s with
  | [] => match last with SeenUnderscore => false | _ => true end
  | c :: s' =>
      if is_digit c || (hex && ((97 <=? code (lower_byte c)) && (code (lower_byte c) <=? 102))%N)
      then underscores_between hex SeenDigit s'
      else if bool_decide (c = underscore)
      then match last with SeenDigit => underscores_between hex SeenUnderscore s' | _ => false end
      else match last with SeenUnderscore => false | _ => underscores_between hex SeenOther s' end
  end.

Definition underscoreOK (s : gostring) : bool :=
  match base_letter s with
  | Some b => underscores_between (b =? 16)%N SeenDigit (drop 2 s)
  | None => underscores_between false SeenNothing s
  end.

Fixpoint uint_digits (base acc : N) (s : gostring) : result N :=
  match s with
  | [] => Ok acc
  | c :: s' =>
      if bool_decide (c = underscore) then uint_digits base acc s'
      else match digit_value c with
           | Some d => if (base <=? d)%N then Err errSyntax
                       else let acc' := (acc * base + d)%N in
                            if (2 ^ 64 <=? acc')%N then Err errRange else uint_digits base acc' s'
           | None => Err errSyntax
           end
  end.

Definition ParseUint (s : gostring) : result N :=
  if bool_decide (s = []) then Err errSyntax
  else
    let '(base, ds) := base_of s in
    do n <- uint_digits base 0 ds;
    if bool_decide (underscore ∈ s) && negb (underscoreOK s) then Err errSyntax else Ok n.

Definition ParseInt (s : gostring) : result Z :=
  let '(neg, digits) := match s with
                        | c :: s' => if bool_decide (c = "-"%char) then (true, s')
                                     else if bool_decide (c = "+"%char) then (false, s') else (false, s)
                        | [] => (false, [])
                        end in
  do n <- ParseUint digits;
  if negb neg && (2 ^ 63 <=? n)%N then Err errRange
  else if neg && (2 ^ 63 <? n)%N then Err errRange
  else Ok (if neg : bool then - Z.of_N n else Z.of_N n)%Z.

Example parseint_1 : ParseInt "0x1F" = Ok 31%Z. Proof. reflexivity. Qed.
Example parseint_2 : ParseInt "-0b11" = Ok (-3)%Z. Proof. reflexivity. Qed.
Example parseint_3 : ParseInt "1_000" = Ok 1000%Z. Proof. reflexivity. Qed.
Example parseint_4 : ParseInt "0_7" = Ok 7%Z. Proof. reflexivity. Qed.
Example parseint_5 : ParseInt "_7" = Err errSyntax. Proof. reflexivity. Qed.
Example parseint_6 : ParseInt "9223372036854775808" = Err errRange. Proof. reflexivity. Qed.
Example parseint_7 : ParseInt "-9223372036854775808" = Ok (- 2 ^ 63)%Z. Proof. reflexivity. Qed.
Example parseint_8 : ParseInt "0x" = Err errSyntax. Proof. reflexivity. Qed.
Example parseint_9 : ParseInt "0" = Ok 0%Z. Proof. reflexivity. Qed.

(** The name of an argument that looks like a flag, without its dashes. *)
Definition flag_name (s : gostring) : option gostring :=
  match CutPrefix s "--" with
  | Some name => Some name
  | None => CutPrefix s "-"
  end.

(** A name with a value behind the first equals sign. *)
Definition name_value (s : gostring) : gostring * option gostring :=
  let '(name, value, found) := Cut s "=" in
  (name, if (found : bool) then Some value else None).

(** FlagSet.Parse: the values of the flags that were given, and what is left of the
    arguments. *)
Fixpoint Parse (formal : FlagSet) (args : list gostring) (actual : gmap gostring gostring)
  : result (gmap gostring gostring * list gostring) :=
  match args with
  | [] => Ok (actual, [])
  | s :: rest =>
      match flag_name s with
      | None => Ok (actual, args)
      | Some [] => if bool_decide (s = "--") then Ok (actual, rest) else Ok (actual, args)
      | Some name =>
          if HasPrefix name "-" || HasPrefix name "=" then Err (Errorf "bad flag syntax: %s" [s])
          else
            let '(name, value) := name_value name in
            match lookup_flag formal name with
            | None =>
                if bool_decide (name = "help") || bool_decide (name = "h") then Err ErrHelp
                else Err (Errorf "flag provided but not defined: -%s" [name])
            | Some BoolFlag =>
                match value with
                | None => Parse formal rest (<[name := FormatBool true]> actual)
                | Some v =>
                    match ParseBool v with
                    | Ok b => Parse formal rest (<[name := FormatBool b]> actual)
                    | Err e => Err (Errorf "invalid boolean value %q for -%s: %v" [v; name])
                    end
                end
            | Some StringFlag =>
                match value, rest with
                | Some v, _ => Parse formal rest (<[name := v]> actual)
                | None, v :: rest' => Parse formal rest' (<[name := v]> actual)
                | None, [] => Err (Errorf "flag needs an argument: -%s" [name])
                end
            | Some IntFlag =>
                match value, rest with
                | Some v, _ =>
                    match ParseInt v with
                    | Ok z => Parse formal rest (<[name := Itoa z]> actual)
                    | Err e => Err (Errorf "invalid value %q for flag -%s: %v" [v; name])
                    end
                | None, v :: rest' =>
                    match ParseInt v with
                    | Ok z => Parse formal rest' (<[name := Itoa z]> actual)
                    | Err e => Err (Errorf "invalid value %q for flag -%s: %v" [v; name])
                    end
                | None, [] => Err (Errorf "flag needs an argument: -%s" [name])
                end
            end
      end
  end.

(** The value of a flag; a flag that was not given has the default, which is empty or
    false for all flags of the program. *)
Definition stringOf (actual : gmap gostring gostring) (name : gostring) : gostring := default [] (actual !! name).
Definition boolOf (actual : gmap gostring gostring) (name : gostring) : bool :=
  bool_decide (actual !! name = Some (FormatBool true)).

Definition intOf (actual : gmap gostring gostring) (name : gostring) : Z :=
  match actual !! name with
  | Some v => match ParseInt v with Ok z => z | Err _ => 0%Z end
  | None => 0%Z
  end.

Definition visited (actual : gmap gostring gostring) (name : gostring) : bool := bool_decide (is_Some (actual !! name)).

Example parse_1 :
  (fun r => rmap (fun p => (map_to_list p.1, p.2)) r)
    (Parse [("mode", StringFlag); ("allow-lan", BoolFlag)] ["--mode"; "pac"; "-allow-lan=F"; "x"; "--mode"; "dns"]%go ∅) =
  Ok ([("allow-lan", "false"); ("mode", "pac")]%go, ["x"; "--mode"; "dns"]%go).
Proof. vm_compute. reflexivity. Qed.
Example parse_2 : is_ok (Parse [("mode", StringFlag)] ["--mode"]%go ∅) = false. Proof. reflexivity. Qed.
Example parse_3 : is_ok (Parse [("mode", StringFlag)] ["---mode"; "x"]%go ∅) = false. Proof. reflexivity. Qed.

(** * Lemmas *)

(** ** Numbers *)

Definition dec_step (acc : N) (c : byte) : N := (acc * 10 + (code c - 48))%N.

Lemma dec_step_grows s acc : (acc <= foldl dec_step acc s)%N.
Proof. revert acc. induction s as [|c s IH]; intros acc; cbn; [done|]. etrans; [|apply IH]. unfold dec_step. lia. Qed.

Lemma uint_digits_dec s acc :
  forallb is_digit s = true -> (foldl dec_step acc s < 2 ^ 64)%N -> uint_digits 10 acc s = Ok (foldl dec_step acc s).
Proof.
  revert acc. induction s as [|c s IH]; intros acc; [done|]. cbn [forallb foldl uint_digits]. intros [Hc Hs]%andb_true_iff Hlt.
  rewrite bool_decide_eq_false_2 by (by intros ->). unfold digit_value. rewrite Hc.
  unfold is_digit in Hc. rewrite andb_true_iff, !N.leb_le in Hc. rewrite (proj2 (N.leb_gt _ _)) by lia.
  pose proof (dec_step_grows s (dec_step acc c)) as Hg. fold (dec_step acc c). rewrite (proj2 (N.leb_gt _ _)) by lia. by apply IH.
Qed.

Lemma Itoa_fuel_head fuel n c s : (0 < n)%N -> (n < 10 ^ N.of_nat fuel)%N -> Itoa_fuel fuel n [] = c :: s -> c <> zero_byte.
Proof.
  revert n s. induction fuel as [|fuel IH]; intros n s Hp Hn; [done|]. cbn [Itoa_fuel]. destruct (N.ltb_spec n 10) as [Hlt|Hge].
  - intros [= <- _] Hz. apply (f_equal code) in Hz. rewrite digit_code, N.mod_small in Hz by (by rewrite ?N.mod_small).
    change (code zero_byte) with 48%N in Hz. lia.
  - rewrite Itoa_fuel_acc. assert (Hq : (0 < n / 10)%N) by (apply N.div_str_pos; lia).
    assert (Hq' : (n / 10 < 10 ^ N.of_nat fuel)%N) by (apply N.Div0.div_lt_upper_bound; rewrite Nat2N.inj_succ, N.pow_succ_r' in Hn; exact Hn).
    destruct (Itoa_fuel fuel (n / 10) []) as [|c' s'] eqn:E; cbn; [|intros [= <- _]; by eapply IH].
    intros _. pose proof (Itoa_fuel_value fuel (n / 10) Hq') as Hv. rewrite E in Hv. cbn in Hv. lia.
Qed.

Lemma ItoaN_head n c s : (0 < n)%N -> ItoaN n = c :: s -> c <> zero_byte.
Proof.
  intros Hp. apply Itoa_fuel_head; [done|]. rewrite Nat2N.inj_succ, N2Nat.id. eapply N.lt_le_trans; [apply N.size_gt|].
  etrans; [apply N.pow_le_mono_r; [lia|apply N.le_succ_diag_r]|]. apply N.pow_le_mono_l. lia.
Qed.

Lemma ParseUint_ItoaN n : (n < 2 ^ 64)%N -> ParseUint (ItoaN n) = Ok n.
Proof.
  intros Hn. destruct (N.eq_dec n 0) as [->|Hz]; [reflexivity|]. unfold ParseUint.
  rewrite bool_decide_eq_false_2 by apply ItoaN_nonempty. pose proof (ItoaN_digits n) as Hd. pose proof (ItoaN_value n) as Hv.
  assert (Hb : base_of (ItoaN n) = (10%N, ItoaN n)).
  { destruct (ItoaN n) as [|c s] eqn:E; [done|]. pose proof (ItoaN_head n c s ltac:(lia) E) as Hc. unfold base_of, base_letter.
    destruct s as [|c' s]; rewrite ?(bool_decide_eq_false_2 (c = zero_byte)) by done; done. }
  assert (Hf : foldl dec_step 0%N (ItoaN n) = n) by exact Hv.
  rewrite Hb, uint_digits_dec by (rewrite ?Hf; done). rewrite Hf. cbn [rbind].
  rewrite bool_decide_eq_false_2; [done|]. intros Hin. rewrite forallb_forall in Hd. by apply list_elem_of_In, Hd in Hin.
Qed.

Lemma ParseInt_Itoa z : (0 <= z < 2 ^ 63)%Z -> ParseInt (Itoa z) = Ok z.
Proof.
  intros [H0 Hlt]. unfold ParseInt, Itoa. rewrite (proj2 (Z.ltb_ge _ _)) by done.
  pose proof (ItoaN_digits (Z.to_N z)) as Hd. destruct (ItoaN (Z.to_N z)) as [|c s] eqn:E; [by apply ItoaN_nonempty in E|].
  cbn [forallb] in Hd. apply andb_true_iff in Hd as [Hc _].
  rewrite !bool_decide_eq_false_2 by (by intros ->). rewrite <-E, ParseUint_ItoaN by (apply N2Z.inj_lt; rewrite Z2N.id by done; cbn; lia). cbn.
  rewrite (proj2 (N.leb_gt _ _)) by (apply N2Z.inj_lt; rewrite Z2N.id by done; done). by rewrite Z2N.id.
Qed.

(** ** Arguments *)

(** A name a flag can have on the command line. *)
Definition plain_name (name : gostring) : bool :=
  negb (bool_decide (name = [])) && negb (HasPrefix name "-") && negb (bool_decide ("="%char ∈ name)).

Definition render (l : list (gostring * gostring)) : list gostring :=
  flat_map (fun nv => ["--" ++ nv.1; nv.2]) l.

Lemma flag_name_long name : flag_name ("--" ++ name) = Some name.
Proof. unfold flag_name. by rewrite (proj2 (CutPrefix_Some ("--" ++ name) "--" name) eq_refl). Qed.

Lemma name_value_plain name : "="%char ∉ name -> name_value name = (name, None).
Proof.
  intros Hn. unfold name_value, Cut. change "="%go with ["="%char]. by rewrite (proj2 (Index_byte_None name "="%char) Hn).
Qed.

(** What a flag makes of the argument behind it. *)
Definition given_value (k : kind) (v : gostring) : option gostring :=
  match k with
  | StringFlag => Some v
  | IntFlag => match ParseInt v with Ok z => Some (Itoa z) | Err _ => None end
  | BoolFlag => None
  end.

Lemma Parse_given formal name k v x rest m :
  plain_name name = true -> lookup_flag formal name = Some k -> given_value k v = Some x ->
  Parse formal (("--" ++ name) :: v :: rest) m = Parse formal rest (<[name := x]> m).
Proof.
  unfold plain_name. intros Hp Hk Hx. boolify. cbn [Parse]. rewrite flag_name_long.
  destruct name as [|c name]; [done|]. set (n := c :: name) in *.
  replace (HasPrefix n "=") with false.
  2: { symmetry. unfold HasPrefix. apply bool_decide_eq_false_2. intros [r Hr]. apply CutPrefix_Some in Hr. subst n. cbn in Hr.
       injection Hr as -> ->. match goal with Hx : "="%char ∉ _ |- _ => apply Hx; by left end. }
  match goal with Hx : HasPrefix n "-" = false |- _ => rewrite Hx end. cbn [orb].
  rewrite name_value_plain by done. rewrite Hk. destruct k; [by injection Hx as ->|done|].
  cbn in Hx. destruct (ParseInt v); [by injection Hx as ->|done].
Qed.

(** Flags given as separate arguments set exactly their values, whatever the values
    look like, and the last of several values for a flag counts. *)
Theorem Parse_render formal l rest m :
  Forall (fun nv => plain_name nv.1 = true ∧ lookup_flag formal nv.1 = Some StringFlag) l ->
  Parse formal (render l ++ rest) m = Parse formal rest (foldl (fun m nv => <[nv.1 := nv.2]> m) m l).
Proof.
  intros Hl. revert m. induction Hl as [|[name value] l [Hp Hk] Hl IH]; intros m; [done|].
  etrans; [|apply IH]. by apply (Parse_given formal name StringFlag).
Qed.

Lemma Parse_render_witness :
  Parse [("mode", StringFlag); ("listen", StringFlag)] ["--mode"; "pac"; "--listen"; "--mode"; "--mode"; "dns"]%go ∅ =
  Ok (<[("mode" : gostring) := ("dns" : gostring)]> (<[("listen" : gostring) := ("--mode" : gostring)]>
        (<[("mode" : gostring) := ("pac" : gostring)]> ∅)), []).
Proof.
  etrans; [apply (Parse_render [("mode", StringFlag); ("listen", StringFlag)]
    [("mode", "pac"); ("listen", "--mode"); ("mode", "dns")]%go [] ∅)|reflexivity].
  repeat (apply Forall_cons; split; [split; reflexivity|]). apply Forall_nil_2.
Defined.
