(* ===== verification/Status.v ===== *)
(** The status of a session: Engine.Status (src/internal/engine/engine.go) and the
    lines that the commands start and status print of it
    (src/cmd/steam-accelerator/main.go).

    What the running servers count themselves is an interface, as in the source. *)
From stdpp Require Import strings relations.
From Stdlib Require Import Ascii.
From S2P Require Import Prelude GoStrings GoNet External World Rules Profile Provider.
From S2P Require Import Resolver DnsIntercept Upstream Config Engine Flags.
From S2P Require PageEnhance.

(** What the engine asks its servers for, and the file system for the rollback file. *)
Class EngineProbe (S : Type) := {
  activeConns : S -> service -> Z;
  dnsServerStatus : S -> DNSStatus;
  pageEnhanceStatus : S -> option PageEnhance.Status;
  hasRollbackState : S -> gostring -> bool;
}.

Record Status := {
  Running : bool;
  SMode : gostring;
  ListenAddr : gostring;
  PACURL : gostring;
  HostsHTTP : gostring;
  HostsHTTPS : gostring;
  DNSIntercept : option DNSStatus;
  PageEnhanceOf : option PageEnhance.Status;
  ResolverMode : gostring;
  ResolverServers : list gostring;
  UpstreamProfiles : nat;
  HasRollback : bool;
  CertInstalled : bool;
  StartupProbes : list ProbeResult;
  StartedAt : Time;
  LastError : gostring;
  RuleSetNameOf : gostring;
  RuleSetVersionOf : gostring;
  RuleSetUpdatedAtOf : gostring;
  ProvidersOf : list Summary;
  RuleCountOf : nat;
  ActiveConns : Z;
  SystemChanges : list SystemChange;
}.

Section status.
Context {S : Type} `{!EngineSystem S} `{!EngineProbe S}.

Definition with_system_dns (b : bool) (d : DNSStatus) : DNSStatus :=
  {| DStrategy := DStrategy d; DListenAddr := DListenAddr d; DSystemDNS := b; DCounters := DCounters d |}.

Definition EngineStatus (e : Engine) (s : S) : Status :=
  {| Running := erunning e;
     SMode := Mode (ecfg e);
     ListenAddr := default [] (eproxy e);
     PACURL := epacURL e;
     HostsHTTP := default [] (fst <$> ereverse e);
     HostsHTTPS := default [] (snd <$> ereverse e);
     DNSIntercept :=
       if edns e
       then Some (if bool_decide (Strategy (DNS (ecfg e)) = DNSInterceptSystem)
                  then with_system_dns (erunning e) (dnsServerStatus s) else dnsServerStatus s)
       else None;
     PageEnhanceOf := if ereverse e is Some _ then pageEnhanceStatus s else None;
     ResolverMode := RMode (eresolver e);
     ResolverServers := Servers (eresolver e);
     UpstreamProfiles := eupstreamProfiles e;
     HasRollback := hasRollbackState s (RtRollbackPath (Runtime (ecfg e)));
     CertInstalled := ecertOK e;
     StartupProbes := estartupProbes e;
     StartedAt := estartedAt e;
     LastError := if elastErr e is Some err then error_text err else [];
     RuleSetNameOf := InfoName (eruleSet e);
     RuleSetVersionOf := InfoVersion (eruleSet e);
     RuleSetUpdatedAtOf := InfoUpdatedAt (eruleSet e);
     ProvidersOf := eproviders e;
     RuleCountOf := eruleCount e;
     ActiveConns :=
       match ereverse e, eproxy e with
       | Some _, _ => activeConns s SvcReverse
       | None, Some _ => activeConns s SvcProxy
       | None, None => 0%Z
       end;
     SystemChanges := esystemChanges e |}.
End status.

(** * Output *)

(** [prefix] and [text], unless the text is empty. *)
Definition opt (prefix text : gostring) : gostring := if bool_decide (text = []) then [] else prefix ++ text.
Definition opt_line (prefix text : gostring) : gostring := if bool_decide (text = []) then [] else prefix ++ text ++ nl.
Definition opt_num (prefix : gostring) (n : nat) : gostring := if (0 <? n)%nat then prefix ++ ItoaNat n else [].

Definition printProvider (p : Summary) : gostring :=
  if bool_decide (SID p = []) then []
  else "provider: id=" ++ SID p ++ " status=" ++ SStatus p ++
       (if bool_decide (SRuleSetName p = []) then [] else " rule_set=" ++ SRuleSetName p ++ opt "@" (SRuleSetVersion p)) ++
       opt_num " profiles=" (SOutboundProfiles p) ++ opt_num " probes=" (SProbeTargets p) ++ nl.
Definition printProviders (status : Status) : gostring := flat_map printProvider (ProvidersOf status).

Definition truncateProbeError (err : gostring) : gostring :=
  let err := TrimSpace err in
  if (length err <=? 320)%nat then err else take 320 err ++ "...".

Definition printFailedProbe (p : ProbeResult) : gostring :=
  if ROK p then []
  else "startup_probe_failed:" ++ opt " provider=" (RProviderID p) ++ " host=" ++ RHost p ++
       opt " target=" (RTarget p) ++ opt " stage=" (RStage p) ++
       (if bool_decide (RError p = []) then [] else " error=" ++ truncateProbeError (RError p)) ++ nl.

Definition okCount (probes : list ProbeResult) : nat := foldl (fun n p => if ROK p then S n else n) 0 probes.

Definition printStartupProbes (probes : list ProbeResult) : gostring :=
  match probes with
  | [] => []
  | _ => "startup_probes: ok=" ++ ItoaNat (okCount probes) ++ " failed=" ++
           Itoa (Z.of_nat (length probes) - Z.of_nat (okCount probes)) ++ nl ++ flat_map printFailedProbe probes
  end.

Definition printRuleSet (status : Status) : gostring :=
  if bool_decide (RuleSetNameOf status = []) then []
  else "rule_set: " ++ RuleSetNameOf status ++ opt "@" (RuleSetVersionOf status) ++ nl.

Definition printDNSIntercept (status : Status) : gostring :=
  match DNSIntercept status with
  | None => []
  | Some d =>
      let c := DCounters d in
      "dns_intercept: strategy=" ++ DStrategy d ++ " listen=" ++ DListenAddr d ++ " system_dns=" ++ FormatBool (DSystemDNS d) ++
      " target=" ++ Itoa (targetQueries c) ++ " forwarded=" ++ Itoa (forwardedQueries c) ++ " cache_hits=" ++ Itoa (cacheHits c) ++
      " blocked=" ++ Itoa (blockedQueries c) ++ " errors=" ++ Itoa (errorQueries c) ++ nl
  end.

Definition printPageEnhance (status : Status) : gostring :=
  match PageEnhanceOf status with
  | None => []
  | Some p =>
      "page_enhance: enabled=" ++ FormatBool (PageEnhance.StEnabled p) ++ " on_error=" ++ PageEnhance.StOnError p ++
      " transforms=" ++ ItoaNat (PageEnhance.StTransforms p) ++ " assets=" ++ ItoaNat (PageEnhance.StAssets p) ++
      " applied=" ++ Itoa (PageEnhance.StApplied p) ++ " skipped=" ++ Itoa (PageEnhance.StSkipped p) ++
      " errors=" ++ Itoa (PageEnhance.StErrors p) ++ nl
  end.

Definition printSystemChange (c : SystemChange) : gostring :=
  if bool_decide (Component c = []) then []
  else "system_change: component=" ++ Component c ++ " action=" ++ Action c ++ " status=" ++ ChStatus c ++
       opt " detail=" (Detail c) ++ nl.
Definition printSystemChanges (changes : list SystemChange) : gostring := flat_map printSystemChange changes.

(** The lines that start and status have in common. *)
Definition printAddresses (status : Status) : gostring :=
  opt_line "proxy: " (ListenAddr status) ++ opt_line "pac_url: " (PACURL status) ++
  opt_line "hosts_http: " (HostsHTTP status) ++ opt_line "hosts_https: " (HostsHTTPS status).

Definition printDetails (status : Status) : gostring :=
  printDNSIntercept status ++ printPageEnhance status ++ opt_line "resolver: " (ResolverMode status) ++
  (if bool_decide (ResolverServers status = []) then [] else "resolver_servers: " ++ Join (ResolverServers status) "," ++ nl) ++
  (if (0 <? UpstreamProfiles status)%nat then "upstream_profiles: " ++ ItoaNat (UpstreamProfiles status) ++ nl else []) ++
  printProviders status ++ printRuleSet status ++ printSystemChanges (SystemChanges status) ++
  printStartupProbes (StartupProbes status).

Definition printStarted (status : Status) (statePath : gostring) : gostring :=
  "steam-accelerator-core started" ++ nl ++ printAddresses status ++ printDetails status ++ "state: " ++ statePath ++ nl.

(** [rfc3339] formats a time to the second. *)
Definition printStatus (rfc3339 : Time -> gostring) (status : Status) : gostring :=
  "running: " ++ FormatBool (Running status) ++ nl ++ "mode: " ++ SMode status ++ nl ++
  printAddresses status ++ printDetails status ++
  "rollback: " ++ FormatBool (HasRollback status) ++ nl ++
  (if bool_decide (SMode status = ModeHosts) then "cert_installed: " ++ FormatBool (CertInstalled status) ++ nl else []) ++
  "active_conns: " ++ Itoa (ActiveConns status) ++ nl ++
  (if bool_decide (StartedAt status = 0%Z) then [] else "started_at: " ++ rfc3339 (StartedAt status) ++ nl) ++
  opt_line "last_error: " (LastError status).

(** * Properties *)

(** ** The probes *)

Lemma okCount_filter probes : okCount probes = length (List.filter ROK probes).
Proof.
  unfold okCount. cut (forall n, foldl (fun n p => if ROK p then S n else n) n probes = n + length (List.filter ROK probes)); [by intros ->|].
  induction probes as [|p ps IH]; intros n; cbn; [lia|]. rewrite IH. destruct (ROK p); cbn; lia.
Qed.

Lemma truncateProbeError_bounds err : length (truncateProbeError err) <= 323 ∧
  (length (TrimSpace err) <= 320 -> truncateProbeError err = TrimSpace err).
Proof.
  unfold truncateProbeError. destruct (Nat.leb_spec (length (TrimSpace err)) 320); [split; [lia|done]|].
  split; [|lia]. rewrite length_app, length_take. change (length _) with 3 at 2. lia.
Qed.

(** The report of the probes: the counts add up, and one line follows for each probe
    that failed, with at most 323 characters of its error. *)
Lemma printStartupProbes_spec probes :
  probes <> [] ->
  printStartupProbes probes =
    "startup_probes: ok=" ++ ItoaNat (length (List.filter ROK probes)) ++ " failed=" ++
    ItoaNat (length (List.filter (fun p => negb (ROK p)) probes)) ++ nl ++
    flat_map printFailedProbe (List.filter (fun p => negb (ROK p)) probes).
Proof.
  intros Hne. unfold printStartupProbes. destruct probes as [|p0 ps]; [done|]. remember (p0 :: ps) as probes eqn:E. clear.
  rewrite okCount_filter.
  assert (Hsum : length (List.filter ROK probes) + length (List.filter (fun p => negb (ROK p)) probes) = length probes).
  { induction probes as [|p ps IH]; [done|]. cbn. destruct (ROK p); cbn; lia. }
  replace (Z.of_nat (length probes) - Z.of_nat (length (List.filter ROK probes)))%Z
    with (Z.of_nat (length (List.filter (fun p => negb (ROK p)) probes))) by lia.
  assert (Hmap : flat_map printFailedProbe probes = flat_map printFailedProbe (List.filter (fun p => negb (ROK p)) probes)).
  { clear. induction probes as [|p ps IH]; [done|]. cbn. destruct (ROK p) eqn:E; cbn; [|by f_equal].
    rewrite IH. unfold printFailedProbe at 1. by rewrite E. }
  rewrite Hmap. do 4 f_equal. unfold Itoa, ItoaNat. destruct (Z.ltb_spec (Z.of_nat (length (List.filter (fun p => negb (ROK p)) probes))) 0); [lia|].
  f_equal. lia.
Qed.

(** ** The status of a session *)

Section session_status.
Context `{Externals} {S : Type} `{!EngineSystem S} `{!EngineView S} `{!EngineLaws S} `{!EngineProbe S}.

(** A URL of the PAC server is recorded with the server, and an engine that does not
    run has no handles and no details. *)
Definition tidy (e : Engine) : Prop :=
  (epac e = false -> epacURL e = []) ∧ (erunning e = false -> e = stopped e (elastErr e)).

Lemma tidy_stopped e err : tidy (stopped e err).
Proof. done. Qed.

Lemma launchProxy_pac cfg m d r s l s' : launchProxy cfg m d r s = (Ok l, s') -> lPAC l = false -> lPACURL l = [].
Proof.
  unfold launchProxy. rewrite io_bind_Ok. intros (addr & s1 & _ & Hl). revert Hl. rewrite io_bind_Ok. intros (u & s2 & _ & Hl).
  revert Hl. rewrite io_bind_Ok. intros ([] & s3 & _ & Hl). injection Hl as <- <-. by destruct u.
Qed.

Lemma launchHosts_pac cfg m ps d r s l s' : launchHosts cfg m ps d r s = (Ok l, s') -> lPACURL l = [].
Proof.
  unfold launchHosts. rewrite io_bind_Ok. intros (es & s1 & _ & Hl). revert Hl. rewrite io_bind_Ok. intros (pr & s2 & _ & Hl).
  revert Hl. rewrite io_bind_Ok. intros (ad & s3 & _ & Hl). revert Hl. rewrite io_bind_Ok. intros (p & s4 & _ & Hl).
  by injection Hl as <- <-.
Qed.

Lemma launchDNS_pac cfg m ps d r rc s l s' : launchDNS cfg m ps d r rc s = (Ok l, s') -> lPACURL l = [].
Proof.
  unfold launchDNS. rewrite io_bind_Ok. intros ([c ch] & s1 & _ & Hl). revert Hl. rewrite io_bind_Ok. intros (pr & s2 & _ & Hl).
  revert Hl. rewrite io_bind_Ok. intros (ad & s3 & _ & Hl). revert Hl. rewrite io_bind_Ok. intros (f & s4 & _ & Hl).
  revert Hl. rewrite io_bind_Ok. intros (sv & s5 & _ & Hl). revert Hl. rewrite io_bind_Ok. intros ([] & s6 & _ & Hl).
  revert Hl. rewrite io_bind_Ok. intros (ap & s7 & _ & Hl). by injection Hl as <- <-.
Qed.

Lemma launch_tidy e now s e' s' : launch e now s = (Ok e', s') -> tidy e'.
Proof.
  unfold launch. rewrite io_bind_Ok. intros (m & s1 & _ & Hl). revert Hl. rewrite io_bind_Ok. intros (ps & s2 & _ & Hl).
  revert Hl. rewrite io_bind_Ok. intros (d & s3 & _ & Hl). revert Hl. rewrite io_bind_Ok. intros (l & s4 & Hm & Hl).
  injection Hl as <- <-. split; [|done]. cbn. intros Hp.
  destruct (bool_decide (Mode (ecfg e) = ModeHosts)); [by eapply launchHosts_pac|].
  destruct (bool_decide (Mode (ecfg e) = ModeDNS)); [by eapply launchDNS_pac|]. by eapply launchProxy_pac.
Qed.

Lemma Stop_stopped e s err e' s' : Stop e s = (err, e', s') -> exists err', e' = stopped e err'.
Proof.
  unfold Stop. destruct (_ && _); [intros [= <- <- <-]; by eexists|].
  destruct (stopOne _ _ _) as [x y]. intros [= <- <- <-]. by eexists.
Qed.

Lemma step_tidy σ σ' : tidy (seng σ) -> step σ σ' -> tidy (seng σ').
Proof.
  intros Ht Hs. destruct Hs as [e s w ctx now e' s' HS|e s w now err e' s' HS|e s w err e' s' HS|e s w1 ctx w2 err e' s' HS];
    cbn [seng] in *; [| |destruct (Stop_stopped _ _ _ _ _ HS) as [x ->]; apply tidy_stopped..].
  - unfold Start in HS. destruct (erunning e); [done|]. destruct (launch e now s) as [[e1|er] s1] eqn:El; simplify_eq. by eapply launch_tidy.
  - unfold Start in HS. destruct (erunning e); [by simplify_eq|]. destruct (launch e now s) as [[e1|er] s1]; by simplify_eq.
Qed.

Lemma session_tidy cfg e s σ : New cfg = Ok e -> rtc step {| seng := e; ssys := s; swatch := [] |} σ -> tidy (seng σ).
Proof.
  intros Hn Hr. assert (Ht : tidy e) by (unfold New in Hn; inv_ok Hn; done).
  remember {| seng := e; ssys := s; swatch := [] |} as σ0 eqn:E. replace e with (seng σ0) in Ht by (by subst). clear E.
  induction Hr as [|x y z Hs Hr IH]; [done|]. eauto using step_tidy.
Qed.

(** C30: the status tells the truth: in every reachable state of a process that starts,
    stops and cancels sessions, an address or a server it shows belongs to a service
    that listens, the DNS server is shown exactly while it listens, and of a session
    that does not run no address and no detail is printed. *)
Theorem status_faithful cfg e s σ :
  New cfg = Ok e -> (forall v, up s v = false) -> rtc step {| seng := e; ssys := s; swatch := [] |} σ ->
  let st := EngineStatus (seng σ) (ssys σ) in
  let listens := up (ssys σ) in
  Running st = erunning (seng σ) ∧
  (ListenAddr st <> [] -> listens SvcProxy = true) ∧ (PACURL st <> [] -> listens SvcPAC = true) ∧
  (HostsHTTP st <> [] ∨ HostsHTTPS st <> [] ∨ is_Some (PageEnhanceOf st) -> listens SvcReverse = true) ∧
  (is_Some (DNSIntercept st) <-> listens SvcDNS = true) ∧
  (ActiveConns st <> 0%Z -> listens SvcReverse = true ∨ listens SvcProxy = true) ∧
  (Running st = false -> printAddresses st ++ printDetails st = []).
Proof.
  intros Hn Hup Hr. cbn zeta.
  destruct (sessions_sound _ _ _ _ (New_sound _ _ _ Hn Hup) Hr) as (_ & [Hu _] & _ & _).
  destruct (session_tidy _ _ _ _ Hn Hr) as [Hpac Hblank]. set (e1 := seng σ) in *. rewrite !Hu. cbn [recorded].
  split; [done|]. split; [|split; [|split; [|split; [|split]]]].
  - cbn. by destruct (eproxy e1).
  - cbn. destruct (epac e1); [done|]. by intros []; apply Hpac.
  - cbn. destruct (ereverse e1); [done|]. by intros [?|[?|[? ?]]].
  - cbn. destruct (edns e1); split; intros Hx; first [done|by eexists|by destruct Hx].
  - cbn. destruct (ereverse e1); [by left|]. destruct (eproxy e1); [by right|done].
  - intros Hrun. by rewrite (Hblank Hrun).
Qed.
End session_status.

(** * A witness *)

Section status_witness.
#[local] Existing Instance simple_externals.
#[local] Existing Instance simple_system.
#[local] Existing Instance simple_view.
#[local] Existing Instance simple_laws.

#[local] Instance simple_probe : EngineProbe Sys := {|
  activeConns _ _ := 2%Z;
  dnsServerStatus _ := {| DStrategy := []; DListenAddr := []; DSystemDNS := false;
    DCounters := {| targetQueries := 0; forwardedQueries := 0; cacheHits := 0; blockedQueries := 0; errorQueries := 0 |} |};
  pageEnhanceStatus _ := None;
  hasRollbackState _ _ := false;
|}.

Lemma status_faithful_witness :
  PACURL (EngineStatus session1.1.2 session1.2) = "http://127.0.0.1:26502/proxy.pac"%go ∧ up session1.2 SvcPAC = true.
Proof.
  split; [reflexivity|].
  destruct (status_faithful pac_config fresh ([], []) _ fresh_New quiet_start (session1_reached 0)) as (_ & _ & Hp & _).
  by apply Hp.
Defined.
End status_witness.
