(* ===== verification/Cli.v ===== *)
(** The command line (src/cmd/steam-accelerator/main.go): the commands start, stop,
    status and restore, around the engine, the control server and the state files.

    The configuration file, the control client and the calls into the privileged
    operations are parameters, as are the outcomes of the calls to the system. *)
From stdpp Require Import strings.
From Stdlib Require Import Ascii.
From S2P Require Import Prelude GoStrings GoNet External World Rollback Config Flags.
From S2P Require Hosts SystemDns SystemProxy Runtime Status.

(** * Arguments *)

(** An argument that uses a removed flag. *)
Definition hasLegacyFlag (args : list gostring) (name : gostring) : bool :=
  existsb (fun arg => bool_decide (arg = "--" ++ name) || HasPrefix arg ("--" ++ name ++ "=") ||
                      bool_decide (arg = "-" ++ name) || HasPrefix arg ("-" ++ name ++ "=")) args.

Definition startFlags : FlagSet :=
  [("config", StringFlag); ("mode", StringFlag); ("listen", StringFlag); ("pac-listen", StringFlag); ("hosts-http", StringFlag);
   ("hosts-https", StringFlag); ("dns-listen", StringFlag); ("non-target", StringFlag); ("allow-lan", BoolFlag);
   ("state", StringFlag); ("control", StringFlag)]%go.
Definition stateFlags : FlagSet := [("config", StringFlag); ("state", StringFlag)]%go.
Definition restoreFlags : FlagSet := [("config", StringFlag); ("rollback", StringFlag)]%go.
Definition certFlags : FlagSet := [("config", StringFlag); ("cert-dir", StringFlag)]%go.

(** The value of a flag that was given, otherwise the configured one. *)
Definition pick (actual : gmap gostring gostring) (name configured : gostring) : gostring :=
  if visited actual name then stringOf actual name else configured.

Definition applyStartOverrides (cfg : Config) (a : gmap gostring gostring) : Config :=
  {| Mode := pick a "mode" (Mode cfg);
     ProvidersEnabled := ProvidersEnabled cfg;
     DNS := {| DNSEnabled := DNSEnabled (DNS cfg); Strategy := Strategy (DNS cfg);
               DNSListenAddr := pick a "dns-listen" (DNSListenAddr (DNS cfg)); DNSAllowLAN := DNSAllowLAN (DNS cfg);
               Interfaces := Interfaces (DNS cfg); MapIPv4 := MapIPv4 (DNS cfg); MapIPv6 := MapIPv6 (DNS cfg);
               TTL := TTL (DNS cfg); BlockHTTPSRecords := BlockHTTPSRecords (DNS cfg) |};
     Proxy := {| PxListenAddr := pick a "listen" (PxListenAddr (Proxy cfg));
                 NonTargetBehavior := pick a "non-target" (NonTargetBehavior (Proxy cfg));
                 PxAllowLAN := if visited a "allow-lan" then boolOf a "allow-lan" else PxAllowLAN (Proxy cfg);
                 ReadHeaderTimeout := ReadHeaderTimeout (Proxy cfg); IdleTimeout := IdleTimeout (Proxy cfg);
                 DialTimeout := DialTimeout (Proxy cfg); ShutdownTimeout := ShutdownTimeout (Proxy cfg) |};
     PAC := {| PACListenAddr := pick a "pac-listen" (PACListenAddr (PAC cfg)); PACAllowLAN := PACAllowLAN (PAC cfg) |};
     Hosts := {| HMapIP := HMapIP (Hosts cfg); HTTPListenAddr := pick a "hosts-http" (HTTPListenAddr (Hosts cfg));
                 HTTPSListenAddr := pick a "hosts-https" (HTTPSListenAddr (Hosts cfg)); HAllowLAN := HAllowLAN (Hosts cfg);
                 HPath := HPath (Hosts cfg); ExtraDomains := ExtraDomains (Hosts cfg) |};
     Cert := Cert cfg; Resolver := Resolver cfg; Upstream := Upstream cfg; PageEnhance := PageEnhance cfg;
     SystemServices := SystemServices cfg; CustomDomains := CustomDomains cfg;
     Runtime := {| StatePath := pick a "state" (StatePath (Runtime cfg)); RtRollbackPath := RtRollbackPath (Runtime cfg);
                   ControlAddr := pick a "control" (ControlAddr (Runtime cfg)); StopTimeout := StopTimeout (Runtime cfg) |} |}.

Definition with_runtime (r : RuntimeConfig) (cfg : Config) : Config :=
  {| Mode := Mode cfg; ProvidersEnabled := ProvidersEnabled cfg; DNS := DNS cfg; Proxy := Proxy cfg; PAC := PAC cfg;
     Hosts := Hosts cfg; Cert := Cert cfg; Resolver := Resolver cfg; Upstream := Upstream cfg; PageEnhance := PageEnhance cfg;
     SystemServices := SystemServices cfg; CustomDomains := CustomDomains cfg; Runtime := r |}.

(** A flag of a path counts when it is not blank. *)
Definition unless_blank (given configured : gostring) : gostring := if is_blank given then configured else given.

Section commands.
Context {X : Type} `{Externals} `{Encoding}.
Variable yaml_nodes : gostring -> option Node.
Variable yaml_config : gostring -> Config -> result Config.
Variable defaults : Config.

Definition load (path : gostring) : IO X Config := LoadFile yaml_nodes yaml_config defaults path.

(** The first part of runStart: the configuration the session runs with. *)
Definition startConfig (args : list gostring) : IO X Config :=
  if hasLegacyFlag args "non-steam"
  then io_err (Errorf "--non-steam was removed in v0.7; use --non-target" [])
  else
    io parsed <- io_of (Parse startFlags args ∅);
    io cfg <- load (stringOf parsed.1 "config");
    io_of (Validate (applyStartOverrides cfg parsed.1)).

Definition statePathFromFlags (args : list gostring) : IO X gostring :=
  io parsed <- io_of (Parse stateFlags args ∅);
  io cfg <- load (stringOf parsed.1 "config");
  let rt := Runtime cfg in
  io cfg <- io_of (Validate (with_runtime
    {| StatePath := unless_blank (stringOf parsed.1 "state") (StatePath rt); RtRollbackPath := RtRollbackPath rt;
       ControlAddr := ControlAddr rt; StopTimeout := StopTimeout rt |} cfg));
  io_ret (StatePath (Runtime cfg)).

(** ** Talking to a session *)

Record ControlRequest := { CMethod : gostring; CURL : gostring; CAuthorization : gostring }.

(** The client of the control server: the status code and the body of an answer. *)
Variable client : ControlRequest -> IO X (Z * gostring).
Variable decodeStatus : gostring -> result Status.Status.

Definition statusRequest (st : Runtime.State) : ControlRequest :=
  {| CMethod := "GET"; CURL := Runtime.ControlURL st ++ "/status"; CAuthorization := "Bearer " ++ Runtime.Token st |}.
Definition stopRequest (st : Runtime.State) : ControlRequest :=
  {| CMethod := "POST"; CURL := Runtime.ControlURL st ++ "/stop"; CAuthorization := "Bearer " ++ Runtime.Token st |}.

Definition queryStatus (st : Runtime.State) : IO X Status.Status :=
  io resp <- client (statusRequest st);
  if negb (resp.1 =? 200)%Z then io_err (Errorf "control status returned %s" [Itoa resp.1])
  else io_of (decodeStatus resp.2).

Definition postStop (st : Runtime.State) : IO X unit :=
  io resp <- client (stopRequest st);
  if negb (resp.1 =? 202)%Z then io_err (Errorf "control stop returned %s" [Itoa resp.1]) else io_ret tt.

Definition runningFromState (path : gostring) : IO X bool :=
  try r <- Runtime.ReadState path;
  match r with
  | Err e => if errors_Is e os_ErrNotExist then io_ret false else io_err e
  | Ok st =>
      try q <- queryStatus st;
      match q with
      | Err _ => try _ <- Runtime.RemoveState path; io_ret false
      | Ok _ => io_ret true
      end
  end.

(** What runStatus prints. *)
Definition runStatus (rfc3339 : Time -> gostring) (args : list gostring) : IO X gostring :=
  io path <- statePathFromFlags args;
  try r <- Runtime.ReadState path;
  match r with
  | Err e => if errors_Is e os_ErrNotExist then io_ret ("not running" ++ nl) else io_err e
  | Ok st =>
      try q <- queryStatus st;
      match q with
      | Err _ => try _ <- Runtime.RemoveState path; io_ret ("not running (stale state removed)" ++ nl)
      | Ok status => io_ret (Status.printStatus rfc3339 status)
      end
  end.

(** ** stop *)

Definition Millisecond : Z := 1000000.

(** [times i] is what the [i]-th call of time.Now returns. *)
Variable times : nat -> Time.

(** The loop that waits for the session to end; [None] is a loop that has not ended
    within [fuel] turns. *)
Fixpoint stopLoop (fuel i : nat) (deadline : Time) (path : gostring) (st : Runtime.State) : IO X (option gostring) :=
  match fuel with
  | O => io_ret None
  | S fuel' =>
      if (times i <? deadline)%Z then
        try q <- queryStatus st;
        match q with
        | Err _ => try _ <- Runtime.RemoveState path; io_ret (Some ("stopped" ++ nl))
        | Ok _ => stopLoop fuel' (S i) deadline path st
        end
      else try _ <- Runtime.RemoveState path; io_ret (Some ("stop requested" ++ nl))
  end.

(** What runStop prints. *)
Definition runStop (fuel : nat) (args : list gostring) : IO X (option gostring) :=
  io path <- statePathFromFlags args;
  try r <- Runtime.ReadState path;
  match r with
  | Err e => if errors_Is e os_ErrNotExist then io_ret (Some ("not running" ++ nl)) else io_err e
  | Ok st =>
      try stopped <- postStop st;
      match stopped with
      | Err _ => try _ <- Runtime.RemoveState path; io_ret (Some ("not running (stale state removed)" ++ nl))
      | Ok _ => stopLoop fuel 1 (times 0 + 5000 * Millisecond)%Z path st
      end
  end.

(** ** restore *)

Variable restoreHostsRollback : gostring -> IO X unit.
Variable restoreSystemDNSRollback : gostring -> IO X unit.
Variable restoreSystemProxyRollback : gostring -> IO X unit.

(** The two fields of a rollback file that tell who wrote it. *)
Definition json_meta (j : json) : result (gostring * gostring) :=
  do fs <- as_object j;
  do kind <- get_string fs "kind";
  do mode <- get_string fs "mode";
  Ok (kind, mode).

Definition restoreRollback (path : gostring) : IO X unit :=
  try r <- os_ReadFile path;
  match r with
  | Err e => if errors_Is e os_ErrNotExist then io_err SystemProxy.ErrNoState else io_err e
  | Ok data =>
      io meta <- io_wrap "parse rollback state: %w" [] (io_of (json_decode json_meta data));
      let '(kind, mode) := meta in
      if bool_decide (kind = "hosts") || bool_decide (mode = ModeHosts) then restoreHostsRollback path
      else if bool_decide (kind = SystemDns.StateKind) || bool_decide (mode = ModeDNS) then restoreSystemDNSRollback path
      else restoreSystemProxyRollback path
  end.

Definition runRestore (args : list gostring) : IO X gostring :=
  io parsed <- io_of (Parse restoreFlags args ∅);
  io cfg <- load (stringOf parsed.1 "config");
  let rt := Runtime cfg in
  io cfg <- io_of (Validate (with_runtime
    {| StatePath := StatePath rt; RtRollbackPath := unless_blank (stringOf parsed.1 "rollback") (RtRollbackPath rt);
       ControlAddr := ControlAddr rt; StopTimeout := StopTimeout rt |} cfg));
  try r <- restoreRollback (RtRollbackPath (Runtime cfg));
  match r with
  | Ok _ => io_ret ("restored" ++ nl)
  | Err e =>
      if errors_Is e SystemProxy.ErrNoState || errors_Is e Hosts.ErrNoState || errors_Is e SystemDns.ErrNoState
      then io_ret ("not modified" ++ nl)
      else io_err e
  end.
End commands.

(** * Properties *)

(** ** stop ends *)

Section stop.
Context {X : Type} `{Externals} `{Encoding} (client : ControlRequest -> IO X (Z * gostring)).
Context (decodeStatus : gostring -> result Status.Status) (times : nat -> Time).

Lemma stopLoop_ends path st fuel i w :
  ticks (100 * Millisecond) times -> (1 <= i)%nat -> (52 <= fuel + i)%nat -> (0 < fuel)%nat ->
  exists text w', stopLoop client decodeStatus times fuel i (times 0%nat + 5000 * Millisecond)%Z path st w = (Ok (Some text), w').
Proof.
  intros Ht. revert i w. induction fuel as [|fuel IH]; intros i w Hi Hf Hp; [lia|]. cbn [stopLoop].
  destruct (Z.ltb_spec (times i) (times 0%nat + 5000 * Millisecond)) as [Hlt|Hge].
  - assert (Hbound : (i <= 50)%nat).
    { destruct i as [|k]; [lia|]. by apply (ticks_deadline (100 * Millisecond) times 50 k Ht). }
    unfold io_try. destruct (queryStatus client decodeStatus st w) as [[q|e] w1].
    + apply IH; lia.
    + destruct (Runtime.RemoveState path w1) as [r w2]. by eexists _, _.
  - unfold io_try. destruct (Runtime.RemoveState path w) as [r w2]. by eexists _, _.
Qed.
End stop.

(** The stop command ends: whatever the control server answers and whatever calls
    fail, 51 turns of its loop are enough, and it prints what came of it or returns
    an error. *)
Theorem stop_terminates {X : Type} `{Externals} `{Encoding} yaml_nodes yaml_config defaults client decodeStatus times args (w : World X) :
  ticks (100 * Millisecond) times ->
  (runStop yaml_nodes yaml_config defaults client decodeStatus times 51 args w).1 <> Ok None.
Proof.
  intros Ht. unfold runStop, io_bind. destruct (statePathFromFlags _ _ _ args w) as [[path|e] w1]; [|done].
  unfold io_try at 1. destruct (Runtime.ReadState path w1) as [[st|e] w2].
  - unfold io_try at 1. destruct (postStop client st w2) as [[[]|e] w3].
    + destruct (stopLoop_ends client decodeStatus times path st 51 1 w3 Ht) as (text & w4 & ->); [lia..|done].
    + unfold io_try. by destruct (Runtime.RemoveState path w3).
  - by destruct (errors_Is e os_ErrNotExist).
Qed.

(** ** restore *)

Section restore.
Context {X : Type} `{EncodingLaws}.
Context (hosts dns proxy : gostring -> IO X unit).

(** The fields of the files that the three components write. *)
Definition tagged (kind mode : gostring) (j : json) : Prop := json_utf8 j = true ∧ json_meta j = Ok (kind, mode).

Lemma restoreRollback_read path kind mode j (w w1 : World X) :
  os_ReadFile path w = (Ok (json_Marshal j), w1) -> tagged kind mode j ->
  restoreRollback hosts dns proxy path w =
    (if bool_decide (kind = "hosts") || bool_decide (mode = ModeHosts) then hosts path
     else if bool_decide (kind = SystemDns.StateKind) || bool_decide (mode = ModeDNS) then dns path else proxy path) w1.
Proof.
  intros Hr [Hu Hm]. unfold restoreRollback, io_try. rewrite Hr.
  unfold io_bind, io_wrap, io_of, json_decode. rewrite json_roundtrip by done. cbn [rbind]. rewrite Hm.
  done.
Qed.

Lemma hosts_tagged s : json_utf8 (Hosts.state_json s) = true -> tagged (Hosts.StKind s) (Hosts.StMode s) (Hosts.state_json s).
Proof. by split. Qed.
Lemma dns_tagged s : json_utf8 (SystemDns.state_json s) = true -> tagged (SystemDns.StKind s) (SystemDns.StMode s) (SystemDns.state_json s).
Proof. by split. Qed.
Lemma proxy_tagged s : json_utf8 (SystemProxy.state_json s) = true -> tagged [] (SystemProxy.StMode s) (SystemProxy.state_json s).
Proof.
  intros Hs. split; [done|]. unfold json_meta, SystemProxy.state_json. set (fs := _ ++ _). cbn [as_object rbind].
  destruct s as [ver os mode addr pac services created win mac]. cbn [SystemProxy.StVersion SystemProxy.StOS SystemProxy.StMode
    SystemProxy.StProxyAddr SystemProxy.StPACURL SystemProxy.StServices SystemProxy.StCreatedAt SystemProxy.StWindows
    SystemProxy.StMacOS] in *.
  assert (get_string fs "kind" = Ok []) as -> by (unfold fs; destruct addr, pac, services, win, mac; reflexivity).
  by assert (get_string fs "mode" = Ok mode) as -> by (unfold fs; destruct addr, pac, services, win, mac; reflexivity).
Qed.
End restore.

(** C38: restore undoes what the file says was done: a file the hosts component wrote is
    given to its restore, and so for the system DNS settings and the system proxy;
    where there is no file the answer is that nothing was modified. *)
Theorem restore_dispatch {X : Type} `{EncodingLaws} (hosts dns proxy : gostring -> IO X unit) path (w w1 : World X) :
  (forall s, os_ReadFile path w = (Ok (json_Marshal (Hosts.state_json s)), w1) -> json_utf8 (Hosts.state_json s) = true ->
     Hosts.ours s = true -> restoreRollback hosts dns proxy path w = hosts path w1) ∧
  (forall s, os_ReadFile path w = (Ok (json_Marshal (SystemDns.state_json s)), w1) -> json_utf8 (SystemDns.state_json s) = true ->
     SystemDns.StKind s = SystemDns.StateKind -> SystemDns.StMode s = ModeDNS ->
     restoreRollback hosts dns proxy path w = dns path w1) ∧
  (forall s, os_ReadFile path w = (Ok (json_Marshal (SystemProxy.state_json s)), w1) -> json_utf8 (SystemProxy.state_json s) = true ->
     SystemProxy.StMode s ∈ [ModePAC; ModeSystem] -> restoreRollback hosts dns proxy path w = proxy path w1) ∧
  (faults w = [] -> files w !! path = None -> (restoreRollback hosts dns proxy path w).1 = Err SystemProxy.ErrNoState).
Proof.
  split_and!.
  - intros s Hr Hu Ho. rewrite (restoreRollback_read _ _ _ _ _ _ _ _ _ Hr (hosts_tagged s Hu)).
    change (bool_decide (Hosts.StKind s = "hosts") || bool_decide (Hosts.StMode s = ModeHosts)) with (Hosts.ours s). by rewrite Ho.
  - intros s Hr Hu Hk Hm. rewrite (restoreRollback_read _ _ _ _ _ _ _ _ _ Hr (dns_tagged s Hu)). by rewrite Hk, Hm.
  - intros s Hr Hu Hm. rewrite (restoreRollback_read _ _ _ _ _ _ _ _ _ Hr (proxy_tagged s Hu)).
    apply elem_of_cons in Hm as [-> |[-> |[]%elem_of_nil]%elem_of_cons]; done.
  - intros Hf Hp. unfold restoreRollback, io_try, os_ReadFile. rewrite os_call_healthy by done. by rewrite Hp.
Qed.

(** ** Overriding the mode *)

Lemma LoadFile_valid {X : Type} `{Externals} yaml_nodes yaml_config defaults path (w w' : World X) cfg :
  LoadFile yaml_nodes yaml_config defaults path w = (Ok cfg, w') -> exists c, Validate c = Ok cfg.
Proof.
  unfold LoadFile. destruct (is_blank path); [intros [= Hv _]; eauto|].
  rewrite io_bind_Ok. intros (d & w1 & _ & Hl). revert Hl. rewrite io_bind_Ok. intros (u & w2 & _ & Hl).
  revert Hl. rewrite io_bind_Ok. intros (c & w3 & _ & [= Hv _]). eauto.
Qed.

Lemma Validate_dns_enabled `{ExternalLaws} c c' : Validate c = Ok c' -> (DNSEnabled (DNS c') = true <-> Mode c' = ModeDNS).
Proof.
  unfold Validate. intros Hv. inv_ok Hv. cbn [DNS Mode].
  match goal with Hd : validateDNSConfig _ _ = Ok _ |- _ => by destruct (validateDNS_shape _ _ _ Hd) end.
Qed.

(** A configuration that enables the DNS interception is refused in any other mode. *)
Lemma Validate_dns_mode `{Externals} c : DNSEnabled (DNS c) = true -> normalizeMode (Mode c) <> ModeDNS -> is_ok (Validate c) = false.
Proof.
  intros Hd Hm. unfold Validate, validateMode. destruct (one_of _ _); [|done]. cbn [rbind].
  unfold enableDNS, validateDNSConfig. rewrite (bool_decide_eq_false_2 _ Hm). rewrite Hd. cbn [orb andb negb].
  by destruct (checkStrategy _ _ _).
Qed.

(** A configuration of DNS mode cannot be started in another mode: loading it turns
    the interception on, and the check after the flag --mode is applied refuses an
    interception that is on in another mode. *)
Theorem mode_override_refused {X : Type} `{ExternalLaws} yaml_nodes yaml_config defaults args given rest cfg (w w1 : World X) :
  Parse startFlags args ∅ = Ok (given, rest) ->
  load yaml_nodes yaml_config defaults (stringOf given "config") w = (Ok cfg, w1) -> Mode cfg = ModeDNS ->
  visited given "mode" = true -> normalizeMode (stringOf given "mode") <> ModeDNS ->
  is_ok (startConfig yaml_nodes yaml_config defaults args w).1 = false.
Proof.
  intros Hp Hl Hm Hv Hn. unfold startConfig. destruct (hasLegacyFlag _ _); [done|].
  unfold io_bind at 1, io_of at 1. rewrite Hp. unfold io_bind. cbn [fst]. rewrite Hl. unfold io_of. cbn [fst].
  apply LoadFile_valid in Hl as [c Hc]. apply Validate_dns_mode; cbn [DNS DNSEnabled Mode applyStartOverrides].
  - by apply (Validate_dns_enabled _ _ Hc).
  - unfold pick. by rewrite Hv.
Qed.

(** * Witnesses *)

Section cli_witnesses.
#[local] Existing Instance simple_externals.
#[local] Existing Instance simple_encoding.

Definition no_nodes (data : gostring) : option Node := None.

(** Every file holds the configuration [c]. *)
Definition the_config (c : Config) (data : gostring) (defaults : Config) : result Config := Ok c.

Definition every_tenth (i : nat) : Time := (Z.of_nat i * (100 * Millisecond))%Z.

Lemma every_tenth_ticking : ticks (100 * Millisecond) every_tenth.
Proof. split; [done|]. intros i. unfold every_tenth, Millisecond. lia. Qed.

Definition deaf (r : ControlRequest) : IO unit (Z * gostring) := io_ret (202%Z, []).

Definition with_files (l : list (gostring * gostring)) : World unit := {| files := list_to_map l; faults := []; sys := tt |}.

Lemma stop_terminates_witness :
  (runStop no_nodes (the_config sample_default) sample_default deaf (fun _ => Err (Errorf "unexpected end of JSON input" [])) every_tenth 51
    [] (with_files [])).1 <> Ok None.
Proof. apply stop_terminates, every_tenth_ticking. Defined.

Definition proxy_state : SystemProxy.State :=
  {| SystemProxy.StVersion := 1; SystemProxy.StOS := "windows"; SystemProxy.StMode := ModePAC;
     SystemProxy.StProxyAddr := "127.0.0.1:26501"; SystemProxy.StPACURL := []; SystemProxy.StServices := [];
     SystemProxy.StCreatedAt := 5%Z; SystemProxy.StWindows := None; SystemProxy.StMacOS := None |}.

Definition proxy_world : World unit := with_files [("/rollback", json_Marshal (SystemProxy.state_json proxy_state))]%go.

Lemma proxy_file : os_ReadFile "/rollback" proxy_world = (Ok (json_Marshal (SystemProxy.state_json proxy_state)), proxy_world).
Proof. vm_compute. reflexivity. Qed.
Lemma proxy_file_utf8 : json_utf8 (SystemProxy.state_json proxy_state) = true.
Proof. vm_compute. reflexivity. Qed.

Definition told (p : gostring) : IO unit unit := io_err (Errorf "restored %s" [p]).

Lemma restore_dispatch_witness :
  restoreRollback (fun _ => io_ret tt) (fun _ => io_ret tt) told "/rollback" proxy_world = told "/rollback" proxy_world.
Proof.
  exact (proj1 (proj2 (proj2 (restore_dispatch (fun _ => io_ret tt) (fun _ => io_ret tt) told "/rollback" proxy_world proxy_world)))
    proxy_state proxy_file proxy_file_utf8 (list_elem_of_here _ _)).
Defined.

Definition dns_world : World unit := with_files [("/cfg", [])]%go.
Definition override_args : list gostring := ["--config"; "/cfg"; "--mode"; "pac"]%go.
Definition override_given : gmap gostring gostring := {[ "config"%go := "/cfg"%go; "mode"%go := "pac"%go ]}.

Lemma override_parses : Parse startFlags override_args ∅ = Ok (override_given, []).
Proof. vm_compute. reflexivity. Qed.
Lemma override_loads : load no_nodes (the_config untidy) sample_default (stringOf override_given "config") dns_world = (Ok tidy, dns_world).
Proof. vm_compute. reflexivity. Qed.
Lemma override_mode : Mode tidy = ModeDNS.
Proof. reflexivity. Qed.
Lemma override_visited : visited override_given "mode" = true.
Proof. vm_compute. reflexivity. Qed.
Lemma override_pac : normalizeMode (stringOf override_given "mode") <> ModeDNS.
Proof. apply (bool_decide_eq_false_1 _). vm_compute. reflexivity. Qed.

Lemma mode_override_refused_witness :
  is_ok (startConfig no_nodes (the_config untidy) sample_default override_args dns_world).1 = false.
Proof.
  exact (mode_override_refused no_nodes (the_config untidy) sample_default override_args override_given [] tidy dns_world dns_world
    override_parses override_loads override_mode override_visited override_pac).
Defined.
End cli_witnesses.
