(* ===== verification/Start.v ===== *)
(** The start command (runStart of src/cmd/steam-accelerator/main.go): one process that
    loads the configuration, starts the engine and the control server, writes the state
    file, waits for its context to end and undoes all of it.

    The process owns the engine's system, the files and the calls its control server
    made.  The goroutine that Engine.Start leaves behind calls Stop when the context ends,
    which a signal can make it do at any time: its steps fall anywhere between the steps
    of the command, those of the command's own Stop among them, and some of them can be
    left when the command returns.  What the outside answers is a record of parameters. *)
From stdpp Require Import strings relations.
From Stdlib Require Import Ascii.
From S2P Require Import Prelude GoStrings GoNet External World Rollback Config Engine Shutdown Flags Status Cli.
From S2P Require SystemProxy Http Runtime.

Section process.
Context {S X : Type} `{Externals} `{Encoding} `{!EngineSystem S} `{!EngineProbe S}.

(** [pwatch] is the goroutine of Engine.Start: how far its call of Stop is. *)
Record Process := {
  psys : S;
  pworld : World X;
  pengine : option Engine;
  pwatch : option phase;
  pcalls : list Runtime.call;
  pout : gostring;
}.

Definition set_world (w : World X) (p : Process) : Process :=
  {| psys := psys p; pworld := w; pengine := pengine p; pwatch := pwatch p; pcalls := pcalls p; pout := pout p |}.
Definition set_engine (e : Engine) (s : S) (p : Process) : Process :=
  {| psys := s; pworld := pworld p; pengine := Some e; pwatch := pwatch p; pcalls := pcalls p; pout := pout p |}.
Definition set_watch (w : option phase) (p : Process) : Process :=
  {| psys := psys p; pworld := pworld p; pengine := pengine p; pwatch := w; pcalls := pcalls p; pout := pout p |}.
Definition add_calls (cs : list Runtime.call) (p : Process) : Process :=
  {| psys := psys p; pworld := pworld p; pengine := pengine p; pwatch := pwatch p; pcalls := pcalls p ++ cs; pout := pout p |}.
Definition add_output (t : gostring) (p : Process) : Process :=
  {| psys := psys p; pworld := pworld p; pengine := pengine p; pwatch := pwatch p; pcalls := pcalls p; pout := pout p ++ t |}.

(** What the outside answers: the random bytes of the token, the listener of the
    control server, the clock, and how the control server's shutdown ends. [meanwhile]
    is what happens to the files while the session runs; [pace] and [during] are the
    numbers of steps the goroutine of Engine.Start takes before an action of the command
    and after a step of its Stop. *)
Record Outside := {
  random : result gostring;
  listen : gostring -> result gostring;
  pid : Z;
  now : Time;
  shutdown : option error;
  served : Runtime.waited;
  meanwhile : World X -> World X;
  pace : nat -> nat;
  during : nat -> nat;
}.

Definition on_world {A} (m : IO X A) : ST Process A := fun p => let '(r, w) := m (pworld p) in (r, set_world w p).

Definition startEngine (o : Outside) (e : Engine) : ST Process Engine := fun p =>
  let '(r, e', s') := Engine.Start e (now o) (psys p) in
  let p' := set_engine e' s' p in
  match r with Ok _ => (Ok e', set_watch (Some Called) p') | Err err => (Err err, p') end.

Definition error_result (err : option error) : result unit := match err with Some e => Err e | None => Ok tt end.

(** [n] steps of the goroutine. *)
Fixpoint goroutine (n : nat) (p : Process) : Process :=
  match n, pwatch p, pengine p with
  | Datatypes.S n', Some w, Some e =>
      match advance e (psys p) w with
      | Some (w', e', s') => goroutine n' (set_watch (Some w') (set_engine e' s' p))
      | None => p
      end
  | _, _, _ => p
  end.

Definition beside (n : nat) : ST Process unit := fun p => (Ok tt, goroutine n p).

(** A Stop of the command from the phase [q] on. *)
Fixpoint stopping (fuel : nat) (o : Outside) (q : phase) : ST Process unit := fun p =>
  match q, fuel, pengine p with
  | Returned err, _, _ => (error_result err, p)
  | _, Datatypes.S fuel', Some e =>
      match advance e (psys p) q with
      | Some (q', e', s') => stopping fuel' o q' (goroutine (during o fuel') (set_engine e' s' p))
      | None => (Ok tt, p)
      end
  | _, _, _ => (Ok tt, p)
  end.

(** A Stop has at most seven steps. *)
Definition stopEngine (o : Outside) : ST Process unit := stopping 7 o Called.

Definition startControl (o : Outside) (c : Runtime.ControlServer) : ST Process Runtime.ControlServer := fun p =>
  let '(r, c', calls) := Runtime.Start c (listen o) in
  (match r with Ok _ => Ok c' | Err e => Err e end, add_calls calls p).

Definition stopControl (o : Outside) (c : Runtime.ControlServer) : ST Process unit := fun p =>
  let '(err, _, calls) := Runtime.Stop c (shutdown o) (served o) in (error_result err, add_calls calls p).

(** The state of the session that the command writes to the state file. *)
Definition sessionState (o : Outside) (cfg : Config.Config) (st : Status) (c : Runtime.ControlServer) (token : gostring) : Runtime.State :=
  {| Runtime.PID := pid o; Runtime.Mode := Config.Mode cfg; Runtime.ProxyAddr := ListenAddr st; Runtime.PACURL := PACURL st;
     Runtime.HostsHTTP := HostsHTTP st; Runtime.HostsHTTPS := HostsHTTPS st; Runtime.ControlURL := Runtime.URL c;
     Runtime.Token := token; Runtime.StartedAt := StartedAt st |}.

Variable yaml_nodes : gostring -> option Node.
Variable yaml_config : gostring -> Config.Config -> result Config.Config.
Variable defaults : Config.Config.
Variable client : ControlRequest -> IO X (Z * gostring).
Variable decodeStatus : gostring -> result Status.

(** The end of a session, once its context is done. *)
Definition endSession (o : Outside) (path : gostring) (c : Runtime.ControlServer) : ST Process unit :=
  io _ <- (fun p => (Ok tt, set_world (meanwhile o (pworld p)) p));
  io _ <- beside (pace o 3);
  try controlErr <- stopControl o c;
  io _ <- beside (pace o 4);
  try engineErr <- stopEngine o;
  try _ <- on_world (Runtime.RemoveState path);
  match controlErr with
  | Err e => io_err e
  | Ok _ => io_of engineErr
  end.

(** From the started engine to the end of the command. *)
Definition runSession (o : Outside) (cfg : Config.Config) (eng : Engine) : ST Process unit :=
  let path := Config.StatePath (Config.Runtime cfg) in
  io token <- io_wrap "generate control token: %w" [] (io_of (Runtime.GenerateToken (random o)));
  io control <- io_of (Runtime.NewControlServer (ControlAddr (Config.Runtime cfg)) token true true);
  io _ <- beside (pace o 0);
  try started <- startControl o control;
  match started with
  | Err e => io _ <- beside (pace o 1); try _ <- stopEngine o; io_err e
  | Ok control =>
      io _ <- beside (pace o 1);
      io st <- (fun p => (Ok (EngineStatus (default eng (pengine p)) (psys p)), p));
      try written <- on_world (Runtime.WriteState path (sessionState o cfg st control token));
      match written with
      | Err e =>
          io _ <- beside (pace o 2); try _ <- stopControl o control;
          io _ <- beside (pace o 3); try _ <- stopEngine o; io_err e
      | Ok _ =>
          io _ <- beside (pace o 2);
          io _ <- (fun p => (Ok tt, add_output (printStarted st path) p));
          endSession o path control
      end
  end.

Definition runStart (o : Outside) (args : list gostring) : ST Process unit :=
  io cfg <- on_world (startConfig yaml_nodes yaml_config defaults args);
  try running <- on_world (runningFromState client decodeStatus (Config.StatePath (Config.Runtime cfg)));
  match running with
  | Ok true => io_err (Errorf "steam-accelerator is already running" [])
  | _ =>
      io eng <- io_of (Engine.New cfg);
      io eng <- startEngine o eng;
      runSession o cfg eng
  end.
End process.

(** * Nothing is left behind *)

Lemma runs_when {T A} (φ : Prop) (P : T -> Prop) (m : ST T A) Q E : (φ -> runs P m Q E) -> runs (fun s => φ ∧ P s) m Q E.
Proof. intros Hm s [Hφ Hs]. by apply Hm. Qed.

Section cleanup.
Context {S X : Type} `{Externals} `{Encoding} `{!EngineSystem S} `{!EngineView S} `{!EngineLaws S} `{!EngineProbe S}.
Context (cfg : Config.Config) (before : setting -> bool).

(** The process has an engine for [cfg] that the goroutine of its session may have begun
    to stop, with the phase [q] of the command's own Stop; its control server listens on
    [addrs]; no setting but the mode's was touched. *)
Definition in_phase (q : phase) (addrs : list gostring) (p : Process (S := S) (X := X)) : Prop :=
  exists e w, pengine p = Some e ∧ pwatch p = Some w ∧ ecfg e = cfg ∧ paired q w e (psys p) ∧
    (forall y, Some y <> setting_of cfg -> on (psys p) y = before y) ∧ foldl Runtime.open_after [] (pcalls p) = addrs.

Definition holding (addrs : list gostring) (p : Process (S := S) (X := X)) : Prop := in_phase (Returned None) addrs p.

(** ... and the engine does not run. *)
Definition off (p : Process (S := S) (X := X)) : Prop := forall e, pengine p = Some e -> erunning e = false.
Definition down (addrs : list gostring) (p : Process (S := S) (X := X)) : Prop := holding addrs p ∧ off p.

Lemma holding_world addrs w (p : Process) : holding addrs p -> holding addrs (set_world w p).
Proof. by intros (e & q & ?); exists e, q. Qed.
Lemma down_world addrs w (p : Process) : down addrs p -> down addrs (set_world w p).
Proof. intros [Hh ?]. split; [by apply holding_world|done]. Qed.
Lemma holding_output addrs t (p : Process) : holding addrs p -> holding addrs (add_output t p).
Proof. by intros (e & q & ?); exists e, q. Qed.

Lemma on_world_runs {A} (P : Process (S := S) -> Prop) (m : IO X A) :
  (forall w p, P p -> P (set_world w p)) -> runs P (on_world m) (fun _ => P) P.
Proof. intros Hp. apply runs_any. intros p Hs. unfold on_world. destruct (m (pworld p)). by apply Hp. Qed.

(** A step of either call. *)
Lemma in_phase_step q q' w w' addrs p e e1 s1 :
  in_phase q addrs p -> pengine p = Some e -> paired q' w' e1 s1 -> keeps e (psys p) e1 s1 -> w = Some w' ->
  in_phase q' addrs (set_watch w (set_engine e1 s1 p)).
Proof.
  intros (e0 & w0 & He & Hw & Hc & _ & Ho & Ha) He' Hp (K1 & K2 & _) ->. rewrite He in He'. injection He' as ->.
  exists e1, w'. split_and!; try done; [by rewrite K1|]. intros y Hy. cbn. rewrite K2 by congruence. auto.
Qed.

Lemma goroutine_phase n q addrs p : in_phase q addrs p ->
  in_phase q addrs (goroutine n p) ∧ (off p -> off (goroutine n p)).
Proof.
  revert p. induction n as [|n IH]; intros p Hp; [done|]. pose proof Hp as (e & w & He & Hw & _ & Hpair & _). cbn [goroutine].
  rewrite He, Hw. destruct (advance e (psys p) w) as [[[w' e'] s']|] eqn:Ea; [|done].
  destruct (advance_beside _ _ _ _ _ _ _ Hpair Ea) as (H1 & H2 & H3).
  destruct (IH (set_watch (Some w') (set_engine e' s' p))) as [H4 H5]; [by eapply in_phase_step|].
  split; [done|]. intros _. apply H5. by intros e2 [= <-].
Qed.

Lemma stopping_runs fuel o q addrs p : in_phase q addrs p -> pending q <= fuel -> (q <> Called -> off p) ->
  down addrs (stopping fuel o q p).2.
Proof.
  revert q p. induction fuel as [|fuel IH]; intros q p Hp Hf Hoff.
  - destruct q as [|err rest|err]; cbn in Hf; [lia|lia|]. split; [|by apply Hoff].
    destruct Hp as (e & w & He & Hw & Hc & Hpair & Ho & Ha). exists e, w. split_and!; try done.
  - pose proof Hp as (e & w & He & Hw & Hc & Hpair & Ho & Ha). destruct (advance e (psys p) q) as [[[q' e'] s']|] eqn:Ea.
    + assert (Hstep : stopping (Datatypes.S fuel) o q p = stopping fuel o q' (goroutine (during o fuel) (set_engine e' s' p))).
      { destruct q; [| |done]; cbn [stopping]; by rewrite He, Ea. }
      rewrite Hstep. destruct (advance_beside _ _ _ _ _ _ _ (paired_sym _ _ _ _ Hpair) Ea) as (H1 & H2 & H3).
      assert (Hp' : in_phase q' addrs (set_engine e' s' p)).
      { pose proof (in_phase_step q q' (Some w) w addrs p e e' s' Hp He (paired_sym _ _ _ _ H1) H2 eq_refl) as (e2 & w2 & He2 & Hw2 & Hin).
        exists e2, w2. split; [exact He2|]. split; [cbn; by rewrite Hw|exact Hin]. }
      destruct (goroutine_phase (during o fuel) _ _ _ Hp') as [H4 H5].
      apply IH; [done|apply advance_pending in Ea; lia|]. intros _. apply H5. by intros e2 [= <-].
    + destruct q as [|err [|a rest]|err]; cbn in Ea; [done|done|by destruct (act _ _ a)|]. cbn. split; [|by apply Hoff].
      exists e, w. by split_and!.
Qed.

Lemma stopEngine_runs o addrs : runs (holding addrs) (stopEngine o) (fun _ => down addrs) (down addrs).
Proof.
  apply runs_any. intros p (e & w & He & Hw & Hc & Hpair & Ho & Ha).
  assert (Hd : down addrs (stopping 7 o Called p).2); [|unfold stopEngine; by destruct (stopping 7 o Called p)].
  apply stopping_runs; [|cbn; lia|done]. exists e, w. split_and!; try done; right; (split; [done|]); by apply paired_returned in Hpair.
Qed.

Lemma beside_runs n addrs : runs (holding addrs) (beside n) (fun _ => holding addrs) (holding addrs).
Proof. intros p Hp. by apply goroutine_phase. Qed.

Lemma stopControl_runs o c : Runtime.control_wf c -> runs (holding (Runtime.listening c)) (stopControl o c) (fun _ => holding []) (holding []).
Proof.
  intros Hw. apply runs_any. intros p (e & w & He & Hpw & Hcfg & Hc & Ho & Ha). unfold stopControl.
  destruct (Runtime.Stop c (shutdown o) (served o)) as [[err c'] calls] eqn:Es.
  destruct (Runtime.perform_wf c (Runtime.DoStop (shutdown o) (served o)) c' calls Hw) as (_ & _ & Hopen);
    [unfold Runtime.perform; by rewrite Es|].
  exists e, w. split_and!; try done. cbn. rewrite foldl_app, Ha, Hopen. unfold Runtime.Stop in Es.
  by destruct (negb (Runtime.server c)); injection Es as <- <- <-.
Qed.

Lemma startControl_runs o c :
  Runtime.control_wf c -> Runtime.listening c = [] ->
  runs (holding []) (startControl o c) (fun c' p => Runtime.control_wf c' ∧ holding (Runtime.listening c') p) (holding []).
Proof.
  intros Hw Hl p (e & w & He & Hpw & Hcfg & Hc & Ho & Ha). unfold startControl.
  destruct (Runtime.Start c (listen o)) as [[r c'] calls] eqn:Es.
  destruct (Runtime.perform_wf c (Runtime.DoStart (listen o)) c' calls Hw) as (Hw' & _ & Hopen);
    [unfold Runtime.perform; by rewrite Es|].
  assert (Hfold : holding (Runtime.listening c') (add_calls calls p)).
  { exists e, w. split_and!; try done. cbn. by rewrite foldl_app, Ha, <-Hl. }
  destruct r as [[]|err]; [done|]. replace [] with (Runtime.listening c'); [done|]. rewrite <-Hl.
  unfold Runtime.Start in Es. destruct (Runtime.server c); [by simplify_eq|].
  destruct (listen o (Runtime.addr c)) as [a|]; [|by simplify_eq]. destruct (negb _); by simplify_eq.
Qed.

(** The last actions, whatever the shutdown of the control server gave. *)
Lemma lastActions_runs o path (r : result unit) : runs (holding []) (io _ <- beside (pace o 4); try engineErr <- stopEngine o;
  try _ <- on_world (Runtime.RemoveState path); match r with Err e => io_err e | Ok _ => io_of engineErr end) (fun _ => down []) (down []).
Proof.
  assert (Hrm : forall r' : result unit, runs (down []) (try _ <- on_world (Runtime.RemoveState path);
    match r with Err e => io_err e | Ok _ => io_of r' end) (fun _ => down []) (down [])).
  { intros r'. eapply runs_try; [apply on_world_runs, down_world|intros a|intros e]; (destruct r; [apply runs_of|by apply runs_err]). }
  eapply (runs_bind _ _ _ (fun _ => holding [])); [by intros p Hp; apply goroutine_phase|intros []].
  eapply runs_try; [apply stopEngine_runs|intros a; exact (Hrm (Ok a))|intros e; exact (Hrm (Err e))].
Qed.

Lemma endSession_runs o path c :
  Runtime.control_wf c -> runs (holding (Runtime.listening c)) (endSession o path c) (fun _ => down []) (down []).
Proof.
  intros Hw. unfold endSession.
  eapply (runs_bind _ _ _ (fun _ => holding (Runtime.listening c))); [by intros p Hp; apply holding_world|intros []].
  eapply (runs_bind _ _ _ (fun _ => holding (Runtime.listening c))); [by intros p Hp; apply goroutine_phase|intros []].
  eapply runs_try; [by apply stopControl_runs|intros a; exact (lastActions_runs o path (Ok a))|intros e; exact (lastActions_runs o path (Err e))].
Qed.

(** The random bytes of crypto/rand, which never fails to give them. *)
Definition has_random (o : Outside (X := X)) : Prop := exists buf, random o = Ok buf ∧ length buf = 32.

Lemma token_accepted o a :
  has_random o -> exists t c, Runtime.GenerateToken (random o) = Ok t ∧ Runtime.NewControlServer a t true true = Ok c ∧
    Runtime.control_wf c ∧ Runtime.listening c = [] ∧ Runtime.token c = t.
Proof.
  intros (buf & -> & Hl). set (t := Base64.RawURLEncoding buf).
  assert (Ht : is_blank t = false).
  { unfold is_blank, t, Base64.RawURLEncoding.
    rewrite TrimSpace_graphic by (apply Runtime.url_graphic, Base64.encode_digits, Runtime.url_alphabet).
    apply bool_decide_eq_false_2. intros Hn. apply (f_equal length) in Hn. rewrite Base64.encode_length, Hl in Hn. by vm_compute in Hn. }
  eexists t, _. split; [done|]. unfold Runtime.NewControlServer. rewrite Ht. by split_and!.
Qed.

(** A Stop whose error the command does not report. *)
Lemma giveUp_runs o n e : runs (holding []) (io _ <- beside n; try _ <- stopEngine o; io_err (A := unit) e) (fun _ => down []) (down []).
Proof.
  eapply (runs_bind _ _ _ (fun _ => holding [])); [by intros p Hp; apply goroutine_phase|intros []].
  eapply runs_try; [apply stopEngine_runs|intros a; by apply runs_err|intros e'; by apply runs_err].
Qed.

Lemma runSession_runs o cfg' eng : has_random o -> runs (holding []) (runSession o cfg' eng) (fun _ => down []) (down []).
Proof.
  intros Hr. destruct (token_accepted o (ControlAddr (Config.Runtime cfg')) Hr) as (t & c & Ht & Hc & Hw & Hl & _).
  unfold runSession. rewrite Ht.
  eapply (runs_bind _ _ _ (fun t' p => t' = t ∧ holding [] p)); [by intros p Hp|intros t'].
  eapply (runs_bind _ _ _ (fun c' p => c' = c ∧ holding [] p)); [by intros p [-> Hp]; rewrite Hc|intros c'].
  apply runs_when. intros ->.
  eapply (runs_bind _ _ _ (fun _ => holding [])); [by intros p Hp; apply goroutine_phase|intros []].
  eapply runs_try; [by apply startControl_runs|intros c1|intros e; apply giveUp_runs].
  apply runs_when. intros Hw1. set (l := Runtime.listening c1).
  eapply (runs_bind _ _ _ (fun _ => holding l)); [by intros p Hp; apply goroutine_phase|intros []].
  eapply (runs_bind _ _ _ (fun _ => holding l)); [by intros p Hp|intros st].
  eapply runs_try; [apply on_world_runs, holding_world|intros []|intros e];
    (eapply (runs_bind _ _ _ (fun _ => holding l)); [by intros p Hp; apply goroutine_phase|intros []]).
  - eapply (runs_bind _ _ _ (fun _ => holding l)); [by intros p Hp; apply holding_output|intros []].
    by apply endSession_runs.
  - eapply runs_try; [by apply stopControl_runs|intros a; apply giveUp_runs|intros e'; apply giveUp_runs].
Qed.
End cleanup.

(** The system once the goroutine of the session, which the end of the process can cut
    off, has ended too. *)
Definition finished {S X : Type} `{!EngineSystem S} (p : Process (S := S) (X := X)) : S :=
  match pwatch p, pengine p with Some w, Some e => (complete w e (psys p)).2 | _, _ => psys p end.

(** No control listener is left, the engine does not run and the settings other than [x]
    are those of [before]; no service is left unless the goroutine is still stopping them,
    and none when it has done so. *)
Definition tidied {S X : Type} `{!EngineSystem S} `{!EngineView S} (x : option setting) (before : setting -> bool) (p : Process (S := S) (X := X)) : Prop :=
  foldl Runtime.open_after [] (pcalls p) = [] ∧ (forall e, pengine p = Some e -> erunning e = false) ∧
  (forall y, Some y <> x -> on (psys p) y = before y) ∧
  (forall v, up (psys p) v = true -> exists err rest, pwatch p = Some (Tearing err rest) ∧ StopServer v ∈ rest) ∧
  (forall v, up (finished p) v = false) ∧ (forall y, Some y <> x -> on (finished p) y = before y).

Section start.
Context {S X : Type} `{Externals} `{Encoding} `{!EngineSystem S} `{!EngineView S} `{!EngineLaws S} `{!EngineProbe S}.
Context (client : ControlRequest -> IO X (Z * gostring)) (decodeStatus : gostring -> result Status).

Lemma down_tidied cfg before (p : Process (S := S) (X := X)) : down cfg before [] p -> tidied (setting_of cfg) before p.
Proof.
  intros [(e & w & He & Hw & Hcfg & Hpair & Ho & Ha) Hd]. specialize (Hd e He). apply paired_returned in Hpair.
  destruct (complete_unfinished _ _ _ Hpair Hd) as [H1 H2]. unfold tidied, finished. rewrite He, Hw.
  split_and!; [done|by intros e' [= <-]|done| |done|intros y Hy; rewrite H2 by congruence; auto].
  intros v Hv. destruct w as [|err rest|err]; [|exists err, rest; split; [done|by apply Hpair]|];
    destruct Hpair as [Hu Hr]; rewrite Hu, Hr, Hd in Hv; done.
Qed.

(** The command once the configuration is checked and no session runs. *)
Lemma startEngine_tidied o cfg eng (p : Process (S := S) (X := X)) before :
  has_random o -> Engine.New cfg = Ok eng -> pcalls p = [] -> pwatch p = None -> (forall v, up (psys p) v = false) ->
  (forall y, on (psys p) y = before y) ->
  tidied (setting_of (ecfg eng)) before (io_bind (startEngine o eng) (runSession o cfg) p).2.
Proof.
  intros Hr Hn Hc Hw Hu Ho. assert (consistent eng (psys p) ∧ erunning eng = false) as [Hcons Hrun].
  { unfold Engine.New in Hn. inv_ok Hn. split; [|done]. split; [intros v; by rewrite Hu; destruct v|by intros []]. }
  pose proof (launch_consistent eng (now o) (psys p) Hcons Hrun) as Hl.
  unfold io_bind, startEngine, Engine.Start. rewrite Hrun. destruct (launch eng (now o) (psys p)) as [[e'|er] s'].
  - destruct Hl as (Hc' & _ & Hcfg' & _ & Ho'). apply down_tidied.
    set (p1 := set_watch (Some Called) (set_engine e' s' p)). pose proof (runSession_runs (ecfg eng) before o cfg e' Hr p1) as Hsess.
    assert (Hh : holding (ecfg eng) before [] p1).
    { exists e', Called. split_and!; [done..|by left| |by cbn; rewrite Hc]. intros y Hy. cbn. by rewrite Ho'. }
    specialize (Hsess Hh). by destruct (runSession o cfg e' p1) as [[]].
  - destruct Hl as [[Hu' Hr'] Ho']. assert (Hd : forall v, up s' v = false) by (intros v; by rewrite Hu', Hr', Hrun).
    unfold tidied, finished. cbn. rewrite Hw. split_and!; [by rewrite Hc|by intros e [= <-]| | |done|]; try (intros y Hy; by rewrite Ho').
    intros v Hv. by rewrite Hd in Hv.
Qed.

(** C4: the start command leaves nothing behind.  Whatever calls fail, wherever the command
    returns - a session that is already running, a configuration that is refused, a start
    that fails, a control server that does not start, a state file that cannot be written,
    or the end of the session - and however the steps of the goroutine that Engine.Start
    left behind fall between its own: no control listener is left, the engine does not
    run, no setting other than the one of the mode was touched, and the only services left
    are those which the goroutine has taken and still stops; once it has ended none is. *)
Theorem start_leaves_nothing yaml_nodes yaml_config defaults o args (p : Process (S := S) (X := X)) :
  has_random o -> pengine p = None -> pwatch p = None -> pcalls p = [] -> (forall v, up (psys p) v = false) ->
  exists x, tidied x (on (psys p)) (runStart yaml_nodes yaml_config defaults client decodeStatus o args p).2 ∧
    (x = None ∨ exists cfg eng, (startConfig yaml_nodes yaml_config defaults args (pworld p)).1 = Ok cfg ∧
                  Engine.New cfg = Ok eng ∧ x = setting_of (ecfg eng)).
Proof.
  intros Hr He Hpw Hc Hu.
  assert (Hnone : forall w, tidied None (on (psys p)) (set_world w p)).
  { intros w. unfold tidied, finished. cbn. rewrite He, Hpw, Hc. split_and!; try done. intros v Hv. by rewrite Hu in Hv. }
  unfold runStart, io_bind at 1, on_world at 1.
  destruct (startConfig _ _ _ args (pworld p)) as [[cfg|er] w1] eqn:Es; cbn [fst]; [|exists None; by split; [apply Hnone|left]].
  unfold io_try, on_world. destruct (runningFromState client decodeStatus _ (pworld (set_world w1 p))) as [running w2].
  change (set_world w2 (set_world w1 p)) with (set_world w2 p).
  assert (Hgo : exists x, tidied x (on (psys p)) ((io eng <- io_of (Engine.New cfg); io eng <- startEngine o eng; runSession o cfg eng) (set_world w2 p)).2 ∧
    (x = None ∨ exists cfg' eng, Ok cfg = Ok cfg' ∧ Engine.New cfg' = Ok eng ∧ x = setting_of (ecfg eng))).
  { unfold io_bind at 1, io_of at 1. destruct (Engine.New cfg) as [eng|er] eqn:En; [|exists None; split; [apply Hnone|by left]].
    exists (setting_of (ecfg eng)). split; [by apply startEngine_tidied|right; by exists cfg, eng]. }
  destruct running as [[]|]; [exists None; split; [apply Hnone|by left]|exact Hgo..].
Qed.
End start.

(** * The session can be stopped *)

Section exchange.
Context {X : Type} `{EncodingLaws} `{Externals} (statusJSON : json) (mux : Http.ResponseWriter -> Runtime.Request -> Http.ResponseWriter).

(** What the control server receives of a request: net/http connects to the address in
    the URL, where the server answers if it listens there, and asks for the rest of it. *)
Definition deliver (c : Runtime.ControlServer) (r : ControlRequest) : option Runtime.Request :=
  match CutPrefix (CURL r) "http://" with
  | Some rest =>
      let '(address, path, _) := Cut rest "/" in
      if bool_decide (address ∈ Runtime.listening c)
      then Some {| Runtime.Method := CMethod r; Runtime.Path := "/" ++ path;
                   Runtime.ReqHeader := Http.Header_Set ∅ "Authorization" (CAuthorization r) |}
      else None
  | None => None
  end.

Definition fresh_response : Http.ResponseWriter := {| Http.wHeader := ∅; Http.wStatus := None; Http.wBody := [] |}.

(** A client of the control server [c]. *)
Definition exchange (c : Runtime.ControlServer) : ControlRequest -> IO X (Z * gostring) := fun r =>
  match deliver c r with
  | Some req => let w := (Runtime.ServeHTTP statusJSON mux c fresh_response req).1 in
                io_ret (default Http.StatusOK (Http.wStatus w), Http.wBody w)
  | None => io_err (Errorf "connection refused" [])
  end.

Lemma deliver_address c m a path auth : "/"%char ∉ a ->
  deliver c {| CMethod := m; CURL := "http://" ++ a ++ "/" ++ path; CAuthorization := auth |} =
    if bool_decide (a ∈ Runtime.listening c)
    then Some {| Runtime.Method := m; Runtime.Path := "/" ++ path; Runtime.ReqHeader := Http.Header_Set ∅ "Authorization" auth |}
    else None.
Proof.
  intros Ha. unfold deliver. cbn [CURL CMethod CAuthorization]. rewrite (proj2 (CutPrefix_Some _ _ (a ++ "/" ++ path)) eq_refl).
  assert (Cut (a ++ "/" ++ path) "/" = (a, path, true)) as -> by exact (Cut_byte a "/"%char path Ha). done.
Qed.

Lemma bearer_authorized c m path : Runtime.authorized c
  {| Runtime.Method := m; Runtime.Path := path; Runtime.ReqHeader := Http.Header_Set ∅ "Authorization" ("Bearer " ++ Runtime.token c) |}.
Proof.
  unfold Runtime.authorized. cbn [Runtime.ReqHeader]. apply Http.Header_Get_Set.
Qed.

(** What a server that was started answers at its URL. *)
Lemma started_answers c0 c listen calls : Runtime.Start c0 listen = (Ok tt, c, calls) ->
  exists a, listen (Runtime.addr c0) = Ok a ∧ Runtime.URL c = "http://" ++ a ∧ Runtime.listening c = [a] ∧ Runtime.token c = Runtime.token c0.
Proof.
  unfold Runtime.Start. destruct (Runtime.server c0); [done|]. destruct (listen (Runtime.addr c0)) as [a|]; [|done].
  destruct (negb _); [done|]. intros [= <- <-]. by exists a.
Qed.

(** C21: what start writes is what stop needs.  The control server of a session listens on
    the address its listener got, whatever port was asked for.  The state file, read by
    another invocation, leads to that address and holds the server's token: a stop request
    reaches the server, is accepted and cancels the session, and a status request is
    answered with the status of the engine.  Once the server is stopped no request
    reaches it. *)
Theorem session_stoppable (o : Outside (X := X)) cfg st c0 c calls decodeStatus path (w w1 w2 w3 : World X) session :
  (forall a, listen o (Runtime.addr c0) = Ok a -> "/"%char ∉ a) -> Runtime.Start c0 (listen o) = (Ok tt, c, calls) ->
  json_utf8 (Runtime.state_json (sessionState o cfg st c (Runtime.token c))) = true -> time_encodable (StartedAt st) = true ->
  Runtime.WriteState path (sessionState o cfg st c (Runtime.token c)) w = (Ok tt, w1) ->
  files w2 !! path = files w1 !! path -> Runtime.ReadState path w2 = (Ok session, w3) ->
  (exists req, deliver c (stopRequest session) = Some req ∧
     (Runtime.ServeHTTP statusJSON mux c fresh_response req).2 = [Runtime.CallStop]) ∧
  postStop (exchange c) session w3 = (Ok tt, w3) ∧
  queryStatus (exchange c) decodeStatus session w3 = (decodeStatus (json_Marshal statusJSON ++ nl), w3) ∧
  let '(_, c', _) := Runtime.Stop c (shutdown o) (served o) in
  deliver c' (stopRequest session) = None ∧ deliver c' (statusRequest session) = None ∧
  is_ok (postStop (exchange c') session w3).1 = false.
Proof.
  intros Hl HS Hu Ht Hw Hf Hr. destruct (started_answers _ _ _ _ HS) as (a & Hla & Hurl & Hopen & _). specialize (Hl a Hla).
  set (s0 := sessionState _ _ _ _ _) in *.
  assert (session = s0) as ->.
  { pose proof (WriteState_stored _ _ _ _ _ Hw) as Hst. rewrite <-Hf in Hst.
    pose proof (ReadState_stored _ _ _ _ _ _ Hst Hr) as Hd. pose proof (proj2 (Runtime.state_storable s0 Hu Ht)) as Hd'. congruence. }
  assert (Hstop : stopRequest s0 = {| CMethod := "POST"; CURL := "http://" ++ a ++ "/" ++ "stop"; CAuthorization := "Bearer " ++ Runtime.token c |})
    by (unfold stopRequest, s0; cbn [sessionState Runtime.ControlURL Runtime.Token]; rewrite Hurl, <-app_assoc; done).
  assert (Hstatus : statusRequest s0 = {| CMethod := "GET"; CURL := "http://" ++ a ++ "/" ++ "status"; CAuthorization := "Bearer " ++ Runtime.token c |})
    by (unfold statusRequest, s0; cbn [sessionState Runtime.ControlURL Runtime.Token]; rewrite Hurl, <-app_assoc; done).
  assert (Hin : bool_decide (a ∈ Runtime.listening c) = true) by (apply bool_decide_eq_true; rewrite Hopen; set_solver).
  split; [|split; [|split]].
  - rewrite Hstop, deliver_address, Hin by done. eexists. split; [done|]. unfold Runtime.ServeHTTP, Runtime.withAuth.
    rewrite (bool_decide_eq_true_2 _ (bearer_authorized c _ _)). eval_tests. done.
  - unfold postStop, io_bind, exchange. rewrite Hstop, deliver_address, Hin by done. unfold io_ret. cbn [fst snd].
    rewrite Runtime.authorized_stop by (apply bearer_authorized || done). done.
  - unfold queryStatus, io_bind, exchange. rewrite Hstatus, deliver_address, Hin by done. unfold io_ret. cbn [fst snd].
    destruct (Runtime.authorized_status statusJSON mux c fresh_response _ (bearer_authorized c "GET" ("/" ++ "status")) eq_refl eq_refl eq_refl) as [-> ->].
    unfold io_of. cbn. done.
  - destruct (Runtime.Stop c (shutdown o) (served o)) as [[err c'] cl] eqn:Es.
    assert (Hc' : Runtime.listening c' = []) by (unfold Runtime.Stop in Es; destruct (negb (Runtime.server c)); by injection Es as _ <- _).
    assert (Hrefused : forall m p auth, deliver c' {| CMethod := m; CURL := "http://" ++ a ++ "/" ++ p; CAuthorization := auth |} = None).
    { intros m p auth. rewrite deliver_address by done. rewrite Hc'. by rewrite bool_decide_eq_false_2 by set_solver. }
    rewrite Hstop, Hstatus, !Hrefused. split; [done|]. split; [done|]. unfold postStop, io_bind, exchange. by rewrite Hstop, Hrefused.
Qed.
End exchange.

(** * Witnesses *)

Section start_witnesses.
#[local] Existing Instance simple_externals.
#[local] Existing Instance simple_encoding.
#[local] Existing Instance simple_system.
#[local] Existing Instance simple_view.
#[local] Existing Instance simple_laws.
#[local] Existing Instance simple_probe.

(** [steps] are the paces of the goroutine before the five places of the command. *)
Definition outside_with (steps : list nat) : Outside (X := unit) :=
  {| random := Ok Runtime.sample_bytes; listen := fun _ => Ok ("127.0.0.1:9000" : gostring); pid := 123%Z; now := 5%Z;
     shutdown := None; served := Runtime.Served None; meanwhile := fun w => w; pace i := nth i steps 0; during _ := 0 |}.

(** Two steps of the goroutine before the end of the session, a third one after that. *)
Definition sample_outside : Outside (X := unit) := outside_with [0; 0; 0; 2; 1].

Lemma sample_random : has_random sample_outside.
Proof. by exists Runtime.sample_bytes. Qed.

Definition sample_process : Process (S := Sys) (X := unit) :=
  {| psys := ([], []); pworld := with_files []; pengine := None; pwatch := None; pcalls := []; pout := [] |}.

Definition no_client (r : ControlRequest) : IO unit (Z * gostring) := io_err (Errorf "connection refused" []).
Definition undecoded (data : gostring) : result Status := Err (Errorf "unexpected end of JSON input" []).

Definition run_outside (o : Outside (X := unit)) : result unit * Process (S := Sys) (X := unit) :=
  runStart no_nodes (the_config sample_default) sample_default no_client undecoded o
    ["--mode"; "system"; "--state"; "/run/state.json"]%go sample_process.

Definition sample_run : result unit * Process (S := Sys) (X := unit) := run_outside sample_outside.

(** The session starts and ends, and prints what it did. *)
Example sample_run_output : is_ok sample_run.1 = true ∧ HasPrefix (pout sample_run.2) "steam-accelerator-core started" = true ∧
  pcalls sample_run.2 = [Runtime.Listen "127.0.0.1:9000"; Runtime.Shutdown].
Proof. vm_compute. done. Qed.

Lemma start_leaves_nothing_witness : exists x, tidied x (on (psys sample_process)) sample_run.2.
Proof.
  destruct (start_leaves_nothing no_client undecoded no_nodes (the_config sample_default) sample_default sample_outside
    ["--mode"; "system"; "--state"; "/run/state.json"]%go sample_process sample_random eq_refl eq_refl eq_refl quiet_start) as (x & Hx & _).
  exists x. exact Hx.
Defined.

(** The command can return successfully with the goroutine still at work: here it has
    taken the handles, and the proxy listens and the system points at it when the process
    is about to end. *)
Example return_before_stop :
  let '(r, p) := run_outside (outside_with [0; 0; 0; 1; 0]) in
  is_ok r = true ∧ up (psys p) SvcProxy = true ∧ on (psys p) SetSystemProxy = true ∧
  up (finished p) SvcProxy = false ∧ on (finished p) SetSystemProxy = false.
Proof. vm_compute. done. Qed.

Definition sample_control : Runtime.ControlServer :=
  {| Runtime.addr := "127.0.0.1:0"; Runtime.token := "token"; Runtime.server := false; Runtime.listener := None;
     Runtime.url := []; Runtime.done := false |}.
Definition started_control : Runtime.ControlServer := (Runtime.Start sample_control (listen sample_outside)).1.2.

Definition sample_status : Status := EngineStatus session1.1.2 session1.2.

Definition no_mux (w : Http.ResponseWriter) (req : Runtime.Request) : Http.ResponseWriter := w.

Definition written_session : Runtime.State := sessionState sample_outside pac_config sample_status started_control "token".
Definition written_world : World unit := (Runtime.WriteState "/run/state" written_session (with_files [])).2.

Lemma control_address a : listen sample_outside (Runtime.addr sample_control) = Ok a -> "/"%char ∉ a.
Proof. cbn. intros [= <-]. by_decide. Qed.
Lemma control_started : Runtime.Start sample_control (listen sample_outside) = (Ok tt, started_control, [Runtime.Listen "127.0.0.1:9000"]).
Proof. vm_compute. reflexivity. Qed.
Lemma written_utf8 : json_utf8 (Runtime.state_json written_session) = true.
Proof. vm_compute. reflexivity. Qed.
Lemma session_written : Runtime.WriteState "/run/state" written_session (with_files []) = (Ok tt, written_world).
Proof. vm_compute. reflexivity. Qed.
Lemma session_read : Runtime.ReadState "/run/state" written_world = (Ok written_session, written_world).
Proof.
  apply (ReadState_healthy Runtime.codec); [|done|vm_compute; reflexivity].
  apply Runtime.state_storable; [exact written_utf8|reflexivity].
Qed.

Lemma session_stoppable_witness :
  postStop (exchange JNull no_mux started_control) written_session written_world = (Ok tt, written_world).
Proof.
  exact (proj1 (proj2 (session_stoppable JNull no_mux sample_outside pac_config sample_status sample_control started_control
    [Runtime.Listen "127.0.0.1:9000"] undecoded "/run/state" (with_files []) written_world written_world written_world written_session
    control_address control_started written_utf8 eq_refl session_written eq_refl session_read))).
Defined.
End start_witnesses.
