(* ===== verification/PipeFrame.v ===== *)
(** Frames on a named pipe (readPipeFrame, writePipeFrame, readPipeFull and
    writePipeFull of src/internal/privilege/privilege_windows.go): four bytes with the
    length of the body, most significant first, then the body.

    A call of ReadFile or WriteFile may move fewer bytes than asked for.  What the other
    side makes readable is a list of deliveries, how many bytes each write moves is a
    schedule; the theorems hold for all of them. *)
From stdpp Require Import strings.
From Stdlib Require Import Ascii.
From S2P Require Import Prelude GoStrings.

Definition appHostMaxFrame : Z := Z.shiftl 1 20.

Definition io_ErrUnexpectedEOF : error := ErrorVar "io.ErrUnexpectedEOF".
Definition io_ErrShortWrite : error := ErrorVar "io.ErrShortWrite".
Definition ERROR_BROKEN_PIPE : error := ErrorVar "windows.ERROR_BROKEN_PIPE".

(** * Reading *)

(** What a call of ReadFile meets; after the last delivery the pipe is broken. *)
Inductive delivery :=
| Chunk (data : gostring)
| ReadError (e : error).

(** What is left of a chunk of which [n] bytes were read. *)
Definition leave (n : nat) (data : gostring) (pipe : list delivery) : list delivery :=
  match drop n data with [] => pipe | rest => Chunk rest :: pipe end.

Fixpoint readPipeFull (n : nat) (pipe : list delivery) : result gostring * list delivery :=
  match n, pipe with
  | O, _ => (Ok [], pipe)
  | S _, [] => (Err ERROR_BROKEN_PIPE, [])
  | S _, ReadError e :: pipe' => (Err e, pipe')
  | S _, Chunk data :: pipe' =>
      if bool_decide (data = []) then (Err io_ErrUnexpectedEOF, pipe')
      else if (n <=? length data)%nat then (Ok (take n data), leave n data pipe')
      else match readPipeFull (n - length data) pipe' with
           | (Ok rest, pipe'') => (Ok (data ++ rest), pipe'')
           | (Err e, pipe'') => (Err e, pipe'')
           end
  end.

(** binary.BigEndian *)
Definition Uint32 (b : gostring) : Z := foldl (fun v c => Z.lor (Z.shiftl v 8) (Z.of_N (code c))) 0%Z b.
Definition byte_at (v : Z) (i : Z) : byte := ascii_of_N (Z.to_N (Z.land (Z.shiftr v i) 255)).
Definition PutUint32 (v : Z) : gostring := [byte_at v 24; byte_at v 16; byte_at v 8; byte_at v 0].

Definition readPipeFrame (pipe : list delivery) (max : Z) : result gostring * list delivery :=
  match readPipeFull 4 pipe with
  | (Err e, pipe') => (Err e, pipe')
  | (Ok header, pipe') =>
      let size := Uint32 header in
      if (size =? 0)%Z then (Err (Errorf "empty pipe frame" []), pipe')
      else if (max <? size)%Z then (Err (Errorf "pipe frame too large: %d > %d" [Itoa size; Itoa max]), pipe')
      else readPipeFull (Z.to_nat size) pipe'
  end.

(** * Writing *)

(** How many bytes a call of WriteFile moves, or its error; past the end of the schedule
    a call moves everything. *)
Inductive acceptance :=
| Accept (n : nat)
| WriteError (e : error).

(** The bytes that went into the pipe, and the schedule that is left. *)
Fixpoint writePipeFull (buf : gostring) (calls : list acceptance) : result unit * gostring * list acceptance :=
  match buf, calls with
  | [], _ => (Ok tt, [], calls)
  | _, [] => (Ok tt, buf, [])
  | _, WriteError e :: calls' => (Err e, [], calls')
  | _, Accept n :: calls' =>
      match n with
      | O => (Err io_ErrShortWrite, [], calls')
      | _ => let '(r, sent, calls'') := writePipeFull (drop n buf) calls' in (r, take n buf ++ sent, calls'')
      end
  end.

Definition writePipeFrame (body : gostring) (calls : list acceptance) : result unit * gostring * list acceptance :=
  if bool_decide (body = []) then (Err (Errorf "empty pipe frame" []), [], calls)
  else if (appHostMaxFrame <? Z.of_nat (length body))%Z
  then (Err (Errorf "pipe frame too large: %d > %d" [ItoaNat (length body); Itoa appHostMaxFrame]), [], calls)
  else
    match writePipeFull (PutUint32 (Z.of_nat (length body) mod 2 ^ 32)) calls with
    | (Err e, sent, calls') => (Err e, sent, calls')
    | (Ok _, sent, calls') => let '(r, sent', calls'') := writePipeFull body calls' in (r, sent ++ sent', calls'')
    end.

(** * Properties *)

(** The bytes of a pipe without errors and empty deliveries. *)
Fixpoint pipe_bytes (pipe : list delivery) : option gostring :=
  match pipe with
  | [] => Some []
  | ReadError _ :: _ => None
  | Chunk data :: pipe' => if bool_decide (data = []) then None else (app data) <$> pipe_bytes pipe'
  end.

Lemma pipe_bytes_leave n data pipe rest :
  pipe_bytes pipe = Some rest -> pipe_bytes (leave n data pipe) = Some (drop n data ++ rest).
Proof. intros Hp. unfold leave. destruct (drop n data) as [|c d] eqn:E; [done|]. cbn. by rewrite Hp. Qed.

(** A read of [n] bytes returns the first [n] that are there, however they come. *)
Lemma readPipeFull_bytes n pipe s :
  pipe_bytes pipe = Some s -> n <= length s ->
  exists pipe', readPipeFull n pipe = (Ok (take n s), pipe') ∧ pipe_bytes pipe' = Some (drop n s).
Proof.
  revert n s. induction pipe as [|[data|e] pipe IH]; intros n s Hp Hn; cbn in Hp; [..|done].
  - injection Hp as <-. destruct n; [|by cbn in Hn; lia]. exists []. done.
  - destruct n as [|n]; [exists (Chunk data :: pipe); split; [done|exact Hp]|].
    cbn [readPipeFull]. case_bool_decide as Hd; [done|]. destruct (pipe_bytes pipe) as [r|] eqn:Hr; [|done].
    injection Hp as <-. rewrite length_app in Hn. set (m := S n) in *.
    destruct (Nat.leb_spec m (length data)) as [Hle|Hgt].
    + eexists. split; [by rewrite take_app_le|]. rewrite drop_app_le by done. by apply pipe_bytes_leave.
    + destruct (IH (m - length data) r eq_refl ltac:(lia)) as (p' & -> & Hp'). exists p'.
      split; [by rewrite take_app_ge by lia|]. by rewrite drop_app_ge by lia.
Qed.

Lemma readPipeFull_length n pipe s pipe' : readPipeFull n pipe = (Ok s, pipe') -> length s = n.
Proof.
  revert n s pipe'. induction pipe as [|[data|e] pipe IH]; intros [|n] s pipe'; cbn [readPipeFull]; try by intros [= <- <-].
  case_bool_decide; [done|]. destruct (Nat.leb_spec (S n) (length data)) as [Hle|Hgt].
  - intros [= <- _]. rewrite length_take. lia.
  - destruct (readPipeFull (S n - length data) pipe) as [[r|e] p'] eqn:Er; [|done]. intros [= <- _].
    rewrite length_app, (IH _ _ _ Er). lia.
Qed.

(** A write that succeeds has moved all bytes in order. *)
Lemma writePipeFull_sent buf calls sent calls' : writePipeFull buf calls = (Ok tt, sent, calls') -> sent = buf.
Proof.
  revert buf sent calls'. induction calls as [|[n|e] calls IH]; intros [|c buf] sent calls'; cbn [writePipeFull]; try by intros [= <- _].
  destruct n as [|n]; [done|]. destruct (writePipeFull (drop (S n) (c :: buf)) calls) as [[[[]|e] s] cs] eqn:E; [|done].
  intros [= <- _]. apply IH in E as ->. exact (take_drop (S n) (c :: buf)).
Qed.

(** ** The header *)

Lemma code_byte_at v i : (0 <= v)%Z -> (0 <= i)%Z -> Z.of_N (code (byte_at v i)) = Z.land (Z.shiftr v i) 255.
Proof.
  intros Hv Hi. unfold byte_at, code. rewrite N_ascii_embedding; [|]; rewrite ?Z2N.id; try done.
  - rewrite Z.land_nonneg. lia.
  - change 255%Z with (Z.ones 8). rewrite Z.land_ones by lia. pose proof (Z.mod_pos_bound (Z.shiftr v i) (2 ^ 8) eq_refl).
    apply N2Z.inj_lt. rewrite Z2N.id by lia. change (Z.of_N 256) with (2 ^ 8)%Z. lia.
Qed.

Lemma testbit_byte v i j : (0 <= i)%Z -> (0 <= j)%Z ->
  Z.testbit (Z.land (Z.shiftr v i) 255) j = (Z.testbit v (j + i) && (j <? 8)%Z)%bool.
Proof.
  intros Hi Hj. rewrite Z.land_spec, Z.shiftr_spec by done. change 255%Z with (Z.ones 8).
  by rewrite Z.testbit_ones_nonneg by lia.
Qed.

(** A byte appended below the bits above it. *)
Lemma append_byte v i :
  (0 <= i)%Z -> Z.lor (Z.shiftl (Z.shiftr v (i + 8)) 8) (Z.land (Z.shiftr v i) 255) = Z.shiftr v i.
Proof.
  intros Hi. apply Z.bits_inj'. intros j Hj. rewrite Z.lor_spec, testbit_byte, Z.shiftr_spec by done.
  destruct (Z.ltb_spec j 8).
  - rewrite Z.shiftl_spec_low by done. by rewrite andb_true_r.
  - rewrite Z.shiftl_spec, Z.shiftr_spec by lia. rewrite andb_false_r, orb_false_r. f_equal. lia.
Qed.

Lemma Uint32_Put v : (0 <= v < 2 ^ 32)%Z -> Uint32 (PutUint32 v) = v.
Proof.
  intros [Hv Hb]. unfold PutUint32, Uint32. cbn [foldl]. rewrite !code_byte_at by lia.
  replace (Z.shiftl 0 8) with (Z.shiftl (Z.shiftr v (24 + 8)) 8).
  2: { rewrite Z.shiftr_div_pow2, Z.div_small by lia. done. }
  rewrite (append_byte v 24) by done. change 24%Z with (16 + 8)%Z at 1. rewrite append_byte by done.
  change 16%Z with (8 + 8)%Z at 1. rewrite append_byte by done. change 8%Z with (0 + 8)%Z at 1. rewrite append_byte by done.
  apply Z.shiftr_0_r.
Qed.

(** ** Frames *)

(** A body that a frame can hold. *)
Definition fits (body : gostring) : Prop := body <> [] ∧ (Z.of_nat (length body) <= appHostMaxFrame)%Z.

Lemma fits_length body : fits body -> (0 < Z.of_nat (length body) < 2 ^ 32)%Z.
Proof. intros [Hne Hmax]. change appHostMaxFrame with 1048576%Z in Hmax. destruct body; cbn in *; [done|lia]. Qed.

Definition header (body : gostring) : gostring := PutUint32 (Z.of_nat (length body) mod 2 ^ 32).

Lemma readPipeFrame_arrives body pipe rest :
  fits body -> pipe_bytes pipe = Some (header body ++ body ++ rest) ->
  exists pipe', readPipeFrame pipe appHostMaxFrame = (Ok body, pipe') ∧ pipe_bytes pipe' = Some rest.
Proof.
  intros Hfit Hp. pose proof (fits_length body Hfit) as Hlt. destruct Hfit as [_ Hmax].
  destruct (readPipeFull_bytes 4 pipe _ Hp) as (p1 & Hr1 & Hp1); [rewrite !length_app; cbn; lia|].
  unfold readPipeFrame. rewrite Hr1. change (take 4 (header body ++ body ++ rest)) with (header body).
  change (drop 4 (header body ++ body ++ rest)) with (body ++ rest) in Hp1.
  unfold header. rewrite Z.mod_small, Uint32_Put by lia. rewrite (proj2 (Z.eqb_neq _ _)) by lia. rewrite (proj2 (Z.ltb_ge _ _)) by lia.
  rewrite Nat2Z.id. destruct (readPipeFull_bytes (length body) p1 _ Hp1) as (p2 & Hr2 & Hp2); [rewrite length_app; lia|].
  exists p2. rewrite Hr2, take_app_length. split; [done|]. by rewrite Hp2, drop_app_length.
Qed.

Lemma writePipeFrame_sent body calls sent calls' :
  writePipeFrame body calls = (Ok tt, sent, calls') -> fits body ∧ sent = header body ++ body.
Proof.
  unfold writePipeFrame. case_bool_decide as Hne; [done|]. destruct (Z.ltb_spec appHostMaxFrame (Z.of_nat (length body))) as [|Hmax]; [done|].
  destruct (writePipeFull (PutUint32 _) calls) as [[[[]|e] s1] c1] eqn:E1; [|done].
  destruct (writePipeFull body c1) as [[[[]|e] s2] c2] eqn:E2; [|done]. intros [= <- <-].
  apply writePipeFull_sent in E1 as ->. apply writePipeFull_sent in E2 as ->. done.
Qed.

(** A frame that was written is the frame that is read: however the writes are cut
    into calls and however the bytes arrive, a body that was sent without an error is
    received as it was, and what follows it stays in the pipe; both sides agree on
    which bodies a frame can hold. *)
Theorem frame_roundtrip body calls calls' sent pipe rest :
  writePipeFrame body calls = (Ok tt, sent, calls') -> pipe_bytes pipe = Some (sent ++ rest) ->
  length sent = 4 + length body ∧ fits body ∧
  exists pipe', readPipeFrame pipe appHostMaxFrame = (Ok body, pipe') ∧ pipe_bytes pipe' = Some rest.
Proof.
  intros [Hf ->]%writePipeFrame_sent Hp. rewrite <-app_assoc in Hp.
  split; [by rewrite length_app|]. split; [done|]. by apply readPipeFrame_arrives.
Qed.

(** Whatever a client sends, a frame that is read has between one byte and the
    maximum, and the space for it is never larger. *)
Theorem readPipeFrame_bounds pipe max body pipe' :
  readPipeFrame pipe max = (Ok body, pipe') -> (1 <= Z.of_nat (length body) <= max)%Z.
Proof.
  unfold readPipeFrame. destruct (readPipeFull 4 pipe) as [[h|e] p1]; [|done].
  assert (Hpos : (0 <= Uint32 h)%Z).
  { unfold Uint32. cut (forall v, (0 <= v)%Z -> (0 <= foldl (fun v c => Z.lor (Z.shiftl v 8) (Z.of_N (code c))) v h)%Z); [by intros Hc; apply Hc|].
    induction h as [|c h IH]; intros v Hv; [done|]. cbn. apply IH. apply Z.lor_nonneg. split; [by apply Z.shiftl_nonneg|lia]. }
  destruct (Z.eqb_spec (Uint32 h) 0); [done|]. destruct (Z.ltb_spec max (Uint32 h)); [done|].
  intros Hr%readPipeFull_length. lia.
Qed.

(** * Witnesses *)

(** The frame of two bytes, written in three calls and read in three deliveries. *)
Lemma frame_roundtrip_witness :
  exists pipe', readPipeFrame [Chunk [chr 0; chr 0]; Chunk [chr 0; chr 2; chr 104]; Chunk [chr 105; chr 33]]%list appHostMaxFrame =
    (Ok "hi"%go, pipe') ∧ pipe_bytes pipe' = Some "!"%go.
Proof.
  destruct (frame_roundtrip "hi" [Accept 3; Accept 5; Accept 1] [] (PutUint32 2 ++ "hi")
    [Chunk [chr 0; chr 0]; Chunk [chr 0; chr 2; chr 104]; Chunk [chr 105; chr 33]]%list "!" eq_refl eq_refl) as (_ & _ & Hr).
  exact Hr.
Defined.

Lemma readPipeFrame_bounds_witness : (1 <= 2 <= 5)%Z.
Proof. exact (readPipeFrame_bounds [Chunk (PutUint32 2 ++ "hi")]%list 5 "hi" [] eq_refl). Defined.
