(* ===== verification/AppHost.v ===== *)
(** The service for privileged operations on Windows
    (src/internal/privilege/privilege_windows.go): the server that answers requests on a
    named pipe, and the client that sends them.

    What Windows says of processes and how the bytes travel are parameters: a link is one
    connection, with the writes and deliveries of [PipeFrame].  The rights of the
    service, the certificate store and the platforms are those of [Privilege]. *)
From stdpp Require Import strings.
From Stdlib Require Import Ascii.
From S2P Require Import Prelude GoStrings GoNet External World FilePath CertStore Privilege PipeFrame.
From S2P Require Hosts SystemDns.

(** * The server *)

Section server.
Context {X : Type} `{Externals} `{Encoding} `{FilePath}.
Variable store : CertStore X.
Variable hostsPlatform : Hosts.Platform X.
Variable dnsPlatform : SystemDns.Platform X.
Variable now : Time.
Variable privileged : bool.
Variable helperStatus : gostring.
(** encoding/json on requests and responses, and [err.Error()]. *)
Variable decodeRequest : gostring -> result HelperRequest.
Variable encodeResponse : HelperResponse -> gostring.
Variable text : error -> gostring.
Variables DefaultHostsPath DefaultRollbackPath DefaultCertDir : gostring.
(** The process at the other end of the pipe, the image of a process, the program
    itself, and filepath.EvalSymlinks. *)
Variable clientProcess : result Z.
Variable processImagePath : Z -> result gostring.
Variable os_Executable : result gostring.
Variable EvalSymlinks : gostring -> result gostring.

Definition normalizeExecutablePath (path : gostring) : gostring :=
  let path := TrimPrefix path "\\?\" in
  let path := match filepath_Abs path with Ok abs => abs | Err _ => path end in
  let path := match EvalSymlinks path with Ok eval => eval | Err _ => path end in
  filepath_Clean path.

Definition validateAppHostClientProcess (clientPID : Z) : result unit :=
  do clientPath <- wrap_err "query apphost client process: %w" [] (processImagePath clientPID);
  do selfPath <- wrap_err "query apphost executable: %w" [] os_Executable;
  let clientPath := normalizeExecutablePath clientPath in
  let selfPath := normalizeExecutablePath selfPath in
  if negb (EqualFold clientPath selfPath)
  then Err (Errorf "apphost client executable mismatch: client=%q apphost=%q" [clientPath; selfPath])
  else Ok tt.

(** The checks before a request is executed: the request, or the answer. *)
Definition admitRequest (pipe : list delivery) : HelperRequest + HelperResponse :=
  match clientProcess with
  | Err e => inr (refused ("get apphost pipe client pid: " ++ text e))
  | Ok clientPID =>
      match validateAppHostClientProcess clientPID with
      | Err e => inr (refused (text e))
      | Ok _ =>
          match readPipeFrame pipe appHostMaxFrame with
          | (Err e, _) => inr (refused ("read apphost pipe request: " ++ text e))
          | (Ok body, _) =>
              match decodeRequest body with
              | Err e => inr (refused ("parse apphost pipe request: " ++ text e))
              | Ok req =>
                  match validateAppHostRequest DefaultHostsPath DefaultRollbackPath DefaultCertDir req clientPID with
                  | Err e => inr (refused (text e))
                  | Ok _ => inl req
                  end
              end
          end
      end
  end.

(** The answer to a request that is admitted. *)
Definition answerRequest (req : HelperRequest) : IO X HelperResponse :=
  try resp <- executeHelperRequest store hostsPlatform dnsPlatform now None privileged helperStatus req;
  match resp with
  | Ok resp => io_ret resp
  | Err e => io_ret (refused (helperStatus ++ ": " ++ text e))
  end.

Definition handlePipeRequest (pipe : list delivery) : IO X HelperResponse :=
  match admitRequest pipe with
  | inr resp => io_ret resp
  | inl req => answerRequest req
  end.

(** What goes back into the pipe. *)
Definition handlePipe (pipe : list delivery) (calls : list acceptance) : IO X gostring :=
  io resp <- handlePipeRequest pipe;
  io_ret (writePipeFrame (encodeResponse resp) calls).1.2.

(** * The client *)

Variable encodeRequest : HelperRequest -> gostring.
Variable decodeResponse : gostring -> result HelperResponse.

(** One connection: whether it comes about, how the writes of both sides are cut, and
    how their bytes arrive. *)
Record Link := {
  lConnect : option error;
  lRequestCalls : list acceptance;
  lRequest : gostring -> list delivery;
  lResponseCalls : list acceptance;
  lResponse : gostring -> list delivery;
}.

Definition appHostPipeRoundTrip (l : Link) (body : gostring) : IO X gostring :=
  match lConnect l with
  | Some e => io_err (Wrapf "connect windows apphost pipe: %w" [] e)
  | None =>
      let '(written, sent, _) := writePipeFrame body (lRequestCalls l) in
      io answer <- handlePipe (lRequest l sent) (lResponseCalls l);
      io _ <- io_wrap "write apphost request: %w" [] (io_of written);
      io_wrap "read apphost response: %w" [] (io_of (readPipeFrame (lResponse l answer) appHostMaxFrame).1)
  end.

Definition parseAppHostResponse (respBody : gostring) : result HelperResponse :=
  do resp <- wrap_err "parse apphost response: %w" [] (decodeResponse respBody);
  if negb (OK resp)
  then Err (Errorf "windows apphost: %s" [if bool_decide (Error resp = []) then "apphost request failed" else Error resp])
  else Ok resp.

Definition ERROR_PIPE_NOT_CONNECTED : error := ErrorVar "windows.ERROR_PIPE_NOT_CONNECTED".

Definition isAppHostPipeDisconnect (e : error) : bool :=
  errors_Is e ERROR_BROKEN_PIPE || errors_Is e ERROR_PIPE_NOT_CONNECTED ||
  Contains (ToLower (text e)) "no process is on the other end of the pipe".

(** [ready] is ensureAppHostStarted and [restart] restartAppHostService; the token is
    random. *)
Definition runAppHostRequestPlatform (ready restart : IO X unit) (token : result gostring) (pid : Z) (l l' : Link)
    (req : HelperRequest) : IO X HelperResponse :=
  io _ <- ready;
  io token <- io_of token;
  let req := {| Version := helperVersion; Token := token; ParentPID := pid; Command := Command req; Cert := Cert req;
                ReqHosts := ReqHosts req; SystemDNS := SystemDNS req; RollbackPath := RollbackPath req; AutoInstall := AutoInstall req |} in
  let body := encodeRequest req in
  try respBody <- appHostPipeRoundTrip l body;
  match respBody with
  | Ok respBody => io_of (parseAppHostResponse respBody)
  | Err e =>
      if isAppHostPipeDisconnect e then
        try restarted <- restart;
        match restarted with
        | Err restartErr => io_err (Wrapf "%w; apphost restart failed: %v" [text restartErr] e)
        | Ok _ =>
            io respBody <- appHostPipeRoundTrip l' body;
            io_of (parseAppHostResponse respBody)
        end
      else io_err e
  end.

Definition healthRequest (pid : Z) : HelperRequest :=
  {| Version := helperVersion; Token := "health"; ParentPID := pid; Command := CommandAppHostHealth; Cert := noCert;
     ReqHosts := noHosts; SystemDNS := noDNS; RollbackPath := []; AutoInstall := false |}.

Definition appHostHealth (pid : Z) (l : Link) : IO X unit :=
  io respBody <- appHostPipeRoundTrip l (encodeRequest (healthRequest pid));
  io resp <- io_of (decodeResponse respBody);
  if negb (OK resp) then io_err (Errorf "apphost health failed: %s" [Error resp]) else io_ret tt.

(** The loop that waits for the service: [times i] is the clock of the [i]-th turn and
    [ctx i] the state of the context in it; [None] is a loop that has not ended. *)
Fixpoint waitForHealth (fuel i : nat) (times : nat -> Time) (ctx : nat -> option error) (health : nat -> IO X unit)
    (deadline : Time) (lastErr : option error) : IO X (option (result unit)) :=
  match fuel with
  | O => io_ret None
  | S fuel' =>
      if (times i <? deadline)%Z then
        match ctx i with
        | Some e => io_ret (Some (Err e))
        | None =>
            try ok <- health i;
            match ok with
            | Ok _ => io_ret (Some (Ok tt))
            | Err e => waitForHealth fuel' (S i) times ctx health deadline (Some e)
            end
        end
      else io_ret (Some (Err (match lastErr with
                              | Some e => Wrapf "windows apphost service started but did not become ready: %w" [] e
                              | None => Errorf "windows apphost service started but did not become ready: %w" []
                              end)))
  end.

Definition ensureAppHostStarted (fuel : nat) (times : nat -> Time) (ctx : nat -> option error) (health : nat -> IO X unit)
    (start : IO X unit) : IO X (option (result unit)) :=
  try ok <- health 0%nat;
  match ok with
  | Ok _ => io_ret (Some (Ok tt))
  | Err _ =>
      try started <- start;
      match started with
      | Err e => io_ret (Some (Err (Wrapf "windows apphost is not running; install it once with `steam-accelerator apphost install` from an Administrator terminal: %w" [] e)))
      | Ok _ => waitForHealth fuel 1 times ctx health (times 0%nat + 10 * Config.Second)%Z None
      end
  end.
End server.

(** * Properties *)

Section properties.
Context {X : Type} `{Externals} `{Encoding} `{FilePath}.
Context (store : CertStore X) (hostsPlatform : Hosts.Platform X) (dnsPlatform : SystemDns.Platform X).
Context (now : Time) (privileged : bool) (helperStatus : gostring).
Context (decodeRequest : gostring -> result HelperRequest) (encodeResponse : HelperResponse -> gostring) (text : error -> gostring).
Context (DefaultHostsPath DefaultRollbackPath DefaultCertDir : gostring).
Context (clientProcess : result Z) (processImagePath : Z -> result gostring) (os_Executable : result gostring).
Context (EvalSymlinks : gostring -> result gostring).

#[local] Abbreviation admission := (admitRequest decodeRequest text DefaultHostsPath DefaultRollbackPath DefaultCertDir
  clientProcess processImagePath os_Executable EvalSymlinks).
#[local] Abbreviation answer := (answerRequest store hostsPlatform dnsPlatform now privileged helperStatus text).
#[local] Abbreviation handle := (handlePipe store hostsPlatform dnsPlatform now privileged helperStatus decodeRequest encodeResponse text
  DefaultHostsPath DefaultRollbackPath DefaultCertDir clientProcess processImagePath os_Executable EvalSymlinks).

(** The process [pid] runs the program of the service. *)
Definition same_program (pid : Z) : Prop :=
  exists path self, processImagePath pid = Ok path ∧ os_Executable = Ok self ∧
    EqualFold (normalizeExecutablePath EvalSymlinks path) (normalizeExecutablePath EvalSymlinks self) = true.

Lemma validateClient_ok pid :
  validateAppHostClientProcess processImagePath os_Executable EvalSymlinks pid = Ok tt <-> same_program pid.
Proof.
  unfold validateAppHostClientProcess, same_program. destruct (processImagePath pid) as [path|e]; cbn.
  2: { split; [done|]. by intros (? & ? & ? & _). }
  destruct os_Executable as [self|e]; cbn; [|split; [done|by intros (? & ? & _ & ? & _)]].
  destruct (EqualFold _ _) eqn:E; cbn; split; try done; [by exists path, self|]. intros (p & q & [= <-] & [= <-] & He). congruence.
Qed.

(** What a request must be to be executed. *)
Definition admitted (pipe : list delivery) (req : HelperRequest) : Prop :=
  exists pid body, clientProcess = Ok pid ∧ same_program pid ∧ (readPipeFrame pipe appHostMaxFrame).1 = Ok body ∧
    decodeRequest body = Ok req ∧ Version req = helperVersion ∧ is_blank (Token req) = false ∧ (0 < pid)%Z ∧ ParentPID req = pid ∧
    authorised DefaultHostsPath DefaultRollbackPath DefaultCertDir req.

Lemma admitRequest_admitted pipe req : admission pipe = inl req <-> admitted pipe req.
Proof.
  unfold admitRequest, admitted. destruct clientProcess as [pid|e]; [|split; [done|by intros (? & ? & ? & _)]].
  destruct (validateAppHostClientProcess _ _ _ pid) as [[]|e] eqn:Ec.
  2: { split; [done|]. intros (pid' & body & [= <-] & Hs & _). apply validateClient_ok in Hs. congruence. }
  apply validateClient_ok in Ec. destruct (readPipeFrame pipe appHostMaxFrame) as [[body|e] p]; cbn [fst].
  2: { split; [done|]. by intros (? & ? & _ & _ & ? & _). }
  destruct (decodeRequest body) as [r|e] eqn:Er.
  2: { split; [done|]. intros (pid' & body' & _ & _ & [= <-] & Hd & _). congruence. }
  destruct (validateAppHostRequest _ _ _ r pid) as [[]|e] eqn:Ev.
  - pose proof Ev as Ev'. apply validateAppHostRequest_ok in Ev'. split.
    + intros [= <-]. by exists pid, body.
    + intros (pid' & body' & [= <-] & _ & [= <-] & Hd & _). congruence.
  - split; [done|]. intros (pid' & body' & [= <-] & _ & [= <-] & Hd & Hv). assert (r = req) as -> by congruence.
    apply (validateAppHostRequest_ok DefaultHostsPath DefaultRollbackPath DefaultCertDir req pid) in Hv. congruence.
Qed.


(** ** One call *)

Context (encodeRequest : HelperRequest -> gostring) (decodeResponse : gostring -> result HelperResponse).

#[local] Abbreviation roundTrip := (appHostPipeRoundTrip store hostsPlatform dnsPlatform now privileged helperStatus decodeRequest encodeResponse text
  DefaultHostsPath DefaultRollbackPath DefaultCertDir clientProcess processImagePath os_Executable EvalSymlinks).
#[local] Abbreviation runRequest := (runAppHostRequestPlatform store hostsPlatform dnsPlatform now privileged helperStatus decodeRequest encodeResponse text
  DefaultHostsPath DefaultRollbackPath DefaultCertDir clientProcess processImagePath os_Executable EvalSymlinks encodeRequest decodeResponse).

(** Every write moves something, and what was sent arrives. *)
Definition moving (calls : list acceptance) : Prop := Forall (fun a => exists n, a = Accept (S n)) calls.
Definition arriving (f : gostring -> list delivery) : Prop := forall s, pipe_bytes (f s) = Some s.
Definition reliable (l : Link) : Prop :=
  lConnect l = None ∧ moving (lRequestCalls l) ∧ arriving (lRequest l) ∧ moving (lResponseCalls l) ∧ arriving (lResponse l).

Lemma writePipeFull_moving buf calls : moving calls -> exists calls', writePipeFull buf calls = (Ok tt, buf, calls') ∧ moving calls'.
Proof.
  intros Hc. revert buf. induction Hc as [|a calls [n ->] Hc IH]; intros buf.
  - exists []. split; [by destruct buf|by apply Forall_nil].
  - destruct buf as [|c buf]; cbn [writePipeFull].
    + exists (Accept (S n) :: calls). split; [done|]. apply Forall_cons. split; [by eexists|done].
    + destruct (IH (drop (S n) (c :: buf))) as (calls' & -> & Hm). exists calls'. split; [|done]. by rewrite take_drop.
Qed.

(** A frame that is written over a moving pipe and arrives is read. *)
Lemma frame_arrives body calls f :
  fits body -> moving calls -> arriving f ->
  exists sent calls' pipe, writePipeFrame body calls = (Ok tt, sent, calls') ∧ readPipeFrame (f sent) appHostMaxFrame = (Ok body, pipe).
Proof.
  intros Hfit Hm Hf. pose proof Hfit as [Hne Hmax]. unfold writePipeFrame. rewrite bool_decide_eq_false_2 by done.
  rewrite (proj2 (Z.ltb_ge _ _)) by done. fold (header body).
  destruct (writePipeFull_moving (header body) calls Hm) as (c1 & Hw1 & Hm1).
  destruct (writePipeFull_moving body c1 Hm1) as (c2 & Hw2 & _). rewrite Hw1, Hw2.
  destruct (readPipeFrame_arrives body (f (header body ++ body)) [] Hfit) as (p & Hr & _); [by rewrite Hf, app_nil_r|].
  by eexists _, _, _.
Qed.

(** The answer as the client returns it. *)
Definition answered (resp : HelperResponse) : result HelperResponse :=
  if OK resp then Ok resp
  else Err (Errorf "windows apphost: %s" [if bool_decide (Error resp = []) then "apphost request failed" else Error resp]).

Section calls.
Context (pid : Z) (token : gostring) (req : HelperRequest).

(** The request as it is sent. *)
Definition sent_request : HelperRequest :=
  {| Version := helperVersion; Token := token; ParentPID := pid; Command := Command req; Cert := Cert req; ReqHosts := ReqHosts req;
     SystemDNS := SystemDNS req; RollbackPath := RollbackPath req; AutoInstall := AutoInstall req |}.

(** The client is the service's own program, the request is one the checks authorise,
    and the request and the answers of the service survive their encoding within what a
    frame holds. *)
Context (Hpid : clientProcess = Ok pid) (Hsame : same_program pid) (Hpos : (0 < pid)%Z) (Htoken : is_blank token = false).
Context (Hauth : authorised DefaultHostsPath DefaultRollbackPath DefaultCertDir sent_request).
Context (Hreq : decodeRequest (encodeRequest sent_request) = Ok sent_request) (Hfit : fits (encodeRequest sent_request)).
Context (Hresp : forall w resp w', answer sent_request w = (Ok resp, w') ->
  decodeResponse (encodeResponse resp) = Ok resp ∧ fits (encodeResponse resp)).

Lemma request_admitted l sent calls pipe :
  writePipeFrame (encodeRequest sent_request) (lRequestCalls l) = (Ok tt, sent, calls) ->
  readPipeFrame (lRequest l sent) appHostMaxFrame = (Ok (encodeRequest sent_request), pipe) ->
  admission (lRequest l sent) = inl sent_request.
Proof.
  intros _ Hr. apply admitRequest_admitted. exists pid, (encodeRequest sent_request). rewrite Hr. by split_and!.
Qed.

(** One connection on which the request arrives. *)
Lemma roundTrip_reached l w :
  lConnect l = None -> moving (lRequestCalls l) -> arriving (lRequest l) ->
  roundTrip l (encodeRequest sent_request) w =
    (io resp <- answer sent_request;
     io_wrap "read apphost response: %w" []
       (io_of (readPipeFrame (lResponse l (writePipeFrame (encodeResponse resp) (lResponseCalls l)).1.2) appHostMaxFrame).1)) w.
Proof.
  intros Hc Hm Ha. unfold appHostPipeRoundTrip. rewrite Hc.
  destruct (frame_arrives (encodeRequest sent_request) (lRequestCalls l) (lRequest l) Hfit Hm Ha) as (sent & calls & pipe & Hw & Hr).
  rewrite Hw. unfold handlePipe, handlePipeRequest. rewrite (request_admitted l sent calls pipe Hw Hr).
  unfold io_bind. by destruct (answer sent_request w) as [[resp|e] w1].
Qed.

Lemma roundTrip_reliable l w :
  reliable l -> roundTrip l (encodeRequest sent_request) w = (io resp <- answer sent_request; io_ret (encodeResponse resp)) w.
Proof.
  intros (Hc & Hm & Ha & Hm' & Ha'). rewrite roundTrip_reached by done. unfold io_bind. destruct (answer sent_request w) as [[resp|e] w1] eqn:Ea; [|done].
  destruct (Hresp _ _ _ Ea) as [_ Hrfit].
  destruct (frame_arrives (encodeResponse resp) (lResponseCalls l) (lResponse l) Hrfit Hm' Ha') as (sent & calls & pipe & -> & Hr).
  cbn [fst snd]. by rewrite Hr.
Qed.

Lemma parse_answered w resp w' :
  answer sent_request w = (Ok resp, w') -> parseAppHostResponse decodeResponse (encodeResponse resp) = answered resp.
Proof. intros [Hd _]%Hresp. unfold parseAppHostResponse, answered. rewrite Hd. cbn. by destruct (OK resp). Qed.

(** C31: over a working pipe a privileged operation of the client is exactly one execution
    of its request in the service, however the bytes are cut, and the client gets the
    answer of the service. *)
Theorem apphost_call ready restart l l' (w w1 : World X) :
  ready w = (Ok tt, w1) -> reliable l ->
  runRequest ready restart (Ok token) pid l l' req w = (io resp <- answer sent_request; io_of (answered resp)) w1.
Proof.
  intros Hready Hl. unfold runAppHostRequestPlatform, io_bind at 1. rewrite Hready. cbn [io_of io_bind].
  fold sent_request. unfold io_try. rewrite roundTrip_reliable by done. unfold io_bind.
  destruct (answer sent_request w1) as [[resp|e] w2] eqn:Ea; [cbn; by rewrite (parse_answered _ _ _ Ea)|].
  exfalso. revert Ea. unfold answerRequest, io_try. by destruct (executeHelperRequest _ _ _ _ _ _ _ sent_request w1) as [[]].
Qed.

(** When the answer of the service is lost, the client restarts the service and sends
    the same request again, so that the operation is executed twice, the second time on
    the state the first one left.  Applying the system DNS settings a second time
    records the changed settings as the ones to restore. *)
Theorem lost_answer_repeats_request ready restart l l' (w w1 : World X) :
  ready w = (Ok tt, w1) -> lConnect l = None -> moving (lRequestCalls l) -> arriving (lRequest l) ->
  (forall s, lResponse l s = []) -> restart (answer sent_request w1).2 = (Ok tt, (answer sent_request w1).2) -> reliable l' ->
  runRequest ready restart (Ok token) pid l l' req w =
    (io _ <- answer sent_request; io resp <- answer sent_request; io_of (answered resp)) w1.
Proof.
  intros Hready Hc Hm Ha Hlost Hrestart Hl'. unfold runAppHostRequestPlatform, io_bind at 1. rewrite Hready. cbn [io_of io_bind].
  fold sent_request. unfold io_try. rewrite roundTrip_reached by done. unfold io_bind.
  assert (Hans : forall w0, exists resp w2, answer sent_request w0 = (Ok resp, w2)).
  { intros w0. unfold answerRequest, io_try. destruct (executeHelperRequest _ _ _ _ _ _ _ sent_request w0) as [[r|e] w2]; by eexists _, _. }
  destruct (Hans w1) as (resp1 & w2 & E1). rewrite E1 in *. cbn [snd] in Hrestart. rewrite Hlost. cbn [readPipeFrame readPipeFull fst].
  unfold io_wrap, io_of at 1. cbn [wrap_err].
  change (isAppHostPipeDisconnect text _) with true. cbn beta iota. rewrite Hrestart.
  rewrite roundTrip_reliable by done. unfold io_bind. destruct (Hans w2) as (resp2 & w3 & E2). rewrite E2. cbn.
  by rewrite (parse_answered _ _ _ E2).
Qed.
End calls.
End properties.

(** ** Waiting for the service *)

(** Waiting for the service ends: whatever its health checks and the context say, 51
    turns of the loop are enough, and the client then knows that the service is ready
    or why not. *)
Theorem ensureAppHostStarted_ends {X : Type} times ctx (health : nat -> IO X unit) start w :
  ticks (200 * 1000000) times -> exists r w', ensureAppHostStarted 51 times ctx health start w = (Ok (Some r), w').
Proof.
  intros Ht. unfold ensureAppHostStarted, io_try at 1. destruct (health 0%nat w) as [[[]|e] w1]; [by eexists _, _|].
  unfold io_try. destruct (start w1) as [[[]|e'] w2]; [|by eexists _, _].
  assert (Hloop : forall fuel i last w0, (1 <= i)%nat -> (52 <= fuel + i)%nat -> (0 < fuel)%nat ->
    exists r w', waitForHealth fuel i times ctx health (times 0%nat + 10 * Config.Second)%Z last w0 = (Ok (Some r), w')).
  2: { apply Hloop; lia. }
  induction fuel as [|fuel IH]; intros i last w0 Hi Hf Hp; [lia|]. cbn [waitForHealth].
  destruct (Z.ltb_spec (times i) (times 0%nat + 10 * Config.Second)) as [Hlt|]; [|by eexists _, _].
  destruct (ctx i); [by eexists _, _|]. unfold io_try. destruct (health i w0) as [[[]|e0] w3]; [by eexists _, _|].
  destruct i as [|k]; [lia|]. pose proof (ticks_deadline (200 * 1000000) times 50 k Ht ltac:(lia) Hlt). apply IH; lia.
Qed.

(** * Witnesses *)

Section apphost_witnesses.
#[local] Existing Instance simple_externals.
#[local] Existing Instance sample_encoding.

Definition health_request : HelperRequest := healthRequest 7.
Definition only_health (data : gostring) : result HelperRequest := Ok health_request.
Definition named (r : HelperRequest) : gostring := Command r.
Definition decode_ok (data : gostring) : result HelperResponse := Ok succeeded.
Definition own_image (pid : Z) : result gostring := Ok ("/opt/app" : gostring).
Definition no_links (path : gostring) : result gostring := Ok path.

Definition whole (s : gostring) : list delivery := match s with [] => [] | _ => [Chunk s] end.
Definition sample_link : Link :=
  {| lConnect := None; lRequestCalls := [Accept 2; Accept 9]; lRequest := whole; lResponseCalls := []; lResponse := whole |}.
Definition lossy_link : Link :=
  {| lConnect := None; lRequestCalls := []; lRequest := whole; lResponseCalls := []; lResponse := fun _ => [] |}.

Lemma whole_arrives : arriving whole.
Proof. intros [|c s]; [done|]. cbn. by rewrite app_nil_r. Qed.

Lemma sample_link_reliable : reliable sample_link.
Proof.
  split_and!; [done| |exact whole_arrives|by apply Forall_nil|exact whole_arrives].
  apply Forall_cons. split; [by eexists|]. apply Forall_cons. split; [by eexists|by apply Forall_nil].
Qed.

Lemma own_program : same_program own_image (Ok ("/opt/app" : gostring)) no_links 7.
Proof. exists "/opt/app"%go, "/opt/app"%go. split_and!; [done|done|vm_compute; reflexivity]. Qed.

Lemma health_authorised : authorised "/etc/hosts" default_rollback default_certs health_request.
Proof. by left. Qed.

Lemma named_fits : fits (named health_request).
Proof. split; [done|]. by vm_compute. Qed.

Lemma health_answered (w : World unit) resp w' :
  answerRequest file_store (Hosts.otherPlatform "linux") (SystemDns.unsupportedPlatform "linux") 0%Z true [] silent health_request w = (Ok resp, w') ->
  decode_ok (no_response resp) = Ok resp ∧ fits (no_response resp).
Proof. intros [= <- <-]. split; [done|]. split; [done|]. by vm_compute. Qed.

Lemma apphost_call_witness :
  runAppHostRequestPlatform file_store (Hosts.otherPlatform "linux") (SystemDns.unsupportedPlatform "linux") 0%Z true [] only_health no_response
    silent "/etc/hosts" default_rollback default_certs (Ok 7%Z) own_image (Ok ("/opt/app" : gostring)) no_links named decode_ok
    (io_ret tt) (io_ret tt) (Ok ("health" : gostring)) 7 sample_link sample_link health_request sample_world = (Ok succeeded, sample_world).
Proof.
  rewrite (apphost_call file_store (Hosts.otherPlatform "linux") (SystemDns.unsupportedPlatform "linux") 0%Z true [] only_health no_response
    silent "/etc/hosts" default_rollback default_certs (Ok 7%Z) own_image (Ok ("/opt/app" : gostring)) no_links named decode_ok
    7 "health" health_request eq_refl own_program eq_refl eq_refl health_authorised eq_refl named_fits health_answered
    (io_ret tt) (io_ret tt) sample_link sample_link sample_world sample_world eq_refl sample_link_reliable).
  reflexivity.
Defined.

Lemma lost_answer_repeats_request_witness :
  runAppHostRequestPlatform file_store (Hosts.otherPlatform "linux") (SystemDns.unsupportedPlatform "linux") 0%Z true [] only_health no_response
    silent "/etc/hosts" default_rollback default_certs (Ok 7%Z) own_image (Ok ("/opt/app" : gostring)) no_links named decode_ok
    (io_ret tt) (io_ret tt) (Ok ("health" : gostring)) 7 lossy_link sample_link health_request sample_world = (Ok succeeded, sample_world).
Proof.
  rewrite (lost_answer_repeats_request file_store (Hosts.otherPlatform "linux") (SystemDns.unsupportedPlatform "linux") 0%Z true [] only_health no_response
    silent "/etc/hosts" default_rollback default_certs (Ok 7%Z) own_image (Ok ("/opt/app" : gostring)) no_links named decode_ok
    7 "health" health_request eq_refl own_program eq_refl eq_refl health_authorised eq_refl named_fits health_answered
    (io_ret tt) (io_ret tt) lossy_link sample_link sample_world sample_world eq_refl eq_refl (Forall_nil_2 _) whole_arrives (fun _ => eq_refl) eq_refl
    sample_link_reliable).
  reflexivity.
Defined.

(** A frame that is decoded to a request to trust the root certificate. *)
Definition sample_pipe : list delivery := [Chunk (header "x" ++ "x")]%list.


Definition slow_clock (i : nat) : Time := (Z.of_nat i * (200 * 1000000))%Z.
Lemma slow_clock_ticks : ticks (200 * 1000000) slow_clock.
Proof. split; [done|]. intros i. unfold slow_clock. lia. Qed.

Lemma ensureAppHostStarted_ends_witness :
  exists r w', ensureAppHostStarted 51 slow_clock (fun _ => None) (fun _ => io_err ERROR_BROKEN_PIPE) (io_ret tt) sample_world = (Ok (Some r), w').
Proof. apply ensureAppHostStarted_ends, slow_clock_ticks. Defined.
End apphost_witnesses.
