(* ===== verification/Console.v ===== *)
(** The process of the privileged service on Windows
    (src/internal/privilege/privilege_windows.go): what it may do, its pipe, the loop that
    hands out connections, and how a client opens one.

    Handles are numbers; what the calls of Windows answer is a list that the loops
    consume, one entry for each turn.  The handling of a connection is in [AppHost], the
    requests of the service manager in [ServiceControl]. *)
From stdpp Require Import strings.
From Stdlib Require Import Ascii.
From S2P Require Import Prelude GoStrings GoNet External World Flags.

Definition ERROR_FILE_NOT_FOUND : error := ErrorVar "windows.ERROR_FILE_NOT_FOUND".
Definition ERROR_PATH_NOT_FOUND : error := ErrorVar "windows.ERROR_PATH_NOT_FOUND".
Definition ERROR_PIPE_BUSY : error := ErrorVar "windows.ERROR_PIPE_BUSY".
Definition ERROR_PIPE_CONNECTED : error := ErrorVar "windows.ERROR_PIPE_CONNECTED".
Definition ERROR_INVALID_FUNCTION : error := ErrorVar "windows.ERROR_INVALID_FUNCTION".
Definition ERROR_INVALID_PARAMETER : error := ErrorVar "windows.ERROR_INVALID_PARAMETER".

Definition appHostPipeName : gostring := "\\.\pipe\SiteBoostCoreAppHost".

(** * Rights of the process *)

(** fmt's %x *)
Definition hex_digit (n : N) : byte := nth (N.to_nat n) ("0123456789abcdef" : gostring) "?"%char.
Fixpoint hex_fuel (fuel : nat) (n : N) (acc : gostring) : gostring :=
  match fuel with
  | O => acc
  | S fuel' => if (n <? 16)%N then hex_digit n :: acc else hex_fuel fuel' (N.shiftr n 4) (hex_digit (N.land n 15) :: acc)
  end.
Definition FormatHex (n : N) : gostring := hex_fuel (S (N.to_nat (N.size n))) n [].

Section rights.
(** The last number of the integrity label of the token, whether the token is elevated
    and whether it is a member of the administrators. *)
Variable integrityRid : result N.
Variable IsElevated : bool.
Variable isAdministratorToken : result bool.

Definition integrityLevel : result gostring :=
  do rid <- integrityRid;
  Ok (if (0x4000 <=? rid)%N then "system"
      else if (0x3000 <=? rid)%N then "high"
      else if (0x2000 <=? rid)%N then "medium"
      else if (0x1000 <=? rid)%N then "low"
      else "rid-0x" ++ FormatHex rid)%go.

Definition HasSystemPrivileges : bool :=
  (match integrityLevel with Ok integrity => bool_decide (integrity = "system"%go) | Err _ => false end) ||
  (match isAdministratorToken with Ok admin => IsElevated && admin | Err _ => false end).

Definition helperStatus (pid : Z) : gostring :=
  "helper pid=" ++ Itoa pid ++ " elevated=" ++ FormatBool IsElevated ++
  " admin=" ++ FormatBool (match isAdministratorToken with Ok admin => admin | Err _ => false end) ++
  " integrity=" ++ match integrityLevel with Ok integrity => integrity | Err _ => "unknown" end.
End rights.

Example integrity_1 : integrityLevel (Ok 0x3000%N) = Ok ("high" : gostring). Proof. reflexivity. Qed.
Example integrity_2 : integrityLevel (Ok 0x0fff%N) = Ok ("rid-0xfff" : gostring). Proof. reflexivity. Qed.

(** Only a token of the system or of an elevated administrator counts. *)
Lemma HasSystemPrivileges_spec rid elevated admin :
  HasSystemPrivileges rid elevated admin = true <->
  (exists r, rid = Ok r ∧ (0x4000 <= r)%N) ∨ (elevated = true ∧ admin = Ok true).
Proof.
  unfold HasSystemPrivileges, integrityLevel. rewrite orb_true_iff. apply Morphisms_Prop.or_iff_morphism.
  - destruct rid as [r|e]; cbn [rbind]; [|by split; [|intros (? & ? & _)]].
    rewrite bool_decide_eq_true. split.
    + intros Hr. exists r. split; [done|]. revert Hr. repeat (case_match; [try done; by rewrite <-N.leb_le|]).
      destruct (FormatHex r); cbn; discriminate.
    + intros (? & [= <-] & Hle). by apply N.leb_le in Hle as ->.
  - destruct admin as [[]|e]; rewrite ?andb_true_r, ?andb_false_r; intuition (congruence || discriminate).
Qed.

(** * Creating and opening the pipe *)

Record PipeMode := { rejectRemote : bool }.

Section pipe.
(** windows.CreateNamedPipe for a mode, with the descriptor that lets the system and
    administrators do everything and interactive users read and write. *)
Variable securityDescriptor : result unit.
Variable CreateNamedPipe : PipeMode -> result nat.

Definition isUnsupportedPipeRejectRemoteClients (e : error) : bool :=
  errors_Is e ERROR_INVALID_FUNCTION || errors_Is e ERROR_INVALID_PARAMETER.

Definition createAppHostPipe : result nat :=
  do _ <- wrap_err "create apphost pipe security descriptor: %w" [] securityDescriptor;
  wrap_err "create apphost named pipe: %w" []
    (match CreateNamedPipe {| rejectRemote := true |} with
     | Err e => if isUnsupportedPipeRejectRemoteClients e then CreateNamedPipe {| rejectRemote := false |} else Err e
     | Ok h => Ok h
     end).
End pipe.

(** One turn of a client that waits for the pipe: the state of its context, the answer of
    CreateFile, and the state of the context while it sleeps. *)
Record attempt := { aCtx : option error; aOpen : result nat; aSleep : option error }.

(** [None] is a client that still waits after the attempts of the list. *)
Fixpoint openAppHostPipe (lastErr : option error) (attempts : list attempt) (text : error -> gostring) : option (result nat) :=
  match attempts with
  | [] => None
  | a :: attempts' =>
      match aCtx a with
      | Some e => Some (Err (match lastErr with Some last => Wrapf "%w: %v" [text last] e | None => e end))
      | None =>
          match aOpen a with
          | Ok h => Some (Ok h)
          | Err e =>
              if negb (errors_Is e ERROR_FILE_NOT_FOUND) && negb (errors_Is e ERROR_PATH_NOT_FOUND) && negb (errors_Is e ERROR_PIPE_BUSY)
              then Some (Err e)
              else match aSleep a with
                   | Some ctxErr => Some (Err (Wrapf "%w: %v" [text e] ctxErr))
                   | None => openAppHostPipe (Some e) attempts' text
                   end
          end
      end
  end.

(** * The loop of the server *)

(** What ends the wait for a client. *)
Inductive happening :=
| Connected (err : option error)
| Cancelled.

(** One turn: the context, the new pipe, and what happens next. *)
Record turn := { tCtx : option error; tPipe : result nat; tNext : happening }.

Inductive effect :=
| Created (pipe : nat)
| Handling (pipe : nat)
| Closing (pipe : nat).

Definition connect_result (err : option error) : option error :=
  match err with Some e => if errors_Is e ERROR_PIPE_CONNECTED then None else Some e | None => None end.

(** The effects, and the result when the loop has ended. *)
Fixpoint run (turns : list turn) : list effect * option (result unit) :=
  match turns with
  | [] => ([], None)
  | t :: turns' =>
      match tCtx t with
      | Some _ => ([], Some (Ok tt))
      | None =>
          match tPipe t with
          | Err e => ([], Some (Err e))
          | Ok pipe =>
              match tNext t with
              | Cancelled => ([Created pipe; Closing pipe], Some (Ok tt))
              | Connected err =>
                  match connect_result err with
                  | Some e => ([Created pipe; Closing pipe], Some (Err (Wrapf "connect apphost pipe: %w" [] e)))
                  | None => let '(effects, r) := run turns' in (Created pipe :: Handling pipe :: effects, r)
                  end
              end
          end
      end
  end.

Definition RunAppHostConsole (privileged : bool) (status : gostring) (turns : list turn) : list effect * option (result unit) :=
  if negb privileged then ([], Some (Err (Errorf "windows apphost requires system privileges: %s" [status])))
  else run turns.

(** What is printed, and the result; [service] is the run under the service manager. *)
Definition RunAppHostService (isService : result bool) (service : result unit) (console : option (result unit)) (text : error -> gostring)
  : gostring * gostring * option (result unit) :=
  match isService with
  | Err e => ([], [], Some (Err (Wrapf "detect windows service mode: %w" [] e)))
  | Ok true => ([], [], Some service)
  | Ok false =>
      let out := "running windows apphost in console mode" ++ nl in
      match console with
      | Some (Err e) => (out, "windows apphost stopped: " ++ text e ++ nl, Some (Err e))
      | r => (out, [], r)
      end
  end.

(** ** Pipes *)

(** The pipes a list of effects leaves to nobody. *)
Definition settle (open : list nat) (x : effect) : list nat :=
  match x with
  | Created p => p :: open
  | Handling p | Closing p => filter (fun q => q <> p) open
  end.

(** A pipe is never created while another one is free, and each one is handed to the
    handler, which closes it, or closed. *)
Theorem pipes_settled privileged status turns :
  foldl settle [] (RunAppHostConsole privileged status turns).1 = [] ∧
  forall before after, (RunAppHostConsole privileged status turns).1 = before ++ after -> (length (foldl settle [] before) <= 1)%nat.
Proof.
  unfold RunAppHostConsole. destruct privileged; cbn [negb].
  2: { split; [done|]. intros [|x before] after E; [cbn; lia|discriminate]. }
  assert (Hone : forall p, filter (fun q => q <> p) [p] = [] :> list nat).
  { intros p. rewrite filter_cons_False by (intros Hn; by apply Hn). done. }
  induction turns as [|t turns [IH1 IH2]]; cbn [run].
  { split; [done|]. intros [|x before] after E; [cbn; lia|discriminate]. }
  assert (Hnone : foldl settle [] [] = [] ∧ forall before after, [] = before ++ after -> (length (foldl settle [] before) <= 1)%nat).
  { split; [done|]. intros [|x before] after E; [cbn; lia|discriminate]. }
  assert (Hpair : forall p y rest, y = Handling p ∨ y = Closing p -> foldl settle [] rest = [] ->
    (forall before after, rest = before ++ after -> (length (foldl settle [] before) <= 1)%nat) ->
    foldl settle [] (Created p :: y :: rest) = [] ∧
    forall before after, Created p :: y :: rest = before ++ after -> (length (foldl settle [] before) <= 1)%nat).
  { intros p y rest Hy Hr Hb. assert (Hs : settle [p] y = []) by (destruct Hy as [-> | ->]; cbn [settle]; apply Hone).
    cbn [foldl settle]. rewrite Hs. split; [done|].
    intros [|x1 [|x2 before]] after E; cbn in E; [cbn; lia|injection E as <- _; cbn; lia|].
    injection E as <- <- E. cbn [foldl settle]. rewrite Hs. by eapply Hb. }
  destruct (tCtx t); [done|]. destruct (tPipe t) as [p|e]; [|done]. destruct (tNext t) as [err|].
  - destruct (connect_result err); [apply Hpair; [by right|done|exact (proj2 Hnone)]|].
    destruct (run turns) as [effects r]. cbn [fst] in *. apply Hpair; [by left|done|done].
  - apply Hpair; [by right|done|exact (proj2 Hnone)].
Qed.
