(* ===== verification/Elevated.v ===== *)
(** The elevated helper process on Windows (src/internal/privilege/privilege_windows.go,
    io.go and RunHelper of privilege.go): the program starts itself once more with the
    rights of an administrator, hands it a request in a file and waits for the file with
    the answer.

    The two processes share the file system: what happens between two polls of the
    waiting process is a list of changes of the world, and the run of the helper is one
    of them. *)
From stdpp Require Import strings.
From Stdlib Require Import Ascii.
From S2P Require Import Prelude GoStrings GoNet External World FilePath CertStore Privilege Flags Console.
From S2P Require AppHost.

(** The command line of a process and its parsing into arguments
    (golang.org/x/sys/windows and package os), as documented: the arguments that were
    composed are the ones the process gets. *)
Class CommandLine := {
  ComposeCommandLine : list gostring -> gostring;
  CommandLineToArgv : gostring -> list gostring;
}.
Class CommandLineLaws `{CommandLine} : Prop := {
  argv_compose args : CommandLineToArgv (ComposeCommandLine args) = args;
}.

(** hex.EncodeToString *)
Definition hex_EncodeToString (b : gostring) : gostring :=
  flat_map (fun c => [hex_digit (N.shiftr (code c) 4); hex_digit (N.land (code c) 15)]) b.

Definition ERROR_CANCELLED : error := ErrorVar "windows.ERROR_CANCELLED".
Definition EINVAL : error := ErrorVar "syscall.EINVAL".

(** Text for a Windows call; it cannot hold a zero byte. *)
Definition UTF16PtrFromString (s : gostring) : result unit := if bool_decide (chr 0 ∈ s) then Err EINVAL else Ok tt.

(** [random] is what crypto/rand put into the 16 bytes of the buffer. *)
Definition randomToken (random : result gostring) : result gostring :=
  do b <- wrap_err "generate helper token: %w" [] random; Ok (hex_EncodeToString b).

Definition helperFlags : FlagSet :=
  [("request", StringFlag); ("response", StringFlag); ("token", StringFlag); ("parent", IntFlag)]%go.

(** The arguments the helper is started with. *)
Definition helperArgs (requestPath responsePath token : gostring) (pid : Z) : list gostring :=
  ["__helper"; "--request"; requestPath; "--response"; responsePath; "--token"; token; "--parent"; Itoa pid]%go.

(** What the waiting process meets: a tick of its timer, before which others changed the
    world, or the end of its context. *)
Inductive poll (X : Type) :=
| Tick (others : World X -> World X)
| Expired (e : error).
Arguments Tick {X}.
Arguments Expired {X}.

Section directories.
Context {X : Type} `{Encoding} `{FilePath}.

Definition inside (dir : gostring) (q : gostring) : bool := HasPrefix q (dir ++ [PathSeparator]).

(** os.MkdirTemp: the name of a new directory is longer than that of any file. *)
Definition temp_dir (pattern : gostring) (fs : gmap gostring gostring) : gostring :=
  os_TempDir ++ [PathSeparator] ++ pattern ++ replicate (max_list (length <$> (map_to_list fs).*1)) "0"%char.

Definition os_MkdirTemp (pattern : gostring) : IO X gostring :=
  os_call (PathError "mkdirtemp" os_TempDir) (fun w => (Ok (temp_dir pattern (files w)), w)).

Definition without (dir : gostring) (fs : gmap gostring gostring) : gmap gostring gostring :=
  filter (fun kv => inside dir kv.1 = false) fs.

Definition os_RemoveAll (dir : gostring) : IO X unit :=
  os_call (PathError "unlinkat" dir) (fun w => (Ok tt, set_files (without dir (files w)) w)).

(** [defer cleanup()] around a function. *)
Definition deferring {A} (cleanup : IO X unit) (m : IO X A) : IO X A :=
  try r <- m; try _ <- cleanup; io_of r.
End directories.

Section parent.
Context {X : Type} `{Encoding} `{FilePath} `{CommandLine}.
(** encoding/json on requests and responses, the program's own path and the current
    directory. *)
Variable encodeRequest : HelperRequest -> gostring.
Variable decodeResponse : gostring -> result HelperResponse.
Variable os_Executable : result gostring.
Variable cwd : gostring.

Definition writeHelperRequest (path : gostring) (req : HelperRequest) : IO X unit :=
  io _ <- io_wrap "create helper request directory: %w" [] (os_MkdirAll (filepath_Dir path));
  io_wrap "write helper request: %w" [] (os_WriteFile path (encodeRequest req)).

Definition readHelperResponse (path : gostring) : IO X HelperResponse :=
  io data <- os_ReadFile path;
  io_wrap "parse helper response: %w" [] (io_of (decodeResponse data)).

Definition shellExecuteRunas (exe args cwd : gostring) : IO X unit :=
  io _ <- io_of (UTF16PtrFromString "runas");
  io _ <- io_of (UTF16PtrFromString exe);
  io _ <- io_of (UTF16PtrFromString args);
  io _ <- io_of (if bool_decide (cwd = []) then Ok tt else UTF16PtrFromString cwd);
  os_call (fun e => e) (io_ret tt).

(** The result [None] is a wait that goes on after the polls of the list. *)
Fixpoint waitForHelperResponse (polls : list (poll X)) (responsePath : gostring) : IO X (option HelperResponse) :=
  match polls with
  | [] => io_ret None
  | Expired e :: _ => io_err (Wrapf "elevated helper timed out or was canceled: %w" [] e)
  | Tick others :: polls' => fun w =>
      (try r <- readHelperResponse responsePath;
       match r with
       | Err e => if os_IsNotExist e then waitForHelperResponse polls' responsePath else io_err e
       | Ok resp =>
           if negb (OK resp)
           then io_err (Errorf "elevated helper: %s" [if bool_decide (Error resp = []) then "helper failed" else Error resp])
           else io_ret (Some resp)
       end) (others w)
  end.

(** From the request file to the start of the process: the path of the response. *)
Definition startHelper (dir token : gostring) (pid : Z) (req : HelperRequest) : IO X gostring :=
  let requestPath := filepath_Join dir "request.json" in
  let responsePath := filepath_Join dir "response.json" in
  io _ <- writeHelperRequest requestPath (AppHost.sent_request pid token req);
  io exe <- io_wrap "locate executable for elevated helper: %w" [] (io_of os_Executable);
  try started <- shellExecuteRunas exe (ComposeCommandLine (helperArgs requestPath responsePath token pid)) cwd;
  match started with
  | Ok _ => io_ret responsePath
  | Err e =>
      if errors_Is e ERROR_CANCELLED then io_err (Errorf "elevated helper authorization was canceled" [])
      else io_err (Wrapf "start elevated helper: %w" [] e)
  end.

Definition runElevatedHelper (parentErr : option error) (random : result gostring) (pid : Z) (polls : list (poll X)) (req : HelperRequest)
  : IO X (option HelperResponse) :=
  io _ <- ctx_Err parentErr;
  io dir <- io_wrap "create helper temp dir: %w" [] (os_MkdirTemp "steam-accelerator-helper-");
  deferring (os_RemoveAll dir)
    (io token <- io_of (randomToken random);
     io responsePath <- startHelper dir token pid req;
     waitForHelperResponse polls responsePath).

Definition RelaunchElevated (args : list gostring) : IO X unit :=
  io exe <- io_wrap "locate executable for elevated relaunch: %w" [] (io_of os_Executable);
  try started <- shellExecuteRunas exe (ComposeCommandLine args) cwd;
  match started with
  | Ok _ => io_ret tt
  | Err e =>
      if errors_Is e ERROR_CANCELLED then io_err (Errorf "administrator authorization was canceled" [])
      else io_err (Wrapf "start elevated process: %w" [] e)
  end.
End parent.

(** The helper with its flags. *)
Section helper.
Context {X : Type} `{Externals} `{Encoding} `{FilePath} `{CommandLine}.
Variable store : CertStore X.
Variable hostsPlatform : Hosts.Platform X.
Variable dnsPlatform : SystemDns.Platform X.
Variable now : Time.
Variable privileged : bool.
Variable helperStatus : gostring.
Variable decodeRequest : gostring -> result HelperRequest.
Variable encodeResponse : HelperResponse -> gostring.
Variable text : error -> gostring.
Variables DefaultHostsPath DefaultRollbackPath DefaultCertDir : gostring.

Definition RunHelperCommand (args : list gostring) : IO X unit :=
  io parsed <- io_of (Parse helperFlags args ∅);
  RunHelper store hostsPlatform dnsPlatform now None privileged helperStatus decodeRequest encodeResponse text
    DefaultHostsPath DefaultRollbackPath DefaultCertDir
    (stringOf parsed.1 "request") (stringOf parsed.1 "response") (stringOf parsed.1 "token") (intOf parsed.1 "parent").

(** The run of the process that a command line starts; its first argument chooses the
    command. *)
Definition helperProcess (cmdline : gostring) (w : World X) : World X :=
  (RunHelperCommand (tail (CommandLineToArgv cmdline)) w).2.
End helper.

(** * Properties *)

Lemma fresh_length (fs : gmap gostring gostring) q :
  (max_list (length <$> (map_to_list fs).*1) < length q)%nat -> fs !! q = None.
Proof.
  intros Hl. destruct (fs !! q) as [d|] eqn:E; [|done]. exfalso.
  assert (length q ∈ length <$> (map_to_list fs).*1) as Hin.
  { apply list_elem_of_fmap_2, (list_elem_of_fmap_2 fst _ (q, d)). by apply elem_of_map_to_list. }
  apply max_list_elem_of_le in Hin. lia.
Qed.

Section directory_properties.
Context `{Encoding} `{FilePath}.

Lemma inside_app dir name : inside dir (dir ++ [PathSeparator] ++ name) = true.
Proof. unfold inside. apply HasPrefix_true. exists name. by rewrite <-app_assoc. Qed.

Lemma inside_length dir q : inside dir q = true -> (length dir < length q)%nat.
Proof. unfold inside. intros [r ->]%HasPrefix_true. rewrite !length_app. cbn. lia. Qed.

(** Nothing lies in a new directory. *)
Lemma temp_dir_fresh pattern fs q : inside (temp_dir pattern fs) q = true -> fs !! q = None.
Proof.
  intros Hq%inside_length. apply fresh_length. unfold temp_dir in Hq. rewrite !length_app, length_replicate in Hq. lia.
Qed.

Lemma without_insert dir q d fs : inside dir q = true -> without dir (<[q := d]> fs) = without dir fs.
Proof. intros Hq. unfold without. apply map_filter_insert_not. intros y. cbn. by rewrite Hq. Qed.
End directory_properties.

Lemma hex_graphic b : forallb graphic (hex_EncodeToString b) = true.
Proof.
  induction b as [|c b IH]; [done|]. cbn [hex_EncodeToString flat_map app forallb]. fold (hex_EncodeToString b). rewrite IH.
  assert (Hd : forall n, (n < 16)%N -> graphic (hex_digit n) = true).
  { intros n Hn. assert (Ha : Forall (fun k => graphic (hex_digit (N.of_nat k)) = true) (seq 0 16)) by (repeat constructor).
    rewrite Forall_forall in Ha. specialize (Ha (N.to_nat n)). rewrite N2Nat.id in Ha. apply Ha, elem_of_seq. lia. }
  rewrite Hd, Hd; [done| |].
  - change 15%N with (N.ones 4). rewrite N.land_ones. by apply N.mod_lt.
  - rewrite N.shiftr_div_pow2. apply N.Div0.div_lt_upper_bound. unfold code. apply (N_ascii_bounded c).
Qed.

Lemma hex_not_blank b : b <> [] -> is_blank (hex_EncodeToString b) = false.
Proof.
  intros Hb. unfold is_blank. rewrite TrimSpace_graphic by apply hex_graphic. apply bool_decide_eq_false_2. by destruct b.
Qed.

(** The flags of the helper are read as they were given. *)
Lemma helperFlags_parse requestPath responsePath token pid :
  (0 <= pid < 2 ^ 63)%Z ->
  exists given, Parse helperFlags (tail (helperArgs requestPath responsePath token pid)) ∅ = Ok (given, []) ∧
    stringOf given "request" = requestPath ∧ stringOf given "response" = responsePath ∧ stringOf given "token" = token ∧
    intOf given "parent" = pid.
Proof.
  intros Hp.
  pose proof (Parse_render helperFlags [("request", requestPath); ("response", responsePath); ("token", token)]%go
    ["--parent"; Itoa pid]%go ∅) as Hr.
  eexists. split.
  { etrans; [apply Hr; repeat (apply Forall_cons; split; [by split|]); by apply Forall_nil|].
    apply (Parse_given helperFlags "parent" IntFlag (Itoa pid) (Itoa pid) []); [done..|]. cbn. by rewrite ParseInt_Itoa. }
  unfold stringOf, intOf. cbn [foldl fst snd].
  split_and!; [by rewrite !lookup_insert_ne, lookup_insert_eq by done..|]. by rewrite lookup_insert_eq, ParseInt_Itoa.
Qed.

Section elevated.
Context {X : Type} `{Externals} `{Encoding} `{FilePath} `{CommandLine} `{!CommandLineLaws}.
Context (store : CertStore X) (hostsPlatform : Hosts.Platform X) (dnsPlatform : SystemDns.Platform X).
Context (now : Time) (privileged : bool) (helperStatus : gostring).
Context (encodeRequest : HelperRequest -> gostring) (decodeRequest : gostring -> result HelperRequest).
Context (encodeResponse : HelperResponse -> gostring) (decodeResponse : gostring -> result HelperResponse) (text : error -> gostring).
Context (DefaultHostsPath DefaultRollbackPath DefaultCertDir exe cwd : gostring).

#[local] Abbreviation execute := (executeHelperRequest store hostsPlatform dnsPlatform now None privileged helperStatus).
#[local] Abbreviation elevated := (runElevatedHelper encodeRequest decodeResponse (Ok exe) cwd).
#[local] Abbreviation command := (RunHelperCommand store hostsPlatform dnsPlatform now privileged helperStatus decodeRequest encodeResponse text
  DefaultHostsPath DefaultRollbackPath DefaultCertDir).
#[local] Abbreviation process := (helperProcess store hostsPlatform dnsPlatform now privileged helperStatus decodeRequest encodeResponse text
  DefaultHostsPath DefaultRollbackPath DefaultCertDir).

(** The response the helper writes. *)
Definition response_of (x : result HelperResponse) : HelperResponse :=
  match x with Ok resp => resp | Err e => refused (helperStatus ++ ": " ++ text e) end.

(** What the caller gets from it. *)
Definition outcome (resp : HelperResponse) : result (option HelperResponse) :=
  if OK resp then Ok (Some resp)
  else Err (Errorf "elevated helper: %s" [if bool_decide (Error resp = []) then "helper failed" else Error resp]).

Section call.
Context (pid : Z) (buf : gostring) (req : HelperRequest) (w : World X).

(** Where the files of the call lie, and what goes into them. *)
Definition call_dir : gostring := temp_dir "steam-accelerator-helper-" (files w).
Definition call_file (name : gostring) : gostring := call_dir ++ [PathSeparator] ++ name.
Definition call_request : HelperRequest := AppHost.sent_request pid (hex_EncodeToString buf) req.
Definition call_cmdline : gostring :=
  ComposeCommandLine (helperArgs (call_file "request.json") (call_file "response.json") (hex_EncodeToString buf) pid).

(** The world in which the helper executes the request, with [fs] left of the fault
    schedule. *)
Definition called (fs : list (option fault)) : World X :=
  {| files := <[call_file "request.json" := encodeRequest call_request]> (files w); faults := fs; sys := sys w |}.

Context (Hjoin : Forall (fun name => filepath_Join call_dir name = call_file name) ["request.json"; "response.json"]%go).
Context (Hpid : (0 < pid < 2 ^ 63)%Z) (Hbuf : buf <> []).
Context (Hauth : authorised DefaultHostsPath DefaultRollbackPath DefaultCertDir call_request).
Context (Hreq : decodeRequest (encodeRequest call_request) = Ok call_request).
Context (Htexts : chr 0 ∉ exe ++ call_cmdline ++ cwd).
Context (Hnames : is_blank (call_file "request.json") = false ∧ is_blank (call_file "response.json") = false).

Lemma call_file_inside name : inside call_dir (call_file name) = true.
Proof. apply inside_app. Qed.

Lemma call_file_fresh name : files w !! call_file name = None.
Proof. by eapply temp_dir_fresh, call_file_inside. Qed.

Lemma call_files_differ : call_file "request.json" <> call_file "response.json".
Proof. unfold call_file. intros E%app_inv_head. done. Qed.

Lemma texts_ok : Forall (fun s => UTF16PtrFromString s = Ok tt) [exe; call_cmdline; cwd].
Proof.
  rewrite !not_elem_of_app in Htexts. destruct Htexts as (He & Hc & Hd). unfold UTF16PtrFromString.
  repeat (apply Forall_cons; split; [by rewrite bool_decide_eq_false_2|]). by apply Forall_nil.
Qed.

Lemma shellExecute_starts (w0 : World X) fs :
  faults w0 = None :: fs ->
  shellExecuteRunas exe call_cmdline cwd w0 = (Ok tt, {| files := files w0; faults := fs; sys := sys w0 |}).
Proof.
  intros Hf. pose proof texts_ok as (He & (Hc & (Hd & _)%Forall_cons_1)%Forall_cons_1)%Forall_cons_1.
  unfold shellExecuteRunas, io_bind. change (UTF16PtrFromString "runas") with (Ok tt). cbn [io_of]. rewrite He, Hc, Hd. cbn [io_of].
  case_bool_decide; cbn [io_of]; unfold os_call, next_fault; by rewrite Hf.
Qed.

(** The run of the helper, when its own calls do not fail. *)
Lemma helper_answers fs x w2 :
  execute call_request (called fs) = (x, w2) -> faults w2 = [] ->
  process call_cmdline (called (None :: fs)) =
    set_files (<[call_file "response.json" := encodeResponse (response_of x)]> (files w2)) w2.
Proof.
  intros Hx Hf. unfold helperProcess, RunHelperCommand. unfold call_cmdline. rewrite argv_compose.
  destruct (helperFlags_parse (call_file "request.json") (call_file "response.json") (hex_EncodeToString buf) pid ltac:(lia))
    as (given & -> & Hg1 & Hg2 & Hg3 & Hg4).
  unfold io_bind at 1. cbn [io_of fst snd]. rewrite Hg1, Hg2, Hg3, Hg4. unfold RunHelper. destruct Hnames as [-> ->]. cbn [orb].
  unfold io_try at 1, readHelperRequest, io_bind, io_wrap, os_ReadFile, os_call. cbn [called next_fault faults files sys].
  rewrite lookup_insert_eq. cbn [wrap_err]. unfold io_of at 1. rewrite Hreq. cbn [wrap_err].
  rewrite (proj2 (validateHelperRequest_ok DefaultHostsPath DefaultRollbackPath DefaultCertDir call_request (hex_EncodeToString buf) pid)).
  2: { split; [|done]. split_and!; try done; [by apply hex_not_blank|lia]. }
  unfold io_try at 1. fold (called fs). rewrite Hx. fold (response_of x). unfold io_try, writeHelperResponse, io_bind, io_wrap, os_MkdirAll, os_call, os_WriteFile, os_put.
  rewrite !next_fault_healthy by done. cbn. rewrite next_fault_healthy by done. cbn. by destruct x.
Qed.

(** The start of the helper, when its calls do not fail. *)
Lemma startHelper_starts fs :
  startHelper encodeRequest (Ok exe) cwd call_dir (hex_EncodeToString buf) pid req
    {| files := files w; faults := None :: None :: None :: fs; sys := sys w |} = (Ok (call_file "response.json"), called fs).
Proof.
  pose proof Hjoin as (Hj1 & (Hj2 & _)%Forall_cons_1)%Forall_cons_1. unfold startHelper. rewrite Hj1, Hj2. fold call_cmdline call_request.
  unfold writeHelperRequest, io_bind, io_wrap, io_try, os_MkdirAll, os_WriteFile, os_put, os_call.
  cbn [next_fault faults files sys set_files io_ret io_of wrap_err]. by rewrite (shellExecute_starts _ fs).
Qed.

Lemma read_missing fs :
  readHelperResponse decodeResponse (call_file "response.json") (called (None :: fs)) =
    (Err (PathError "open" (call_file "response.json") os_ErrNotExist), called fs).
Proof.
  unfold readHelperResponse, io_bind, os_ReadFile, os_call. cbn [called next_fault faults files sys].
  by rewrite lookup_insert_ne, call_file_fresh by apply call_files_differ.
Qed.

(** Polls before the response is there. *)
Lemma idle_polls n polls fs :
  waitForHelperResponse decodeResponse (replicate n (Tick id) ++ polls) (call_file "response.json") (called (replicate n None ++ fs)) =
  waitForHelperResponse decodeResponse polls (call_file "response.json") (called fs).
Proof.
  induction n as [|n IH]; [done|]. cbn [replicate app waitForHelperResponse id]. unfold io_try. rewrite read_missing. exact IH.
Qed.

(** A poll that finds the response file. *)
Lemma poll_finds others polls data (w0 w2 : World X) :
  others w0 = set_files (<[call_file "response.json" := data]> (files w2)) w2 -> faults w2 = [] ->
  waitForHelperResponse decodeResponse (Tick others :: polls) (call_file "response.json") w0 =
    (match decodeResponse data with
     | Ok resp => outcome resp
     | Err e => Err (Wrapf "parse helper response: %w" [] e)
     end, set_files (<[call_file "response.json" := data]> (files w2)) w2).
Proof.
  intros Ho Hf. cbn [waitForHelperResponse]. rewrite Ho. unfold io_try at 1, readHelperResponse, io_bind at 1, os_ReadFile, os_call.
  rewrite next_fault_healthy by done. cbn [files set_files]. rewrite lookup_insert_eq. unfold io_wrap, io_of at 1.
  destruct (decodeResponse data) as [resp|e]; cbn [wrap_err]; [|done]. unfold outcome. by destruct (OK resp).
Qed.

(** A call, by what the wait comes to after [n] polls at which nothing had happened. *)
Lemma elevated_waited n polls fs r data w2 :
  faults w = replicate (4 + n) None ++ fs ->
  waitForHelperResponse decodeResponse polls (call_file "response.json") (called fs) =
    (r, set_files (<[call_file "response.json" := data]> (files w2)) w2) -> faults w2 = [] ->
  elevated None (Ok buf) pid (replicate n (Tick id) ++ polls) req w = (r, set_files (without call_dir (files w2)) w2).
Proof.
  intros Hw Ho Hf. unfold runElevatedHelper, io_bind at 1. cbn [ctx_Err io_ret].
  unfold io_bind at 1, io_wrap at 1, os_MkdirTemp, os_call. unfold next_fault. rewrite Hw. cbn [replicate plus app]. cbn [files wrap_err]. fold call_dir.
  unfold deferring, io_try at 1. unfold io_bind at 1, io_of at 1. cbn [randomToken wrap_err rbind].
  unfold io_bind at 1. rewrite startHelper_starts, idle_polls, Ho.
  unfold io_try, os_RemoveAll, os_call. rewrite next_fault_healthy by done. cbn. by rewrite without_insert by apply call_file_inside.
Qed.

(** ** The helper beside the polls

    The waiting process looks at any moment of the helper's run: before it executed the
    request, after that and before the response file exists, or when the file holds a
    part of the response, possibly none of it and finally all of it. *)
Inductive moment :=
| Waiting
| Executed
| Writing (written : nat).

(** The world a poll meets at a moment; [x] and [w2] are what the execution of the request
    gave and left. *)
Definition seen (x : result HelperResponse) (w2 : World X) (m : moment) (w : World X) : World X :=
  match m with
  | Waiting => w
  | Executed => w2
  | Writing written => set_files (<[call_file "response.json" := take written (encodeResponse (response_of x))]> (files w2)) w2
  end.

Lemma executed_polls m polls (w2 : World X) :
  faults w2 = [] -> files w2 !! call_file "response.json" = None ->
  forall w0, m <> 0 ->
  waitForHelperResponse decodeResponse (replicate m (Tick (fun _ => w2)) ++ polls) (call_file "response.json") w0 =
  waitForHelperResponse decodeResponse polls (call_file "response.json") w2.
Proof.
  intros Hf Hn. assert (Hr : readHelperResponse decodeResponse (call_file "response.json") w2 =
    (Err (PathError "open" (call_file "response.json") os_ErrNotExist), w2)).
  { unfold readHelperResponse, io_bind, os_ReadFile. rewrite os_call_healthy by done. by rewrite Hn. }
  induction m as [|m IH]; intros w0 Hm; [done|]. cbn [replicate app waitForHelperResponse]. unfold io_try. rewrite Hr.
  change (os_IsNotExist (PathError "open" (call_file "response.json") os_ErrNotExist)) with true. cbn beta iota.
  destruct m as [|m]; [done|]. by apply IH.
Qed.

End call.
End elevated.

(** * Witnesses *)

#[local] Instance simple_commandline : CommandLine := {
  ComposeCommandLine args := bits_of_pos (encode args);
  CommandLineToArgv s := default [] (pos_of_bits s ≫= decode);
}.
#[local] Instance simple_commandline_laws : CommandLineLaws.
Proof. split. intros args. cbn. by rewrite pos_of_bits_of_pos; cbn; rewrite decode_encode. Qed.

Section elevated_witnesses.
#[local] Existing Instance simple_externals.
#[local] Existing Instance sample_encoding.

Definition trust_ca : HelperRequest := sample_request CommandTrustRootCA [].
Definition random_bytes : gostring := replicate 16 (chr 7).
Definition waiting_world : World unit := {| files := files sample_world; faults := replicate 6 None; sys := tt |}.
Definition one_trust : HelperRequest := AppHost.sent_request 7 (hex_EncodeToString random_bytes) trust_ca.
Definition only_trust (data : gostring) : result HelperRequest := Ok one_trust.
Definition one_response : HelperResponse :=
  {| OK := true; Error := [];
     Trust := Some {| TPlatform := "linux"; TCertPath := default_certs ++ "/ca.pem"; TThumbprint := []; TStoreScope := "user"; TAlreadyTrusted := false;
                      TInstalled := true; TChanged := true; TViaHelper := true |}; Prepare := None; RespDNS := None |}.
Definition read_response (data : gostring) : result HelperResponse :=
  if bool_decide (data = []) then Err (External "unexpected end of JSON input") else Ok one_response.

Definition trust_process : World unit -> World unit :=
  helperProcess file_store (Hosts.otherPlatform "linux") (SystemDns.unsupportedPlatform "linux") 0%Z true [] only_trust no_response silent
    "/etc/hosts" default_rollback default_certs (call_cmdline 7 random_bytes waiting_world).

Lemma names_joined : Forall (fun name => filepath_Join (call_dir waiting_world) name = call_file waiting_world name) ["request.json"; "response.json"]%go.
Proof. repeat (apply Forall_cons; split; [vm_compute; reflexivity|]). by apply Forall_nil. Qed.

Lemma trust_authorised : authorised "/etc/hosts" default_rollback default_certs one_trust.
Proof. apply validatePrivileged_ok. vm_compute. reflexivity. Qed.

Lemma texts_clean : chr 0 ∉ "/opt/app"%go ++ call_cmdline 7 random_bytes waiting_world ++ "/"%go.
Proof. by_decide. Qed.

Lemma names_given :
  is_blank (call_file waiting_world "request.json") = false ∧ is_blank (call_file waiting_world "response.json") = false.
Proof. split; vm_compute; reflexivity. Qed.

Definition trusted_world : World unit :=
  (executeHelperRequest file_store (Hosts.otherPlatform "linux") (SystemDns.unsupportedPlatform "linux") 0%Z None true [] one_trust
     (called (fun _ => "{}"%go) 7 random_bytes trust_ca waiting_world [])).2.

Lemma no_response_yet : files trusted_world !! call_file waiting_world "response.json" = None.
Proof. vm_compute. reflexivity. Qed.

Lemma trust_executes :
  executeHelperRequest file_store (Hosts.otherPlatform "linux") (SystemDns.unsupportedPlatform "linux") 0%Z None true [] one_trust
    (called (fun _ => "{}"%go) 7 random_bytes trust_ca waiting_world []) = (Ok one_response, trusted_world).
Proof. etrans; [apply surjective_pairing|]. refine (f_equal2 pair _ eq_refl). vm_compute. reflexivity. Qed.

(** The response of the sample is two bytes long. *)
Definition two_bytes (resp : HelperResponse) : gostring := "ok".

Definition sample_call (polls : list moment) : result (option HelperResponse) * World unit :=
  runElevatedHelper (fun _ => "{}"%go) read_response (Ok ("/opt/app" : gostring)) "/" None (Ok random_bytes) 7
    ((fun t => Tick (seen [] two_bytes silent waiting_world (Ok one_response) trusted_world t)) <$> polls) trust_ca waiting_world.

End elevated_witnesses.
