(* ===== verification/ServiceControl.v ===== *)
(** The Windows service that runs the privileged server
    (src/internal/privilege/privilege_windows.go): its installation, configuration,
    start, stop, removal and status, and the handler of the service manager's requests.

    The service manager, the clock and the context are an interface; the loops that poll
    the manager have fuel, and the constants are proved to be enough. *)
From stdpp Require Import strings.
From Stdlib Require Import Ascii.
From S2P Require Import Prelude GoStrings GoNet External World Flags.

Inductive svcState :=
| Stopped
| StartPending
| StopPending
| Running
| ContinuePending
| PausePending
| Paused
| OtherState (n : Z).

#[export] Instance svcState_eq_dec : EqDecision svcState.
Proof. solve_decision. Defined.

(** mgr.Config, as far as the program sets it; the start types are 2, 3 and 4. *)
Record ServiceConfig := {
  ServiceType : Z;
  StartType : Z;
  ErrorControl : Z;
  BinaryPathName : gostring;
  DisplayName : gostring;
  Description : gostring;
  DelayedAutoStart : bool;
}.

Definition SERVICE_WIN32_OWN_PROCESS : Z := 16.
Definition StartAutomatic : Z := 2.
Definition StartManual : Z := 3.
Definition StartDisabled : Z := 4.
Definition ErrorNormal : Z := 1.

Definition ERROR_SERVICE_DOES_NOT_EXIST : error := ErrorVar "windows.ERROR_SERVICE_DOES_NOT_EXIST".
Definition errorServiceMarkedForDelete : error := ErrorVar "errorServiceMarkedForDelete".

(** The calls on the one service of the program. *)
Class ServiceManager (S : Type) := {
  mgr_Connect : ST S unit;
  OpenService : ST S unit;
  QueryService : ST S (svcState * Z);
  QueryConfig : ST S ServiceConfig;
  UpdateConfig : ServiceConfig -> ST S unit;
  CreateService : gostring -> ServiceConfig -> list gostring -> ST S unit;
  StartService : ST S unit;
  ControlStop : ST S unit;
  DeleteService : ST S unit;
  clock : S -> Time * S;
  sleep : Z -> S -> S;
  ctx_err : ST S unit;
  os_Executable : ST S gostring;
  err_text : error -> gostring;
}.

(** syscall.EscapeArg *)
Definition backslash : byte := chr 92.
Definition dquote : byte := chr 34.

Fixpoint escape_bytes (s : gostring) (slashes : nat) (quoted : bool) : gostring :=
  match s with
  | [] => if quoted then replicate slashes backslash ++ [dquote] else []
  | c :: s' =>
      if bool_decide (c = backslash) then c :: escape_bytes s' (S slashes) quoted
      else if bool_decide (c = dquote) then replicate slashes backslash ++ [backslash; c] ++ escape_bytes s' 0 quoted
      else c :: escape_bytes s' 0 quoted
  end.

Definition EscapeArg (s : gostring) : gostring :=
  let special := existsb (fun c => bool_decide (c = dquote) || bool_decide (c = backslash)) s in
  let spaced := existsb (fun c => bool_decide (c = chr 32) || bool_decide (c = chr 9)) s in
  match s with
  | [] => [dquote; dquote]
  | _ =>
      if negb special && negb spaced then s
      else if negb special then [dquote] ++ s ++ [dquote]
      else (if spaced then [dquote] else []) ++ escape_bytes s 0 spaced
  end.

Example escape_1 : EscapeArg "C:\Program Files\app.exe" = [dquote] ++ "C:\Program Files\app.exe" ++ [dquote]. Proof. reflexivity. Qed.
Example escape_2 : EscapeArg "a b\" = [dquote] ++ "a b\\" ++ [dquote]. Proof. reflexivity. Qed.
Example escape_3 : EscapeArg "C:\app.exe" = "C:\app.exe". Proof. reflexivity. Qed.

Definition serviceArg : gostring := "__apphost-service".

Definition appHostServiceCommandLine (exe : gostring) : gostring := EscapeArg exe ++ " " ++ EscapeArg serviceArg.

Definition newAppHostServiceConfig (binaryPathName : gostring) : ServiceConfig :=
  {| ServiceType := SERVICE_WIN32_OWN_PROCESS; StartType := StartAutomatic; ErrorControl := ErrorNormal;
     BinaryPathName := binaryPathName; DisplayName := "SiteBoost Core AppHost";
     Description := "Privileged local apphost for SiteBoost Core hosts and certificate system changes."; DelayedAutoStart := true |}.

Definition serviceStateName (state : svcState) : gostring :=
  match state with
  | Stopped => "stopped"
  | StartPending => "start_pending"
  | StopPending => "stop_pending"
  | Running => "running"
  | ContinuePending => "continue_pending"
  | PausePending => "pause_pending"
  | Paused => "paused"
  | OtherState n => "unknown(" ++ Itoa n ++ ")"
  end.

Definition serviceStartTypeName (startType : Z) : gostring :=
  if (startType =? StartAutomatic)%Z then "automatic"
  else if (startType =? StartManual)%Z then "manual"
  else if (startType =? StartDisabled)%Z then "disabled"
  else "unknown(" ++ Itoa startType ++ ")".

Definition compactStatusDetail (detail : gostring) : gostring :=
  let detail := TrimSpace detail in
  let detail := (fun c => if bool_decide (c = chr 13) then chr 32 else c) <$> detail in
  let detail := (fun c => if bool_decide (c = chr 10) then chr 32 else c) <$> detail in
  if (160 <? length detail)%nat then take 157 detail ++ "..." else detail.

Definition poll : Z := 200 * 1000000.
Definition seconds (n : Z) : Z := n * 1000000000.

Section service.
Context {S : Type} `{Externals} `{!ServiceManager S}.

Definition isServiceMarkedForDelete (e : error) : bool :=
  errors_Is e errorServiceMarkedForDelete || Contains (ToLower (err_text e)) "marked for deletion".

Definition time_Now : ST S Time := fun s => let '(t, s') := clock s in (Ok t, s').
Definition time_Sleep (d : Z) : ST S unit := fun s => (Ok tt, sleep d s).

Fixpoint pollServiceState (fuel : nat) (want : svcState) (deadline : Time) : ST S unit :=
  io _ <- ctx_err;
  io query <- io_wrap "query apphost service: %w" [] QueryService;
  if bool_decide (query.1 = want) then io_ret tt
  else
    io now <- time_Now;
    if negb (now <? deadline)%Z
    then io_err (Errorf "apphost service state is %s, want %s" [serviceStateName query.1; serviceStateName want])
    else
      io _ <- time_Sleep poll;
      match fuel with
      | O => io_err (Errorf "out of fuel" [])
      | Datatypes.S fuel' => pollServiceState fuel' want deadline
      end.

(** Ten seconds of polls. *)
Definition waitForServiceState (want : svcState) : ST S unit :=
  io now <- time_Now; pollServiceState 50 want (now + seconds 10)%Z.

Fixpoint pollServiceDeleted (fuel : nat) (deadline : Time) : ST S unit :=
  io _ <- ctx_err;
  try opened <- OpenService;
  let gone := match opened with Err e => errors_Is e ERROR_SERVICE_DOES_NOT_EXIST | Ok _ => false end in
  let failed := match opened with Err e => negb (isServiceMarkedForDelete e) | Ok _ => false end in
  if gone then io_ret tt
  else if failed
  then io_wrap "open apphost service while waiting for deletion: %w" [] (io_of opened)
  else
    io now <- time_Now;
    if (deadline <? now)%Z
    then io_err (Errorf "apphost service is still marked for deletion; close Services.msc or any process holding the service handle and retry" [])
    else
      io _ <- time_Sleep poll;
      match fuel with
      | O => io_err (Errorf "out of fuel" [])
      | Datatypes.S fuel' => pollServiceDeleted fuel' deadline
      end.

(** Twenty seconds of polls. *)
Definition waitForAppHostServiceDeleted : ST S unit :=
  io now <- time_Now; pollServiceDeleted 101 (now + seconds 20)%Z.

(** A failure with one of the texts of the service manager is none. *)
Definition ignoring (part : gostring) (m : ST S unit) : ST S unit :=
  try r <- m;
  match r with
  | Ok _ => io_ret tt
  | Err e => if Contains (ToLower (err_text e)) part then io_ret tt else io_err e
  end.

Definition openAppHost : ST S unit :=
  io _ <- io_wrap "connect service manager: %w" [] mgr_Connect;
  io_wrap "open apphost service: %w" [] OpenService.

Definition StartAppHostService : ST S unit :=
  io _ <- ctx_err;
  io _ <- openAppHost;
  try query <- QueryService;
  let state := match query with Ok q => Some q.1 | Err _ => None end in
  if bool_decide (state = Some Running) then io_ret tt
  else if bool_decide (state = Some StartPending) then waitForServiceState Running
  else
    io _ <- (if bool_decide (state = Some StopPending) then waitForServiceState Stopped else io_ret tt);
    io _ <- io_wrap "start apphost service: %w" [] (ignoring "already" StartService);
    waitForServiceState Running.

Definition StopAppHostService : ST S unit :=
  io _ <- ctx_err;
  io _ <- openAppHost;
  try query <- QueryService;
  let state := match query with Ok q => Some q.1 | Err _ => None end in
  if bool_decide (state = Some Stopped) then io_ret tt
  else if bool_decide (state = Some StopPending) then waitForServiceState Stopped
  else
    io _ <- io_wrap "stop apphost service: %w" [] (ignoring "not active" ControlStop);
    waitForServiceState Stopped.

Definition restartAppHostService : ST S unit := try _ <- StopAppHostService; StartAppHostService.

Definition desired_config (cfg : ServiceConfig) (exe : gostring) : ServiceConfig :=
  let desired := newAppHostServiceConfig (appHostServiceCommandLine exe) in
  {| ServiceType := if (ServiceType cfg =? 0)%Z then SERVICE_WIN32_OWN_PROCESS else ServiceType cfg;
     StartType := StartType desired;
     ErrorControl := if (ErrorControl cfg =? 0)%Z then ErrorNormal else ErrorControl cfg;
     BinaryPathName := BinaryPathName desired; DisplayName := DisplayName desired; Description := Description desired;
     DelayedAutoStart := DelayedAutoStart desired |}.

Definition configureAppHostService (exe : gostring) : ST S unit :=
  io cfg <- io_wrap "query apphost service config: %w" [] QueryConfig;
  io_wrap "update apphost service config: %w" [] (UpdateConfig (desired_config cfg exe)).

Definition createService (exe : gostring) : ST S unit :=
  io_wrap "create apphost service: %w" [] (CreateService exe (newAppHostServiceConfig []) [serviceArg]).

Definition createAppHostService (exe : gostring) : ST S unit :=
  io _ <-
    (try created <- CreateService exe (newAppHostServiceConfig []) [serviceArg];
     match created with
     | Ok _ => io_ret tt
     | Err e =>
         if isServiceMarkedForDelete e then
           io _ <- io_wrap "wait for deleted apphost service before create: %w" [] waitForAppHostServiceDeleted;
           createService exe
         else io_err (Wrapf "create apphost service: %w" [] e)
     end);
  StartAppHostService.

(** A service that is being deleted is created anew once it is gone. *)
Definition recreate (exe : gostring) : ST S unit :=
  io _ <- io_wrap "wait for deleted apphost service before reinstall: %w" [] waitForAppHostServiceDeleted;
  createAppHostService exe.

Definition InstallAppHostService : ST S unit :=
  io _ <- ctx_err;
  io exe <- io_wrap "locate executable for apphost service: %w" [] os_Executable;
  io _ <- io_wrap "connect service manager: %w" [] mgr_Connect;
  try opened <- OpenService;
  match opened with
  | Ok _ =>
      try query <- QueryService;
      try configured <- configureAppHostService exe;
      match configured with
      | Err e => if isServiceMarkedForDelete e then recreate exe else io_err e
      | Ok _ =>
          io _ <- (if (match query with Ok q => bool_decide (q.1 = Running) | Err _ => false end)
                   then io_wrap "restart apphost service after config update: %w" [] StopAppHostService else io_ret tt);
          StartAppHostService
      end
  | Err e =>
      if isServiceMarkedForDelete e then recreate exe
      else if negb (errors_Is e ERROR_SERVICE_DOES_NOT_EXIST) then io_err (Wrapf "open apphost service: %w" [] e)
      else createAppHostService exe
  end.

Definition UninstallAppHostService : ST S unit :=
  io _ <- ctx_err;
  try _ <- StopAppHostService;
  io _ <- io_wrap "connect service manager: %w" [] mgr_Connect;
  try opened <- OpenService;
  match opened with
  | Err e =>
      if errors_Is e ERROR_SERVICE_DOES_NOT_EXIST then io_ret tt
      else if isServiceMarkedForDelete e then waitForAppHostServiceDeleted
      else io_err (Wrapf "open apphost service: %w" [] e)
  | Ok _ =>
      io _ <- io_wrap "delete apphost service: %w" [] DeleteService;
      waitForAppHostServiceDeleted
  end.

(** [health] is appHostHealth within a second. *)
Definition AppHostServiceStatus (health : ST S unit) : ST S gostring :=
  io _ <- ctx_err;
  io _ <- openAppHost;
  io query <- io_wrap "query apphost service: %w" [] QueryService;
  try cfg <- QueryConfig;
  let status := serviceStateName query.1 in
  match cfg with
  | Err _ => io_ret status
  | Ok cfg =>
      let status := status ++ " start_type=" ++ serviceStartTypeName (StartType cfg) ++ " delayed_auto_start=" ++
                    FormatBool (DelayedAutoStart cfg) ++ " pid=" ++ Itoa query.2 in
      if bool_decide (query.1 = Running) then
        try ok <- health;
        match ok with
        | Ok _ => io_ret (status ++ " health=ok")
        | Err e => io_ret (status ++ " health=failed:" ++ compactStatusDetail (err_text e))
        end
      else io_ret status
  end.
End service.

(** * Requests of the service manager *)

Inductive change := Interrogate (current : svcState) | StopRequest | ShutdownRequest | OtherRequest.

(** What the handler meets: a request, or the end of the server. *)
Inductive event :=
| Requested (c : change)
| ServerEnded (err : option error).

(** The states the handler reports, its exit code, and whether the server was
    cancelled; [afterCancel] is the end of the server within ten seconds of it. *)
Fixpoint serve (events : list event) (afterCancel : option (option error)) : list svcState * option Z * bool :=
  match events with
  | [] => ([], None, false)
  | ServerEnded err :: _ => ([], Some (if err is Some _ then 1%Z else 0%Z), true)
  | Requested (Interrogate current) :: events' => let '(out, code, c) := serve events' afterCancel in (current :: out, code, c)
  | Requested OtherRequest :: events' => let '(out, code, c) := serve events' afterCancel in (Running :: out, code, c)
  | Requested _ :: _ => ([StopPending], Some (match afterCancel with Some None => 0%Z | _ => 1%Z end), true)
  end.

Definition Execute (events : list event) (afterCancel : option (option error)) : list svcState * option Z * bool :=
  let '(out, code, c) := serve events afterCancel in (StartPending :: Running :: out, code, c).

(** * Properties *)

(** ** Polling ends *)

(** The clock does not go back and a sleep is as long as asked for. *)
Class ClockLaws (S : Type) `{!ServiceManager S} := {
  time_of : S -> Z;
  clock_law s : (time_of s <= (clock s).1 <= time_of (clock s).2)%Z;
  sleep_law d s : (time_of s + d <= time_of (sleep d s))%Z;
  ctx_time s : (time_of s <= time_of (ctx_err s).2)%Z;
  query_time s : (time_of s <= time_of (QueryService s).2)%Z;
  open_time s : (time_of s <= time_of (OpenService s).2)%Z;
}.

Section polling.
Context {S : Type} `{Externals} `{!ServiceManager S} `{!ClockLaws S}.

Lemma pollServiceState_fuel k fuel want deadline s :
  (k <= fuel)%nat -> (deadline - time_of s <= Z.of_nat k * poll)%Z ->
  pollServiceState fuel want deadline s = pollServiceState k want deadline s.
Proof.
  revert fuel s. induction k as [|k IH]; intros fuel s Hk Hd.
  - destruct fuel as [|fuel]; [done|]. cbn [pollServiceState]. unfold io_bind, io_wrap.
    pose proof (ctx_time s). destruct (ctx_err s) as [[[]|e] s1]; [|done]. cbn in *.
    pose proof (query_time s1). destruct (QueryService s1) as [[q|e] s2]; [|done]. cbn in *.
    destruct (bool_decide _); [done|]. unfold time_Now. pose proof (clock_law s2). destruct (clock s2) as [t s3]. cbn in *.
    destruct (Z.ltb_spec t deadline); [lia|done].
  - destruct fuel as [|fuel]; [lia|]. cbn [pollServiceState]. unfold io_bind, io_wrap.
    pose proof (ctx_time s). destruct (ctx_err s) as [[[]|e] s1]; [|done]. cbn in *.
    pose proof (query_time s1). destruct (QueryService s1) as [[q|e] s2]; [|done]. cbn in *.
    destruct (bool_decide _); [done|]. unfold time_Now. pose proof (clock_law s2). destruct (clock s2) as [t s3]. cbn in *.
    destruct (Z.ltb_spec t deadline); [|done]. cbn. apply IH; [lia|]. pose proof (sleep_law poll s3). lia.
Qed.

Lemma pollServiceDeleted_fuel k fuel deadline s :
  (k <= fuel)%nat -> (deadline - time_of s < Z.of_nat k * poll)%Z ->
  pollServiceDeleted fuel deadline s = pollServiceDeleted k deadline s.
Proof.
  revert fuel s. induction k as [|k IH]; intros fuel s Hk Hd.
  - destruct fuel as [|fuel]; [done|]. cbn [pollServiceDeleted]. unfold io_bind, io_try.
    pose proof (ctx_time s). destruct (ctx_err s) as [[[]|e] s1]; [|done]. cbn in *.
    pose proof (open_time s1). destruct (OpenService s1) as [o s2]. cbn in *.
    destruct (match o with Err e => errors_Is e _ | Ok _ => _ end); [done|].
    destruct (match o with Err e => negb _ | Ok _ => _ end); [done|].
    unfold time_Now. pose proof (clock_law s2). destruct (clock s2) as [t s3]. cbn in *.
    destruct (Z.ltb_spec deadline t); [done|lia].
  - destruct fuel as [|fuel]; [lia|]. cbn [pollServiceDeleted]. unfold io_bind, io_try.
    pose proof (ctx_time s). destruct (ctx_err s) as [[[]|e] s1]; [|done]. cbn in *.
    pose proof (open_time s1). destruct (OpenService s1) as [o s2]. cbn in *.
    destruct (match o with Err e => errors_Is e _ | Ok _ => _ end); [done|].
    destruct (match o with Err e => negb _ | Ok _ => _ end); [done|].
    unfold time_Now. pose proof (clock_law s2). destruct (clock s2) as [t s3]. cbn in *.
    destruct (Z.ltb_spec deadline t); [done|]. cbn. apply IH; [lia|]. pose proof (sleep_law poll s3). lia.
Qed.

(** The waits for the service end by themselves: fifty polls for a state and 101 for
    the removal are all the code ever makes, whatever the service manager answers; more
    fuel changes nothing. *)
Theorem service_waits_end fuel want s :
  (101 <= fuel)%nat ->
  (io now <- time_Now; pollServiceState fuel want (now + seconds 10)%Z) s = waitForServiceState want s ∧
  (io now <- time_Now; pollServiceDeleted fuel (now + seconds 20)%Z) s = waitForAppHostServiceDeleted s.
Proof.
  intros Hf. unfold waitForServiceState, waitForAppHostServiceDeleted, io_bind, time_Now.
  pose proof (clock_law s) as Hc. destruct (clock s) as [t s1]. cbn [fst snd] in Hc.
  split; [apply (pollServiceState_fuel 50)|apply (pollServiceDeleted_fuel 101)]; unfold seconds, poll; lia.
Qed.
End polling.

(** ** What success means *)

Section outcomes.
Context {S : Type} `{Externals} `{!ServiceManager S}.

Lemma pollServiceState_Ok fuel want deadline s s' :
  pollServiceState fuel want deadline s = (Ok tt, s') -> exists s0 pid, QueryService s0 = (Ok (want, pid), s').
Proof.
  revert s. induction fuel as [|fuel IH]; intros s; cbn [pollServiceState];
    rewrite io_bind_Ok; intros ([] & s1 & _ & Hp); revert Hp;
    rewrite io_bind_Ok; intros ([st pid] & s2 & Hq & Hp); apply io_wrap_Ok in Hq; cbn [fst] in Hp;
    (case_bool_decide as Hw; [injection Hp as <-; subst; by eexists _, _|]); revert Hp;
    rewrite io_bind_Ok; intros (t & s3 & _ & Hp); (destruct (negb _); [done|]); revert Hp;
    rewrite io_bind_Ok; intros ([] & s4 & _ & Hp); [done|by eapply IH].
Qed.

Lemma waitForServiceState_Ok want s s' :
  waitForServiceState want s = (Ok tt, s') -> exists s0 pid, QueryService s0 = (Ok (want, pid), s').
Proof. unfold waitForServiceState. rewrite io_bind_Ok. intros (t & s1 & _ & Hp). by eapply pollServiceState_Ok. Qed.

Lemma pollServiceDeleted_Ok fuel deadline s s' :
  pollServiceDeleted fuel deadline s = (Ok tt, s') ->
  exists s0 e, OpenService s0 = (Err e, s') ∧ errors_Is e ERROR_SERVICE_DOES_NOT_EXIST = true.
Proof.
  revert s. induction fuel as [|fuel IH]; intros s; cbn [pollServiceDeleted];
    rewrite io_bind_Ok; intros ([] & s1 & _ & Hp); unfold io_try in Hp; destruct (OpenService s1) as [[[]|e] s2] eqn:Ho;
    (try (destruct (errors_Is e ERROR_SERVICE_DOES_NOT_EXIST) eqn:Ee; [injection Hp as <-; by eexists _, _|]));
    (try (destruct (negb (isServiceMarkedForDelete e)); [done|])); revert Hp;
    rewrite io_bind_Ok; intros (t & s3 & _ & Hp); (destruct (deadline <? t)%Z; [done|]); revert Hp;
    rewrite io_bind_Ok; intros ([] & s4 & _ & Hp); first [done|by eapply IH].
Qed.

Lemma StartAppHostService_Ok s s' :
  StartAppHostService s = (Ok tt, s') -> exists s0 pid, QueryService s0 = (Ok (Running, pid), s').
Proof.
  unfold StartAppHostService. rewrite io_bind_Ok. intros ([] & s1 & _ & Hp). revert Hp.
  rewrite io_bind_Ok. intros ([] & s2 & _ & Hp). unfold io_try in Hp.
  destruct (QueryService s2) as [q s3] eqn:Eq. revert Hp.
  case_bool_decide as Hr.
  { intros [= <-]. destruct q as [[st pid]|]; [|done]. cbn in Hr. injection Hr as ->. by eexists _, _. }
  case_bool_decide; [apply waitForServiceState_Ok|]. rewrite io_bind_Ok. intros ([] & s4 & _ & Hp). revert Hp.
  rewrite io_bind_Ok. intros ([] & s5 & _ & Hp). by eapply waitForServiceState_Ok.
Qed.

Lemma StopAppHostService_Ok s s' :
  StopAppHostService s = (Ok tt, s') -> exists s0 pid, QueryService s0 = (Ok (Stopped, pid), s').
Proof.
  unfold StopAppHostService. rewrite io_bind_Ok. intros ([] & s1 & _ & Hp). revert Hp.
  rewrite io_bind_Ok. intros ([] & s2 & _ & Hp). unfold io_try in Hp.
  destruct (QueryService s2) as [q s3] eqn:Eq. revert Hp.
  case_bool_decide as Hr.
  { intros [= <-]. destruct q as [[st pid]|]; [|done]. cbn in Hr. injection Hr as ->. by eexists _, _. }
  case_bool_decide; [apply waitForServiceState_Ok|]. rewrite io_bind_Ok. intros ([] & s4 & _ & Hp).
  by eapply waitForServiceState_Ok.
Qed.

Lemma UninstallAppHostService_Ok s s' :
  UninstallAppHostService s = (Ok tt, s') ->
  exists s0 e, OpenService s0 = (Err e, s') ∧ errors_Is e ERROR_SERVICE_DOES_NOT_EXIST = true.
Proof.
  unfold UninstallAppHostService. rewrite io_bind_Ok. intros ([] & s1 & _ & Hp). unfold io_try at 1 in Hp.
  destruct (StopAppHostService s1) as [r s2]. revert Hp. rewrite io_bind_Ok. intros ([] & s3 & _ & Hp).
  unfold io_try in Hp. destruct (OpenService s3) as [[[]|e] s4] eqn:Ho.
  - revert Hp. rewrite io_bind_Ok. intros ([] & s5 & _ & Hp). unfold waitForAppHostServiceDeleted in Hp.
    revert Hp. rewrite io_bind_Ok. intros (t & s6 & _ & Hp). by eapply pollServiceDeleted_Ok.
  - destruct (errors_Is e ERROR_SERVICE_DOES_NOT_EXIST) eqn:Ee; [injection Hp as <-; by eexists _, _|].
    destruct (isServiceMarkedForDelete e); [|done]. unfold waitForAppHostServiceDeleted in Hp.
    revert Hp. rewrite io_bind_Ok. intros (t & s6 & _ & Hp). by eapply pollServiceDeleted_Ok.
Qed.

(** Success means what it says: the last answer of the service manager before a
    successful start was that the service runs, before a successful stop that it is
    stopped, and before a successful removal that there is no such service. *)
Theorem service_outcomes s s' :
  (StartAppHostService s = (Ok tt, s') -> exists s0 pid, QueryService s0 = (Ok (Running, pid), s')) ∧
  (StopAppHostService s = (Ok tt, s') -> exists s0 pid, QueryService s0 = (Ok (Stopped, pid), s')) ∧
  (UninstallAppHostService s = (Ok tt, s') ->
     exists s0 e, OpenService s0 = (Err e, s') ∧ errors_Is e ERROR_SERVICE_DOES_NOT_EXIST = true).
Proof.
  split; [apply StartAppHostService_Ok|]. split; [apply StopAppHostService_Ok|apply UninstallAppHostService_Ok].
Qed.
End outcomes.

(** ** Installing *)

(** The configuration of the service, and whether it is being deleted: what calls do to
    them. A service that is not being deleted keeps its configuration but for an
    update; the manager makes the command line of a new service of the executable and
    the arguments. *)
Class ConfigLaws (S : Type) `{!ServiceManager S} := {
  conf : S -> option ServiceConfig;
  deleting : S -> bool;
  program : gostring;
  settled (c : ServiceConfig) (s : S) : Prop := deleting s = false ∧ conf s = Some c;
  keeps_conf {A} (m : ST S A) : Prop := forall c s, settled c s -> settled c (m s).2;
  program_law s exe : (os_Executable s).1 = Ok exe -> exe = program;
  update_law c s : (UpdateConfig c s).1 = Ok tt -> settled c (UpdateConfig c s).2;
  create_law exe c args s : (CreateService exe c args s).1 = Ok tt ->
    settled {| ServiceType := ServiceType c; StartType := StartType c; ErrorControl := ErrorControl c;
               BinaryPathName := Join (EscapeArg <$> (exe :: args)) " "; DisplayName := DisplayName c;
               Description := Description c; DelayedAutoStart := DelayedAutoStart c |} (CreateService exe c args s).2;
  ctx_keeps : keeps_conf ctx_err;
  connect_keeps : keeps_conf mgr_Connect;
  open_keeps : keeps_conf OpenService;
  query_keeps : keeps_conf QueryService;
  start_keeps : keeps_conf StartService;
  stop_keeps : keeps_conf ControlStop;
  clock_keeps c s : settled c s -> settled c (clock s).2;
  sleep_keeps d c s : settled c s -> settled c (sleep d s);
}.

Section install.
Context {S : Type} `{Externals} `{!ServiceManager S} `{!ConfigLaws S}.

(** [keeps_conf] is the preservation of a preorder. *)
Definition kept (s s' : S) : Prop := forall c, settled c s -> settled c s'.

#[export] Instance kept_preorder : PreOrder kept.
Proof. split; [by intros s c|]. intros x y z Hxy Hyz c Hc. auto. Qed.

Lemma keeps_kept {A} (m : ST S A) : keeps_conf m -> moves kept m.
Proof. intros Hm s c. apply Hm. Qed.

Lemma now_kept : moves kept time_Now.
Proof. intros s c Hc. unfold time_Now. pose proof (clock_keeps c s Hc). by destruct (clock s). Qed.

Lemma sleep_kept d : moves kept (time_Sleep d).
Proof. intros s c Hc. by apply sleep_keeps. Qed.

Lemma same_kept {A} (r : result A) : moves kept (fun s : S => (r, s)).
Proof. by intros s c. Qed.

Create HintDb service.
#[local] Hint Resolve ctx_keeps connect_keeps open_keeps query_keeps start_keeps stop_keeps keeps_kept now_kept sleep_kept : service.

Lemma poll_kept fuel want deadline : moves kept (pollServiceState fuel want deadline).
Proof.
  induction fuel as [|fuel IH]; cbn [pollServiceState];
    (apply moves_bind; [apply _|auto with service|intros _]);
    (apply moves_bind; [apply _|apply moves_wrap; auto with service|intros q]);
    (case_bool_decide; [apply same_kept|]);
    (apply moves_bind; [apply _|apply now_kept|intros t]); (destruct (negb _); [apply same_kept|]);
    (apply moves_bind; [apply _|apply sleep_kept|intros _]); [apply same_kept|done].
Qed.

Lemma wait_kept want : moves kept (waitForServiceState want).
Proof. apply moves_bind; [apply _|apply now_kept|intros t; apply poll_kept]. Qed.

Lemma open_kept : moves kept openAppHost.
Proof. apply moves_bind; [apply _| |intros _]; apply moves_wrap; auto with service. Qed.

Lemma ignoring_kept part m : moves kept m -> moves kept (ignoring part m).
Proof. intros Hm. apply moves_try; [apply _|done|]. intros [|e]; [apply same_kept|]. destruct (Contains _ _); apply same_kept. Qed.

Lemma start_kept : moves kept StartAppHostService.
Proof.
  apply moves_bind; [apply _|auto with service|intros _]. apply moves_bind; [apply _|apply open_kept|intros _].
  apply moves_try; [apply _|auto with service|]. intros q. cbn zeta. case_bool_decide; [apply same_kept|]. case_bool_decide; [apply wait_kept|].
  apply moves_bind; [apply _|case_bool_decide; [apply wait_kept|apply same_kept]|intros _].
  apply moves_bind; [apply _|apply moves_wrap, ignoring_kept; auto with service|intros _; apply wait_kept].
Qed.

Lemma stop_kept : moves kept StopAppHostService.
Proof.
  apply moves_bind; [apply _|auto with service|intros _]. apply moves_bind; [apply _|apply open_kept|intros _].
  apply moves_try; [apply _|auto with service|]. intros q. cbn zeta. case_bool_decide; [apply same_kept|]. case_bool_decide; [apply wait_kept|].
  apply moves_bind; [apply _|apply moves_wrap, ignoring_kept; auto with service|intros _; apply wait_kept].
Qed.

(** A configuration that starts the program of the session as the privileged server,
    with the system. *)
Definition runs_server (c : ServiceConfig) : Prop :=
  BinaryPathName c = appHostServiceCommandLine program ∧ StartType c = StartAutomatic ∧ DelayedAutoStart c = true ∧
  DisplayName c = DisplayName (newAppHostServiceConfig []) ∧ Description c = Description (newAppHostServiceConfig []).

Definition installed (s : S) : Prop := exists c, settled c s ∧ runs_server c.

Lemma installed_kept {A} (m : ST S A) s : moves kept m -> installed s -> installed (m s).2.
Proof. intros Hm (c & Hc & Hr). exists c. split; [by apply Hm|done]. Qed.

Lemma created_installed s s' : CreateService program (newAppHostServiceConfig []) [serviceArg] s = (Ok tt, s') -> installed s'.
Proof.
  intros Hc. pose proof (create_law program (newAppHostServiceConfig []) [serviceArg] s) as Hl. rewrite Hc in Hl. cbn [fst snd] in Hl.
  eexists. split; [by apply Hl|]. split; [|done]. cbn [BinaryPathName fmap list_fmap Join]. done.
Qed.

Lemma create_installs s s' : createAppHostService program s = (Ok tt, s') -> installed s'.
Proof.
  unfold createAppHostService. rewrite io_bind_Ok. intros ([] & s1 & Hc & Hp).
  replace s' with (StartAppHostService s1).2 by (by rewrite Hp). apply installed_kept; [apply start_kept|].
  unfold io_try in Hc. destruct (CreateService _ _ _ s) as [[[]|e] s2] eqn:Ec.
  - injection Hc as <-. by apply created_installed in Ec.
  - destruct (isServiceMarkedForDelete e); [|done]. revert Hc. rewrite io_bind_Ok. intros ([] & s3 & _ & Hc).
    apply io_wrap_Ok in Hc. by apply created_installed in Hc.
Qed.

Lemma recreate_installs s s' : recreate program s = (Ok tt, s') -> installed s'.
Proof. unfold recreate. rewrite io_bind_Ok. intros ([] & s1 & _ & Hc). by apply create_installs in Hc. Qed.

(** When the installation succeeds the service is configured to start this program as
    the privileged server, automatically with the system, whether the service is new,
    existed with another configuration, or was about to be deleted. *)
Theorem install_configures s s' : InstallAppHostService s = (Ok tt, s') -> installed s'.
Proof.
  unfold InstallAppHostService. rewrite io_bind_Ok. intros ([] & s1 & _ & Hp). revert Hp.
  rewrite io_bind_Ok. intros (exe & s2 & Hexe & Hp). apply io_wrap_Ok in Hexe.
  assert (exe = program) as ->. { apply (program_law s1). by rewrite Hexe. }
  revert Hp. rewrite io_bind_Ok. intros ([] & s3 & _ & Hp). unfold io_try at 1 in Hp.
  destruct (OpenService s3) as [[[]|e] s4].
  2: { destruct (isServiceMarkedForDelete e); [by apply recreate_installs in Hp|]. destruct (negb _); [done|]. by apply create_installs in Hp. }
  unfold io_try at 1 in Hp. destruct (QueryService s4) as [q s5].
  unfold io_try in Hp. destruct (configureAppHostService program s5) as [[[]|e] s6] eqn:Ec.
  2: { destruct (isServiceMarkedForDelete e); [by apply recreate_installs in Hp|done]. }
  assert (Hi : installed s6).
  { revert Ec. unfold configureAppHostService. rewrite io_bind_Ok. intros (c & s7 & _ & Hu). apply io_wrap_Ok in Hu.
    pose proof (update_law (desired_config c program) s7) as Hl. rewrite Hu in Hl. eexists. split; [by apply Hl|done]. }
  match type of Hp with ?m _ = _ => replace s' with (m s6).2 by (by rewrite Hp) end.
  apply installed_kept; [|done]. apply moves_bind; [apply _| |intros _; apply start_kept].
  destruct (match q with Ok _ => _ | Err _ => _ end); [apply moves_wrap, stop_kept|apply same_kept].
Qed.
End install.

(** * Witnesses *)

(** A manager that does at once what it is asked for. *)
Section service_witnesses.
#[local] Existing Instance simple_externals.

Record Manager := { mConfig : option ServiceConfig; mState : svcState; mTime : Z }.

Definition existing {A} (m : ST Manager A) : ST Manager A := fun s =>
  match mConfig s with None => (Err ERROR_SERVICE_DOES_NOT_EXIST, s) | Some _ => m s end.
Definition becomes (st : svcState) : ST Manager unit := fun s => (Ok tt, {| mConfig := mConfig s; mState := st; mTime := mTime s |}).
Definition with_config (c : option ServiceConfig) (st : svcState) : ST Manager unit := fun s =>
  (Ok tt, {| mConfig := c; mState := st; mTime := mTime s |}).

Definition app_path : gostring := "C:\Program Files\app.exe".

#[local] Instance simple_manager : ServiceManager Manager := {|
  mgr_Connect := io_ret tt;
  OpenService := existing (io_ret tt);
  QueryService := fun s => (Ok (mState s, 42%Z), s);
  QueryConfig := fun s => (match mConfig s with Some c => Ok c | None => Err ERROR_SERVICE_DOES_NOT_EXIST end, s);
  UpdateConfig c := fun s => with_config (Some c) (mState s) s;
  CreateService exe c args := with_config (Some
    {| ServiceType := ServiceType c; StartType := StartType c; ErrorControl := ErrorControl c;
       BinaryPathName := Join (EscapeArg <$> (exe :: args)) " "; DisplayName := DisplayName c;
       Description := Description c; DelayedAutoStart := DelayedAutoStart c |}) Stopped;
  StartService := existing (becomes Running);
  ControlStop := existing (becomes Stopped);
  DeleteService := with_config None Stopped;
  clock s := (mTime s, s);
  sleep d s := {| mConfig := mConfig s; mState := mState s; mTime := mTime s + d |};
  ctx_err := io_ret tt;
  os_Executable := io_ret app_path;
  err_text _ := [];
|}.

#[local] Instance simple_clock : ClockLaws Manager.
Proof. refine {| time_of := mTime |}; intros; cbn; try lia; unfold existing; destruct (mConfig s); cbn; lia. Defined.

#[local] Instance simple_config : ConfigLaws Manager.
Proof.
  refine {| conf := mConfig; deleting _ := false; program := app_path |}; cbn; try done.
  2-4: intros c s [_ Hc]; cbn in *; unfold existing; by destruct s as [[] ? ?].
  by intros s exe [= <-].
Defined.

Definition no_service : Manager := {| mConfig := None; mState := Stopped; mTime := 0 |}.

Lemma enough_fuel : (101 <= 200)%nat.
Proof. lia. Qed.

Lemma service_waits_end_witness :
  (io now <- time_Now; pollServiceState 200 Running (now + seconds 10)%Z) no_service = waitForServiceState Running no_service ∧
  (io now <- time_Now; pollServiceDeleted 200 (now + seconds 20)%Z) no_service = waitForAppHostServiceDeleted no_service.
Proof. exact (service_waits_end 200 Running no_service enough_fuel). Defined.

Lemma install_configures_witness :
  installed (InstallAppHostService no_service).2 ∧ mState (InstallAppHostService no_service).2 = Running.
Proof.
  split; [|reflexivity]. apply (install_configures no_service (InstallAppHostService no_service).2). reflexivity.
Defined.

Lemma service_outcomes_witness :
  exists s0 e, OpenService s0 = (Err e, (UninstallAppHostService (InstallAppHostService no_service).2).2) ∧
    errors_Is e ERROR_SERVICE_DOES_NOT_EXIST = true.
Proof.
  apply (service_outcomes (InstallAppHostService no_service).2 (UninstallAppHostService (InstallAppHostService no_service).2).2). reflexivity.
Defined.
End service_witnesses.
