(* ===== verification/Main.v ===== *)
(** The entry of the program (src/cmd/steam-accelerator/main.go): the choice of the
    command, the exit code, and the commands cert and apphost.

    A command runs on a process state that holds what it prints; the other commands are
    in [Cli] and [Start], the service in [ServiceControl] and [AppHost]. *)
From stdpp Require Import strings.
From Stdlib Require Import Ascii.
From S2P Require Import Prelude GoStrings GoNet External World Config Flags Cli.
From S2P Require CertStore.

Definition ProjectName : gostring := "steam-accelerator-core".
Definition Version : gostring := "v0.7.4-dev".
Definition ModulePath : gostring := "github.com/gofurry/go-steam-core".

(** What printUsage writes. *)
Definition printUsage : gostring :=
  ProjectName ++ " " ++ Version ++ nl ++
  nl ++
  "Usage:" ++ nl ++
  "  steam-accelerator --version" ++ nl ++
  "  steam-accelerator start [--config path] [--mode proxy-only|pac|system|hosts|dns] [--listen 127.0.0.1:26501] [--pac-listen 127.0.0.1:26502] [--hosts-http 127.0.0.1:80] [--hosts-https 127.0.0.1:443] [--dns-listen 127.0.0.1:53] [--non-target reject|direct]" ++ nl ++
  "  steam-accelerator status [--config path] [--state path]" ++ nl ++
  "  steam-accelerator stop [--config path] [--state path]" ++ nl ++
  "  steam-accelerator restore [--config path] [--rollback path]" ++ nl ++
  "  steam-accelerator cert install [--config path] [--cert-dir path]" ++ nl ++
  "  steam-accelerator cert uninstall [--config path] [--cert-dir path]" ++ nl ++
  "  steam-accelerator apphost install|start|stop|status|uninstall|run" ++ nl.

(** * Dispatch *)

Section dispatch.
Context {P : Type}.

Record Commands := {
  cStart : list gostring -> ST P unit;
  cStatus : list gostring -> ST P unit;
  cStop : list gostring -> ST P unit;
  cRestore : list gostring -> ST P unit;
  cCert : list gostring -> ST P unit;
  cAppHost : list gostring -> ST P unit;
  cHelper : list gostring -> ST P unit;
  cService : list gostring -> ST P unit;
}.

Variable cmds : Commands.
Variable print : gostring -> P -> P.
Variable text : error -> gostring.

Definition command_of (name : gostring) : option (list gostring -> ST P unit) :=
  if bool_decide (name = "start") then Some (cStart cmds)
  else if bool_decide (name = "status") then Some (cStatus cmds)
  else if bool_decide (name = "stop") then Some (cStop cmds)
  else if bool_decide (name = "restore") then Some (cRestore cmds)
  else if bool_decide (name = "cert") then Some (cCert cmds)
  else if bool_decide (name = "apphost") then Some (cAppHost cmds)
  else if bool_decide (name = "__helper") then Some (cHelper cmds)
  else if bool_decide (name = "__apphost-service") then Some (cService cmds)
  else None.

(** The exit code and what goes to standard error. *)
Definition run (args : list gostring) (p : P) : Z * gostring * P :=
  match args with
  | [] => (2%Z, printUsage, p)
  | name :: rest =>
      if bool_decide (name ∈ ["--version"; "-version"; "version"]%go)
      then (0%Z, [], print (ProjectName ++ " " ++ Version ++ " (" ++ ModulePath ++ ")" ++ nl) p)
      else match command_of name with
           | None => (2%Z, printUsage, p)
           | Some command =>
               match command rest p with
               | (Ok _, p') => (0%Z, [], p')
               | (Err e, p') => (1%Z, "error: " ++ text e ++ nl, p')
               end
           end
  end.

(** The exit code tells a success from a failure and from a wrong command line, which
    changes nothing. *)
Lemma run_exit args p :
  let '(code, err, p') := run args p in
  (code = 0%Z ∧ err = []) ∨
  (code = 1%Z ∧ exists name rest command e, args = name :: rest ∧ command_of name = Some command ∧ command rest p = (Err e, p')) ∨
  (code = 2%Z ∧ err = printUsage ∧ p' = p).
Proof.
  unfold run. destruct args as [|name rest]; [by right; right|]. case_bool_decide; [by left|].
  destruct (command_of name) as [command|] eqn:Ec; [|by right; right].
  destruct (command rest p) as [[[]|e] p'] eqn:Er; [by left|]. right. left. split; [done|]. by exists name, rest, command, e.
Qed.
End dispatch.

(** * cert *)

Definition with_cert_dir (dir : gostring) (cfg : Config) : Config :=
  {| Mode := Mode cfg; ProvidersEnabled := ProvidersEnabled cfg; DNS := DNS cfg; Proxy := Proxy cfg; PAC := PAC cfg;
     Hosts := Hosts cfg;
     Cert := {| CertDir := dir; AutoInstall := AutoInstall (Cert cfg); StoreScope := StoreScope (Cert cfg) |};
     Resolver := Resolver cfg; Upstream := Upstream cfg; PageEnhance := PageEnhance cfg;
     SystemServices := SystemServices cfg; CustomDomains := CustomDomains cfg; Runtime := Runtime cfg |}.

Section cert.
Context {X : Type} `{Externals}.
Variable yaml_nodes : gostring -> option Node.
Variable yaml_config : gostring -> Config -> result Config.
Variable defaults : Config.
(** privilege.InstallCert and privilege.UninstallCert. *)
Variable InstallCert : CertStore.CertConfig -> IO X unit.
Variable UninstallCert : CertStore.CertConfig -> IO X unit.

Definition certConfig (args : list gostring) : IO X CertStore.CertConfig :=
  io parsed <- io_of (Parse certFlags args ∅);
  io cfg <- load yaml_nodes yaml_config defaults (stringOf parsed.1 "config");
  let dir := unless_blank (stringOf parsed.1 "cert-dir") (CertDir (Cert cfg)) in
  io cfg <- io_of (Validate (with_cert_dir dir cfg));
  io_ret (CertStore.ConfigFromApp cfg).

(** What runCert prints. *)
Definition runCert (args : list gostring) : IO X gostring :=
  match args with
  | [] => io_err (Errorf "cert subcommand is required" [])
  | sub :: rest =>
      if bool_decide (sub = "install") then
        io cfg <- certConfig rest;
        io _ <- InstallCert cfg;
        io_ret ("installed" ++ nl)
      else if bool_decide (sub = "uninstall") then
        io cfg <- certConfig rest;
        try removed <- UninstallCert cfg;
        match removed with
        | Err e => if errors_Is e CertStore.ErrNoCA then io_ret ("not modified" ++ nl) else io_err e
        | Ok _ => io_ret ("uninstalled" ++ nl)
        end
      else io_err (Errorf "unsupported cert subcommand %q" [sub])
  end.
End cert.

(** * apphost *)

Section apphost.
Context {S : Type}.
(** The functions of internal/privilege on the platform the program is built for. *)
Variables InstallAppHostService UninstallAppHostService StartAppHostService StopAppHostService : ST S unit.
Variable AppHostServiceStatus : ST S gostring.
Variable RunAppHostConsole : ST S gostring.

Definition saying (m : ST S unit) (line : gostring) : ST S gostring := io _ <- m; io_ret (line ++ nl).

(** What runAppHost prints. *)
Definition runAppHost (args : list gostring) : ST S gostring :=
  match args with
  | [] => io_err (Errorf "apphost subcommand is required" [])
  | sub :: _ =>
      if bool_decide (sub = "install") then saying InstallAppHostService "apphost installed and started"
      else if bool_decide (sub = "uninstall") then saying UninstallAppHostService "apphost uninstalled"
      else if bool_decide (sub = "start") then saying StartAppHostService "apphost started"
      else if bool_decide (sub = "stop") then saying StopAppHostService "apphost stopped"
      else if bool_decide (sub = "status") then io status <- AppHostServiceStatus; io_ret ("apphost: " ++ status ++ nl)
      else if bool_decide (sub = "run") then RunAppHostConsole
      else io_err (Errorf "unsupported apphost subcommand %q" [sub])
  end.
End apphost.
